(* ===== verification/_CoqProject ===== *)
-Q . S2P
Prelude.v
GoStrings.v
Sha256.v
Types.v
Effects.v
Direction.v
Names.v
Resolution.v
ResolutionSpec.v
ApiServer.v
Permits.v
Apply.v
Stamps.v
Baseline.v
ServicePolicies.v
ApiserverReachable.v
HostPort.v
Resolver.v
Semantics.v
Generator.v
Members.v
VnetController.v
VnetControllerSpec.v
VnetWatches.v
Isolation.v
Durations.v
DurationsSpec.v
NetworkWait.v
ResolutionController.v
ResolutionControllerSpec.v
ResolutionWatches.v
Binding.v
BindingSpec.v
SystemVnet.v
Webhook.v
WebhookSpec.v
Wait.v
WaitSpec.v
Main.v
Metrics.v
Operator.v
Objects.v
Authority.v
Drift.v
EndToEnd.v
Plans.v
Level.v
Queue.v
DeepCopy.v
DeepCopySpec.v
