(* ===== verification/Prelude.v ===== *)
(** * kube-vnet: a verification library for the operator

    kube-vnet is a Kubernetes operator. A VirtualNetwork ("vnet") is a named group of pods
    that may talk to each other; pods join one by a label, a binding or a baseline. The
    operator resolves these requests into stamps on the pods, labels under
    [kube-vnet.system/], and writes the NetworkPolicies that let the members of a vnet
    reach each other through a default-deny baseline. This library models the Go code
    under [src/] and proves what its parts guarantee, alone and together.

    ** Parts and files

    Paths are under [src/internal/controller/] unless they say otherwise. Definitions keep
    the names of the code; a helper that stands for a part of a Go function says so.

    Foundations.
    - [Prelude]: scope, notation, automation, lemmas on lists, options and sorting.
    - [GoStrings], [Sha256], [Durations], [DurationsSpec]: the parts of Go's standard
      library the code computes with: [strings], [fmt], [regexp], [crypto/sha256],
      [time.Duration].
    - [Types]: the custom resources of [src/api/v1alpha1] and the fields of the Kubernetes
      objects the operator touches.
    - [Effects]: errors, the API client, and the state monad a reconcile runs in.
    - [ApiServer]: the class [PolicyServer] of what the reconcilers rely on, and the
      executable server [Cluster] that provides it.
    - [Semantics]: the documented meaning of NetworkPolicies.

    Pure core.
    - [Direction] and [Names] (policy_generator.go, resolution.go, resolver.go, permits.go):
      directions and their lattice, label keys, vnet keys, policy names.
    - [Resolution], [ResolutionSpec] (resolution.go): the cascade of tiers.
    - [Permits] (namespace.go, permits.go): managed namespaces, and who may join a vnet.
    - [Resolver] (resolver.go): from the objects that apply to a pod to its stamps.
    - [Stamps] (stamps.go, pod_ports.go): reading and writing the stamps of a pod.
    - [Generator] (policy_generator.go): from the members of a vnet to its policies.
    - [Members] (virtualnetwork_controller.go: discoverMembers): who is a member.

    Reconcilers.
    - [Apply] (sweep.go, signals.go): applying and sweeping policies, and the in-memory
      signals; shared by every reconciler that writes policies.
    - [Baseline] (baseline.go, namespace_reconciler.go), [ServicePolicies]
      (external_allow_controller.go), [ApiserverReachable]
      (apiserver_reachable_controller.go), [HostPort] (hostport_controller.go).
    - [VnetController], [VnetControllerSpec], [VnetWatches] (virtualnetwork_controller.go).
    - [NetworkWait] (network_wait.go), [ResolutionController], [ResolutionControllerSpec],
      [ResolutionWatches] (resolution_controller.go).
    - [Binding], [BindingSpec] (virtualnetworkbinding_controller.go).
    - [SystemVnet] (system_vnet_controller.go).
    - [Metrics] (metrics.go: MetricsCollector).

    Around them.
    - [Webhook], [WebhookSpec] ([src/internal/webhook/podresolution]): admission.
    - [Wait], [WaitSpec] ([src/internal/networkwait]): the wait for the beacons.
    - [Main] ([src/cmd]): start-up and the subcommands.
    - [Isolation]: the parts composed, down to the connections that are let through.
    - [DeepCopy], [DeepCopySpec] ([src/api/v1alpha1/zz_generated.deepcopy.go]): the one
      place where objects are memory with addresses and not values.

    The operator as a whole.
    - [Operator] ([src/cmd/main.go] and every [SetupWithManager]): the eight controllers
      with their watches over one cluster. A step is a whole reconcile of one request, or
      anyone else's change of the cluster; [op_run] has the interleavings.
    - [Authority]: what each request entitles its controller to write.
    - [Drift]: the events on what the operator wrote, and what they enqueue.
    - [EndToEnd]: from a cluster where nothing is left to do to the connections.
    - [Objects]: the objects the API server stores, the changes of them with their watch
      events, and the class [ObjectStore] of what reads and writes show of them.
    - [Plans]: the policies of a vnet as a function of the stored objects, and whom the name
      of a policy tells to have applied it.
    - [Level]: for every change and every request that makes the isolation, the request
      stays done or an event of the change enqueues it.
    - [Queue]: the system of operator, cluster and work queues, with failures, retries,
      timers, crashes and other users; its invariant [accounted].

    ** How the parts interact

    The resolution controller and the mutating webhook share [Resolver.DesiredLabels]; it
    asks [Permits] for each rule, folds the rest with [Resolution.Resolve], and both write
    the result through [Stamps.SyncStamps]. The vnet controller reads the stamps with
    [Members.discoverMembers], generates policies with [Generator.Generate] and brings
    the cluster to them with [Apply.applyPolicy] and [Apply.sweepStalePolicies]; the
    baseline and the three controllers of derived policies use the same two functions. The
    binding controller only reports, and the system vnet controller writes the two vnets of
    the operator.

    State and effects correspond as follows. A Go function that returns an error returns a
    [result]. A reconcile is a function in [EIO W], for any world [W] with a [Client]: its
    reads are the functions of a [Reader], which fail as they like, its writes act on
    the world, and [St] also has the log of writes, Events and metrics and the
    reconciler's in-memory signals. A recorder that may be nil is a boolean, so is the
    optional uncached reader. A Go map is a [gmap]; where Go's iteration order may show,
    the order is the map's own and a theorem says the result does not depend on it, or the
    order is a parameter. Integers are [Z], with the wrap or the bound where the code has
    one; durations are an int64 of nanoseconds.

    ** What the theorems show

    - End to end: [Queue.drained_isolation] says that in every run of the operator with its
      queues, whenever no request that makes the isolation is waiting, the cluster accepts
      exactly the connections that resolution grants; [EndToEnd.settled_isolation] says so
      of a cluster where no request of the watches has work left, whatever came before.
      [Authority.operator_confined] says that in every interleaved run a controller writes
      only what its request entitles it to, and [Drift.drift_enqueues] that what it wrote
      is watched: undoing it enqueues the request that wrote it.
    - Isolation: [Isolation.vnet_isolation] says, in the meaning of NetworkPolicies, that a
      connection is let through exactly between members of a common vnet in the right
      directions; [Generator.Generate_connects] is its half about one vnet.
    - Resolution: [Resolve] refines an abstract cascade of grants, fails closed, enforces
      bare values of lower tiers, reports every narrowing, and does not depend on order;
      the resolver feeds it the permitted rules and no others.
    - Convergence: each reconcile leaves exactly the policies, stamps or vnets its
      specification asks for, on every branch; a run that fails touches nothing of others;
      and a reconcile of a settled object writes nothing ([VnetReconcile_quiet],
      [resolution_settles]).
    - Honest reports: the status of a vnet and of a binding say what is the case, and the
      binding's list agrees with the members the vnet's reconcile finds.
    - Watches: an event that changes what a reconcile computes enqueues it (ADR 0044), for
      the pods of the vnet controller, the bindings, the Services and the stamps of a pod.
    - Admission: the validator lets in exactly the resolved stamps and fails closed; a pod
      that passes both webhooks needs no further write (ADR 0034).
    - The network wait: it is injected exactly when it can work, it returns within its
      maximum whatever the network does, and it says truthfully what it saw.
    - Names: injective up to collisions of the hash, within their limits, and stamps and
      selectors agree.

    ** Assumptions, parameters and bounds

    Code that is not under [src/] is a parameter. [K8sLib] has the label-selector library
    and [meta.SetStatusCondition], with [K8sLaws] their documented behaviour; [PolicyServer]
    and [VnetServer] state what a server does with policies and vnets: reads see what is
    stored, a successful forced apply leaves the desired fields, a delete deletes, a
    failed write changes nothing. The admission decoder, [json.Marshal], the flag parser,
    [net.SplitHostPort] and [net.ParseCIDR] are arguments. The witnesses instantiate all of
    these: with [Cluster], [model_k8s] and small concrete functions.

    A theorem about a reconcile takes the cache to be as current as its [Reader] says, and
    says what a run does from any state. [Operator] interleaves whole reconciles: the
    manager runs controllers in parallel, but their writes are to disjoint parts of the
    cluster ([operator_confined]), and a read that another reconcile overtakes is a read of
    a cache that lags. [RuntimeLaws] is what the watches rely on of controller-runtime's
    predicates and [CoherentClient] what reads show of a world; [settled] leaves out the
    controllers that no connection between members depends on, and the system vnet
    controller, which applies its vnets on every reconcile.

    [Queue] takes more for granted, all of it in [sys_step] and [admitted_objects]. A write is
    seen by the caches before the next reconcile; a write that changes nothing gives no
    event. Others change one object at a time, and no namespace while the operator runs:
    [VnetWatches.nsToVnets_narrowed] shows that the namespace watch of the vnet controller
    alone would miss a change, which reaches it only with the pods resolution stamps anew.
    A pod's ports and host network, and the spec of a vnet of one generation, do not
    change. The admission policy of [src/config/admission/system-labels-vap.yaml] keeps the
    operator's labels on policies. Names of vnets and namespaces are DNS labels of at most
    63 bytes, and only the operator's namespace has a vnet [cluster].

    [DeepCopy] has its memory as a finite map. The copies of k8s.io/apimachinery and their
    types are parameters, assumed deep; the struct a pointer points to is passed as its
    value, so what is proved is about the slices and pointers in it.

    Fuel is used in two places. [Durations.parse_groups] takes the length of its string,
    enough because every group consumes a character. The rounds of [Sha256] are fixed by
    the standard. [Wait] has no fuel: its runs are a step relation, and
    [wait_always_returns] proves that they end. Its clock is the time since the start; a
    lookup and a dial end when their context does.

    A fraction in a duration is rounded down; Go computes it in a float64, which may give
    one nanosecond more or less for fractions of more than nine digits. Durations that
    [Duration.String] prints are not affected.

    ** Not modelled

    - The registration of the scheme, the manager's own work (leader election, servers,
      caches), logging, flag parsing and signals: calls into libraries.
    - The Prometheus registry, and the histogram of durations, which is a wall clock: the
      metrics a reconcile sets are entries of its log.
    - The order and the rate limits of the work queues: [Operator] may run any request at
      any time, [Queue] any that is waiting.
    - Resource versions and conflicts: [PolicyServer] has the outcome of a write only.
    - Charts, admission policies in CEL, test utilities and the end-to-end probe.

    ** Plan

    Left are changes of namespaces under a running operator ([Queue]), the relation of the
    host-port stamps of a pod to the policies across both controllers, and that the queues
    drain on a cluster nobody else changes when no binding selects on stamps; one that does
    keeps them from it ([ResolutionControllerSpec.resolution_oscillates]). *)

From Stdlib Require Export ZArith Lia.
From stdpp Require Export base option list strings gmap sorting fin_maps.

#[export] Set Warnings "-clear-no-such-hyp,-register-all".

(** ** Scope and notation *)

Declare Scope kv_scope.
Delimit Scope kv_scope with kv.

(** Boolean equality of two values of a type with decidable equality. *)
Notation "x =?? y" := (bool_decide (x = y)) (at level 70, no associativity) : kv_scope.

#[global] Open Scope kv_scope.

(** ** Hint databases and tactics *)

Create HintDb kv discriminated.

(** Case analysis on every [match] or [if] of the goal, clearing the absurd cases. *)
Ltac kv_cases := repeat (case_match || case_decide); simplify_eq/=; try done.

(** The boolean connectives and [bool_decide] of a hypothesis, as propositions. *)
Ltac kv_bools :=
  repeat match goal with
  | H : Is_true _ |- _ => apply Is_true_true in H
  | H : bool_decide _ = true |- _ => apply bool_decide_eq_true in H
  | H : bool_decide _ = false |- _ => apply bool_decide_eq_false in H
  | H : _ && _ = true |- _ => apply andb_true_iff in H as [? ?]
  | H : _ || _ = false |- _ => apply orb_false_iff in H as [? ?]
  | H : negb _ = true |- _ => apply negb_true_iff in H
  | H : negb _ = false |- _ => apply negb_false_iff in H
  end.

(** First-order goals over the results of reads: split, destruct, use the equations. *)
Ltac kv_destruct :=
  repeat match goal with
  | H : ∃ _, _ |- _ => destruct H
  | H : _ ∧ _ |- _ => destruct H
  end; simplify_eq.
Ltac kv_fo :=
  intros; kv_destruct;
  try match goal with H : _ ∨ _ |- _ => destruct H end; kv_destruct;
  try done; try congruence; eauto 10.
Ltac kv_iff := split; kv_fo.

(** A closed decidable proposition, by computing its decision. *)
Ltac kv_decide := apply (bool_decide_eq_true_1 _); vm_compute; reflexivity.

(** ** Optional values *)

(** The value of a key of a Go map, the zero value [d] when it is absent. *)
Definition get_or {V} (d : V) (m : gmap string V) (k : string) : V := default d (m !! k).

(** ** A stable sort

    [slices.SortStableFunc], [slices.Sort] and [sort.Strings] order a slice by a
    comparison; the sorts of the code are all stable or on values that only
    equal themselves, so one stable sort stands for them. *)

Section stable_sort.
Context {A : Type} (R : relation A) `{!RelDecision R}.

Fixpoint insert_sorted (x : A) (l : list A) : list A :=
  match l with
  | [] => [x]
  | y :: l' => if decide (R x y) then x :: y :: l' else y :: insert_sorted x l'
  end.

Definition stable_sort (l : list A) : list A := foldr insert_sorted [] l.
End stable_sort.

Arguments stable_sort {_} _ {_} _.
Arguments insert_sorted {_} _ {_} _ _.

Section stable_sort_facts.
Context {A : Type} (R : relation A) `{!RelDecision R}.

Lemma insert_sorted_perm x l : insert_sorted R x l ≡ₚ x :: l.
Proof.
  induction l as [|y l IH]; simpl; [done|].
  case_decide; [done|]. rewrite IH. apply Permutation_swap.
Qed.

Lemma stable_sort_perm l : stable_sort R l ≡ₚ l.
Proof. induction l as [|x l IH]; simpl; [done|]. by rewrite insert_sorted_perm, IH. Qed.

Lemma elem_of_stable_sort l x : x ∈ stable_sort R l ↔ x ∈ l.
Proof. by rewrite stable_sort_perm. Qed.

Lemma insert_sorted_sorted `{!Transitive R, !Total R} x l :
  StronglySorted R l → StronglySorted R (insert_sorted R x l).
Proof.
  induction 1 as [|y l Hl IH Hy]; simpl; [repeat constructor|].
  case_decide as Hxy.
  - constructor; [by constructor|]. constructor; [done|].
    eapply Forall_impl; [exact Hy|]. intros z; by trans y.
  - constructor; [done|]. rewrite insert_sorted_perm. constructor; [|done].
    by destruct (total R x y).
Qed.

Lemma stable_sort_sorted `{!Transitive R, !Total R} l : StronglySorted R (stable_sort R l).
Proof. induction l; simpl; [constructor|]. by apply insert_sorted_sorted. Qed.

(** The sort of a permutation is the same list, when the order separates the elements. *)
Lemma stable_sort_proper `{!Transitive R, !Total R} l1 l2 :
  (∀ x y, x ∈ l1 → y ∈ l1 → R x y → R y x → x = y) →
  l1 ≡ₚ l2 → stable_sort R l1 = stable_sort R l2.
Proof.
  intros Has Hp. apply (StronglySorted_unique_strong R).
  - intros x y. rewrite !elem_of_stable_sort, <-Hp. apply Has.
  - apply stable_sort_sorted.
  - apply stable_sort_sorted.
  - by rewrite !stable_sort_perm.
Qed.

(** Stability: the elements of a class whose members the order does not
    separate keep their relative order. *)
Lemma insert_sorted_filter (P : A → Prop) `{!∀ x, Decision (P x)} x l :
  (∀ y z, P y → P z → R y z) →
  filter P (insert_sorted R x l) = filter P (x :: l).
Proof.
  intros HP. induction l as [|y l IH]; simpl; [done|].
  case_decide as Hxy; [done|]. rewrite !filter_cons.
  rewrite filter_cons in IH. destruct (decide (P x)), (decide (P y)); simpl in *; try done.
  - destruct Hxy. by apply HP.
  - by rewrite IH.
Qed.

Lemma stable_sort_filter (P : A → Prop) `{!∀ x, Decision (P x)} l :
  (∀ y z, P y → P z → R y z) → filter P (stable_sort R l) = filter P l.
Proof.
  intros HP. induction l as [|x l IH]; simpl; [done|].
  rewrite insert_sorted_filter by done. by rewrite !filter_cons, IH.
Qed.

(** A sorted list is left alone, and stays sorted when elements are dropped. *)
Lemma stable_sort_id l : StronglySorted R l → stable_sort R l = l.
Proof.
  induction 1 as [|x l Hl IH Hx]; simpl; [done|]. rewrite IH.
  destruct l as [|y l]; simpl; [done|]. inversion Hx. by rewrite decide_True.
Qed.

Lemma StronglySorted_filter (P : A → Prop) `{!∀ x, Decision (P x)} l :
  StronglySorted R l → StronglySorted R (filter P l).
Proof.
  induction 1 as [|x l Hl IH Hx]; [constructor|]. rewrite filter_cons. case_decide; [|done].
  constructor; [done|]. apply Forall_forall. intros y [_ Hy]%list_elem_of_filter.
  rewrite Forall_forall in Hx. auto.
Qed.

Lemma stable_sort_length l : length (stable_sort R l) = length l.
Proof. by rewrite stable_sort_perm. Qed.
End stable_sort_facts.

#[export] Hint Resolve stable_sort_perm stable_sort_sorted : kv.

(** Sorting by a key compared in an order on keys. *)
Definition by_key {A K} (f : A → K) (R : relation K) : relation A := λ x y, R (f x) (f y).

#[export] Instance by_key_dec {A K} (f : A → K) (R : relation K) `{!RelDecision R} :
  RelDecision (by_key f R).
Proof. intros x y. unfold by_key. apply _. Defined.
#[export] Instance by_key_trans {A K} (f : A → K) (R : relation K) `{!Transitive R} :
  Transitive (by_key f R).
Proof. intros x y z. unfold by_key. apply transitivity. Qed.
#[export] Instance by_key_total {A K} (f : A → K) (R : relation K) `{!Total R} :
  Total (by_key f R).
Proof. intros x y. unfold by_key. apply total, _. Qed.

(** [sort.Strings] and [slices.Sorted] on strings. *)
Definition sort_strings (l : list string) : list string := stable_sort String.le l.

Lemma sort_strings_perm l1 l2 : l1 ≡ₚ l2 → sort_strings l1 = sort_strings l2.
Proof.
  intros Hp. apply (stable_sort_proper String.le); [|done]. intros x y _ _.
  apply (anti_symm String.le).
Qed.

Lemma elem_of_sort_strings l x : x ∈ sort_strings l ↔ x ∈ l.
Proof. apply elem_of_stable_sort. Qed.

#[export] Instance sort_strings_proper : Proper ((≡ₚ) ==> (=)) sort_strings.
Proof. intros l1 l2. apply sort_strings_perm. Qed.

(** ** Lists *)

Lemma elem_of_flat_map {A B} (f : A → list B) l y :
  y ∈ flat_map f l ↔ ∃ x, x ∈ l ∧ y ∈ f x.
Proof. rewrite list_elem_of_In, in_flat_map. by setoid_rewrite list_elem_of_In. Qed.

Lemma app_nil_end_inv {A} (l : list A) x : l ≠ l ++ [x].
Proof. intros E. apply (f_equal length) in E. rewrite length_app in E. simpl in E. lia. Qed.

Lemma filter_perm {A} (f : A → bool) l l' : l ≡ₚ l' → List.filter f l ≡ₚ List.filter f l'.
Proof. induction 1; simpl; repeat destruct (f _); eauto using Permutation. Qed.

(** [slices.Compact]: drop an element equal to the one before it. *)
Fixpoint compact {A} `{EqDecision A} (l : list A) : list A :=
  match l with
  | [] => []
  | x :: l' =>
      match l' with
      | [] => [x]
      | y :: _ => if decide (x = y) then compact l' else x :: compact l'
      end
  end.

Section compact_facts.
Context {A : Type} `{EqDecision A}.

Lemma compact_cons2 (x y : A) l :
  compact (x :: y :: l) = if decide (x = y) then compact (y :: l) else x :: compact (y :: l).
Proof. done. Qed.

Lemma elem_of_compact (l : list A) x : x ∈ compact l ↔ x ∈ l.
Proof.
  induction l as [|y [|z l] IH]; [done..|]. rewrite compact_cons2.
  case_decide as Hyz; [subst; rewrite IH, !elem_of_cons; tauto|].
  by rewrite !(elem_of_cons _ _ y), IH.
Qed.

(** Compacting a sorted list leaves each value once, in strict order. *)
Lemma compact_strict (R : relation A) `{!Transitive R} `{!AntiSymm (=) R} (l : list A) :
  StronglySorted R l → StronglySorted (λ x y, R x y ∧ x ≠ y) (compact l).
Proof.
  induction 1 as [|x l Hl IH Hx]; [constructor|].
  destruct l as [|y l]; [repeat constructor|]. rewrite compact_cons2.
  case_decide as Hxy; [done|]. constructor; [done|].
  apply Forall_forall. intros z. rewrite elem_of_compact. intros Hz.
  rewrite Forall_forall in Hx. split; [by apply Hx|]. intros ->.
  inversion Hl as [|? ? Hl' Hy]; subst.
  apply Hxy, (anti_symm R); [apply Hx; by left|].
  rewrite elem_of_cons in Hz. destruct Hz as [->|Hz]; [apply Hx; by left|].
  rewrite Forall_forall in Hy. by apply Hy.
Qed.

Lemma strictly_sorted_NoDup (R : relation A) (l : list A) :
  StronglySorted (λ x y, R x y ∧ x ≠ y) l → NoDup l.
Proof.
  induction 1 as [|x l Hl IH Hx]; constructor; [|done].
  intros Hin. rewrite Forall_forall in Hx. by destruct (Hx x Hin).
Qed.
End compact_facts.

(** [slices.Sort] then [slices.Compact]. *)
Lemma compact_sort_NoDup {A} (R : relation A) `{EqDecision A, !RelDecision R, !Transitive R, !Total R,
    !AntiSymm (=) R} (l : list A) : NoDup (compact (stable_sort R l)).
Proof. eapply strictly_sorted_NoDup, (compact_strict R). apply stable_sort_sorted; apply _. Qed.
