(* ===== verification/GoStrings.v ===== *)
(** * The parts of Go's [strings], [fmt] and [regexp] packages the operator uses

    A Go string is a sequence of bytes, here a [string] of [ascii] bytes, and
    [len], slicing and comparison work on bytes as in Go. *)

From stdpp Require Export pretty.
From S2P Require Import Prelude.
From Stdlib Require Import Ascii.

(** ** Slices of a string *)

(** [s[:n]] and [s[n:]], for [n] within the string. *)
Fixpoint str_take (n : nat) (s : string) : string :=
  match n, s with
  | S n, String c s => String c (str_take n s)
  | _, _ => ""
  end.

Fixpoint str_drop (n : nat) (s : string) : string :=
  match n, s with
  | S n, String _ s => str_drop n s
  | _, _ => s
  end.

(** [strings.Cut] and [strings.Contains] with a one-byte separator: the text before and after its
    first occurrence, and whether it occurs. *)
Fixpoint Cut (c : ascii) (s : string) : string * string * bool :=
  match s with
  | "" => ("", "", false)
  | String d s' =>
      if decide (d = c) then ("", s', true)
      else let '(b, a, ok) := Cut c s' in (String d b, a, ok)
  end.

Fixpoint Contains (c : ascii) (s : string) : bool :=
  match s with
  | "" => false
  | String d s' => if decide (d = c) then true else Contains c s'
  end.

(** [strings.CutPrefix] (the text after the prefix), [strings.HasPrefix], [strings.HasSuffix]. *)
Fixpoint CutPrefix (s p : string) : option string :=
  match p, s with
  | "", _ => Some s
  | String c p', String d s' => if decide (c = d) then CutPrefix s' p' else None
  | String _ _, "" => None
  end.

Definition HasPrefix (s p : string) : bool := if CutPrefix s p is Some _ then true else false.

Definition HasSuffix (s suf : string) : bool :=
  (String.length suf <=? String.length s)%nat &&
  (str_drop (String.length s - String.length suf) s =?? suf).

(** [strings.Join]. *)
Fixpoint Join (l : list string) (sep : string) : string :=
  match l with
  | [] => ""
  | [x] => x
  | x :: l' => x +:+ sep +:+ Join l' sep
  end.

(** [strings.ToLower] on ASCII, which Kubernetes protocol names are. *)
Definition ascii_lower (c : ascii) : ascii :=
  let n := N_of_ascii c in
  if (65 <=? n)%N && (n <=? 90)%N then ascii_of_N (n + 32) else c.

Fixpoint ToLower (s : string) : string :=
  match s with
  | "" => ""
  | String c s' => String (ascii_lower c) (ToLower s')
  end.

(** [strings.TrimSpace] on ASCII white space. *)
Fixpoint trim_left (s : string) : string :=
  match s with
  | String c s' => if Ascii.is_space c then trim_left s' else s
  | "" => ""
  end.

Definition TrimSpace (s : string) : string := String.rev (trim_left (String.rev (trim_left s))).

(** [strings.Split] by one byte. *)
Fixpoint Split (c : ascii) (s : string) : list string :=
  match s with
  | "" => [""]
  | String d s' =>
      if decide (d = c) then "" :: Split c s'
      else match Split c s' with
           | [] => [String d ""]
           | w :: ws => String d w :: ws
           end
  end.

(** ** DNS-1123 labels

    The regular expression [^[a-z0-9]([-a-z0-9]*[a-z0-9])?$]: lower-case
    letters, digits and inner dashes, at least one byte. *)

Definition is_alnum (c : ascii) : bool :=
  let n := N_of_ascii c in
  ((97 <=? n)%N && (n <=? 122)%N) || ((48 <=? n)%N && (n <=? 57)%N).

Definition is_label_char (c : ascii) : bool := is_alnum c || (c =?? "-"%char).

Fixpoint label_tail (c : ascii) (s : string) : bool :=
  match s with
  | "" => is_alnum c
  | String d s' => is_label_char c && label_tail d s'
  end.

Definition is_dns_label (s : string) : bool :=
  match s with
  | "" => false
  | String c s' => is_alnum c && label_tail c s'
  end.

(** ** Formatting

    [fmt.Sprintf] for the verbs the operator uses: [%s], [%v] and [%w] print
    their operand, [%d] an integer in base ten, [%q] a quoted string. *)

Inductive Arg := AStr (s : string) | AInt (z : Z).

Definition dquote : string := String "034"%char "".

(** [strconv.Quote], for ASCII text: bytes above it are kept. *)
Definition hex_digit (n : N) : string :=
  String (ascii_of_N (if (n <? 10)%N then 48 + n else 87 + n)%N) "".

Definition quote_byte (c : ascii) : string :=
  let n := N_of_ascii c in
  if (n =? 34)%N then "\" +:+ dquote
  else if (n =? 92)%N then "\\"
  else if (n =? 7)%N then "\a" else if (n =? 8)%N then "\b" else if (n =? 9)%N then "\t"
  else if (n =? 10)%N then "\n" else if (n =? 11)%N then "\v" else if (n =? 12)%N then "\f"
  else if (n =? 13)%N then "\r"
  else if (n <? 32)%N || (n =? 127)%N then "\x" +:+ hex_digit (n / 16) +:+ hex_digit (n mod 16)
  else String c "".

Fixpoint quote_bytes (s : string) : string :=
  match s with
  | "" => ""
  | String c s' => quote_byte c +:+ quote_bytes s'
  end.

Definition Quote (s : string) : string := dquote +:+ quote_bytes s +:+ dquote.

Definition fmt_arg (verb : ascii) (a : Arg) : string :=
  match a with
  | AInt z => pretty z
  | AStr s => if decide (verb = "q"%char) then Quote s else s
  end.

Fixpoint Sprintf (format : string) (args : list Arg) : string :=
  match format with
  | "" => ""
  | String "%" (String "%" f') => String "%" (Sprintf f' args)
  | String "%" (String v f') =>
      match args with
      | [] => "%!" +:+ String v "(MISSING)" +:+ Sprintf f' []
      | a :: args' => fmt_arg v a +:+ Sprintf f' args'
      end
  | String c f' => String c (Sprintf f' args)
  end.

(** ** Facts *)

Lemma app_assoc_str (a b c : string) : (a +:+ b) +:+ c = a +:+ b +:+ c.
Proof. unfold String.app. induction a; simpl; [done|]. by f_equal. Qed.

Lemma app_nil_r_str (a : string) : a +:+ "" = a.
Proof. unfold String.app. induction a; simpl; [done|]. by f_equal. Qed.

Lemma app_cons_str c (a b : string) : String c a +:+ b = String c (a +:+ b).
Proof. done. Qed.

Lemma app_nil_l_str (a : string) : "" +:+ a = a.
Proof. done. Qed.

Lemma length_app_str (a b : string) :
  String.length (a +:+ b) = (String.length a + String.length b)%nat.
Proof. induction a; [done|]. rewrite app_cons_str. simpl. by f_equal. Qed.

Create Rewrite HintDb gostr.
#[export] Hint Rewrite app_cons_str app_nil_l_str app_nil_r_str length_app_str : gostr.

Lemma CutPrefix_app p s : CutPrefix (p +:+ s) p = Some s.
Proof.
  induction p; [by destruct s|]. rewrite app_cons_str. simpl. by rewrite decide_True.
Qed.

Lemma CutPrefix_Some s p r : CutPrefix s p = Some r ↔ s = p +:+ r.
Proof.
  split; [|intros ->; apply CutPrefix_app].
  revert s. induction p as [|c p IH]; intros s; [by destruct s; intros; simplify_eq/=|].
  destruct s as [|d s]; simpl; [done|]. case_decide; [|done].
  intros ->%IH. by subst.
Qed.

Lemma HasPrefix_iff s p : HasPrefix s p = true ↔ ∃ r, s = p +:+ r.
Proof.
  unfold HasPrefix. destruct (CutPrefix s p) as [r|] eqn:E.
  - apply CutPrefix_Some in E. naive_solver.
  - split; [done|]. intros [r ->]. by rewrite CutPrefix_app in E.
Qed.

Lemma HasPrefix_app p s : HasPrefix (p +:+ s) p = true.
Proof. apply HasPrefix_iff. eauto. Qed.

Lemma str_drop_app a b : str_drop (String.length a) (a +:+ b) = b.
Proof. induction a; [by destruct b|]. rewrite app_cons_str. done. Qed.

Lemma str_take_drop n s : str_take n s +:+ str_drop n s = s.
Proof.
  revert s. induction n; intros [|c s]; try done. simpl. by rewrite app_cons_str, IHn.
Qed.

Lemma length_str_take n s : (n ≤ String.length s)%nat → String.length (str_take n s) = n.
Proof. revert s. induction n; intros [|c s]; simpl; try lia. intros. by rewrite IHn by lia. Qed.

Lemma length_str_take_min n s : String.length (str_take n s) = Nat.min n (String.length s).
Proof. revert s. induction n; intros [|c s]; simpl; try done. by rewrite IHn. Qed.

Lemma str_take_all n s : (String.length s ≤ n)%nat → str_take n s = s.
Proof. revert s. induction n; intros [|c s]; simpl; try done; [lia|]. intros. by rewrite IHn by lia. Qed.

Lemma HasSuffix_app s suf : HasSuffix (s +:+ suf) suf = true.
Proof.
  unfold HasSuffix. rewrite length_app_str. apply andb_true_intro; split.
  - apply Nat.leb_le. lia.
  - replace (_ + _ - _)%nat with (String.length s) by lia.
    rewrite str_drop_app. by apply bool_decide_eq_true.
Qed.

Lemma HasSuffix_iff s suf : HasSuffix s suf = true ↔ ∃ r, s = r +:+ suf.
Proof.
  split; [|intros [r ->]; apply HasSuffix_app].
  unfold HasSuffix. intros H. kv_bools.
  eexists (str_take (String.length s - String.length suf) s).
  rewrite <-(str_take_drop (String.length s - String.length suf) s) at 1. by f_equal.
Qed.

Lemma Cut_found c s b a : Cut c s = (b, a, true) → s = b +:+ String c a ∧ Contains c b = false.
Proof.
  revert b a. induction s as [|d s IH]; intros b a; simpl; [done|].
  case_decide; [intros; simplify_eq; done|].
  destruct (Cut c s) as [[b' a'] ok] eqn:E. intros ?; simplify_eq.
  destruct (IH b' a eq_refl) as [-> Hb]. split; [done|]. simpl. by rewrite decide_False.
Qed.

Lemma Cut_not_found c s b a : Cut c s = (b, a, false) → b = s ∧ a = "" ∧ Contains c s = false.
Proof.
  revert b a. induction s as [|d s IH]; intros b a; simpl; [by intros; simplify_eq|].
  case_decide; [done|].
  destruct (Cut c s) as [[b' a'] ok] eqn:E. intros ?; simplify_eq.
  destruct (IH b' a eq_refl) as (-> & -> & ?). done.
Qed.

Lemma Cut_app c b a : Contains c b = false → Cut c (b +:+ String c a) = (b, a, true).
Proof.
  induction b as [|d b IH]; intros H.
  - rewrite app_nil_l_str. simpl. by rewrite decide_True.
  - rewrite app_cons_str. simpl in *. case_decide; [done|]. by rewrite IH.
Qed.

Lemma Cut_none c s : Contains c s = false → Cut c s = (s, "", false).
Proof.
  induction s as [|d s IH]; simpl; intros H; [done|].
  case_decide; [done|]. by rewrite IH.
Qed.

Lemma Contains_app c a b : Contains c (a +:+ b) = Contains c a || Contains c b.
Proof.
  induction a as [|d a IH]; [done|]. rewrite app_cons_str. simpl. by case_decide.
Qed.

Lemma label_tail_no_char x s c :
  is_label_char x = false → label_tail c s = true → Contains x (String c s) = false.
Proof.
  intros Hx. revert c. induction s as [|d s IH]; intros c; simpl.
  - intros Hc. rewrite decide_False; [done|]. intros ->.
    unfold is_label_char in Hx. by rewrite Hc in Hx.
  - intros H. kv_bools. rewrite decide_False by congruence. apply (IH d). done.
Qed.

(** A DNS label holds no dot, nor any other byte outside its alphabet. *)
Lemma dns_label_no_char x s :
  is_label_char x = false → is_dns_label s = true → Contains x s = false.
Proof.
  intros Hx. destruct s as [|c s]; [done|]. simpl is_dns_label. intros H. kv_bools.
  by apply label_tail_no_char.
Qed.

Lemma dns_label_no_dot s : is_dns_label s = true → Contains "." s = false.
Proof. by apply dns_label_no_char. Qed.

Lemma dns_label_nonempty s : is_dns_label s = true → s ≠ "".
Proof. by intros H ->. Qed.

#[export] Hint Resolve dns_label_no_dot dns_label_nonempty CutPrefix_app HasPrefix_app : kv.

(** Appending on the right of strings of one length is injective in both parts. *)
Lemma app_inj_length_l a1 a2 b1 b2 :
  String.length a1 = String.length a2 → a1 +:+ b1 = a2 +:+ b2 → a1 = a2 ∧ b1 = b2.
Proof.
  revert a2. induction a1 as [|c a1 IH]; intros [|d a2] Hl Heq; simpl in Hl; try lia; [done|].
  rewrite !app_cons_str in Heq. simplify_eq.
  destruct (IH a2) as [-> ->]; [lia|done|done].
Qed.

Lemma app_inj_length_r a1 a2 b1 b2 :
  String.length b1 = String.length b2 → a1 +:+ b1 = a2 +:+ b2 → a1 = a2 ∧ b1 = b2.
Proof.
  intros Hl Heq. apply app_inj_length_l; [|done].
  apply (f_equal String.length) in Heq. rewrite !length_app_str in Heq. lia.
Qed.

(** The part before the first separator and the part after it are determined by the whole. *)
Lemma cut_inj c a1 a2 b1 b2 :
  Contains c a1 = false → Contains c a2 = false →
  a1 +:+ String c b1 = a2 +:+ String c b2 → a1 = a2 ∧ b1 = b2.
Proof.
  intros H1 H2 Heq. pose proof (Cut_app c a1 b1 H1) as E1.
  rewrite Heq, (Cut_app c a2 b2 H2) in E1. by simplify_eq.
Qed.

(** ** Decimal numbers *)

Lemma pretty_N_go_length x s : (String.length s ≤ String.length (pretty_N_go x s))%nat.
Proof.
  revert s. induction (N.lt_wf_0 x) as [x _ IH]; intros s.
  assert (x = 0 ∨ 0 < x)%N as [->|?] by lia; [by rewrite pretty_N_go_0|].
  rewrite pretty_N_go_step by done. etrans; [|by eapply IH, N.div_lt]. simpl. lia.
Qed.

Lemma pretty_N_nonempty (n : N) : pretty n ≠ "".
Proof.
  unfold pretty, pretty_N. case_decide; [done|]. rewrite pretty_N_go_step by lia.
  intros E. apply (f_equal String.length) in E. simpl in E.
  match type of E with String.length (pretty_N_go ?x ?s) = _ => pose proof (pretty_N_go_length x s) as Hl end.
  rewrite E in Hl. simpl in Hl. lia.
Qed.

Lemma pretty_Z_nonempty (z : Z) : pretty z ≠ "".
Proof.
  destruct z as [|p|p]; [done|apply (pretty_N_nonempty (N.pos p))|done].
Qed.
