(* ===== verification/Sha256.v ===== *)
(** * [crypto/sha256] and [encoding/hex]

    The identity hashes of policy names and label values are the first four
    bytes of a SHA-256 sum in hexadecimal (policyHash, truncatePolicyName,
    servicePolicyName, hostPortPolicyName). The sum is the function of FIPS
    180-4, executable; its constants are computed from their definition as
    fractional parts of square and cube roots of primes. *)

From Stdlib Require Import Ascii.
From S2P Require Import Prelude GoStrings.

Local Open Scope N_scope.

(** ** Words of 32 bits *)

Definition w32 (x : N) : N := N.land x 0xffffffff.
Definition add32 (x y : N) : N := w32 (x + y).
Definition rotr (k x : N) : N := N.lor (N.shiftr x k) (w32 (N.shiftl x (32 - k))).

(** ** The constants: roots of the first primes *)

Definition divides_none (n : N) (ps : list N) : bool := forallb (λ p, negb (n mod p =? 0)) ps.

(** The first [count] primes, trying [n], [n+1], ... for at most [fuel] candidates. *)
Fixpoint primes_from (fuel : nat) (n : N) (found : list N) : list N :=
  match fuel with
  | O => rev found
  | S fuel => primes_from fuel (n + 1) (if divides_none n found then n :: found else found)
  end.

(** 311 is the 64th prime. *)
Definition primes64 : list N := Eval vm_compute in primes_from 310 2 [].

(** The integer cube root below [2^(bits)], one bit at a time. *)
Fixpoint cbrt_bits (bits : nat) (acc x : N) : N :=
  match bits with
  | O => acc
  | S b =>
      let cand := acc + 2 ^ N.of_nat b in
      cbrt_bits b (if cand * cand * cand <=? x then cand else acc) x
  end.

Definition round_constants : list N :=
  Eval vm_compute in map (λ p, w32 (cbrt_bits 36 0 (p * 2 ^ 96))) primes64.

Definition initial_words : list N :=
  Eval vm_compute in map (λ p, w32 (N.sqrt (p * 2 ^ 64))) (take 8 primes64).

(** ** The compression of one block *)

Record Vars := mkVars { va : N; vb : N; vc : N; vd : N; ve : N; vf : N; vg : N; vh : N }.

Definition vars_of (l : list N) : Vars :=
  match l with
  | [a; b; c; d; e; f; g; h] => mkVars a b c d e f g h
  | _ => mkVars 0 0 0 0 0 0 0 0
  end.

Definition words_of (v : Vars) : list N :=
  [va v; vb v; vc v; vd v; ve v; vf v; vg v; vh v].

Definition big_sigma (i j k x : N) : N := N.lxor (rotr i x) (N.lxor (rotr j x) (rotr k x)).
Definition small_sigma (i j k x : N) : N :=
  N.lxor (rotr i x) (N.lxor (rotr j x) (N.shiftr x k)).
Definition choose (x y z : N) : N := N.lxor (N.land x y) (N.ldiff z x).
Definition majority (x y z : N) : N :=
  N.lxor (N.land x y) (N.lxor (N.land x z) (N.land y z)).

(** One round with [kw] the sum of its constant and its message word. *)
Definition round (v : Vars) (kw : N) : Vars :=
  let t1 := add32 (vh v) (add32 (big_sigma 6 11 25 (ve v))
              (add32 (choose (ve v) (vf v) (vg v)) kw)) in
  let t2 := add32 (big_sigma 2 13 22 (va v)) (majority (va v) (vb v) (vc v)) in
  mkVars (add32 t1 t2) (va v) (vb v) (vc v) (add32 (vd v) t1) (ve v) (vf v) (vg v).

(** The message schedule, newest word first: a window of the last 16 words. *)
Fixpoint extend_schedule (n : nat) (newest_first : list N) : list N :=
  match n with
  | O => newest_first
  | S n =>
      let at' i := nth i newest_first 0 in
      let w := add32 (small_sigma 17 19 10 (at' 1%nat))
                 (add32 (at' 6%nat) (add32 (small_sigma 7 18 3 (at' 14%nat)) (at' 15%nat))) in
      extend_schedule n (w :: newest_first)
  end.

Definition compress (hs : list N) (block : list N) : list N :=
  let sched := rev (extend_schedule 48 (rev block)) in
  let out := foldl round (vars_of hs) (zip_with add32 round_constants sched) in
  zip_with add32 hs (words_of out).

(** ** Padding and parsing *)

Definition bytes_of (s : string) : list N := map N_of_ascii (String.list_ascii_of_string s).

Fixpoint be_bytes (n : nat) (x : N) : list N :=
  match n with
  | O => []
  | S n => N.land (N.shiftr x (8 * N.of_nat n)) 255 :: be_bytes n x
  end.

(** A 1 bit, zeros up to 56 bytes modulo 64, the length in bits. *)
Definition pad (msg : list N) : list N :=
  let len := length msg in
  let zeros := ((119 - len mod 64) mod 64)%nat in
  msg ++ 128 :: repeat 0 zeros ++ be_bytes 8 (8 * N.of_nat len).

Fixpoint words_be (bs : list N) : list N :=
  match bs with
  | a :: b :: c :: d :: bs' =>
      N.lor (N.shiftl a 24) (N.lor (N.shiftl b 16) (N.lor (N.shiftl c 8) d)) :: words_be bs'
  | _ => []
  end.

Fixpoint blocks_of (fuel : nat) (ws : list N) : list (list N) :=
  match fuel with
  | O => []
  | S fuel =>
      match ws with
      | [] => []
      | _ => take 16 ws :: blocks_of fuel (drop 16 ws)
      end
  end.

(** [sha256.Sum256], as its 32 bytes. *)
Definition Sum256 (s : string) : list N :=
  let ws := words_be (pad (bytes_of s)) in
  flat_map (be_bytes 4) (foldl compress initial_words (blocks_of (length ws) ws)).

(** [hex.EncodeToString]. *)
Fixpoint EncodeToString (bs : list N) : string :=
  match bs with
  | [] => ""
  | b :: bs' => hex_digit (b / 16) +:+ hex_digit (b mod 16) +:+ EncodeToString bs'
  end.

(** [hex.EncodeToString(sum[:4])], the form every identity hash takes. *)
Definition hex8 (s : string) : string := EncodeToString (take 4 (Sum256 s)).

(** ** Facts *)

Example sum256_abc :
  EncodeToString (Sum256 "abc") = "ba7816bf8f01cfea414140de5dae2223b00361a396177a9cb410ff61f20015ad".
Proof. vm_compute. reflexivity. Qed.

Lemma length_be_bytes n x : length (be_bytes n x) = n.
Proof. induction n; simpl; congruence. Qed.

Lemma length_encode bs : String.length (EncodeToString bs) = (2 * length bs)%nat.
Proof.
  induction bs as [|b bs IH]; simpl EncodeToString; [done|].
  rewrite !length_app_str, IH. simpl. lia.
Qed.

Lemma length_compress hs block :
  length hs = 8%nat → length (compress hs block) = 8%nat.
Proof. intros H. unfold compress. by rewrite length_zip_with, H. Qed.

Lemma length_fold_compress bs hs :
  length hs = 8%nat → length (foldl compress hs bs) = 8%nat.
Proof. revert hs. induction bs; simpl; [done|]. auto using length_compress. Qed.

Lemma length_Sum256 s : length (Sum256 s) = 32%nat.
Proof.
  unfold Sum256. set (hs := foldl _ _ _).
  assert (length hs = 8%nat) as H by (by apply length_fold_compress). clearbody hs.
  rewrite (flat_map_constant_length (c := 4%nat)) by (intros; apply length_be_bytes). by rewrite H.
Qed.

Lemma length_hex8 s : String.length (hex8 s) = 8%nat.
Proof. unfold hex8. by rewrite length_encode, length_take, length_Sum256. Qed.

#[export] Hint Rewrite length_hex8 : gostr.
