(* ===== verification/Types.v ===== *)
(** * The API objects

    The custom resources of [api/v1alpha1] and the fields of the Kubernetes
    objects the operator reads or writes. A Go map is a [gmap] (nil and empty
    are one), a pointer an [option], a [DeletionTimestamp] the fact that it is
    set, an [int32] or [int64] a [Z]. *)

From S2P Require Import Prelude.

(** ** Object metadata *)

Record ObjectKey := mkKey { key_ns : string; key_name : string }.

#[export] Instance ObjectKey_eq_dec : EqDecision ObjectKey.
Proof. solve_decision. Defined.
#[export] Instance ObjectKey_countable : Countable ObjectKey :=
  inj_countable' (λ k, (key_ns k, key_name k)) (λ p, mkKey p.1 p.2) (λ '(mkKey _ _), eq_refl).

Record OwnerReference := mkOwnerRef {
  or_apiVersion : string;
  or_kind : string;
  or_name : string;
  or_uid : string;
  or_controller : option bool;
  or_blockOwnerDeletion : option bool }.

#[export] Instance OwnerReference_eq_dec : EqDecision OwnerReference.
Proof. solve_decision. Defined.

Record ObjectMeta := mkMeta {
  m_namespace : string;
  m_name : string;
  m_uid : string;
  m_generation : Z;
  m_labels : gmap string string;
  m_annotations : gmap string string;
  m_deleting : bool;
  m_ownerReferences : list OwnerReference }.

#[export] Instance ObjectMeta_eq_dec : EqDecision ObjectMeta.
Proof. solve_decision. Defined.

(** Metadata of an object built in memory: only what the literal sets. *)
Definition new_meta (ns name : string) (labels : gmap string string) : ObjectMeta :=
  mkMeta ns name "" 0 labels ∅ false [].

Definition meta_key (m : ObjectMeta) : ObjectKey := mkKey (m_namespace m) (m_name m).

Definition set_labels (l : gmap string string) (m : ObjectMeta) : ObjectMeta :=
  mkMeta (m_namespace m) (m_name m) (m_uid m) (m_generation m) l (m_annotations m)
    (m_deleting m) (m_ownerReferences m).
Definition set_annotations (a : gmap string string) (m : ObjectMeta) : ObjectMeta :=
  mkMeta (m_namespace m) (m_name m) (m_uid m) (m_generation m) (m_labels m) a
    (m_deleting m) (m_ownerReferences m).
Definition set_ownerReferences (o : list OwnerReference) (m : ObjectMeta) : ObjectMeta :=
  mkMeta (m_namespace m) (m_name m) (m_uid m) (m_generation m) (m_labels m) (m_annotations m)
    (m_deleting m) o.

(** The objects that carry metadata ([client.Object]), with their kind. *)
Class Object (A : Type) := { obj_kind : string; obj_meta : A → ObjectMeta }.
#[global] Hint Mode Object ! : typeclass_instances.

Definition obj_ns {A} `{Object A} (x : A) : string := m_namespace (obj_meta x).
Definition obj_name {A} `{Object A} (x : A) : string := m_name (obj_meta x).
Definition obj_uid {A} `{Object A} (x : A) : string := m_uid (obj_meta x).
Definition obj_labels {A} `{Object A} (x : A) : gmap string string := m_labels (obj_meta x).
Definition obj_annotations {A} `{Object A} (x : A) : gmap string string := m_annotations (obj_meta x).

(** [client.ObjectKeyFromObject]. *)
Definition ObjectKeyFromObject {A} `{Object A} (x : A) : ObjectKey := meta_key (obj_meta x).

(** ** Label selectors *)

Record LabelSelectorRequirement := mkReq {
  req_key : string;
  req_operator : string;
  req_values : list string }.

Record LabelSelector := mkSel {
  sel_matchLabels : gmap string string;
  sel_matchExpressions : list LabelSelectorRequirement }.

#[export] Instance LabelSelectorRequirement_eq_dec : EqDecision LabelSelectorRequirement.
Proof. solve_decision. Defined.
#[export] Instance LabelSelector_eq_dec : EqDecision LabelSelector.
Proof. solve_decision. Defined.

(** ** Virtual networks: [api/v1alpha1/virtualnetwork_types.go] *)

Record Condition := mkCond {
  cond_type : string; cond_status : string; cond_reason : string; cond_message : string }.

Record NamespaceSelector := mkNSSel {
  ns_all : bool;
  ns_names : list string;
  ns_selector : option LabelSelector }.

Record VirtualNetworkSpec := mkVnetSpec {
  vs_description : string;
  vs_allowedNamespaces : option NamespaceSelector }.

Record NamespaceMembers := mkNSMembers { nm_namespace : string; nm_pods : list string }.
Record PolicyRef := mkPolicyRef { pr_namespace : string; pr_name : string }.

Record VirtualNetworkStatus := mkVnetStatus {
  vst_conditions : list Condition;
  vst_members : list NamespaceMembers;
  vst_generatedPolicies : list PolicyRef;
  vst_observedGeneration : Z }.

Record VirtualNetwork := mkVnet {
  vnet_meta : ObjectMeta;
  vnet_spec : VirtualNetworkSpec;
  vnet_status : VirtualNetworkStatus }.

#[export] Instance NamespaceSelector_eq_dec : EqDecision NamespaceSelector.
Proof. solve_decision. Defined.
#[export] Instance VirtualNetworkSpec_eq_dec : EqDecision VirtualNetworkSpec.
Proof. solve_decision. Defined.
#[export] Instance Condition_eq_dec : EqDecision Condition.
Proof. solve_decision. Defined.
#[export] Instance NamespaceMembers_eq_dec : EqDecision NamespaceMembers.
Proof. solve_decision. Defined.
#[export] Instance PolicyRef_eq_dec : EqDecision PolicyRef.
Proof. solve_decision. Defined.
#[export] Instance VirtualNetworkStatus_eq_dec : EqDecision VirtualNetworkStatus.
Proof. solve_decision. Defined.

Definition empty_vnet_status : VirtualNetworkStatus := mkVnetStatus [] [] [] 0.

#[export] Instance vnet_object : Object VirtualNetwork :=
  {| obj_kind := "VirtualNetwork"; obj_meta := vnet_meta |}.

(** ** Bindings: [api/v1alpha1/virtualnetworkbinding_types.go] *)

Record VirtualNetworkRef := mkVnetRef { ref_name : string; ref_namespace : string }.

Record VirtualNetworkBindingSpec := mkBindingSpec {
  bs_virtualNetworkRef : VirtualNetworkRef;
  bs_direction : string;
  bs_podSelector : LabelSelector }.

Record VirtualNetworkBindingStatus := mkBindingStatus {
  bst_conditions : list Condition;
  bst_attachedPods : list string;
  bst_observedGeneration : Z }.

Record VirtualNetworkBinding := mkBinding {
  vnb_meta : ObjectMeta;
  vnb_spec : VirtualNetworkBindingSpec;
  vnb_status : VirtualNetworkBindingStatus }.

#[export] Instance VirtualNetworkRef_eq_dec : EqDecision VirtualNetworkRef.
Proof. solve_decision. Defined.
#[export] Instance VirtualNetworkBindingStatus_eq_dec : EqDecision VirtualNetworkBindingStatus.
Proof. solve_decision. Defined.
#[export] Instance vnb_object : Object VirtualNetworkBinding :=
  {| obj_kind := "VirtualNetworkBinding"; obj_meta := vnb_meta |}.

(** ** Baselines: [api/v1alpha1/{cluster,}virtualnetworkbaseline_types.go] *)

Record BaselineMembership := mkMembership {
  bm_virtualNetworkRef : VirtualNetworkRef;
  bm_direction : string }.

Record ClusterVirtualNetworkBaseline := mkClusterBaseline {
  cvb_meta : ObjectMeta;
  cvb_memberships : list BaselineMembership }.

Record VirtualNetworkBaseline := mkNSBaseline {
  vb_meta : ObjectMeta;
  vb_memberships : list BaselineMembership }.

#[export] Instance cvb_object : Object ClusterVirtualNetworkBaseline :=
  {| obj_kind := "ClusterVirtualNetworkBaseline"; obj_meta := cvb_meta |}.
#[export] Instance vb_object : Object VirtualNetworkBaseline :=
  {| obj_kind := "VirtualNetworkBaseline"; obj_meta := vb_meta |}.

(** ** Pods and namespaces (k8s.io/api/core/v1) *)

Record ContainerPort := mkCPort {
  cp_name : string; cp_containerPort : Z; cp_hostPort : Z; cp_protocol : string }.

Record SecurityContext := mkSecurity {
  sc_runAsNonRoot : option bool;
  sc_allowPrivilegeEscalation : option bool;
  sc_readOnlyRootFilesystem : option bool;
  sc_dropCapabilities : list string;
  sc_seccompProfile : string }.

Record Container := mkContainer {
  c_name : string;
  c_image : string;
  c_imagePullPolicy : string;
  c_args : list string;
  c_ports : list ContainerPort;
  c_restartPolicy : option string;
  c_requests : gmap string string;
  c_limits : gmap string string;
  c_securityContext : option SecurityContext }.

Record PodSpec := mkPodSpec {
  ps_containers : list Container;
  ps_initContainers : list Container;
  ps_hostNetwork : bool }.

Record Pod := mkPod { pod_meta : ObjectMeta; pod_spec : PodSpec }.

#[export] Instance ContainerPort_eq_dec : EqDecision ContainerPort.
Proof. solve_decision. Defined.
#[export] Instance SecurityContext_eq_dec : EqDecision SecurityContext.
Proof. solve_decision. Defined.
#[export] Instance Container_eq_dec : EqDecision Container.
Proof. solve_decision. Defined.
#[export] Instance PodSpec_eq_dec : EqDecision PodSpec.
Proof. solve_decision. Defined.
#[export] Instance Pod_eq_dec : EqDecision Pod.
Proof. solve_decision. Defined.

Definition set_pod_labels (l : gmap string string) (p : Pod) : Pod :=
  mkPod (set_labels l (pod_meta p)) (pod_spec p).
Definition set_pod_annotations (a : gmap string string) (p : Pod) : Pod :=
  mkPod (set_annotations a (pod_meta p)) (pod_spec p).

#[export] Instance pod_object : Object Pod := {| obj_kind := "Pod"; obj_meta := pod_meta |}.

Record Namespace := mkNamespace { ns_meta : ObjectMeta }.

#[export] Instance ns_object : Object Namespace :=
  {| obj_kind := "Namespace"; obj_meta := ns_meta |}.

(** ** Services (k8s.io/api/core/v1) *)

Inductive IntOrStringType := IntType | StringType.
Record IntOrString := mkIOS { ios_type : IntOrStringType; ios_int : Z; ios_str : string }.

(** [intstr.FromInt32]. *)
Definition FromInt32 (n : Z) : IntOrString := mkIOS IntType n "".

Record ServicePort := mkSPort {
  sp_port : Z; sp_protocol : string; sp_targetPort : IntOrString }.

Record ServiceSpec := mkSvcSpec {
  ss_type : string;
  ss_clusterIP : string;
  ss_externalIPs : list string;
  ss_selector : gmap string string;
  ss_ports : list ServicePort }.

Record Service := mkService { svc_meta : ObjectMeta; svc_spec : ServiceSpec }.

#[export] Instance IntOrStringType_eq_dec : EqDecision IntOrStringType.
Proof. solve_decision. Defined.
#[export] Instance IntOrString_eq_dec : EqDecision IntOrString.
Proof. solve_decision. Defined.
#[export] Instance svc_object : Object Service :=
  {| obj_kind := "Service"; obj_meta := svc_meta |}.

(** ** Network policies (k8s.io/api/networking/v1) *)

Record NetworkPolicyPort := mkNPPort {
  npp_protocol : option string; npp_port : option IntOrString }.

Record NetworkPolicyPeer := mkPeer {
  peer_podSelector : option LabelSelector;
  peer_namespaceSelector : option LabelSelector;
  peer_ipBlock : option string }.

Record IngressRule := mkIngress {
  ir_from : list NetworkPolicyPeer; ir_ports : list NetworkPolicyPort }.

Record NetworkPolicySpec := mkNPSpec {
  nps_podSelector : LabelSelector;
  nps_ingress : list IngressRule;
  nps_policyTypes : list string }.

Record NetworkPolicy := mkNP {
  np_apiVersion : string;
  np_kind : string;
  np_meta : ObjectMeta;
  np_spec : NetworkPolicySpec }.

#[export] Instance NetworkPolicyPort_eq_dec : EqDecision NetworkPolicyPort.
Proof. solve_decision. Defined.
#[export] Instance NetworkPolicyPeer_eq_dec : EqDecision NetworkPolicyPeer.
Proof. solve_decision. Defined.
#[export] Instance IngressRule_eq_dec : EqDecision IngressRule.
Proof. solve_decision. Defined.
#[export] Instance NetworkPolicySpec_eq_dec : EqDecision NetworkPolicySpec.
Proof. solve_decision. Defined.
#[export] Instance NetworkPolicy_eq_dec : EqDecision NetworkPolicy.
Proof. solve_decision. Defined.
#[export] Instance np_object : Object NetworkPolicy :=
  {| obj_kind := "NetworkPolicy"; obj_meta := np_meta |}.

(** [networkingv1.SchemeGroupVersion.String()], [networkingv1.PolicyTypeIngress] and
    [metav1.LabelSelectorOpIn]. *)
Definition NetworkingGroupVersion : string := "networking.k8s.io/v1".
Definition PolicyTypeIngress : string := "Ingress".
Definition LabelSelectorOpIn : string := "In".

(** ** The resources that name Services the apiserver dials *)

Record ServiceReference := mkSvcRef {
  sr_namespace : string; sr_name : string; sr_port : option Z }.

(** A webhook's [clientConfig.service], [None] for a URL. *)
Record WebhookConfiguration := mkWebhookConfig {
  wc_meta : ObjectMeta; wc_services : list (option ServiceReference) }.

Record APIService := mkAPIService {
  as_meta : ObjectMeta; as_service : option ServiceReference }.

Record CustomResourceConversion := mkConversion {
  conv_strategy : string;
  (* [spec.conversion.webhook], its [clientConfig], its [service]. *)
  conv_webhook : option (option (option ServiceReference)) }.

Record CustomResourceDefinition := mkCRD {
  crd_meta : ObjectMeta; crd_conversion : option CustomResourceConversion }.

(** ** Facts *)

Lemma set_labels_id m : set_labels (m_labels m) m = m.
Proof. by destruct m. Qed.
Lemma set_annotations_id m : set_annotations (m_annotations m) m = m.
Proof. by destruct m. Qed.
Lemma set_pod_labels_id p : set_pod_labels (m_labels (pod_meta p)) p = p.
Proof. destruct p as [[] ?]. done. Qed.
