(* ===== verification/Effects.v ===== *)
(** * Errors, reads, writes and the state a reconcile runs in

    A Go function that returns [(T, error)] returns a [result T]. The API client
    is code outside the repository: its reads are a [Reader], a record of
    functions, its writes a function on an abstract world. A reconcile runs in
    the state monad [IO] over that world, the log of what it did and the
    in-memory state of its reconciler. *)

From Stdlib Require Import Ascii.
From S2P Require Import Prelude GoStrings Types.

(** ** Errors and results *)

(** What the code distinguishes of an error: the API's NotFound, the sentinel of
    a named port without backing pod, a wrapped error ([fmt.Errorf] with [%w])
    and joined errors; [ErrAPI] is any other error of the API or a library. *)
Inductive error :=
  | ErrNotFound (msg : string)
  | ErrAPI (msg : string)
  | ErrNamedPortUnresolvable
  | ErrWrap (prefix : string) (e : error)
  | ErrJoin (es : list error).

(** [apierrors.IsNotFound] on an error of the client. *)
Definition IsNotFound (e : error) : bool :=
  match e with ErrNotFound _ => true | _ => false end.

(** [err.Error()]. *)
Fixpoint error_string (e : error) : string :=
  match e with
  | ErrNotFound m | ErrAPI m => m
  | ErrNamedPortUnresolvable => "named targetPort unresolvable: no backing pod with matching port name"
  | ErrWrap p e => p +:+ error_string e
  | ErrJoin es => Join (map error_string es) (String "010"%char "")
  end.

Inductive result (A : Type) := Ok (a : A) | Err (e : error).
Arguments Ok {_} _.
Arguments Err {_} _.

#[export] Instance result_ret : MRet result := @Ok.
#[export] Instance result_bind : MBind result := λ A B f r,
  match r with Ok a => f a | Err e => Err e end.
#[export] Instance result_fmap : FMap result := λ A B f r,
  match r with Ok a => Ok (f a) | Err e => Err e end.

Lemma result_bind_Ok {A B} (f : A → result B) r b :
  r ≫= f = Ok b ↔ ∃ a, r = Ok a ∧ f a = Ok b.
Proof. destruct r; simpl; split; naive_solver. Qed.

Lemma result_fmap_Ok {A B} (f : A → B) r b : f <$> r = Ok b ↔ ∃ a, r = Ok a ∧ b = f a.
Proof. destruct r; simpl; split; naive_solver. Qed.

(** Two Lists return the same objects, in whatever order, or the same error. *)
Definition same_list {A} (r r' : result (list A)) : Prop :=
  match r, r' with
  | Ok l, Ok l' => l ≡ₚ l'
  | Err e, Err e' => e = e'
  | _, _ => False
  end.

Lemma same_list_refl {A} (r : result (list A)) : same_list r r.
Proof. unfold same_list. by destruct r. Qed.

(** [mapM] of a loop that returns at the first error. *)
Fixpoint result_mapM {A B} (f : A → result B) (l : list A) : result (list B) :=
  match l with
  | [] => Ok []
  | x :: l' => y ← f x; ys ← result_mapM f l'; Ok (y :: ys)
  end.

(** A loop that appends the elements a fallible test accepts. *)
Fixpoint result_filterM {A} (f : A → result bool) (l : list A) : result (list A) :=
  match l with
  | [] => Ok []
  | x :: l' => b ← f x; ys ← result_filterM f l'; Ok (if b : bool then x :: ys else ys)
  end.

Lemma result_filterM_ext {A} (f g : A → result bool) l :
  (∀ x, x ∈ l → f x = g x) → result_filterM f l = result_filterM g l.
Proof.
  induction l as [|x l IH]; intros Hfg; simpl; [done|].
  by rewrite (Hfg x ltac:(by left)), IH by (intros y Hy; apply Hfg; by right).
Qed.

Lemma result_filterM_Ok {A} (f : A → result bool) l ys :
  result_filterM f l = Ok ys →
  ∀ y, y ∈ ys ↔ y ∈ l ∧ f y = Ok true.
Proof.
  revert ys. induction l as [|x l IH]; intros ys; simpl.
  - intros [= <-] y. set_solver.
  - intros (b & Hb & (zs & Hzs & [= <-])%result_bind_Ok)%result_bind_Ok y.
    specialize (IH _ Hzs y). destruct b; rewrite ?(elem_of_cons zs), ?(elem_of_cons l), IH.
    + split; [intros [->|[? ?]]|]; tauto.
    + split; [tauto|]. intros [[->|?] ?]; [congruence|done].
Qed.

(** ** Libraries outside the repository

    k8s.io/apimachinery: [metav1.LabelSelectorAsSelector] (an error for a
    malformed selector, else the set of label maps it matches), the condition
    helpers of [api/meta] and [equality.Semantic.DeepEqual];
    sigs.k8s.io/controller-runtime: [controllerutil.SetControllerReference]. *)

Class K8sLib := {
  LabelSelectorAsSelector : LabelSelector → result (gmap string string → bool);
  SetStatusCondition : list Condition → Condition → list Condition;
  FindStatusCondition : list Condition → string → option Condition;
  DeepEqual : ∀ {A} `{EqDecision A}, A → A → bool;
  SetControllerReference : Service → NetworkPolicy → result NetworkPolicy }.

(** Their documented behaviour, as far as the theorems use it. A selector of
    [matchLabels] alone asks for those pairs; one [In] requirement alone asks
    for one of its values; [SetStatusCondition] makes the condition the one
    [FindStatusCondition] returns for its type and leaves the other types;
    [DeepEqual] is equality of values in which nil and empty are one;
    [SetControllerReference] adds the owner as controller to an object of its
    namespace without owner references. *)
Class K8sLaws `{K8sLib} := {
  selector_matchLabels : ∀ m, ∃ f,
    LabelSelectorAsSelector (mkSel m []) = Ok f ∧ ∀ l, f l = true ↔ m ⊆ l;
  selector_in : ∀ k vs, vs ≠ [] → ∃ f,
    LabelSelectorAsSelector (mkSel ∅ [mkReq k LabelSelectorOpIn vs]) = Ok f ∧
    ∀ l, f l = true ↔ ∃ v, l !! k = Some v ∧ v ∈ vs;
  find_set_condition : ∀ cs c, FindStatusCondition (SetStatusCondition cs c) (cond_type c) = Some c;
  find_set_condition_ne : ∀ cs c t, t ≠ cond_type c →
    FindStatusCondition (SetStatusCondition cs c) t = FindStatusCondition cs t;
  DeepEqual_spec : ∀ {A} `{EqDecision A} (x y : A), DeepEqual x y = true ↔ x = y;
  SetControllerReference_new : ∀ svc p,
    obj_ns p = obj_ns svc → m_ownerReferences (np_meta p) = [] →
    SetControllerReference svc p = Ok (mkNP (np_apiVersion p) (np_kind p)
      (set_ownerReferences
         [mkOwnerRef "v1" "Service" (obj_name svc) (obj_uid svc) (Some true) (Some true)] (np_meta p))
      (np_spec p)) }.

(** ** Reads: [client.Reader] *)

(** [client.InNamespace], [client.MatchingLabels], [client.MatchingLabelsSelector]. *)
Record ListOptions := mkList {
  lo_namespace : option string;
  lo_matchLabels : gmap string string;
  lo_selector : option (gmap string string → bool) }.

Definition ListAll : ListOptions := mkList None ∅ None.
Definition InNamespace (ns : string) : ListOptions := mkList (Some ns) ∅ None.

Definition option_holds {A} (f : A → bool) (o : option A) : bool :=
  match o with Some a => f a | None => true end.

(** The objects a List returns: those the options select. *)
Definition selected_by {A} `{Object A} (o : ListOptions) (x : A) : bool :=
  option_holds (λ ns, obj_ns x =?? ns) (lo_namespace o) &&
  bool_decide (lo_matchLabels o ⊆ obj_labels x) &&
  option_holds (λ f, f (obj_labels x)) (lo_selector o).

Record Reader := mkReader {
  get_pod : ObjectKey → result Pod;
  get_namespace : string → result Namespace;
  get_vnet : ObjectKey → result VirtualNetwork;
  get_vnb : ObjectKey → result VirtualNetworkBinding;
  get_cluster_baseline : string → result ClusterVirtualNetworkBaseline;
  get_baseline : ObjectKey → result VirtualNetworkBaseline;
  get_service : ObjectKey → result Service;
  get_netpol : ObjectKey → result NetworkPolicy;
  list_pods : ListOptions → result (list Pod);
  list_namespaces : result (list Namespace);
  list_vnets : result (list VirtualNetwork);
  list_vnbs : ListOptions → result (list VirtualNetworkBinding);
  list_services : ListOptions → result (list Service);
  list_netpols : ListOptions → result (list NetworkPolicy);
  list_validating_webhooks : result (list WebhookConfiguration);
  list_mutating_webhooks : result (list WebhookConfiguration);
  list_apiservices : result (list APIService);
  list_crds : result (list CustomResourceDefinition) }.

(** ** Writes, Events and metrics *)

Inductive Write :=
  | WApplyPolicy (p : NetworkPolicy)                  (* Patch, client.Apply, ForceOwnership *)
  | WDeletePolicy (p : NetworkPolicy)                 (* Delete *)
  | WPatchPod (from to : Pod)                         (* Patch, client.MergeFrom *)
  | WApplyVnet (v : VirtualNetwork)                   (* Patch, client.Apply, ForceOwnership *)
  | WDeleteVnet (v : VirtualNetwork)
  | WUpdateVnetStatus (v : VirtualNetwork)            (* Status().Update *)
  | WUpdateBindingStatus (b : VirtualNetworkBinding).

(** The object an Event regards: its kind, namespace and name. *)
Record ObjRef := mkObjRef { oref_kind : string; oref_key : ObjectKey }.

Definition ref_of {A} `{Object A} (x : A) : ObjRef := mkObjRef (@obj_kind A _) (ObjectKeyFromObject x).

(** [Recorder.Eventf]: the note is formatted by the recorder. *)
Record Event := mkEvent {
  ev_regarding : ObjRef;
  ev_type : string;
  ev_reason : string;
  ev_action : string;
  ev_note : string;
  ev_args : list Arg }.

Definition EventTypeWarning : string := "Warning".
Definition EventTypeNormal : string := "Normal".

Inductive Metric :=
  | MApplyError (kind : string)                         (* applyErrors.Inc *)
  | MReconciled (outcome : string)                      (* reconciliations.Inc *)
  | MSetMembers (network : string) (count : nat)        (* membersByNetwork.Set *)
  | MClearMembers (network : string)                    (* membersByNetwork.DeleteLabelValues *)
  | MSetNetworks (count : nat)                          (* networksTotal.Set *)
  | MSetPolicies (count : nat).                         (* managedPolicies.Set *)

Inductive Action :=
  | AWrite (w : Write) (r : result unit)
  | AEvent (e : Event)
  | AMetric (m : Metric).

(** ** The client: reads and writes of a world *)

Class Client (W : Type) := {
  cl_reader : W → Reader;          (* the manager's client: reads from its cache *)
  cl_apireader : W → Reader;       (* mgr.GetAPIReader(): uncached *)
  cl_write : Write → W → result unit * W }.
#[global] Hint Mode Client ! : typeclass_instances.

(** The state of one reconciler: the world, what it has done, and its in-memory
    [policyTracker] and [onceSet] (signals.go). *)
Record St (W : Type) := mkSt {
  st_world : W;
  st_log : list Action;
  st_restores : gset ObjectKey;
  st_once : gmap ObjectKey (gmap string string) }.
Arguments mkSt {_} _ _ _ _.
Arguments st_world {_} _.
Arguments st_log {_} _.
Arguments st_restores {_} _.
Arguments st_once {_} _.

Definition IO (W A : Type) : Type := St W → A * St W.
Definition EIO (W A : Type) : Type := St W → result A * St W.

#[export] Instance IO_ret W : MRet (IO W) := λ A a st, (a, st).
#[export] Instance IO_bind W : MBind (IO W) := λ A B f m st, let '(a, st') := m st in f a st'.
#[export] Instance EIO_ret W : MRet (EIO W) := λ A a st, (Ok a, st).
#[export] Instance EIO_bind W : MBind (EIO W) := λ A B f m st,
  match m st with
  | (Ok a, st') => f a st'
  | (Err e, st') => (Err e, st')
  end.

(** [try m] and [attempt m] make the error of [m] a value; [throw e] returns with error [e]. *)
Definition try {W A} (m : EIO W A) : EIO W (result A) := λ st, let '(r, st') := m st in (Ok r, st').
Definition attempt {W A} (m : EIO W A) : IO W (result A) := m.
Definition throw {W A} (e : error) : EIO W A := λ st, (Err e, st).
Definition lift {W A} (r : result A) : EIO W A := λ st, (r, st).
Definition liftIO {W A} (m : IO W A) : EIO W A := λ st, let '(a, st') := m st in (Ok a, st').

Definition log_action {W} (a : Action) : IO W unit := λ st,
  (tt, mkSt (st_world st) (st_log st ++ [a]) (st_restores st) (st_once st)).

Section client.
Context {W : Type} `{Client W}.

Definition read {A} (f : Reader → result A) : EIO W A := λ st, (f (cl_reader (st_world st)), st).

Definition read_uncached {A} (f : Reader → result A) : EIO W A := λ st,
  (f (cl_apireader (st_world st)), st).

Definition write (w : Write) : EIO W unit := λ st,
  let '(r, w') := cl_write w (st_world st) in
  (r, mkSt w' (st_log st ++ [AWrite w r]) (st_restores st) (st_once st)).
End client.

(** What a [Reconcile] returns beside its error: [ctrl.Result{}], or one that asks
    for another run after some seconds. *)
Inductive Outcome := Finished | RequeueAfter (seconds : Z).

(** ** Loops *)

(** A loop that returns at the first error. *)
Fixpoint for_each {W A} (l : list A) (body : A → EIO W unit) : EIO W unit :=
  match l with
  | [] => mret tt
  | x :: l' => _ ← body x; for_each l' body
  end.

(** A loop that carries an accumulator and does not fail. *)
Fixpoint for_fold {W A B} (l : list A) (acc : B) (body : B → A → IO W B) : IO W B :=
  match l with
  | [] => mret acc
  | x :: l' => acc' ← body acc x; for_fold l' acc' body
  end.

(** ** The writes, Events and metrics of a log *)

Definition writes_of (l : list Action) : list Write :=
  omap (λ a, match a with AWrite w _ => Some w | _ => None end) l.
Definition events_of (l : list Action) : list Event :=
  omap (λ a, match a with AEvent e => Some e | _ => None end) l.

Lemma writes_of_app l1 l2 : writes_of (l1 ++ l2) = writes_of l1 ++ writes_of l2.
Proof. apply omap_app. Qed.
Lemma events_of_app l1 l2 : events_of (l1 ++ l2) = events_of l1 ++ events_of l2.
Proof. apply omap_app. Qed.
