(* ===== verification/Direction.v ===== *)
(** * Directions (internal/controller/policy_generator.go, resolution.go)

    A direction is the string the code has it as: the value of a label, of a
    binding or of a baseline entry. [perm] reads a direction as what it grants:
    whether the pod accepts traffic and whether it may initiate it. *)

From S2P Require Import Prelude GoStrings.

Abbreviation Direction := string (only parsing).

Definition DirectionBoth : Direction := "both".
Definition DirectionIngress : Direction := "ingress".
Definition DirectionEgress : Direction := "egress".
Definition DirectionNone : Direction := "none".
Definition DirectionDefaultBoth : Direction := "default-both".
Definition DirectionDefaultIngress : Direction := "default-ingress".
Definition DirectionDefaultEgress : Direction := "default-egress".
Definition DirectionDefaultNone : Direction := "default-none".

Definition bare_directions : list Direction :=
  [DirectionBoth; DirectionIngress; DirectionEgress; DirectionNone].
Definition default_directions : list Direction :=
  [DirectionDefaultBoth; DirectionDefaultIngress; DirectionDefaultEgress; DirectionDefaultNone].

(** [d.IsDefault()]. *)
Definition IsDefault (d : Direction) : bool := bool_decide (d ∈ default_directions).

(** [d.Bare()]: [d[len("default-"):]] for a default value. *)
Definition Bare (d : Direction) : Direction :=
  if IsDefault d then str_drop (String.length "default-") d else d.

Definition ParseDirection (value : string) : option Direction :=
  if decide (value ∈ bare_directions ++ default_directions) then Some value else None.

Definition ParseBareDirection (value : string) : option Direction :=
  match ParseDirection value with
  | Some d => if IsDefault d then None else Some d
  | None => None
  end.

(** [intersect] of resolution.go. *)
Definition intersect (a b : Direction) : Direction :=
  let a := Bare a in
  let b := Bare b in
  if (a =?? DirectionNone) || (b =?? DirectionNone) then DirectionNone
  else if a =?? b then a
  else if a =?? DirectionBoth then b
  else if b =?? DirectionBoth then a
  else DirectionNone.

(** ** What a direction grants *)

Record Perm := mkPerm { accepts : bool; initiates : bool }.

#[export] Instance Perm_eq_dec : EqDecision Perm.
Proof. solve_decision. Defined.

Definition perm_none : Perm := mkPerm false false.
Definition perm_all : Perm := mkPerm true true.
Definition perm_meet (p q : Perm) : Perm :=
  mkPerm (accepts p && accepts q) (initiates p && initiates q).

(** [p] grants no more than [q]. *)
Definition perm_le (p q : Perm) : Prop :=
  (accepts p = true → accepts q = true) ∧ (initiates p = true → initiates q = true).

Definition perm (d : Direction) : Perm :=
  let b := Bare d in
  mkPerm ((b =?? DirectionBoth) || (b =?? DirectionIngress))
         ((b =?? DirectionBoth) || (b =?? DirectionEgress)).

(** The directions that are values of the enum, and the bare ones. *)
Definition valid_direction (d : Direction) : Prop := d ∈ bare_directions ++ default_directions.
Definition bare_direction (d : Direction) : Prop := d ∈ bare_directions.

#[export] Instance valid_direction_dec d : Decision (valid_direction d).
Proof. unfold valid_direction. apply _. Defined.
#[export] Instance bare_direction_dec d : Decision (bare_direction d).
Proof. unfold bare_direction. apply _. Defined.

(** ** Facts *)

(** The cases of a membership in one of the enumerations above. *)
Ltac direction_cases H :=
  unfold valid_direction, bare_direction, bare_directions, default_directions in H;
  cbn [app] in H;
  repeat (apply elem_of_cons in H as [->|H]; [|try solve [destruct (not_elem_of_nil _ H)]]).

Lemma bare_valid d : bare_direction d → valid_direction d.
Proof. unfold bare_direction, valid_direction. rewrite elem_of_app. auto. Qed.

Lemma Bare_bare d : valid_direction d → bare_direction (Bare d).
Proof. intros H. direction_cases H; kv_decide. Qed.

Lemma Bare_not_default d : IsDefault d = false → Bare d = d.
Proof. unfold Bare. by intros ->. Qed.

Lemma bare_not_default d : bare_direction d → IsDefault d = false.
Proof. intros H. by direction_cases H. Qed.

Lemma Bare_of_bare d : bare_direction d → Bare d = d.
Proof. intros H. by apply Bare_not_default, bare_not_default. Qed.

Lemma Bare_idemp d : Bare (Bare d) = Bare d.
Proof.
  destruct (IsDefault d) eqn:E; [|by rewrite !(Bare_not_default d E)].
  unfold IsDefault in E. kv_bools. by direction_cases E.
Qed.

Lemma valid_not_default d : valid_direction d → IsDefault d = false → bare_direction d.
Proof. intros H Hd. rewrite <-(Bare_not_default d) by done. by apply Bare_bare. Qed.

(** Prefixing a bare direction makes its default variant. *)
Lemma default_of_bare d : bare_direction d →
  valid_direction ("default-" +:+ d) ∧ IsDefault ("default-" +:+ d) = true ∧
  Bare ("default-" +:+ d) = d.
Proof.
  intros H. direction_cases H; (split; [kv_decide|done]).
Qed.

Lemma ParseDirection_Some v d : ParseDirection v = Some d ↔ d = v ∧ valid_direction v.
Proof. unfold ParseDirection, valid_direction. case_decide; naive_solver. Qed.

Lemma ParseBareDirection_Some v d : ParseBareDirection v = Some d ↔ d = v ∧ bare_direction v.
Proof.
  unfold ParseBareDirection. split.
  - destruct (ParseDirection v) as [d'|] eqn:E; [|done].
    apply ParseDirection_Some in E as [-> Hv]. destruct (IsDefault v) eqn:Ed; [done|].
    intros [= <-]. split; [done|]. by apply valid_not_default.
  - intros [-> Hb]. pose proof (bare_valid _ Hb) as Hv.
    assert (ParseDirection v = Some v) as -> by (by apply ParseDirection_Some).
    by rewrite bare_not_default.
Qed.

Lemma perm_Bare d : perm (Bare d) = perm d.
Proof. unfold perm. by rewrite Bare_idemp. Qed.

(** A bare direction is determined by what it grants. *)
Lemma perm_inj d1 d2 : bare_direction d1 → bare_direction d2 → perm d1 = perm d2 → d1 = d2.
Proof. intros H1 H2. direction_cases H1; direction_cases H2; done. Qed.

Lemma perm_none_iff d : valid_direction d → perm d = perm_none ↔ Bare d = DirectionNone.
Proof. intros H. direction_cases H; done. Qed.

Lemma intersect_bare a b : valid_direction a → valid_direction b → bare_direction (intersect a b).
Proof.
  intros Ha%Bare_bare Hb%Bare_bare. unfold intersect.
  repeat case_match; try done; kv_decide.
Qed.

(** The truth table of [intersect]: the meet of what both grant. *)
Lemma perm_intersect a b : valid_direction a → valid_direction b →
  perm (intersect a b) = perm_meet (perm a) (perm b).
Proof. intros Ha Hb. direction_cases Ha; direction_cases Hb; done. Qed.

Lemma intersect_same a b : Bare a = Bare b → intersect a b = Bare a.
Proof.
  unfold intersect. intros <-. rewrite orb_diag. case_bool_decide as E; [done|].
  by rewrite bool_decide_eq_true_2.
Qed.

Lemma intersect_comm a b : valid_direction a → valid_direction b → intersect a b = intersect b a.
Proof. intros Ha Hb. direction_cases Ha; direction_cases Hb; done. Qed.

Lemma perm_meet_comm p q : perm_meet p q = perm_meet q p.
Proof. destruct p, q; unfold perm_meet; simpl. by rewrite (andb_comm accepts0), (andb_comm initiates0). Qed.
Lemma perm_meet_assoc p q r : perm_meet p (perm_meet q r) = perm_meet (perm_meet p q) r.
Proof. unfold perm_meet. simpl. by rewrite !andb_assoc. Qed.
Lemma perm_meet_all_l p : perm_meet perm_all p = p.
Proof. by destruct p. Qed.
Lemma perm_meet_le_l p q : perm_le (perm_meet p q) p.
Proof. split; simpl; intros H; kv_bools; done. Qed.
Lemma perm_meet_le_r p q : perm_le (perm_meet p q) q.
Proof. rewrite perm_meet_comm. apply perm_meet_le_l. Qed.

#[export] Instance perm_le_preorder : PreOrder perm_le.
Proof. split; [by intros ?|]. intros p q r [??] [??]. split; auto. Qed.

#[export] Hint Resolve bare_valid Bare_bare intersect_bare perm_meet_le_l perm_meet_le_r : kv.
