(* ===== verification/Names.v ===== *)
(** * Label keys, vnet keys and policy names

    policy_generator.go (constants, SystemLabelKey, PolicyName, policyHash,
    truncatePolicyName, SourceLabelValue), permits.go (splitVnetKey),
    resolver.go (canonicalVnetKey, stampedVnetKey, isPrefixedClusterSuffix),
    resolution_controller.go (CanonicalSuffix), external_allow_controller.go and
    hostport_controller.go (policy names). *)

From Stdlib Require Import Ascii.
From S2P Require Import Prelude GoStrings Sha256 Types.

(** ** Constants *)

Definition LabelK8sManagedBy : string := "app.kubernetes.io/managed-by".
Definition LabelManagedBy : string := "kube-vnet.system/managed-by".
Definition LabelManagedByValue : string := "kube-vnet".
Definition LabelNetwork : string := "kube-vnet.system/network".
Definition LabelRole : string := "kube-vnet.system/role".
Definition LabelRoleMembership : string := "membership".
Definition LabelRoleBaseline : string := "baseline".
Definition LabelRoleExternalAllow : string := "external-allow".
Definition LabelSystemHostPortPrefix : string := "kube-vnet.system/host-port.".
Definition LabelSource : string := "kube-vnet.system/source".
Definition LabelSourceKind : string := "kube-vnet.system/source-kind".
Definition LabelSourceKindService : string := "svc".
Definition LabelSourceKindHost : string := "host".
Definition LabelSourceKindApiserver : string := "apiserver".
Definition NamespaceMetadataNameLabel : string := "kubernetes.io/metadata.name".
Definition DefaultLabelPrefix : string := "kube-vnet/".
Definition PolicyKindMembership : string := "mem".
Definition PolicyKindExternal : string := "ext".
Definition LabelSystemNetPrefix : string := "kube-vnet.system/net.".
Definition userJoinPrefix : string := DefaultLabelPrefix +:+ "net.".
Definition SystemVnetNamespace : string := "namespace".
Definition SystemVnetCluster : string := "cluster".
Definition BaselinePolicyName : string := "kube-vnet.base".

(** ** Vnet keys: [<homeNS>.<vnet>], or bare [cluster] *)

Abbreviation VnetKey := string (only parsing).

Definition dotted (a b : string) : string := a +:+ "." +:+ b.

Definition splitVnetKey (k : VnetKey) : option (string * string) :=
  if k =?? "" then None
  else if k =?? SystemVnetCluster then Some ("", SystemVnetCluster)
  else let '(homeNS, vnetName, ok) := Cut "." k in
       if negb ok || (homeNS =?? "") || (vnetName =?? "") then None
       else Some (homeNS, vnetName).

Definition Display (k : VnetKey) : string :=
  match splitVnetKey k with
  | None => k
  | Some (homeNS, name) => if homeNS =?? "" then k else homeNS +:+ "/" +:+ name
  end.

Definition CanonicalSuffix (suffix scopeNS : string) : string :=
  if suffix =?? SystemVnetCluster then SystemVnetCluster
  else if Contains "." suffix then suffix
  else dotted scopeNS suffix.

Definition canonicalVnetKey (ref : VirtualNetworkRef) (podNS : string) : VnetKey :=
  if ref_namespace ref =?? "" then
    if ref_name ref =?? SystemVnetCluster then SystemVnetCluster
    else dotted podNS (ref_name ref)
  else dotted (ref_namespace ref) (ref_name ref).

Definition stampedVnetKey (k : VnetKey) : VnetKey :=
  match splitVnetKey k with
  | Some (_, name) => if name =?? SystemVnetCluster then SystemVnetCluster else k
  | None => k
  end.

Definition isPrefixedClusterSuffix (suffix : string) : bool :=
  HasSuffix suffix ("." +:+ SystemVnetCluster).

Definition SystemLabelKey (homeNS vnet : string) : string :=
  if vnet =?? SystemVnetCluster then LabelSystemNetPrefix +:+ SystemVnetCluster
  else LabelSystemNetPrefix +:+ dotted homeNS vnet.

(** ** Policy names *)

Definition policyHash (parts : list string) : string := hex8 (Join parts (String "000"%char "")).

Definition truncatePolicyName (name : string) : string :=
  if (String.length name <=? 253)%nat then name
  else
    let suffix := "-" +:+ hex8 name in
    str_take (253 - String.length suffix) name +:+ suffix.

Definition PolicyName (vnet homeNS : string) : string :=
  if vnet =?? SystemVnetCluster then
    truncatePolicyName ("kube-vnet." +:+ PolicyKindMembership +:+ "." +:+ SystemVnetCluster +:+ "-" +:+
      policyHash ["membership"; ""; SystemVnetCluster])
  else
    truncatePolicyName ("kube-vnet." +:+ PolicyKindMembership +:+ "." +:+ homeNS +:+ "." +:+ vnet +:+ "-" +:+
      policyHash ["membership"; homeNS; vnet]).

Definition SourceLabelValue (prefix namespace name : string) : string :=
  let full := prefix +:+ name in
  if (String.length full <=? 63)%nat then full
  else
    let suffix := "-" +:+ policyHash ["source"; namespace; name] in
    let keep := (63 - String.length prefix - String.length suffix)%nat in
    prefix +:+ str_take keep name +:+ suffix.

Definition servicePolicyName (sourceKind ns name : string) : string :=
  let prefix := "kube-vnet." +:+ PolicyKindExternal +:+ "." +:+ sourceKind +:+ "." in
  let maxBase := (63 - String.length prefix - 1 - 8)%nat in
  let base := str_take (Nat.min (String.length name) maxBase) name in
  prefix +:+ base +:+ "-" +:+ hex8 (ns +:+ "/" +:+ name).

(** hostPortPolicyName, for a key rendered as [<port>.<proto>]. *)
Definition hostPortPolicyName (ns identity : string) : string :=
  "kube-vnet." +:+ PolicyKindExternal +:+ "." +:+ LabelSourceKindHost +:+ "." +:+
  identity +:+ "-" +:+ hex8 (ns +:+ "/" +:+ identity).

(** ** Facts about keys *)

Lemma dotted_cons a b : dotted a b = a +:+ String "." b.
Proof. done. Qed.

Lemma Cut_dotted a b : Contains "." a = false → Cut "." (dotted a b) = (a, b, true).
Proof. apply Cut_app. Qed.

Lemma dotted_inj a1 a2 b1 b2 :
  Contains "." a1 = false → Contains "." a2 = false →
  dotted a1 b1 = dotted a2 b2 → a1 = a2 ∧ b1 = b2.
Proof. rewrite !dotted_cons. apply cut_inj. Qed.

Lemma Contains_dotted a b : Contains "." (dotted a b) = true.
Proof. rewrite dotted_cons, Contains_app. simpl. apply orb_true_r. Qed.

Lemma dotted_not_cluster a b : dotted a b ≠ SystemVnetCluster.
Proof. intros H. pose proof (Contains_dotted a b) as Hc. by rewrite H in Hc. Qed.

Lemma dotted_not_empty a b : dotted a b ≠ "".
Proof. intros H. pose proof (Contains_dotted a b) as Hc. by rewrite H in Hc. Qed.

#[export] Hint Resolve dotted_not_cluster dotted_not_empty Contains_dotted : kv.

Lemma splitVnetKey_dotted homeNS name :
  Contains "." homeNS = false → homeNS ≠ "" → name ≠ "" →
  splitVnetKey (dotted homeNS name) = Some (homeNS, name).
Proof.
  intros Hd Hh Hn. unfold splitVnetKey.
  rewrite !bool_decide_eq_false_2 by auto with kv.
  rewrite Cut_dotted by done. simpl. by rewrite !bool_decide_eq_false_2.
Qed.

Lemma splitVnetKey_cluster : splitVnetKey SystemVnetCluster = Some ("", SystemVnetCluster).
Proof. done. Qed.

(** What a key splits into spells the key again. *)
Lemma splitVnetKey_Some k homeNS name :
  splitVnetKey k = Some (homeNS, name) →
  (k = SystemVnetCluster ∧ homeNS = "" ∧ name = SystemVnetCluster) ∨
  (k = dotted homeNS name ∧ homeNS ≠ "" ∧ name ≠ "" ∧ Contains "." homeNS = false).
Proof.
  unfold splitVnetKey. case_bool_decide; [done|]. case_bool_decide; [naive_solver|].
  destruct (Cut "." k) as [[b a] ok] eqn:E. destruct ok; [|done]. simpl.
  destruct (Cut_found _ _ _ _ E) as [-> Hb].
  destruct (b =?? "") eqn:?, (a =?? "") eqn:?; simpl; try done.
  intros [= <- <-]. kv_bools. by right.
Qed.

Lemma SystemLabelKey_inj home1 v1 home2 v2 :
  Contains "." home1 = false → Contains "." home2 = false →
  SystemLabelKey home1 v1 = SystemLabelKey home2 v2 →
  (v1 = SystemVnetCluster ∧ v2 = SystemVnetCluster) ∨ (home1 = home2 ∧ v1 = v2).
Proof.
  intros H1 H2. unfold SystemLabelKey.
  do 2 case_bool_decide; intros Heq%(inj (String.app _)); subst; auto.
  - by destruct (dotted_not_cluster home2 v2).
  - by destruct (dotted_not_cluster home1 v1).
  - right. by apply dotted_inj.
Qed.

(** The stamp of a reference from any namespace is the key its vnet's policies select on. *)
Lemma stamped_is_system_key homeNS name :
  Contains "." homeNS = false → homeNS ≠ "" → name ≠ "" →
  LabelSystemNetPrefix +:+ stampedVnetKey (dotted homeNS name) = SystemLabelKey homeNS name.
Proof.
  intros Hd Hh Hn. unfold stampedVnetKey, SystemLabelKey.
  rewrite splitVnetKey_dotted by done. by case_bool_decide.
Qed.

(** ** Facts about hashes *)

Lemma hex_digit_no_dot n : (n < 16)%N → Contains "." (hex_digit n) = false.
Proof.
  intros Hn. assert (n ∈ (N.of_nat <$> seq 0 16)) as Hin.
  { apply list_elem_of_fmap. exists (N.to_nat n). rewrite N2Nat.id. split; [done|].
    apply elem_of_seq. lia. }
  assert (Forall (λ k, Contains "." (hex_digit k) = false) (N.of_nat <$> seq 0 16)) as Hall.
  { repeat constructor. }
  rewrite Forall_forall in Hall. by apply Hall.
Qed.

Lemma encode_no_dot bs : Forall (λ b, (b < 256)%N) bs → Contains "." (EncodeToString bs) = false.
Proof.
  induction 1 as [|b bs Hb _ IH]; [done|]. simpl EncodeToString.
  rewrite !Contains_app, IH, !hex_digit_no_dot; [done|..].
  - apply N.mod_lt. lia.
  - apply N.Div0.div_lt_upper_bound. lia.
Qed.

Lemma be_bytes_bound n x : Forall (λ b, (b < 256)%N) (be_bytes n x).
Proof.
  induction n; simpl; constructor; [|done].
  change 255%N with (N.ones 8). rewrite N.land_ones. by apply N.mod_lt.
Qed.

Lemma Sum256_bound s : Forall (λ b, (b < 256)%N) (Sum256 s).
Proof.
  unfold Sum256. set (hs := foldl _ _ _). clearbody hs.
  induction hs as [|h hs IH]; [constructor|].
  change (flat_map (be_bytes 4) (h :: hs)) with (be_bytes 4 h ++ flat_map (be_bytes 4) hs).
  apply Forall_app; split; [apply (be_bytes_bound 4)|done].
Qed.

Lemma hex8_no_dot s : Contains "." (hex8 s) = false.
Proof. apply encode_no_dot, Forall_take, Sum256_bound. Qed.

#[export] Hint Resolve hex8_no_dot : kv.

(** ** Facts about policy names *)

Lemma truncatePolicyName_length name : (String.length (truncatePolicyName name) ≤ 253)%nat.
Proof.
  unfold truncatePolicyName. destruct (Nat.leb_spec (String.length name) 253); [done|].
  autorewrite with gostr. rewrite length_str_take; simpl; autorewrite with gostr; simpl; lia.
Qed.

Lemma truncatePolicyName_short name :
  (String.length name ≤ 253)%nat → truncatePolicyName name = name.
Proof. intros H. unfold truncatePolicyName. by apply Nat.leb_le in H as ->. Qed.

(** A membership policy of vnets named by DNS labels is never truncated. *)
Lemma PolicyName_untruncated vnet homeNS :
  (String.length vnet ≤ 63)%nat → (String.length homeNS ≤ 63)%nat →
  PolicyName vnet homeNS =
    "kube-vnet.mem." +:+
    (if vnet =?? SystemVnetCluster then SystemVnetCluster else dotted homeNS vnet) +:+
    "-" +:+ policyHash (if vnet =?? SystemVnetCluster then ["membership"; ""; SystemVnetCluster]
                        else ["membership"; homeNS; vnet]).
Proof.
  intros Hv Hh. unfold PolicyName, dotted. case_bool_decide; rewrite truncatePolicyName_short.
  - done.
  - unfold policyHash. autorewrite with gostr. simpl. lia.
  - by rewrite !app_assoc_str.
  - unfold policyHash. autorewrite with gostr. simpl. lia.
Qed.

Lemma servicePolicyName_length_kind sourceKind ns name :
  (String.length sourceKind ≤ 39)%nat →
  (String.length (servicePolicyName sourceKind ns name) ≤ 63)%nat.
Proof.
  intros Hk. unfold servicePolicyName. autorewrite with gostr. rewrite length_str_take_min.
  simpl. lia.
Qed.

Lemma SourceLabelValue_short prefix namespace name :
  (String.length prefix + String.length name ≤ 63)%nat →
  SourceLabelValue prefix namespace name = prefix +:+ name.
Proof.
  intros H. unfold SourceLabelValue. rewrite length_app_str. by apply Nat.leb_le in H as ->.
Qed.

Lemma SourceLabelValue_length prefix namespace name :
  (String.length prefix ≤ 54)%nat →
  (String.length (SourceLabelValue prefix namespace name) ≤ 63)%nat.
Proof.
  intros Hp. unfold SourceLabelValue, policyHash.
  destruct (Nat.leb_spec (String.length (prefix +:+ name)) 63) as [|Hl]; [done|].
  autorewrite with gostr. rewrite length_str_take_min. simpl. lia.
Qed.

(** The identity inside a membership policy name. *)
Definition policy_identity (vnet homeNS : string) : string :=
  if vnet =?? SystemVnetCluster then SystemVnetCluster else dotted homeNS vnet.

Lemma policy_identity_inj v1 h1 v2 h2 :
  Contains "." h1 = false → Contains "." h2 = false →
  policy_identity v1 h1 = policy_identity v2 h2 →
  (v1 = SystemVnetCluster ∧ v2 = SystemVnetCluster) ∨ (v1 = v2 ∧ h1 = h2).
Proof.
  intros H1 H2 Heq. destruct (SystemLabelKey_inj h1 v1 h2 v2 H1 H2) as [?|[-> ->]]; auto.
  unfold policy_identity in Heq. unfold SystemLabelKey.
  do 2 case_bool_decide; congruence.
Qed.

Lemma PolicyName_identity v1 h1 v2 h2
    (Hv1 : (String.length v1 ≤ 63)%nat) (Hh1 : (String.length h1 ≤ 63)%nat)
    (Hv2 : (String.length v2 ≤ 63)%nat) (Hh2 : (String.length h2 ≤ 63)%nat)
    (Hd1 : is_dns_label h1 = true) (Hd2 : is_dns_label h2 = true)
    (Heq : PolicyName v1 h1 = PolicyName v2 h2) :
  (v1 = SystemVnetCluster ∧ v2 = SystemVnetCluster) ∨ (v1 = v2 ∧ h1 = h2).
Proof.
  rewrite !PolicyName_untruncated in Heq by done.
  apply (inj (String.app _)) in Heq.
  apply app_inj_length_r in Heq as [Hid _].
  - apply policy_identity_inj; auto with kv.
  - unfold policyHash. autorewrite with gostr. done.
Qed.

(** ** Properties *)






