(* ===== verification/Resolution.v ===== *)
(** * The resolution lattice (internal/controller/resolution.go)

    [Resolve] folds the layers in scope order; within a layer it groups the
    rules by vnet, in the order of the vnet keys, and intersects each group. The
    specification of what it computes is in [ResolutionSpec]. *)

From S2P Require Import Prelude GoStrings Types Effects Names Direction.

Record ResolutionRule := mkRule {
  rr_vnet : VnetKey;
  rr_direction : Direction;
  rr_source : string;
  rr_ref : VirtualNetworkRef;
  rr_hint : string;
  rr_owner : option ObjRef }.

Inductive ResolutionScope := ScopeClusterBaseline | ScopeNamespaceBaseline | ScopePod.

#[export] Instance ResolutionScope_eq_dec : EqDecision ResolutionScope.
Proof. solve_decision. Defined.

(** The integer of the Go constant; layers cascade in its order. *)
Definition scope_rank (s : ResolutionScope) : nat :=
  match s with ScopeClusterBaseline => 0 | ScopeNamespaceBaseline => 1 | ScopePod => 2 end.

Definition scope_string (s : ResolutionScope) : string :=
  match s with
  | ScopeClusterBaseline => "cluster-baseline"
  | ScopeNamespaceBaseline => "namespace-baseline"
  | ScopePod => "pod"
  end.

Definition scope_describe (s : ResolutionScope) : string :=
  match s with
  | ScopeClusterBaseline => "the ClusterVirtualNetworkBaseline"
  | ScopeNamespaceBaseline => "this namespace's VirtualNetworkBaseline"
  | ScopePod => "a binding or pod label"
  end.

Record ResolutionLayer := mkLayer { rl_scope : ResolutionScope; rl_rules : list ResolutionRule }.

Record ResolutionConflict := mkConflict {
  rc_vnet : VnetKey;
  rc_scope : ResolutionScope;
  rc_participants : list ResolutionRule;
  rc_effective : Direction }.

Record OverrideRejected := mkRejected {
  or_vnet : VnetKey;
  or_attemptedScope : ResolutionScope;
  or_attemptedDir : Direction;
  or_blockingScope : ResolutionScope;
  or_blockingDir : Direction }.

Record ResolutionResult := mkResult {
  res_effective : gmap string Direction;
  res_conflicts : list ResolutionConflict;
  res_rejected : list OverrideRejected }.

(** ** Orders *)

Definition scope_le (a b : ResolutionScope) : Prop := scope_rank a ≤ scope_rank b.

#[export] Instance scope_le_dec : RelDecision scope_le.
Proof. intros a b. unfold scope_le. apply _. Defined.
#[export] Instance scope_le_trans : Transitive scope_le.
Proof. intros a b c. unfold scope_le. lia. Qed.
#[export] Instance scope_le_total : Total scope_le.
Proof. intros a b. unfold scope_le. lia. Qed.
#[export] Instance scope_le_antisymm : AntiSymm (=) scope_le.
Proof. intros [] []; unfold scope_le; simpl; try done; lia. Qed.

(** [cmp.Or(cmp.Compare(a.Scope, b.Scope), cmp.Compare(a.Vnet, b.Vnet))]. *)
Definition report_le (a b : ResolutionScope * VnetKey) : Prop :=
  (scope_rank a.1 < scope_rank b.1)%nat ∨
  (scope_rank a.1 = scope_rank b.1 ∧ String.le a.2 b.2).

#[export] Instance report_le_dec : RelDecision report_le.
Proof. intros a b. unfold report_le. apply _. Defined.

(** ** One group of rules: the same vnet in one layer *)

(** The variables of the loop over the rules of a group. *)
Record Group := mkGroup { g_eff : Direction; g_disagree : bool; g_anyDefault : bool; g_anyBare : bool }.

Definition group_start (r : ResolutionRule) : Group :=
  mkGroup (rr_direction r) false (IsDefault (rr_direction r)) (negb (IsDefault (rr_direction r))).

Definition group_step (g : Group) (r : ResolutionRule) : Group :=
  mkGroup (intersect (g_eff g) (rr_direction r))
    (if Bare (rr_direction r) =?? Bare (g_eff g) then g_disagree g else true)
    (if IsDefault (rr_direction r) then true else g_anyDefault g)
    (if IsDefault (rr_direction r) then g_anyBare g else true).

(** The layer's value for the group: bare unless every participant was a default. *)
Definition group_value (g : Group) : Direction :=
  if g_anyDefault g && negb (g_anyBare g) then "default-" +:+ Bare (g_eff g) else g_eff g.

(** [rules[0]] panics on an empty group; [byVnet] holds none. *)
Definition intersect_group (rules : list ResolutionRule) : option Group :=
  match rules with
  | [] => None
  | r :: rest => Some (foldl group_step (group_start r) rest)
  end.

(** ** The cascade *)

Record Running := mkRunning { run_direction : Direction; run_fromScope : ResolutionScope }.

Record ResolveState := mkState {
  rs_current : gmap string Running;
  rs_conflicts : list ResolutionConflict;
  rs_rejected : list OverrideRejected }.

Definition byVnet (rules : list ResolutionRule) : gmap string (list ResolutionRule) :=
  foldl (λ m r, <[rr_vnet r := default [] (m !! rr_vnet r) ++ [r]]> m) ∅ rules.

(** The cross-layer part: the value of a layer against the running value. *)
Definition cascade (scope : ResolutionScope) (eff : Direction) (cur : option Running) :
    option Running * option (Direction * ResolutionScope) :=
  match cur with
  | Some ex =>
      if IsDefault (run_direction ex) then (Some (mkRunning eff scope), None)
      else if Bare eff =?? run_direction ex then (cur, None)
      else (cur, Some (run_direction ex, run_fromScope ex))
  | None => (Some (mkRunning eff scope), None)
  end.

(** One iteration of the loop over the vnets of a layer. *)
Definition resolve_vnet (scope : ResolutionScope) (m : gmap string (list ResolutionRule))
    (acc : ResolveState) (vnet : VnetKey) : ResolveState :=
  let rules := stable_sort (by_key rr_source String.le) (default [] (m !! vnet)) in
  match intersect_group rules with
  | None => acc
  | Some g =>
      let eff := group_value g in
      let conflicts :=
        if g_disagree g then rs_conflicts acc ++ [mkConflict vnet scope rules (Bare eff)]
        else rs_conflicts acc in
      let '(cur, blocked) := cascade scope eff (rs_current acc !! vnet) in
      mkState (partial_alter (λ _, cur) vnet (rs_current acc)) conflicts
        (match blocked with
         | Some (dir, from) => rs_rejected acc ++ [mkRejected vnet scope eff from dir]
         | None => rs_rejected acc
         end)
  end.

Definition map_keys {V} (m : gmap string V) : list string := map fst (map_to_list m).

Definition resolve_layer (acc : ResolveState) (layer : ResolutionLayer) : ResolveState :=
  let m := byVnet (rl_rules layer) in
  foldl (resolve_vnet (rl_scope layer) m) acc (sort_strings (map_keys m)).

Definition ordered_layers (layers : list ResolutionLayer) : list ResolutionLayer :=
  stable_sort (by_key rl_scope scope_le) layers.

Definition effective_entry (r : Running) : option Direction :=
  let bare := Bare (run_direction r) in
  if bare =?? DirectionNone then None else Some bare.

Definition Resolve (layers : list ResolutionLayer) : ResolutionResult :=
  let st := foldl resolve_layer (mkState ∅ [] []) (ordered_layers layers) in
  mkResult (omap effective_entry (rs_current st))
    (stable_sort (by_key (λ c, (rc_scope c, rc_vnet c)) report_le) (rs_conflicts st))
    (stable_sort (by_key (λ o, (or_attemptedScope o, or_vnet o)) report_le) (rs_rejected st)).

(** ** Facts about groups *)

Lemma byVnet_lookup rules v :
  byVnet rules !! v =
    match filter (λ r, rr_vnet r = v) rules with [] => None | l => Some l end.
Proof.
  unfold byVnet. induction rules as [|r rules IH] using rev_ind; [done|].
  rewrite foldl_app, filter_app. simpl. rewrite filter_cons, filter_nil.
  destruct (decide (rr_vnet r = v)) as [<-|Hne].
  - rewrite lookup_insert_eq, IH. by destruct (filter _ rules).
  - rewrite lookup_insert_ne, IH by done. by rewrite app_nil_r.
Qed.

Lemma byVnet_group rules v :
  default [] (byVnet rules !! v) = filter (λ r, rr_vnet r = v) rules.
Proof. rewrite byVnet_lookup. by destruct (filter _ rules). Qed.

Lemma elem_of_map_keys {V} (m : gmap string V) k : k ∈ map_keys m ↔ is_Some (m !! k).
Proof.
  unfold map_keys. rewrite list_elem_of_fmap. split.
  - intros ([k' x] & -> & Hx%elem_of_map_to_list). by exists x.
  - intros [x Hx%elem_of_map_to_list]. by exists (k, x).
Qed.

Lemma NoDup_sorted_keys {V} (m : gmap string V) : NoDup (sort_strings (map_keys m)).
Proof. unfold sort_strings. rewrite stable_sort_perm. apply NoDup_fst_map_to_list. Qed.

(** The rules a group is built of are values of the enum. *)
Definition rules_valid (rules : list ResolutionRule) : Prop :=
  Forall (λ r, valid_direction (rr_direction r)) rules.

(** What a group of rules grants and whether it lets lower tiers override it. *)
Definition group_perm (rules : list ResolutionRule) : Perm :=
  foldr (λ r p, perm_meet (perm (rr_direction r)) p) perm_all rules.
Definition all_default (rules : list ResolutionRule) : bool :=
  forallb (λ r, IsDefault (rr_direction r)) rules.

Definition all_bare (rules : list ResolutionRule) : bool :=
  forallb (λ r, negb (IsDefault (rr_direction r))) rules.

Lemma group_fold rest g :
  valid_direction (g_eff g) → rules_valid rest →
  let g' := foldl group_step g rest in
  valid_direction (g_eff g') ∧
  perm (g_eff g') = perm_meet (perm (g_eff g)) (group_perm rest) ∧
  g_anyDefault g' = g_anyDefault g || negb (all_bare rest) ∧
  g_anyBare g' = g_anyBare g || negb (all_default rest) ∧
  (bare_direction (g_eff g') ∨ g' = g ∧ rest = []).
Proof.
  intros Hg Hr. revert g Hg. induction Hr as [|r rest Hv _ IH]; intros g Hg; simpl.
  - split_and!; auto; try by rewrite orb_false_r.
    destruct (perm _). unfold perm_meet. simpl. by rewrite !andb_true_r.
  - destruct (IH (group_step g r)) as (H1 & H2 & H3 & H4 & H5); [simpl; auto with kv|].
    split_and!; [done|..].
    + rewrite H2. simpl. rewrite perm_intersect by done. by rewrite perm_meet_assoc.
    + rewrite H3. simpl. destruct (IsDefault _), (g_anyDefault g); done.
    + rewrite H4. simpl. destruct (IsDefault _), (g_anyBare g); done.
    + left. destruct H5 as [?|[-> ->]]; [done|]. simpl. auto with kv.
Qed.

(** The value of a non-empty group: the meet of its rules, a default exactly
    when every rule is one. *)
Lemma group_value_spec r rest :
  rules_valid (r :: rest) →
  let eff := group_value (foldl group_step (group_start r) rest) in
  valid_direction eff ∧ perm eff = group_perm (r :: rest) ∧
  IsDefault eff = all_default (r :: rest).
Proof.
  intros Hall. inversion_clear Hall as [|? ? Hr Hrest]. simpl.
  destruct (group_fold rest (group_start r) Hr Hrest) as (Hv & Hp & Hd & Hb & He). simpl in *.
  unfold group_value. rewrite Hd, Hb.
  destruct (IsDefault (rr_direction r)) eqn:Er; simpl.
  - destruct (all_default rest) eqn:Ea; simpl.
    + destruct (default_of_bare (Bare (g_eff (foldl group_step (group_start r) rest))))
        as (H1 & H2 & H3); [auto with kv|].
      split_and!; [done| |done]. by rewrite <-perm_Bare, H3, perm_Bare.
    + split_and!; [done..|]. destruct He as [He|[_ ->]]; [|done]. by apply bare_not_default.
  - rewrite andb_false_r. split_and!; [done..|].
    destruct He as [He|[-> _]]; [by apply bare_not_default|done].
Qed.

(** The conflict flag: two rules of the group differ in their bare direction. *)
Lemma group_disagree_fold rest g :
  g_disagree (foldl group_step g rest) = true ↔
    g_disagree g = true ∨ ∃ r, r ∈ rest ∧ Bare (rr_direction r) ≠ Bare (g_eff g).
Proof.
  revert g. induction rest as [|r rest IH]; intros g; simpl.
  - split; [by left|]. intros [?|(r & Hr & _)]; [done|by apply not_elem_of_nil in Hr].
  - rewrite IH. simpl. case_bool_decide as E.
    + rewrite intersect_same, Bare_idemp by done. split; intros [?|(r' & Hr' & Hne)].
      * by left.
      * right. exists r'. split; [by right|done].
      * by left.
      * apply elem_of_cons in Hr' as [->|Hr']; [done|]. right. eauto.
    + split; [|by left]. intros _. right. exists r. split; [by left|done].
Qed.

Lemma group_disagree r rest :
  g_disagree (foldl group_step (group_start r) rest) = true ↔
    ∃ r1 r2, r1 ∈ r :: rest ∧ r2 ∈ r :: rest ∧ Bare (rr_direction r1) ≠ Bare (rr_direction r2).
Proof.
  rewrite group_disagree_fold. simpl. split.
  - intros [?|(r' & Hr' & Hne)]; [done|]. exists r', r.
    split_and!; [by right|by left|done].
  - intros (r1 & r2 & H1 & H2 & Hne). right.
    destruct (decide (Bare (rr_direction r1) = Bare (rr_direction r))) as [E1|E1].
    + exists r2. split; [|congruence]. apply elem_of_cons in H2 as [->|?]; [congruence|done].
    + exists r1. split; [|done]. apply elem_of_cons in H1 as [->|?]; [congruence|done].
Qed.

(** ** Facts about one layer: each vnet's entry is updated on its own *)

Lemma resolve_vnet_other scope m acc vnet v :
  v ≠ vnet → rs_current (resolve_vnet scope m acc vnet) !! v = rs_current acc !! v.
Proof.
  intros Hne. unfold resolve_vnet. case_match; [|done].
  destruct (cascade _ _ _) as [cur blocked]. simpl. by rewrite lookup_partial_alter_ne.
Qed.

Lemma resolve_vnet_same scope m acc vnet g :
  intersect_group (stable_sort (by_key rr_source String.le) (default [] (m !! vnet))) = Some g →
  rs_current (resolve_vnet scope m acc vnet) !! vnet =
    (cascade scope (group_value g) (rs_current acc !! vnet)).1.
Proof.
  intros Hg. unfold resolve_vnet. rewrite Hg.
  destruct (cascade _ _ _) as [cur blocked]. simpl. by rewrite lookup_partial_alter_eq.
Qed.

Lemma resolve_vnets_other scope m vnets acc v :
  v ∉ vnets → rs_current (foldl (resolve_vnet scope m) acc vnets) !! v = rs_current acc !! v.
Proof.
  revert acc. induction vnets as [|vnet vnets IH]; intros acc; simpl; [done|].
  rewrite not_elem_of_cons. intros [??]. rewrite IH by done. by apply resolve_vnet_other.
Qed.

Lemma resolve_vnets_same scope m vnets acc v g :
  NoDup vnets → v ∈ vnets →
  intersect_group (stable_sort (by_key rr_source String.le) (default [] (m !! v))) = Some g →
  rs_current (foldl (resolve_vnet scope m) acc vnets) !! v =
    (cascade scope (group_value g) (rs_current acc !! v)).1.
Proof.
  intros Hnd. revert acc. induction Hnd as [|vnet vnets Hnin Hnd IH]; intros acc Hin Hg; simpl.
  - by apply not_elem_of_nil in Hin.
  - apply elem_of_cons in Hin as [->|Hin].
    + rewrite resolve_vnets_other by done. by apply resolve_vnet_same.
    + rewrite IH by done. rewrite resolve_vnet_other; [done|]. intros ->. done.
Qed.

(** The running value of a vnet after a layer: the cascade of its group's value. *)
Lemma resolve_layer_lookup acc layer v :
  rs_current (resolve_layer acc layer) !! v =
    match intersect_group
            (stable_sort (by_key rr_source String.le)
               (filter (λ r, rr_vnet r = v) (rl_rules layer))) with
    | Some g => (cascade (rl_scope layer) (group_value g) (rs_current acc !! v)).1
    | None => rs_current acc !! v
    end.
Proof.
  unfold resolve_layer. rewrite <-byVnet_group.
  set (m := byVnet (rl_rules layer)). destruct (intersect_group _) as [g|] eqn:Hg.
  - apply resolve_vnets_same; [apply NoDup_sorted_keys| |done].
    apply elem_of_sort_strings, elem_of_map_keys.
    destruct (m !! v); [by eexists|done].
  - apply resolve_vnets_other. rewrite elem_of_sort_strings, elem_of_map_keys.
    intros [l Hl]. rewrite Hl in Hg. simpl in Hg.
    unfold m in Hl. rewrite byVnet_lookup in Hl.
    assert (l ≠ []) as Hne by (by destruct (filter _ _); simplify_eq).
    apply Hne, length_zero_iff_nil. rewrite <-(stable_sort_length (by_key rr_source String.le)).
    by destruct (stable_sort _ l).
Qed.
