(* ===== verification/ResolutionSpec.v ===== *)
(** * What resolution computes: the specification of [Resolve] and its refinement

    One vnet at a time, a layer grants the meet of its rules and is overridable
    when all of them are defaults; the cascade keeps the first grant that is not
    overridable. [Resolve], which walks maps and sorted keys and tags strings
    with a prefix, refines it. *)

From S2P Require Import Prelude GoStrings Types Effects Names Direction Resolution.

(** ** The specification *)

Record Grant := mkGrant { gr_perm : Perm; gr_overridable : bool }.

Definition rules_for (v : VnetKey) (layer : ResolutionLayer) : list ResolutionRule :=
  filter (λ r, rr_vnet r = v) (rl_rules layer).

Definition layer_grant (v : VnetKey) (layer : ResolutionLayer) : option Grant :=
  match rules_for v layer with
  | [] => None
  | l => Some (mkGrant (group_perm l) (all_default l))
  end.

Definition cascade_grant (cur new : option Grant) : option Grant :=
  match new, cur with
  | None, _ => cur
  | Some _, Some c => if gr_overridable c then new else cur
  | Some _, None => new
  end.

Definition spec_grant (v : VnetKey) (layers : list ResolutionLayer) : option Grant :=
  foldl (λ cur layer, cascade_grant cur (layer_grant v layer)) None (ordered_layers layers).

Definition spec_effective (v : VnetKey) (layers : list ResolutionLayer) : option Perm :=
  match spec_grant v layers with
  | Some g => if gr_perm g =?? perm_none then None else Some (gr_perm g)
  | None => None
  end.

(** The directions of the rules are values of the enum, as the parsers make them. *)
Definition layers_valid (layers : list ResolutionLayer) : Prop :=
  Forall (λ l, rules_valid (rl_rules l)) layers.

(** ** The simulation *)

(** A running value of the code stands for a grant. *)
Definition stands_for (r : Running) (g : Grant) : Prop :=
  valid_direction (run_direction r) ∧ perm (run_direction r) = gr_perm g ∧
  IsDefault (run_direction r) = gr_overridable g.

Definition sim (o : option Running) (og : option Grant) : Prop := option_relation stands_for (λ _, False) (λ _, False) o og.

Lemma group_perm_perm l1 l2 : l1 ≡ₚ l2 → group_perm l1 = group_perm l2.
Proof.
  induction 1 as [|r l1 l2 _ IH|r1 r2 l|l1 l2 l3 _ IH1 _ IH2]; simpl; [done|by rewrite IH| |congruence].
  rewrite !perm_meet_assoc. f_equal. apply perm_meet_comm.
Qed.

Lemma all_default_perm l1 l2 : l1 ≡ₚ l2 → all_default l1 = all_default l2.
Proof.
  unfold all_default.
  induction 1 as [|r l1 l2 _ IH|r1 r2 l|l1 l2 l3 _ IH1 _ IH2]; simpl; [done|by rewrite IH| |congruence].
  by rewrite !andb_assoc, (andb_comm (IsDefault (rr_direction r2))).
Qed.

#[export] Instance group_perm_proper : Proper ((≡ₚ) ==> (=)) group_perm.
Proof. intros l1 l2. apply group_perm_perm. Qed.
#[export] Instance all_default_proper : Proper ((≡ₚ) ==> (=)) all_default.
Proof. intros l1 l2. apply all_default_perm. Qed.

Lemma rules_valid_filter v rules :
  rules_valid rules → rules_valid (filter (λ r, rr_vnet r = v) rules).
Proof.
  unfold rules_valid. rewrite !Forall_forall. intros H r [_ Hr]%list_elem_of_filter. by apply H.
Qed.

(** A layer's group, sorted by source, stands for the layer's grant. *)
Lemma layer_group_sim v layer :
  rules_valid (rl_rules layer) →
  match intersect_group (stable_sort (by_key rr_source String.le) (rules_for v layer)) with
  | Some g =>
      ∃ gr, layer_grant v layer = Some gr ∧ valid_direction (group_value g) ∧
        perm (group_value g) = gr_perm gr ∧ IsDefault (group_value g) = gr_overridable gr
  | None => layer_grant v layer = None
  end.
Proof.
  intros Hv%(rules_valid_filter v). unfold layer_grant. fold (rules_for v layer) in Hv.
  pose proof (stable_sort_perm (by_key rr_source String.le) (rules_for v layer)) as Hp.
  destruct (stable_sort _ (rules_for v layer)) as [|r rest] eqn:E; simpl.
  - apply Permutation_nil in Hp. by rewrite Hp.
  - destruct (group_value_spec r rest) as (H1 & H2 & H3); [by unfold rules_valid; rewrite Hp|].
    rewrite Hp in H2, H3.
    destruct (rules_for v layer) as [|r0 l0]; [by apply Permutation_nil_r in Hp|].
    eexists. split; [done|]. by split_and!.
Qed.

Lemma cascade_sim scope eff gr cur ocur :
  valid_direction eff → perm eff = gr_perm gr → IsDefault eff = gr_overridable gr →
  sim cur ocur → sim (cascade scope eff cur).1 (cascade_grant ocur (Some gr)).
Proof.
  intros Hv Hp Hd Hs. destruct cur as [r|], ocur as [g|]; simpl in *; try done.
  assert (gr_overridable g = IsDefault (run_direction r)) as -> by (symmetry; apply Hs).
  destruct (IsDefault (run_direction r)); [by split_and!|]. by case_bool_decide.
Qed.

Lemma layer_sim v layer acc og :
  rules_valid (rl_rules layer) →
  sim (rs_current acc !! v) og →
  sim (rs_current (resolve_layer acc layer) !! v) (cascade_grant og (layer_grant v layer)).
Proof.
  intros Hv Hs. rewrite resolve_layer_lookup. fold (rules_for v layer).
  pose proof (layer_group_sim v layer Hv) as Hg.
  destruct (intersect_group _) as [g|].
  - destruct Hg as (gr & -> & H1 & H2 & H3). by apply cascade_sim.
  - by rewrite Hg.
Qed.

Lemma layers_sim v layers acc og :
  layers_valid layers →
  sim (rs_current acc !! v) og →
  sim (rs_current (foldl resolve_layer acc layers) !! v)
      (foldl (λ cur layer, cascade_grant cur (layer_grant v layer)) og layers).
Proof.
  intros Hl. revert acc og. induction Hl as [|layer layers Hv _ IH]; intros acc og Hs; simpl; [done|].
  by apply IH, layer_sim.
Qed.

Lemma layers_valid_ordered layers : layers_valid layers → layers_valid (ordered_layers layers).
Proof. unfold layers_valid, ordered_layers. by rewrite stable_sort_perm. Qed.

Lemma Resolve_sim v layers : layers_valid layers →
  sim (rs_current (foldl resolve_layer (mkState ∅ [] []) (ordered_layers layers)) !! v)
      (spec_grant v layers).
Proof. intros Hl. apply layers_sim; [by apply layers_valid_ordered|done]. Qed.

(** The effective direction of a running value. *)
Lemma effective_entry_spec r g d : stands_for r g →
  effective_entry r = Some d ↔ bare_direction d ∧ d ≠ DirectionNone ∧ perm d = gr_perm g.
Proof.
  intros (Hv & Hp & Hd). unfold effective_entry. split.
  - case_bool_decide; [done|]. intros [= <-].
    split_and!; [auto with kv|done|]. by rewrite perm_Bare.
  - intros (Hb & Hn & Hpd). assert (Bare (run_direction r) = d) as ->.
    { apply perm_inj; [auto with kv|done|]. by rewrite perm_Bare, Hpd. }
    by rewrite bool_decide_eq_false_2.
Qed.

Lemma Resolve_lookup v layers d : layers_valid layers →
  res_effective (Resolve layers) !! v = Some d ↔
    bare_direction d ∧ d ≠ DirectionNone ∧
    ∃ g, spec_grant v layers = Some g ∧ gr_perm g = perm d.
Proof.
  intros Hl. pose proof (Resolve_sim v layers Hl) as Hs. unfold Resolve. simpl.
  rewrite lookup_omap. destruct (rs_current _ !! v) as [r|], (spec_grant v layers) as [g|];
    simpl in *; try done.
  - rewrite (effective_entry_spec _ _ _ Hs). naive_solver.
  - naive_solver.
Qed.

(** ** The cascade keeps the first enforced grant *)

Lemma cascade_pinned v layers g : gr_overridable g = false →
  foldl (λ cur layer, cascade_grant cur (layer_grant v layer)) (Some g) layers = Some g.
Proof.
  intros Hg. induction layers as [|layer layers IH]; simpl; [done|].
  destruct (layer_grant v layer); simpl; by rewrite ?Hg.
Qed.

Lemma cascade_no_rules v layers og :
  Forall (λ l, rules_for v l = []) layers →
  foldl (λ cur layer, cascade_grant cur (layer_grant v layer)) og layers = og.
Proof.
  intros Hl. revert og. induction Hl as [|layer layers H _ IH]; intros og; simpl; [done|].
  unfold layer_grant at 2. rewrite H. apply IH.
Qed.

(** The grant in force comes from one layer that has rules for the vnet. *)
Lemma cascade_from_layer v layers og g :
  foldl (λ cur layer, cascade_grant cur (layer_grant v layer)) og layers = Some g →
  og = Some g ∨ ∃ layer, layer ∈ layers ∧ layer_grant v layer = Some g.
Proof.
  revert og. induction layers as [|layer layers IH]; intros og; simpl; [by left|].
  intros [Hc|(l & Hl & Hg)]%IH; [|right; exists l; split; [by right|done]].
  unfold cascade_grant in Hc. destruct (layer_grant v layer) as [g'|] eqn:E; [|by left].
  destruct og as [c|]; [destruct (gr_overridable c)|]; simplify_eq; auto;
    right; exists layer; split; by left || done.
Qed.

Lemma layer_grant_Some v layer g : layer_grant v layer = Some g →
  rules_for v layer ≠ [] ∧ g = mkGrant (group_perm (rules_for v layer)) (all_default (rules_for v layer)).
Proof. unfold layer_grant. by destruct (rules_for v layer); intros [= <-]. Qed.

Lemma group_perm_le rules r : r ∈ rules → perm_le (group_perm rules) (perm (rr_direction r)).
Proof.
  induction rules as [|r' rules IH]; [by intros ?%not_elem_of_nil|].
  intros [->|Hr]%elem_of_cons; simpl; [auto with kv|].
  etrans; [apply perm_meet_le_r|by apply IH].
Qed.

(** The layer the grant in force comes from: earlier layers only had defaults,
    and if it is itself a default no later layer has rules. *)
Definition decides (v : VnetKey) (layers : list ResolutionLayer) (layer : ResolutionLayer) : Prop :=
  ∃ before after, layers = before ++ layer :: after ∧
    rules_for v layer ≠ [] ∧
    Forall (λ l, all_default (rules_for v l) = true) before ∧
    (all_default (rules_for v layer) = true → Forall (λ l, rules_for v l = []) after).

Lemma cascade_grant_None cur new : cascade_grant cur new = None → cur = None ∧ new = None.
Proof. destruct new as [?|], cur as [c|]; simpl; [destruct (gr_overridable c)|..]; done. Qed.

Lemma cascade_none v layers :
  foldl (λ cur layer, cascade_grant cur (layer_grant v layer)) None layers = None →
  Forall (λ l, rules_for v l = []) layers.
Proof.
  induction layers as [|l layers IH] using rev_ind; [by constructor|].
  rewrite foldl_app. simpl. intros [Hc Hl]%cascade_grant_None.
  apply Forall_app_2; [by apply IH|]. constructor; [|constructor].
  unfold layer_grant in Hl. by destruct (rules_for v l).
Qed.

Lemma spec_decides v layers g :
  foldl (λ cur layer, cascade_grant cur (layer_grant v layer)) None layers = Some g →
  ∃ layer, decides v layers layer ∧
    g = mkGrant (group_perm (rules_for v layer)) (all_default (rules_for v layer)).
Proof.
  revert g. induction layers as [|l layers IH] using rev_ind; intros g; [done|].
  rewrite foldl_app. simpl. set (cur := foldl _ None layers) in *.
  destruct (rules_for v l) as [|r rs] eqn:E.
  - unfold layer_grant. rewrite E. simpl. intros Hg.
    destruct (IH g Hg) as (layer & (b & a & -> & Hne & Hb & Ha) & Hgr). exists layer. split; [|done].
    exists b, (a ++ [l]). rewrite <-app_assoc. split_and!; [done|done|done|].
    intros Hd. apply Forall_app_2; [by apply Ha|by constructor].
  - unfold layer_grant. rewrite E. simpl. intros Hg.
    assert (∀ g', cur = Some g' → gr_overridable g' = true →
      Forall (λ l, all_default (rules_for v l) = true) layers) as Hall.
    { intros g' Hc Hov. destruct (IH g' Hc) as (layer & (b & a & -> & Hne & Hb & Ha) & ->).
      simpl in Hov. apply Forall_app_2; [done|]. constructor; [done|].
      eapply Forall_impl; [by apply Ha|]. by intros ? ->. }
    destruct cur as [c|] eqn:Hc; [destruct (gr_overridable c) eqn:Hov|]; simplify_eq.
    + exists l. rewrite E. split; [|done]. exists layers, [].
      split_and!; [done|by rewrite E|by eapply Hall|by constructor].
    + destruct (IH g eq_refl) as (layer & (b & a & -> & Hne & Hb & Ha) & Hgr). exists layer. split; [|done].
      exists b, (a ++ [l]). rewrite <-app_assoc. split_and!; [done|done|done|].
      intros Hd. subst g. simpl in Hov. congruence.
    + exists l. rewrite E. split; [|done]. exists layers, [].
      split_and!; [done|by rewrite E| |by constructor].
      eapply Forall_impl; [by apply cascade_none|]. by intros ? ->.
Qed.

(** ** Reports *)

(** The conflict a layer reports for a vnet. *)
Definition layer_conflict (scope : ResolutionScope) (group : list ResolutionRule) (vnet : VnetKey) :
    list ResolutionConflict :=
  let rules := stable_sort (by_key rr_source String.le) group in
  match intersect_group rules with
  | Some g => if g_disagree g then [mkConflict vnet scope rules (Bare (group_value g))] else []
  | None => []
  end.

Lemma resolve_vnet_conflicts scope m acc vnet :
  rs_conflicts (resolve_vnet scope m acc vnet) =
    rs_conflicts acc ++ layer_conflict scope (default [] (m !! vnet)) vnet.
Proof.
  unfold resolve_vnet, layer_conflict. case_match; [|by rewrite app_nil_r].
  destruct (cascade _ _ _) as [cur blocked]. simpl. case_match; [done|by rewrite app_nil_r].
Qed.

Lemma resolve_vnets_conflicts scope m vnets acc :
  rs_conflicts (foldl (resolve_vnet scope m) acc vnets) =
    rs_conflicts acc ++ flat_map (λ v, layer_conflict scope (default [] (m !! v)) v) vnets.
Proof.
  revert acc. induction vnets as [|v vnets IH]; intros acc; simpl; [by rewrite app_nil_r|].
  by rewrite IH, resolve_vnet_conflicts, app_assoc.
Qed.

Lemma resolve_layers_conflicts layers acc c :
  c ∈ rs_conflicts (foldl resolve_layer acc layers) ↔
    c ∈ rs_conflicts acc ∨
    ∃ layer v, layer ∈ layers ∧ c ∈ layer_conflict (rl_scope layer) (rules_for v layer) v.
Proof.
  revert acc. induction layers as [|l layers IH]; intros acc; simpl.
  - split; [by left|]. intros [?|(l & v & Hl & _)]; [done|by apply not_elem_of_nil in Hl].
  - rewrite IH. unfold resolve_layer at 1. rewrite resolve_vnets_conflicts, elem_of_app, elem_of_flat_map.
    setoid_rewrite elem_of_cons. split.
    + intros [[?|(v & Hv & Hc)]|(l' & v & Hl & Hc)]; [by left|..]; right.
      * exists l, v. rewrite byVnet_group in Hc. auto.
      * exists l', v. auto.
    + intros [?|(l' & v & [->|Hl] & Hc)]; [by left; left|left; right|right; eauto].
      exists v. rewrite byVnet_group. split; [|done].
      apply elem_of_sort_strings, elem_of_map_keys.
      rewrite byVnet_lookup. fold (rules_for v l).
      destruct (rules_for v l); [|by eexists]. by apply not_elem_of_nil in Hc.
Qed.

Lemma conflict_shape c scope group v :
  c ∈ layer_conflict scope group v →
  rc_vnet c = v ∧ rc_scope c = scope ∧
  rc_participants c = stable_sort (by_key rr_source String.le) group ∧
  ∃ r1 r2, r1 ∈ group ∧ r2 ∈ group ∧ Bare (rr_direction r1) ≠ Bare (rr_direction r2).
Proof.
  unfold layer_conflict. pose proof (stable_sort_perm (by_key rr_source String.le) group) as Hp.
  destruct (stable_sort _ group) as [|r rest]; simpl; [by intros ?%not_elem_of_nil|].
  destruct (g_disagree _) eqn:Hd; [|by intros ?%not_elem_of_nil].
  apply group_disagree in Hd. setoid_rewrite Hp in Hd.
  intros ->%list_elem_of_singleton. simpl. by split_and!.
Qed.

Lemma conflict_exists scope group v r1 r2 :
  r1 ∈ group → r2 ∈ group → Bare (rr_direction r1) ≠ Bare (rr_direction r2) →
  ∃ c, c ∈ layer_conflict scope group v.
Proof.
  intros H1 H2 Hne. unfold layer_conflict.
  pose proof (stable_sort_perm (by_key rr_source String.le) group) as Hp.
  destruct (stable_sort _ group) as [|r rest]; simpl.
  - apply Permutation_nil in Hp. subst. by apply not_elem_of_nil in H1.
  - assert (g_disagree (foldl group_step (group_start r) rest) = true) as ->.
    { apply group_disagree. exists r1, r2. by rewrite Hp. }
    eexists. by apply list_elem_of_singleton.
Qed.

Lemma conflict_iff (layers : list ResolutionLayer) v scope :
  (∃ c, (∃ layer v, layer ∈ layers ∧ c ∈ layer_conflict (rl_scope layer) (rules_for v layer) v) ∧
    rc_vnet c = v ∧ rc_scope c = scope) ↔
  (∃ layer r1 r2, layer ∈ layers ∧ rl_scope layer = scope ∧
    r1 ∈ rules_for v layer ∧ r2 ∈ rules_for v layer ∧
    Bare (rr_direction r1) ≠ Bare (rr_direction r2)).
Proof.
  split.
  - intros (c & (layer & v' & Hl & Hc) & <- & <-).
    apply conflict_shape in Hc as (-> & -> & _ & r1 & r2 & H1 & H2 & Hne).
    by exists layer, r1, r2.
  - intros (layer & r1 & r2 & Hl & <- & H1 & H2 & Hne).
    destruct (conflict_exists (rl_scope layer) (rules_for v layer) v r1 r2) as [c Hc]; [done..|].
    exists c. split; [by exists layer, v|]. by apply conflict_shape in Hc as (-> & -> & _).
Qed.

(** A rejected override was blocked by a bare value that stays in force. *)
Definition rejected_ok (cur : gmap string Running) (o : OverrideRejected) : Prop :=
  cur !! or_vnet o = Some (mkRunning (or_blockingDir o) (or_blockingScope o)) ∧
  IsDefault (or_blockingDir o) = false ∧ Bare (or_attemptedDir o) ≠ or_blockingDir o.

Lemma resolve_vnet_rejected scope m acc vnet :
  Forall (rejected_ok (rs_current acc)) (rs_rejected acc) →
  Forall (rejected_ok (rs_current (resolve_vnet scope m acc vnet)))
    (rs_rejected (resolve_vnet scope m acc vnet)).
Proof.
  intros Hall. unfold resolve_vnet. case_match; [|done]. set (eff := group_value _).
  destruct (rs_current acc !! vnet) as [[dir from]|] eqn:Ecur; simpl.
  - destruct (IsDefault dir) eqn:Hd; [|case_bool_decide as Hb]; simpl.
    + apply Forall_forall. intros o Ho. rewrite Forall_forall in Hall.
      destruct (Hall o Ho) as (Hl & Ho1 & Ho2). split_and!; [|done|done].
      rewrite lookup_partial_alter_ne; [done|]. intros ->. simplify_eq. congruence.
    + rewrite <-Ecur, partial_alter_self. done.
    + rewrite <-Ecur, partial_alter_self.
      apply Forall_app_2; [done|]. by constructor.
  - apply Forall_forall. intros o Ho. rewrite Forall_forall in Hall.
    destruct (Hall o Ho) as (Hl & Ho1 & Ho2). split_and!; [|done|done].
    rewrite lookup_partial_alter_ne; [done|]. intros ->. simplify_eq.
Qed.

Lemma resolve_layers_rejected layers acc :
  Forall (rejected_ok (rs_current acc)) (rs_rejected acc) →
  let st := foldl resolve_layer acc layers in
  Forall (rejected_ok (rs_current st)) (rs_rejected st).
Proof.
  revert acc. induction layers as [|l layers IH]; intros acc Hacc; simpl; [done|].
  apply IH. unfold resolve_layer. generalize (sort_strings (map_keys (byVnet (rl_rules l)))).
  intros vnets. revert acc Hacc. induction vnets as [|v vnets IHv]; intros acc Hacc; simpl; [done|].
  by apply IHv, resolve_vnet_rejected.
Qed.

(** Layers that only differ in the order of their rules. *)
Definition same_rules (l1 l2 : ResolutionLayer) : Prop :=
  rl_scope l1 = rl_scope l2 ∧ rl_rules l1 ≡ₚ rl_rules l2.

Lemma same_rules_grant v l1 l2 : same_rules l1 l2 → layer_grant v l1 = layer_grant v l2.
Proof.
  intros [_ Hp]. unfold layer_grant.
  assert (rules_for v l1 ≡ₚ rules_for v l2) as Hr by (unfold rules_for; by rewrite Hp).
  destruct (rules_for v l1) as [|r1 rs1], (rules_for v l2) as [|r2 rs2];
    [done|by apply Permutation_nil in Hr|by apply Permutation_nil_r in Hr|].
  by rewrite Hr.
Qed.

Lemma insert_sorted_scopes l1 l2 a b :
  Forall2 same_rules l1 l2 → same_rules a b →
  Forall2 same_rules (insert_sorted (by_key rl_scope scope_le) a l1)
                     (insert_sorted (by_key rl_scope scope_le) b l2).
Proof.
  intros Hl Hab. induction Hl as [|x y l1 l2 Hxy Hl IH]; simpl; [by apply Forall2_cons|].
  assert (by_key rl_scope scope_le a x ↔ by_key rl_scope scope_le b y) as Hle.
  { unfold by_key. by rewrite (proj1 Hab), (proj1 Hxy). }
  case_decide as H1; case_decide as H2; try tauto; by repeat (apply Forall2_cons; split).
Qed.

Lemma ordered_same_rules l1 l2 :
  Forall2 same_rules l1 l2 → Forall2 same_rules (ordered_layers l1) (ordered_layers l2).
Proof. induction 1; simpl; [constructor|]. by apply insert_sorted_scopes. Qed.

Lemma spec_grant_same_rules v l1 l2 :
  Forall2 same_rules l1 l2 → spec_grant v l1 = spec_grant v l2.
Proof.
  intros Hl%ordered_same_rules. unfold spec_grant. generalize (@None Grant).
  induction Hl as [|x y l1' l2' Hxy _ IH]; intros og; simpl; [done|].
  rewrite (same_rules_grant v x y Hxy). apply IH.
Qed.

Lemma ordered_layers_perm l1 l2 :
  NoDup (rl_scope <$> l1) → l1 ≡ₚ l2 → ordered_layers l1 = ordered_layers l2.
Proof.
  intros Hnd Hp. unfold ordered_layers. apply stable_sort_proper; try apply _; [|done].
  intros x y Hx Hy Hxy Hyx. assert (rl_scope x = rl_scope y) as Hs by (by apply (anti_symm scope_le)).
  apply list_elem_of_lookup in Hx as [i Hi]. apply list_elem_of_lookup in Hy as [j Hj].
  assert (i = j) as ->; [|by simplify_eq].
  apply (NoDup_lookup (rl_scope <$> l1) i j (rl_scope x) Hnd).
  - by rewrite list_lookup_fmap, Hi.
  - by rewrite list_lookup_fmap, Hj, Hs.
Qed.

(** ** Properties *)

(** [C5] [Resolve] refines the cascade: a vnet's effective direction is the bare
    direction granting exactly what the specification's cascade of per-tier
    intersections grants, and the vnet is absent when that is nothing. *)
Theorem Resolve_refines_cascade layers v d (Hl : layers_valid layers) :
  res_effective (Resolve layers) !! v = Some d ↔
    bare_direction d ∧ spec_effective v layers = Some (perm d).
Proof.
  rewrite Resolve_lookup by done. unfold spec_effective. split.
  - intros (Hb & Hn & g & -> & Hp). split; [done|]. rewrite Hp.
    rewrite bool_decide_eq_false_2; [done|].
    rewrite perm_none_iff by auto with kv. by rewrite Bare_of_bare.
  - intros [Hb Hs]. destruct (spec_grant v layers) as [g|]; [|done].
    case_bool_decide as Hn; [done|]. simplify_eq. split_and!; [done| |eauto].
    intros ->. apply Hn. by rewrite Hs.
Qed.

Definition wit_rule (v d src : string) : ResolutionRule := mkRule v d src (mkVnetRef "" "") "" None.
Definition wit_layers : list ResolutionLayer :=
  [ mkLayer ScopePod [wit_rule "a.x" "ingress" "l1"; wit_rule "a.x" "egress" "l2"; wit_rule "b.y" "both" "l3"];
    mkLayer ScopeClusterBaseline [wit_rule "b.y" "ingress" "cb"; wit_rule "a.x" "default-both" "cb"] ].

Lemma wit_layers_valid : layers_valid wit_layers.
Proof. repeat constructor; kv_decide. Defined.

Lemma Resolve_refines_cascade_witness :
  bare_direction "ingress" ∧ spec_effective "b.y" wit_layers = Some (perm "ingress").
Proof.
  apply (Resolve_refines_cascade wit_layers "b.y" "ingress" wit_layers_valid).
  vm_compute. reflexivity.
Defined.

(** [C40] The effective state does not depend on the order of the rules within a tier
    (which for join labels is Go's random map order), nor on the order in which
    the tiers are given. *)
Theorem Resolve_order_independent layers layers' layers''
    (Hl : layers_valid layers) (Hs : Forall2 same_rules layers layers')
    (Hnd : NoDup (rl_scope <$> layers')) (Hp : layers' ≡ₚ layers'') :
  res_effective (Resolve layers) = res_effective (Resolve layers'').
Proof.
  assert (layers_valid layers') as Hl'.
  { unfold layers_valid in *. clear -Hl Hs. induction Hs as [|x y ? ? Hxy]; [constructor|].
    inversion_clear Hl as [|? ? Hv]. constructor; [|auto]. unfold rules_valid in *. by rewrite <-(proj2 Hxy). }
  assert (layers_valid layers'') as Hl'' by (unfold layers_valid; by rewrite <-Hp).
  apply map_eq. intros v. apply option_eq. intros d. rewrite !Resolve_lookup by done.
  rewrite (spec_grant_same_rules v _ _ Hs). unfold spec_grant.
  by rewrite (ordered_layers_perm _ _ Hnd Hp).
Qed.

Lemma Resolve_order_independent_witness :
  res_effective (Resolve wit_layers) = res_effective (Resolve (reverse wit_layers)).
Proof.
  apply (Resolve_order_independent wit_layers wit_layers (reverse wit_layers)).
  - exact wit_layers_valid.
  - repeat constructor.
  - apply (bool_decide_eq_true_1 _). vm_compute. reflexivity.
  - symmetry. apply Permutation_rev.
Defined.

(** [C6] Resolution fails closed: an effective direction is the intersection of the
    rules one tier gives for the vnet, so it grants no more than any of them;
    every tier before that one offered only overridable defaults, and a tier that
    only has defaults decides only if no later tier says anything. *)
Theorem Resolve_fail_closed layers v d (Hl : layers_valid layers)
    (Heff : res_effective (Resolve layers) !! v = Some d) :
  ∃ layer, decides v (ordered_layers layers) layer ∧
    perm d = group_perm (rules_for v layer) ∧
    ∀ r, r ∈ rules_for v layer → perm_le (perm d) (perm (rr_direction r)).
Proof.
  apply Resolve_lookup in Heff as (Hb & Hn & g & Hg & Hp); [|done].
  apply spec_decides in Hg as (layer & Hdec & ->). exists layer. simpl in Hp.
  split_and!; [done|done|]. intros r Hr. rewrite <-Hp. by apply group_perm_le.
Qed.

Lemma Resolve_fail_closed_witness :
  ∃ layer, decides "b.y" (ordered_layers wit_layers) layer ∧
    perm "ingress" = group_perm (rules_for "b.y" layer) ∧
    ∀ r, r ∈ rules_for "b.y" layer → perm_le (perm "ingress") (perm (rr_direction r)).
Proof.
  apply (Resolve_fail_closed wit_layers "b.y" "ingress" wit_layers_valid).
  vm_compute. reflexivity.
Defined.

(** [C7] A bare value is enforced: when the lowest tier that names a vnet has a bare
    rule for it, the effective direction is that tier's intersection, whatever
    the tiers above it say. *)
Theorem Resolve_enforced layers before layer after v (Hl : layers_valid layers)
    (Ho : ordered_layers layers = before ++ layer :: after)
    (Hb : Forall (λ l, rules_for v l = []) before)
    (Hr : rules_for v layer ≠ []) (Hd : all_default (rules_for v layer) = false) d :
  res_effective (Resolve layers) !! v = Some d ↔
    bare_direction d ∧ d ≠ DirectionNone ∧ perm d = group_perm (rules_for v layer).
Proof.
  rewrite Resolve_lookup by done. unfold spec_grant. rewrite Ho, foldl_app. simpl.
  rewrite (cascade_no_rules v before None) by done. unfold layer_grant at 2.
  destruct (rules_for v layer) as [|r rs] eqn:E; [done|]. simpl.
  rewrite cascade_pinned by done. naive_solver.
Qed.

Lemma Resolve_enforced_witness :
  res_effective (Resolve wit_layers) !! "b.y" = Some "ingress" ↔
    bare_direction "ingress" ∧ "ingress" ≠ DirectionNone ∧
    perm "ingress" = group_perm [wit_rule "b.y" "ingress" "cb"].
Proof.
  apply (Resolve_enforced wit_layers []
    (mkLayer ScopeClusterBaseline [wit_rule "b.y" "ingress" "cb"; wit_rule "a.x" "default-both" "cb"])
    [mkLayer ScopePod [wit_rule "a.x" "ingress" "l1"; wit_rule "a.x" "egress" "l2"; wit_rule "b.y" "both" "l3"]]
    "b.y" wit_layers_valid); [vm_compute; reflexivity|constructor|discriminate|vm_compute; reflexivity].
Defined.

