(* ===== verification/ApiServer.v ===== *)
(** * What the operator relies on of the API server, and a server that provides it

    [PolicyServer] states the documented behaviour of the API for network
    policies when the cache is current: reads see the stored policies, a
    successful server-side apply stores the desired fields, a successful delete
    removes the policy, a failed write changes nothing, and no write of a policy
    changes a Namespace. [Cluster] is an in-memory
    server with that behaviour and [model_k8s] an executable label-selector and
    condition library; the witnesses run the code on them. *)

From S2P Require Import Prelude GoStrings Types Effects.

(** ** The interface *)

(** What a server-side apply with forced ownership leaves: the desired spec, and
    the desired labels, annotations and owner references beside those of other managers. *)
Definition applied (desired live : NetworkPolicy) : Prop :=
  ObjectKeyFromObject live = ObjectKeyFromObject desired ∧
  np_spec live = np_spec desired ∧
  obj_labels desired ⊆ obj_labels live ∧
  obj_annotations desired ⊆ obj_annotations live ∧
  m_ownerReferences (np_meta desired) ⊆ m_ownerReferences (np_meta live).

Definition policy_write (q : Write) : bool :=
  match q with WApplyPolicy _ | WDeletePolicy _ => true | _ => false end.

(** A delete leaves the policy gone when it succeeds and when it finds nothing. *)
Definition gone (r : result unit) : bool :=
  match r with Ok _ => true | Err e => IsNotFound e end.

Class PolicyServer (W : Type) `{Client W} := {
  policies : W → gmap ObjectKey NetworkPolicy;
  policies_key : ∀ w k p, policies w !! k = Some p → ObjectKeyFromObject p = k;
  policies_named : ∀ w k p, policies w !! k = Some p → key_name k ≠ "";
  reads_policies : ∀ w rd k, rd = cl_reader w ∨ rd = cl_apireader w →
    match get_netpol rd k with
    | Ok p => policies w !! k = Some p
    | Err e => IsNotFound e = true → policies w !! k = None
    end;
  lists_policies : ∀ w o l, list_netpols (cl_reader w) o = Ok l →
    ∀ p, p ∈ l ↔ policies w !! ObjectKeyFromObject p = Some p ∧ selected_by o p = true;
  apply_stores : ∀ p w w', cl_write (WApplyPolicy p) w = (Ok tt, w') →
    ∃ live, policies w' = <[ObjectKeyFromObject p := live]> (policies w) ∧ applied p live;
  delete_removes : ∀ p w r w', cl_write (WDeletePolicy p) w = (r, w') → gone r = true →
    policies w' = delete (ObjectKeyFromObject p) (policies w);
  failed_delete : ∀ p w r w', cl_write (WDeletePolicy p) w = (r, w') → gone r = false →
    policies w' = policies w;
  failed_apply : ∀ p w e w', cl_write (WApplyPolicy p) w = (Err e, w') → policies w' = policies w;
  other_writes : ∀ q w r w', policy_write q = false → cl_write q w = (r, w') →
    policies w' = policies w;
  keeps_namespaces : ∀ q (w : W) r w', policy_write q = true → cl_write q w = (r, w') →
    get_namespace (cl_reader w') = get_namespace (cl_reader w) }.
#[global] Hint Mode PolicyServer ! - : typeclass_instances.

(** A Get returns the object asked for, a List objects the options select. *)
Class CoherentClient (W : Type) `{Client W} := {
  gets_pod : ∀ (w : W) k p, get_pod (cl_reader w) k = Ok p → ObjectKeyFromObject p = k;
  gets_namespace : ∀ (w : W) n ns, get_namespace (cl_reader w) n = Ok ns → obj_name ns = n;
  gets_vnet : ∀ (w : W) k v, get_vnet (cl_reader w) k = Ok v → ObjectKeyFromObject v = k;
  gets_vnb : ∀ (w : W) k b, get_vnb (cl_reader w) k = Ok b → ObjectKeyFromObject b = k;
  gets_service : ∀ (w : W) k svc, get_service (cl_reader w) k = Ok svc → ObjectKeyFromObject svc = k;
  lists_selected : ∀ (w : W) o l p, list_netpols (cl_reader w) o = Ok l → p ∈ l → selected_by o p = true }.
#[global] Hint Mode CoherentClient ! - : typeclass_instances.

(** ** An executable selector and condition library *)

Module Model.

Definition requirement_ok (r : LabelSelectorRequirement) : bool :=
  if (req_operator r =?? "In") || (req_operator r =?? "NotIn") then negb (req_values r =?? [])
  else ((req_operator r =?? "Exists") || (req_operator r =?? "DoesNotExist")) && (req_values r =?? []).

Definition requirement_matches (r : LabelSelectorRequirement) (l : gmap string string) : bool :=
  if req_operator r =?? "In" then
    match l !! req_key r with Some v => bool_decide (v ∈ req_values r) | None => false end
  else if req_operator r =?? "NotIn" then
    match l !! req_key r with Some v => bool_decide (v ∉ req_values r) | None => true end
  else if req_operator r =?? "Exists" then bool_decide (is_Some (l !! req_key r))
  else bool_decide (l !! req_key r = None).

Definition set_condition (cs : list Condition) (c : Condition) : list Condition :=
  if existsb (λ c', cond_type c' =?? cond_type c) cs
  then map (λ c', if cond_type c' =?? cond_type c then c else c') cs
  else cs ++ [c].

#[export] Instance model_k8s : K8sLib := {|
  LabelSelectorAsSelector s :=
    if forallb requirement_ok (sel_matchExpressions s) then
      Ok (λ l, bool_decide (sel_matchLabels s ⊆ l) &&
               forallb (λ r, requirement_matches r l) (sel_matchExpressions s))
    else Err (ErrAPI "invalid label selector");
  SetStatusCondition := set_condition;
  FindStatusCondition cs t := List.find (λ c, cond_type c =?? t) cs;
  DeepEqual A _ x y := bool_decide (x = y);
  SetControllerReference svc p :=
    if negb (obj_ns p =?? obj_ns svc) then Err (ErrAPI "cross-namespace owner references are disallowed")
    else if existsb (λ o, bool_decide (or_controller o = Some true)) (m_ownerReferences (np_meta p))
    then Err (ErrAPI "already owned by another controller")
    else Ok (mkNP (np_apiVersion p) (np_kind p)
      (set_ownerReferences (m_ownerReferences (np_meta p) ++
         [mkOwnerRef "v1" "Service" (obj_name svc) (obj_uid svc) (Some true) (Some true)]) (np_meta p))
      (np_spec p)) |}.

Lemma find_map_same cs c :
  existsb (λ c', cond_type c' =?? cond_type c) cs = true →
  List.find (λ c', cond_type c' =?? cond_type c)
    (map (λ c', if cond_type c' =?? cond_type c then c else c') cs) = Some c.
Proof.
  induction cs as [|c' cs IH]; simpl; [done|].
  case_bool_decide as E; simpl; intros Hc.
  - by rewrite bool_decide_eq_true_2.
  - rewrite bool_decide_eq_false_2 by done. auto.
Qed.

Lemma find_map_other cs c t : t ≠ cond_type c →
  List.find (λ c', cond_type c' =?? t)
    (map (λ c', if cond_type c' =?? cond_type c then c else c') cs) =
  List.find (λ c', cond_type c' =?? t) cs.
Proof.
  intros Hne. induction cs as [|c' cs IH]; simpl; [done|]. rewrite IH.
  destruct (cond_type c' =?? cond_type c) eqn:E; [|done]. kv_bools.
  by rewrite !(bool_decide_eq_false_2 (_ = t)) by congruence.
Qed.

Lemma find_none_existsb cs c :
  existsb (λ c', cond_type c' =?? cond_type c) cs = false →
  List.find (λ c', cond_type c' =?? cond_type c) cs = None.
Proof.
  induction cs as [|c' cs IH]; simpl; [done|].
  destruct (cond_type c' =?? cond_type c); simpl; [done|auto].
Qed.

Lemma find_app_condition cs c t :
  List.find (λ c', cond_type c' =?? t) (cs ++ [c]) =
  match List.find (λ c', cond_type c' =?? t) cs with
  | Some x => Some x
  | None => if cond_type c =?? t then Some c else None
  end.
Proof. induction cs as [|c' cs IH]; simpl; [done|]. by destruct (cond_type c' =?? t). Qed.

#[export] Instance model_k8s_laws : K8sLaws.
Proof.
  split.
  - intros m. eexists. split; [reflexivity|]. intros l. simpl.
    by rewrite andb_true_r, bool_decide_eq_true.
  - intros k vs Hvs. simpl. unfold requirement_ok. simpl.
    rewrite (bool_decide_eq_false_2 (vs = [])) by done. simpl.
    eexists. split; [reflexivity|]. intros l. unfold requirement_matches. simpl.
    rewrite bool_decide_eq_true_2 by apply map_empty_subseteq. simpl. rewrite andb_true_r.
    destruct (l !! k) as [v|]; [rewrite bool_decide_eq_true; naive_solver|naive_solver].
  - intros cs c. simpl. unfold set_condition. destruct (existsb _ cs) eqn:E.
    + by apply find_map_same.
    + by rewrite find_app_condition, (find_none_existsb _ _ E), bool_decide_eq_true_2.
  - intros cs c t Hne. simpl. unfold set_condition. destruct (existsb _ cs).
    + by apply find_map_other.
    + rewrite find_app_condition, (bool_decide_eq_false_2 (cond_type c = t)) by congruence.
      by destruct (List.find _ cs).
  - intros A ? x y. simpl. apply bool_decide_eq_true.
  - intros svc p Hns Ho. simpl. rewrite bool_decide_eq_true_2 by done. by rewrite Ho.
Qed.

(** ** An in-memory API server *)

Record Cluster := mkCluster {
  cl_pods : gmap ObjectKey Pod;
  cl_namespaces : gmap string Namespace;
  cl_vnets : gmap ObjectKey VirtualNetwork;
  cl_vnbs : gmap ObjectKey VirtualNetworkBinding;
  cl_cluster_baselines : gmap string ClusterVirtualNetworkBaseline;
  cl_baselines : gmap ObjectKey VirtualNetworkBaseline;
  cl_services : gmap ObjectKey Service;
  cl_netpols : gmap ObjectKey NetworkPolicy;
  cl_webhooks : list WebhookConfiguration;
  cl_apiservices : list APIService;
  cl_crds : list CustomResourceDefinition;
  cl_denied : gset string (* namespaces whose admission rejects policies *) }.

Definition empty_cluster : Cluster := mkCluster ∅ ∅ ∅ ∅ ∅ ∅ ∅ ∅ [] [] [] ∅.

Definition get_of {K V} `{Countable K} (m : gmap K V) (k : K) : result V :=
  match m !! k with Some v => Ok v | None => Err (ErrNotFound "not found") end.

Definition objects {K V} `{Countable K} (m : gmap K V) : list V := map snd (map_to_list m).

Definition list_of {K V} `{Countable K, Object V} (m : gmap K V) (o : ListOptions) : result (list V) :=
  Ok (List.filter (selected_by o) (objects m)).

(** A store holds a policy under its own key, and only named ones. *)
Definition well_keyed (m : gmap ObjectKey NetworkPolicy) : gmap ObjectKey NetworkPolicy :=
  filter (λ kp, ObjectKeyFromObject kp.2 = kp.1 ∧ key_name kp.1 ≠ "") m.

(** It holds any object under its own key, a cluster-wide one under its name. *)
Definition keyed {V} `{Object V} (m : gmap ObjectKey V) : gmap ObjectKey V :=
  filter (λ kv, ObjectKeyFromObject kv.2 = kv.1) m.
Definition named {V} `{Object V} (m : gmap string V) : gmap string V :=
  filter (λ kv, obj_name kv.2 = kv.1) m.

Definition cluster_reader (c : Cluster) : Reader := {|
  get_pod := get_of (keyed (cl_pods c));
  get_namespace := get_of (named (cl_namespaces c));
  get_vnet := get_of (keyed (cl_vnets c));
  get_vnb := get_of (keyed (cl_vnbs c));
  get_cluster_baseline := get_of (cl_cluster_baselines c);
  get_baseline := get_of (keyed (cl_baselines c));
  get_service := get_of (keyed (cl_services c));
  get_netpol := get_of (well_keyed (cl_netpols c));
  list_pods := list_of (keyed (cl_pods c));
  list_namespaces := Ok (objects (named (cl_namespaces c)));
  list_vnets := Ok (objects (keyed (cl_vnets c)));
  list_vnbs := list_of (keyed (cl_vnbs c));
  list_services := list_of (keyed (cl_services c));
  list_netpols := list_of (well_keyed (cl_netpols c));
  list_validating_webhooks := Ok (cl_webhooks c);
  list_mutating_webhooks := Ok [];
  list_apiservices := Ok (cl_apiservices c);
  list_crds := Ok (cl_crds c) |}.

Definition set_pods (m : gmap ObjectKey Pod) (c : Cluster) : Cluster :=
  mkCluster m (cl_namespaces c) (cl_vnets c) (cl_vnbs c) (cl_cluster_baselines c) (cl_baselines c)
    (cl_services c) (cl_netpols c) (cl_webhooks c) (cl_apiservices c) (cl_crds c) (cl_denied c).
Definition set_vnets (m : gmap ObjectKey VirtualNetwork) (c : Cluster) : Cluster :=
  mkCluster (cl_pods c) (cl_namespaces c) m (cl_vnbs c) (cl_cluster_baselines c) (cl_baselines c)
    (cl_services c) (cl_netpols c) (cl_webhooks c) (cl_apiservices c) (cl_crds c) (cl_denied c).
Definition set_vnbs (m : gmap ObjectKey VirtualNetworkBinding) (c : Cluster) : Cluster :=
  mkCluster (cl_pods c) (cl_namespaces c) (cl_vnets c) m (cl_cluster_baselines c) (cl_baselines c)
    (cl_services c) (cl_netpols c) (cl_webhooks c) (cl_apiservices c) (cl_crds c) (cl_denied c).
Definition set_netpols (m : gmap ObjectKey NetworkPolicy) (c : Cluster) : Cluster :=
  mkCluster (cl_pods c) (cl_namespaces c) (cl_vnets c) (cl_vnbs c) (cl_cluster_baselines c)
    (cl_baselines c) (cl_services c) m (cl_webhooks c) (cl_apiservices c) (cl_crds c) (cl_denied c).

(** A merge patch sets the labels and annotations that differ between its two objects. *)
Definition patched_map (from to live : gmap string string) : gmap string string :=
  filter (λ kv, from !! kv.1 = to !! kv.1) live ∪ filter (λ kv, from !! kv.1 ≠ to !! kv.1) to.
Definition patched_pod (from to live : Pod) : Pod :=
  set_pod_labels (patched_map (obj_labels from) (obj_labels to) (obj_labels live))
    (set_pod_annotations (patched_map (obj_annotations from) (obj_annotations to) (obj_annotations live)) live).

(** An apply keeps the live status, and a change of the spec is a new generation. *)
Definition applied_over (v : VirtualNetwork) (live : option VirtualNetwork) : VirtualNetwork :=
  match live with
  | None => v
  | Some live =>
      let m := vnet_meta v in
      let generation := (m_generation (vnet_meta live) +
        (if bool_decide (vnet_spec v = vnet_spec live) then 0 else 1))%Z in
      mkVnet (mkMeta (m_namespace m) (m_name m) (m_uid (vnet_meta live)) generation (m_labels m)
                (m_annotations m) (m_deleting (vnet_meta live)) (m_ownerReferences m))
        (vnet_spec v) (vnet_status live)
  end.

Lemma applied_over_key v live : ObjectKeyFromObject (applied_over v live) = ObjectKeyFromObject v.
Proof. by destruct live. Qed.

Definition cluster_write (q : Write) (c : Cluster) : result unit * Cluster :=
  match q with
  | WApplyPolicy p =>
      if bool_decide (obj_ns p ∈ cl_denied c) then (Err (ErrAPI "exceeded quota"), c)
      else if obj_name p =?? "" then (Err (ErrAPI "name is required"), c)
      else (Ok tt, set_netpols (<[ObjectKeyFromObject p := p]> (cl_netpols c)) c)
  | WDeletePolicy p =>
      match well_keyed (cl_netpols c) !! ObjectKeyFromObject p with
      | Some _ => (Ok tt, set_netpols (delete (ObjectKeyFromObject p) (cl_netpols c)) c)
      | None => (Err (ErrNotFound "not found"), c)
      end
  | WPatchPod from to =>
      match keyed (cl_pods c) !! ObjectKeyFromObject to with
      | Some live => (Ok tt, set_pods (<[ObjectKeyFromObject to := patched_pod from to live]> (cl_pods c)) c)
      | None => (Err (ErrNotFound "not found"), c)
      end
  | WApplyVnet v =>
      let v' := applied_over v (keyed (cl_vnets c) !! ObjectKeyFromObject v) in
      (Ok tt, set_vnets (<[ObjectKeyFromObject v := v']> (cl_vnets c)) c)
  | WDeleteVnet v => (Ok tt, set_vnets (delete (ObjectKeyFromObject v) (cl_vnets c)) c)
  | WUpdateVnetStatus v =>
      match keyed (cl_vnets c) !! ObjectKeyFromObject v with
      | Some live => (Ok tt, set_vnets (<[ObjectKeyFromObject v :=
                        mkVnet (vnet_meta live) (vnet_spec live) (vnet_status v)]> (cl_vnets c)) c)
      | None => (Err (ErrNotFound "not found"), c)
      end
  | WUpdateBindingStatus b =>
      match keyed (cl_vnbs c) !! ObjectKeyFromObject b with
      | Some live => (Ok tt, set_vnbs (<[ObjectKeyFromObject b :=
                        mkBinding (vnb_meta live) (vnb_spec live) (vnb_status b)]> (cl_vnbs c)) c)
      | None => (Err (ErrNotFound "not found"), c)
      end
  end.

#[export] Instance cluster_client : Client Cluster :=
  {| cl_reader := cluster_reader; cl_apireader := cluster_reader; cl_write := cluster_write |}.

Lemma well_keyed_lookup m k p :
  well_keyed m !! k = Some p ↔ m !! k = Some p ∧ ObjectKeyFromObject p = k ∧ key_name k ≠ "".
Proof. unfold well_keyed. by rewrite map_lookup_filter_Some. Qed.

Lemma well_keyed_insert m p : obj_name p ≠ "" →
  well_keyed (<[ObjectKeyFromObject p := p]> m) = <[ObjectKeyFromObject p := p]> (well_keyed m).
Proof. intros Hp. unfold well_keyed. by rewrite map_filter_insert_True. Qed.

Lemma well_keyed_delete m k : well_keyed (delete k m) = delete k (well_keyed m).
Proof. unfold well_keyed. by rewrite map_filter_delete. Qed.

Section keyed_facts.
Context {V : Type} `{Object V}.
Implicit Types m : gmap ObjectKey V.

Lemma keyed_lookup m k x : keyed m !! k = Some x ↔ m !! k = Some x ∧ ObjectKeyFromObject x = k.
Proof. unfold keyed. by rewrite map_lookup_filter_Some. Qed.
Lemma keyed_insert m x : keyed (<[ObjectKeyFromObject x := x]> m) = <[ObjectKeyFromObject x := x]> (keyed m).
Proof. unfold keyed. by rewrite map_filter_insert_True. Qed.
Lemma keyed_insert_key m k x : ObjectKeyFromObject x = k → keyed (<[k := x]> m) = <[k := x]> (keyed m).
Proof. intros <-. apply keyed_insert. Qed.
Lemma keyed_delete m k : keyed (delete k m) = delete k (keyed m).
Proof. unfold keyed. by rewrite map_filter_delete. Qed.
End keyed_facts.

Lemma elem_of_objects {K V} `{Countable K} (m : gmap K V) x :
  x ∈ objects m ↔ ∃ k, m !! k = Some x.
Proof.
  unfold objects. rewrite list_elem_of_fmap. split.
  - intros ([k y] & -> & Hy%elem_of_map_to_list). by exists k.
  - intros [k Hk%elem_of_map_to_list]. by exists (k, x).
Qed.

#[export] Instance cluster_policies : PolicyServer Cluster.
Proof.
  refine {| policies c := well_keyed (cl_netpols c) |}.
  - intros c k p Hk%well_keyed_lookup. apply Hk.
  - intros c k p Hk%well_keyed_lookup. apply Hk.
  - intros c rd k [->| ->]; simpl; unfold get_of; by destruct (well_keyed _ !! k).
  - intros c o l [= <-] p. rewrite list_elem_of_In, filter_In, <-list_elem_of_In, elem_of_objects.
    split.
    + intros [[k Hk] Hs]. pose proof Hk as (_ & Hkey & _)%well_keyed_lookup. by rewrite Hkey.
    + intros [Hk Hs]. eauto.
  - intros p c c'. simpl. do 2 (case_bool_decide; [done|]). intros [= <-]. exists p. simpl.
    rewrite well_keyed_insert by done. split; [done|]. by repeat split.
  - intros p c r c'. simpl. destruct (well_keyed _ !! _) eqn:E; intros [= <- <-] _; simpl.
    + by rewrite well_keyed_delete.
    + by rewrite delete_id.
  - intros p c r c'. simpl. destruct (well_keyed _ !! _); by intros [= <- <-].
  - intros p c e c'. simpl. do 2 (case_bool_decide; [by intros [= <- <-]|]). done.
  - intros q c r c'. destruct q; try done; simpl; intros _; try (by intros [= <- <-]);
      by destruct (_ !! _); intros [= <- <-].
  - intros q c r c'. destruct q as [p|p|p1 p2|v|v|v|b]; try done; intros _; simpl.
    + do 2 (case_bool_decide; [by intros [= <- <-]|]). by intros [= <- <-].
    + destruct (well_keyed _ !! _); by intros [= <- <-].
Defined.

Lemma get_of_keyed {V} `{Object V} (m : gmap ObjectKey V) k x :
  get_of (keyed m) k = Ok x → ObjectKeyFromObject x = k.
Proof. unfold get_of. destruct (keyed m !! k) eqn:E; [|done]. intros [= <-]. by apply keyed_lookup in E as []. Qed.

#[export] Instance cluster_coherent : CoherentClient Cluster.
Proof.
  split; simpl; eauto using get_of_keyed.
  - intros c n ns. unfold get_of, named. destruct (filter _ _ !! n) eqn:E; [|done]. intros [= <-].
    by apply map_lookup_filter_Some in E as [].
  - intros c o l p [= <-] [_ Hs]%list_elem_of_In%filter_In. done.
Qed.

End Model.
