(* ===== verification/Permits.v ===== *)
(** * Which namespaces take part (internal/controller/namespace.go, permits.go)

    The namespace filter decides what the operator manages; [Permits] decides
    which namespaces' pods may join a vnet, reading the vnet and, for a label
    selector, the namespace. *)

From S2P Require Import Prelude GoStrings Types Effects Names ApiServer.

(** ** namespace.go *)

Definition AnnotationDisabled : string := "kube-vnet/disabled".
Definition AnnotationExternalAllow : string := "kube-vnet/external-allow".
Definition AnnotationApiserverReachable : string := "kube-vnet/apiserver-reachable".

Definition ExternalAllowOptedOut (annotations : gmap string string) : bool :=
  get_or "" annotations AnnotationExternalAllow =?? "false".

Definition ApiserverReachableOptedIn (annotations : gmap string string) : bool :=
  get_or "" annotations AnnotationApiserverReachable =?? "true".

(** [map[string]bool], in which only true is ever stored. *)
Record NamespaceFilter := mkFilter { Excluded : gset string }.

Definition NewNamespaceFilter (excluded : list string) : NamespaceFilter :=
  mkFilter (foldl (λ s n, if n =?? "" then s else {[n]} ∪ s) ∅ excluded).

Definition IsManaged (f : NamespaceFilter) (ns : Namespace) : bool :=
  bool_decide (obj_name ns ∉ Excluded f) &&
  negb (get_or "" (obj_annotations ns) AnnotationDisabled =?? "true").

Definition Manages (f : NamespaceFilter) (rd : Reader) (name : string) : result bool :=
  match get_namespace rd name with
  | Err e => if IsNotFound e then Ok false else Err e
  | Ok ns => Ok (IsManaged f ns)
  end.

(** ** permits.go *)

Section permits.
Context `{K8sLib}.

Definition matchesAllowedNamespaces (rd : Reader) (sel : option NamespaceSelector) (podNS : string) :
    result bool :=
  match sel with
  | None => Ok false
  | Some s =>
      if ns_all s || bool_decide (podNS ∈ ns_names s) then Ok true
      else match ns_selector s with
      | None => Ok false
      | Some ls =>
          match LabelSelectorAsSelector ls with
          | Err _ => Ok false
          | Ok matches =>
              match get_namespace rd podNS with
              | Err e => if IsNotFound e then Ok false else Err e
              | Ok nsObj => Ok (matches (obj_labels nsObj))
              end
          end
      end
  end.

Definition PermitsForVnet (rd : Reader) (v : option VirtualNetwork) (podNS : string) : result bool :=
  match v with
  | None => Ok false
  | Some v =>
      if podNS =?? obj_ns v then Ok true
      else matchesAllowedNamespaces rd (vs_allowedNamespaces (vnet_spec v)) podNS
  end.

Definition Permits (rd : Reader) (vnetKey : VnetKey) (podNS : string) : result bool :=
  match splitVnetKey vnetKey with
  | None => Ok false
  | Some (homeNS, vnetName) =>
      if (vnetName =?? SystemVnetCluster) && (homeNS =?? "") then Ok true
      else match get_vnet rd (mkKey homeNS vnetName) with
      | Err e => if IsNotFound e then Ok false else Err e
      | Ok v => PermitsForVnet rd (Some v) podNS
      end
  end.

Definition NamespacesAdmittedBy (rd : Reader) (vnet : option VirtualNetwork) : result (list string) :=
  match vnet with
  | None => Ok []
  | Some v =>
      namespaces ← list_namespaces rd;
      result_filterM (λ ns, PermitsForVnet rd (Some v) ns) (map obj_name namespaces)
  end.
End permits.

(** ** Specification *)

(** A namespace may join: it is home, or the vnet names it by [all], by name or
    by a well-formed selector its labels match. *)
Definition admitted `{K8sLib} (rd : Reader) (v : VirtualNetwork) (ns : string) : Prop :=
  ns = obj_ns v ∨
  ∃ s, vs_allowedNamespaces (vnet_spec v) = Some s ∧
    (ns_all s = true ∨ ns ∈ ns_names s ∨
     ∃ ls matches nsObj, ns_selector s = Some ls ∧ LabelSelectorAsSelector ls = Ok matches ∧
       get_namespace rd ns = Ok nsObj ∧ matches (obj_labels nsObj) = true).

Section facts.
Context `{K8sLib}.

Lemma elem_of_Excluded n excluded :
  n ∈ Excluded (NewNamespaceFilter excluded) ↔ n ≠ "" ∧ n ∈ excluded.
Proof.
  unfold NewNamespaceFilter. simpl.
  induction excluded as [|x l IH] using rev_ind; [set_solver|].
  rewrite foldl_app. simpl. rewrite elem_of_app, list_elem_of_singleton.
  case_bool_decide; rewrite ?elem_of_union, ?elem_of_singleton, IH; naive_solver.
Qed.

Lemma matchesAllowed_true rd sel ns :
  matchesAllowedNamespaces rd sel ns = Ok true ↔
  ∃ s, sel = Some s ∧
    (ns_all s = true ∨ ns ∈ ns_names s ∨
     ∃ ls matches nsObj, ns_selector s = Some ls ∧ LabelSelectorAsSelector ls = Ok matches ∧
       get_namespace rd ns = Ok nsObj ∧ matches (obj_labels nsObj) = true).
Proof.
  unfold matchesAllowedNamespaces. destruct sel as [s|]; [|naive_solver].
  destruct (ns_all s) eqn:Ea; simpl; [naive_solver|].
  case_bool_decide as En; [naive_solver|].
  transitivity (∃ ls matches nsObj, ns_selector s = Some ls ∧
    LabelSelectorAsSelector ls = Ok matches ∧
    get_namespace rd ns = Ok nsObj ∧ matches (obj_labels nsObj) = true).
  - destruct (ns_selector s) as [ls|]; [|split; [done|by intros (? & ? & ? & ? & _)]].
    destruct (LabelSelectorAsSelector ls) as [m|] eqn:Em;
      [|split; [done|intros (? & ? & ? & [= <-] & ? & _); congruence]].
    destruct (get_namespace rd ns) as [o|e];
      [|split; [by destruct (IsNotFound e)|by intros (? & ? & ? & _ & _ & ? & _)]].
    split; [intros [= Hm]; eauto 8|]. intros (? & ? & ? & [= <-] & Hm' & [= <-] & Hm).
    rewrite Em in Hm'. simplify_eq. by rewrite Hm.
  - split; [eauto 8|]. intros (s' & [= <-] & [?|[?|?]]); [congruence|done|done].
Qed.

Lemma PermitsForVnet_true rd v ns : PermitsForVnet rd (Some v) ns = Ok true ↔ admitted rd v ns.
Proof.
  unfold PermitsForVnet, admitted. case_bool_decide; [naive_solver|].
  rewrite matchesAllowed_true. naive_solver.
Qed.

(** The error of a permission check is a failed read that is not a NotFound. *)
Lemma PermitsForVnet_err rd v ns e :
  PermitsForVnet rd v ns = Err e → get_namespace rd ns = Err e ∧ IsNotFound e = false.
Proof.
  unfold PermitsForVnet, matchesAllowedNamespaces. intros Hp.
  repeat (case_match; simplify_eq; try done).
Qed.

Lemma Manages_true f rd ns :
  Manages f rd ns = Ok true ↔ ∃ nsObj, get_namespace rd ns = Ok nsObj ∧ IsManaged f nsObj = true.
Proof.
  unfold Manages. destruct (get_namespace rd ns) as [o|e]; [kv_iff|].
  destruct (IsNotFound e); kv_iff.
Qed.

Lemma Permits_cases rd key podNS :
  (Permits rd key podNS = Ok true ↔
    key = SystemVnetCluster ∨
    ∃ homeNS name v, splitVnetKey key = Some (homeNS, name) ∧ key ≠ SystemVnetCluster ∧
      get_vnet rd (mkKey homeNS name) = Ok v ∧ admitted rd v podNS) ∧
  (∀ e, Permits rd key podNS = Err e →
    IsNotFound e = false ∧ ((∃ k, get_vnet rd k = Err e) ∨ get_namespace rd podNS = Err e)).
Proof.
  unfold Permits. destruct (splitVnetKey key) as [[homeNS name]|] eqn:Es.
  - destruct (splitVnetKey_Some _ _ _ Es) as [(-> & -> & ->)|(-> & Hh & Hn & Hd)].
    + simpl. split; [split; [by left|done]|done].
    + rewrite (bool_decide_eq_false_2 (homeNS = "")), andb_false_r by done.
      assert (dotted homeNS name ≠ SystemVnetCluster) by auto with kv.
      destruct (get_vnet rd (mkKey homeNS name)) as [v|e] eqn:Eg.
      * rewrite PermitsForVnet_true. split; [kv_iff|].
        intros e [? ?]%PermitsForVnet_err. auto.
      * destruct (IsNotFound e) eqn:En; split; [kv_iff|done|kv_iff|kv_fo].
  - split; [|done]. split; [done|]. intros [->|?]; [done|kv_fo].
Qed.

Definition Permits_true rd key podNS := proj1 (Permits_cases rd key podNS).
Definition Permits_err rd key podNS := proj2 (Permits_cases rd key podNS).
End facts.

(** ** Properties *)

(** [Permits] answers yes exactly for the bare cluster key, and for a key of an
    existing vnet that admits the pod's namespace: its home, everything, the
    names it lists or the namespaces its selector matches. A malformed key, a
    missing vnet and a malformed selector answer no; an error is a read that
    failed for another reason than absence. *)
Theorem Permits_spec `{K8sLib} rd key podNS :
  (Permits rd key podNS = Ok true ↔
    key = SystemVnetCluster ∨
    ∃ homeNS name v, splitVnetKey key = Some (homeNS, name) ∧ key ≠ SystemVnetCluster ∧
      get_vnet rd (mkKey homeNS name) = Ok v ∧ admitted rd v podNS) ∧
  (∀ e, Permits rd key podNS = Err e →
    IsNotFound e = false ∧ ((∃ k, get_vnet rd k = Err e) ∨ get_namespace rd podNS = Err e)).
Proof. split; [apply Permits_true|apply Permits_err]. Qed.

(** [NamespacesAdmittedBy] is the inverse of [Permits]: of the listed
    namespaces it returns exactly those [Permits] accepts for the vnet, so a
    fan-out over it reaches every namespace whose pods the vnet can affect. *)
Theorem NamespacesAdmittedBy_inverse `{K8sLib} rd v key homeNS name namespaces admittedNS
    (Hk : splitVnetKey key = Some (homeNS, name)) (Hc : key ≠ SystemVnetCluster)
    (Hv : get_vnet rd (mkKey homeNS name) = Ok v)
    (Hl : list_namespaces rd = Ok namespaces)
    (Ha : NamespacesAdmittedBy rd (Some v) = Ok admittedNS) ns :
  ns ∈ admittedNS ↔ ns ∈ map obj_name namespaces ∧ Permits rd key ns = Ok true.
Proof.
  unfold NamespacesAdmittedBy in Ha. rewrite Hl in Ha. cbn [mbind result_bind] in Ha.
  rewrite (result_filterM_Ok _ _ _ Ha). cbv beta. rewrite (PermitsForVnet_true rd v ns), Permits_true.
  apply and_iff_compat_l. split.
  - intros Had. right. by exists homeNS, name, v.
  - intros [?|(h' & n' & v' & Hs & _ & Hg & Had)]; [done|].
    rewrite Hk in Hs. simplify_eq. rewrite Hv in Hg. by simplify_eq.
Qed.

Import Model.

(** A cluster with a vnet [shop/payments] open to the namespace [web]. *)
Definition permits_vnet : VirtualNetwork :=
  mkVnet (new_meta "shop" "payments" ∅)
    (mkVnetSpec "" (Some (mkNSSel false ["web"] None))) empty_vnet_status.
Definition permits_reader : Reader :=
  cluster_reader
    (mkCluster ∅
       {["shop" := mkNamespace (new_meta "" "shop" ∅); "web" := mkNamespace (new_meta "" "web" ∅);
         "db" := mkNamespace (new_meta "" "db" ∅)]}
       {[mkKey "shop" "payments" := permits_vnet]} ∅ ∅ ∅ ∅ ∅ [] [] [] ∅).

Lemma NamespacesAdmittedBy_inverse_witness :
  NamespacesAdmittedBy permits_reader (Some permits_vnet) = Ok ["web"; "shop"] ∧
  ("web" ∈ ["web"; "shop"] ↔
    "web" ∈ ["web"; "shop"; "db"] ∧ Permits permits_reader "shop.payments" "web" = Ok true).
Proof.
  split; [vm_compute; reflexivity|].
  apply (NamespacesAdmittedBy_inverse permits_reader permits_vnet "shop.payments" "shop" "payments"
    (map (λ n, mkNamespace (new_meta "" n ∅)) ["web"; "shop"; "db"]) ["web"; "shop"]);
    first [discriminate | vm_compute; reflexivity].
Defined.
