(* ===== verification/Apply.v ===== *)
(** * Applying and sweeping policies, and what a reconciler remembers
    (internal/controller/sweep.go, signals.go)

    Every reconciler that writes network policies applies the ones it wants
    through [applyPolicy] and deletes the rest of its own through
    [sweepStalePolicies]. [reconciled] states what that leaves of the stored
    policies; [apply_and_sweep] proves it once for all of them. *)

From S2P Require Import Prelude GoStrings Types Effects Names ApiServer.

(** ** Events *)

(** [events.EventRecorder] may be nil: [false] stands for a nil recorder. *)
Abbreviation Recorder := bool (only parsing).

Definition EventApplyFailed : string := "ApplyFailed".
Definition EventPolicyRestored : string := "PolicyRestored".

Section signals.
Context {W : Type}.

Definition eventf (rec : Recorder) (obj : ObjRef) (eventtype reason action note : string)
    (args : list Arg) : IO W unit :=
  if negb rec then mret tt
  else log_action (AEvent (mkEvent obj eventtype reason action note args)).

Definition applyFailed (rec : Recorder) (obj : ObjRef) (kind note : string) (args : list Arg) :
    IO W unit :=
  _ ← log_action (AMetric (MApplyError kind));
  eventf rec obj EventTypeWarning EventApplyFailed "Apply" note args.

Definition policyRestored (rec : Recorder) (obj : ObjRef) (note : string) (args : list Arg) :
    IO W unit :=
  eventf rec obj EventTypeWarning EventPolicyRestored "Restore" note args.
End signals.

(** ** policyTracker and onceSet *)

Definition tracker_applied (keys : gset ObjectKey) (key : ObjectKey) (created : bool) :
    bool * gset ObjectKey :=
  (created && bool_decide (key ∈ keys), {[key]} ∪ keys).

Definition tracker_forget (keys : gset ObjectKey) (key : ObjectKey) : gset ObjectKey :=
  keys ∖ {[key]}.

Definition tracker_forgetNamespace (keys : gset ObjectKey) (ns : string) (keep : gset ObjectKey) :
    gset ObjectKey :=
  filter (λ k, ¬ (key_ns k = ns ∧ k ∉ keep)) keys.

Abbreviation OnceSet := (gmap ObjectKey (gmap string string)) (only parsing).

Definition once_first (seen : OnceSet) (nn : ObjectKey) (uid reason : string) : bool * OnceSet :=
  let byReason := default ∅ (seen !! nn) in
  if byReason !! reason =?? Some uid then (false, seen)
  else (true, <[nn := <[reason := uid]> byReason]> seen).

Definition once_clear (seen : OnceSet) (nn : ObjectKey) (reason : string) : OnceSet :=
  alter (delete reason) nn seen.

Definition once_forget (seen : OnceSet) (nn : ObjectKey) : OnceSet := delete nn seen.

(** The same operations on the reconciler's own tracker and set. *)
Section memory.
Context {W : Type}.

Definition restores_applied (key : ObjectKey) (created : bool) : IO W bool := λ st,
  let '(restored, keys) := tracker_applied (st_restores st) key created in
  (restored, mkSt (st_world st) (st_log st) keys (st_once st)).

Definition restores_forget (key : ObjectKey) : IO W unit := λ st,
  (tt, mkSt (st_world st) (st_log st) (tracker_forget (st_restores st) key) (st_once st)).

Definition restores_forgetNamespace (ns : string) (keep : gset ObjectKey) : IO W unit := λ st,
  (tt, mkSt (st_world st) (st_log st) (tracker_forgetNamespace (st_restores st) ns keep)
         (st_once st)).

Definition first {A} `{Object A} (obj : A) (reason : string) : IO W bool := λ st,
  let '(b, seen) := once_first (st_once st) (ObjectKeyFromObject obj) (obj_uid obj) reason in
  (b, mkSt (st_world st) (st_log st) (st_restores st) seen).

Definition clear {A} `{Object A} (obj : A) (reason : string) : IO W unit := λ st,
  (tt, mkSt (st_world st) (st_log st) (st_restores st)
         (once_clear (st_once st) (ObjectKeyFromObject obj) reason)).

Definition forget (nn : ObjectKey) : IO W unit := λ st,
  (tt, mkSt (st_world st) (st_log st) (st_restores st) (once_forget (st_once st) nn)).
End memory.

(** ** sweep.go *)

Definition operatorManaged {A} `{Object A} (obj : A) : bool :=
  get_or "" (obj_labels obj) LabelManagedBy =?? LabelManagedByValue.

Definition hasControllerOwner (refs : list OwnerReference) (kind name uid : string) : bool :=
  existsb (λ ref,
    bool_decide (or_controller ref = Some true) &&
    ((or_kind ref =?? kind) && (or_name ref =?? name) && (or_uid ref =?? uid))) refs.

Definition inNamespacePolicyLabels (ns : string) (extraLabels : gmap string string) : ListOptions :=
  mkList (Some ns) (extraLabels ∪ {[LabelManagedBy := LabelManagedByValue]}) None.

(** One iteration of the loop over the desired labels. *)
Definition sync_label (k v : string) (acc : gmap string string * bool) : gmap string string * bool :=
  match acc.1 !! k with
  | Some cur => if cur =?? v then acc else (<[k := v]> acc.1, true)
  | None => (<[k := v]> acc.1, true)
  end.

(** The labels the object is left with, and [changed]. *)
Definition syncManagedLabels (labels : gmap string string) (isManaged : string → bool)
    (desired : gmap string string) : gmap string string * bool :=
  let kept := filter (λ kv, ¬ (isManaged kv.1 = true ∧ desired !! kv.1 = None)) labels in
  map_fold sync_label (kept, negb (size kept =?? size labels)) desired.

Section apply.
Context `{K8sLib} {W : Type} `{Client W}.

Definition policyUpToDate (live desired : NetworkPolicy) : bool :=
  if m_deleting (np_meta live) || negb (obj_labels live =?? obj_labels desired) then false
  else if negb (bool_decide (obj_annotations desired ⊆ obj_annotations live)) then false
  else DeepEqual (m_ownerReferences (np_meta live)) (m_ownerReferences (np_meta desired)) &&
       DeepEqual (np_spec live) (np_spec desired).

(** [reader] is [cl_reader] or [cl_apireader]; the result is [created]. *)
Definition applyPolicy (reader : W → Reader) (desired : NetworkPolicy) : EIO W bool := λ st,
  match get_netpol (reader (st_world st)) (ObjectKeyFromObject desired) with
  | Err e =>
      if IsNotFound e then (_ ← write (WApplyPolicy desired); mret true : EIO W bool) st
      else (Err e, st)
  | Ok live =>
      if policyUpToDate live desired then (Ok false, st)
      else (_ ← write (WApplyPolicy desired); mret false : EIO W bool) st
  end.

(** One iteration of the loop over the listed policies. *)
Definition sweep_one (keep : gset ObjectKey) (skip : NetworkPolicy → bool) (p : NetworkPolicy) :
    EIO W unit :=
  if bool_decide (ObjectKeyFromObject p ∈ keep) || skip p then mret tt
  else
    r ← try (write (WDeletePolicy p));
    match r with
    | Err e => if IsNotFound e then mret tt else throw e
    | Ok _ => mret tt
    end.

Definition sweepStalePolicies (listOpts : ListOptions) (keep : gset ObjectKey)
    (skip : NetworkPolicy → bool) : EIO W unit :=
  existing ← read (λ rd, list_netpols rd listOpts);
  for_each existing (sweep_one keep skip).
End apply.

(** [skip] of a caller that passes nil. *)
Definition no_skip : NetworkPolicy → bool := λ _, false.

(** ** Specification: what applying and sweeping leave *)

(** The stored policies after a reconciler applied [want] and swept those of its
    own ([own]) it no longer wants: every wanted policy is live, every other one
    of its own is gone, and nothing else changed. *)
Definition reconciled (own : NetworkPolicy → bool) (want : list NetworkPolicy)
    (before after : gmap ObjectKey NetworkPolicy) : Prop :=
  (∀ p, p ∈ want → ∃ live, after !! ObjectKeyFromObject p = Some live ∧ applied p live) ∧
  (∀ k, k ∉ map ObjectKeyFromObject want →
    after !! k = match before !! k with Some q => if own q then None else Some q | None => None end).

(** What a run that may have failed half way leaves: a wanted policy is not lost,
    and another one is unchanged or was the reconciler's own and is gone. *)
Definition confined (own : NetworkPolicy → bool) (want : list NetworkPolicy)
    (before after : gmap ObjectKey NetworkPolicy) : Prop :=
  (∀ k, k ∈ map ObjectKeyFromObject want → is_Some (before !! k) → is_Some (after !! k)) ∧
  (∀ k, k ∉ map ObjectKeyFromObject want →
    after !! k = before !! k ∨
    after !! k = None ∧ ∃ q, before !! k = Some q ∧ own q = true).

(** The policies a sweep is about: selected and not skipped. *)
Definition swept (opts : ListOptions) (skip : NetworkPolicy → bool) (q : NetworkPolicy) : bool :=
  selected_by opts q && negb (skip q).

(** The policies of a state. *)
Definition stored {W} `{PolicyServer W} (st : St W) : gmap ObjectKey NetworkPolicy :=
  policies (st_world st).

(** ** Facts about the monads *)

Section monad_facts.
Context {W : Type}.

Lemma EIO_bind_inv {A B} (m : EIO W A) (f : A → EIO W B) st r st' :
  (m ≫= f) st = (r, st') →
  (∃ a st1, m st = (Ok a, st1) ∧ f a st1 = (r, st')) ∨
  (∃ e, m st = (Err e, st') ∧ r = Err e).
Proof.
  unfold mbind, EIO_bind. destruct (m st) as [[a|e] st1]; [eauto|].
  intros [= <- <-]. eauto.
Qed.

Lemma EIO_bind_Ok {A B} (m : EIO W A) (f : A → EIO W B) st b st' :
  (m ≫= f) st = (Ok b, st') → ∃ a st1, m st = (Ok a, st1) ∧ f a st1 = (Ok b, st').
Proof. by intros [?|(e & _ & ?)]%EIO_bind_inv. Qed.

Lemma bind_run_Ok {A B} (m : EIO W A) (f : A → EIO W B) st a st1 :
  m st = (Ok a, st1) → (m ≫= f) st = f a st1.
Proof. intros E. unfold mbind, EIO_bind. by rewrite E. Qed.
Lemma bind_run_Err {A B} (m : EIO W A) (f : A → EIO W B) st e st1 :
  m st = (Err e, st1) → (m ≫= f) st = (Err e, st1).
Proof. intros E. unfold mbind, EIO_bind. by rewrite E. Qed.

Lemma run_result {A} (m : EIO W A) st r : (m st).1 = r → m st = (r, (m st).2).
Proof. intros <-. by destruct (m st). Qed.

(** Running the first step of a program. *)
Lemma bind_try {A B} (m : EIO W A) (f : result A → EIO W B) st :
  (try m ≫= f) st = f (m st).1 (m st).2.
Proof. unfold mbind, EIO_bind, try. by destruct (m st). Qed.
Lemma bind_liftIO {A B} (m : IO W A) (f : A → EIO W B) st :
  (liftIO m ≫= f) st = f (m st).1 (m st).2.
Proof. unfold mbind, EIO_bind, liftIO. by destruct (m st). Qed.
Lemma bind_IO {A B} (m : IO W A) (f : A → IO W B) st :
  (m ≫= f) st = f (m st).1 (m st).2.
Proof. unfold mbind, IO_bind. by destruct (m st). Qed.
Lemma bind_read {A B} `{!Client W} (g : Reader → result A) (f : A → EIO W B) st :
  (read g ≫= f) st =
    match g (cl_reader (st_world st)) with Ok a => f a st | Err e => (Err e, st) end.
Proof. unfold mbind, EIO_bind, read. by destruct (g _). Qed.

(** A property of the state that no step of a program breaks, and what each
    step may assume of the state it starts in. *)
Definition preserves {A} (P : St W → Prop) (m : EIO W A) : Prop :=
  ∀ st r st', P st → m st = (r, st') → P st'.

Lemma preserves_bind {A B} P (m : EIO W A) (f : A → EIO W B) :
  preserves P m → (∀ a, preserves P (f a)) → preserves P (m ≫= f).
Proof.
  intros Hm Hf st r st' Hst [(a & st1 & H1 & H2)|(e & H1 & ->)]%EIO_bind_inv;
    [eapply Hf; [eapply Hm|]|eapply Hm]; done.
Qed.

Lemma preserves_ret {A} P (a : A) : preserves P (mret a : EIO W A).
Proof. intros st r st' Hst [= _ <-]. done. Qed.
Lemma preserves_throw {A} P e : preserves P (throw e : EIO W A).
Proof. intros st r st' Hst [= _ <-]. done. Qed.
Lemma preserves_lift {A} P (r : result A) : preserves P (lift r : EIO W A).
Proof. intros st r' st' Hst [= _ <-]. done. Qed.

Lemma preserves_try {A} P (m : EIO W A) : preserves P m → preserves P (try m).
Proof.
  intros Hm st r st' Hst. unfold try. destruct (m st) as [r1 st1] eqn:E.
  intros [= _ <-]. eauto.
Qed.

Lemma preserves_for_each {A} P (l : list A) (body : A → EIO W unit) :
  (∀ x, x ∈ l → preserves P (body x)) → preserves P (for_each l body).
Proof.
  induction l as [|x l IH]; intros Hb; simpl; [apply preserves_ret|].
  apply preserves_bind; [apply Hb; by left|]. intros _. apply IH. intros y Hy. apply Hb. by right.
Qed.
End monad_facts.

#[export] Hint Resolve preserves_ret preserves_throw preserves_lift preserves_try
  preserves_bind preserves_for_each : kv.

(** ** Steps that do not touch the world: Events, metrics, memory *)

(** A program that leaves a part [f] of the state as it is; [Silent] ones leave the
    world. *)
Class Keeps {W A X} (f : St W → X) (m : IO W A) : Prop := keeps st : f (m st).2 = f st.
#[global] Hint Mode Keeps ! ! ! ! ! : typeclass_instances.
Abbreviation Silent := (Keeps st_world).
Definition silent {W A} (m : IO W A) `{!Silent m} st : st_world (m st).2 = st_world st := keeps st.

Section keeps.
Context {W X : Type} (f : St W → X).

#[export] Instance keeps_ret {A} (a : A) : Keeps f (mret a : IO W A).
Proof. done. Qed.
#[export] Instance keeps_bind {A B} (m : IO W A) (k : A → IO W B) :
  Keeps f m → (∀ a, Keeps f (k a)) → Keeps f (m ≫= k).
Proof. intros Hm Hk st. rewrite bind_IO. rewrite (Hk _ _). apply Hm. Qed.
#[export] Instance keeps_if {A} (b : bool) (m1 m2 : IO W A) :
  Keeps f m1 → Keeps f m2 → Keeps f (if b then m1 else m2).
Proof. by destruct b. Qed.
#[export] Instance keeps_eventf_nil obj t r a n args : Keeps f (@eventf W false obj t r a n args).
Proof. done. Qed.

Lemma keeps_fold {A B} (l : list A) (acc : B) (body : B → A → IO W B) :
  (∀ acc x, Keeps f (body acc x)) → Keeps f (for_fold l acc body).
Proof.
  intros Hb. revert acc. induction l as [|x l IH]; intros acc; simpl; [apply _|].
  apply keeps_bind; [apply Hb|]. intros a. apply IH.
Qed.
End keeps.

Section silent.
Context {W : Type}.

#[export] Instance keeps_silent {A X} (g : W → X) (m : IO W A) : Silent m → Keeps (λ st, g (st_world st)) m.
Proof. intros Hm st. by rewrite (Hm st). Qed.
#[export] Instance silent_log (a : Action) : Silent (log_action a : IO W unit).
Proof. done. Qed.
#[export] Instance silent_eventf rec obj t r a n args : Silent (@eventf W rec obj t r a n args).
Proof. unfold eventf. apply _. Qed.
#[export] Instance silent_applyFailed rec obj k n args : Silent (@applyFailed W rec obj k n args).
Proof. unfold applyFailed. apply _. Qed.
#[export] Instance silent_policyRestored rec obj n args : Silent (@policyRestored W rec obj n args).
Proof. unfold policyRestored. apply _. Qed.
#[export] Instance silent_restores_applied k c : Silent (@restores_applied W k c).
Proof. done. Qed.
#[export] Instance silent_restores_forget k : Silent (@restores_forget W k).
Proof. done. Qed.
#[export] Instance silent_restores_forgetNamespace ns keep : Silent (@restores_forgetNamespace W ns keep).
Proof. done. Qed.
#[export] Instance silent_first {A} `{Object A} (o : A) r : Silent (@first W A _ o r).
Proof. intros st. unfold first. by destruct (once_first _ _ _ _). Qed.
#[export] Instance silent_clear {A} `{Object A} (o : A) r : Silent (@clear W A _ o r).
Proof. done. Qed.
#[export] Instance silent_forget nn : Silent (@forget W nn).
Proof. done. Qed.

Lemma bind_silent {A B} (m : IO W A) `{!Silent m} (f : A → EIO W B) st r st' :
  (liftIO m ≫= f) st = (r, st') →
  ∃ a st1, m st = (a, st1) ∧ st_world st1 = st_world st ∧ f a st1 = (r, st').
Proof.
  rewrite bind_liftIO. intros Hf. exists (m st).1, (m st).2.
  split; [by destruct (m st)|]. split; [apply keeps|done].
Qed.
End silent.

(** The same of a program that may fail. *)
Class KeepsE {W A X} (f : St W → X) (m : EIO W A) : Prop := keepsE st : f (m st).2 = f st.
#[global] Hint Mode KeepsE ! ! ! ! ! : typeclass_instances.
Abbreviation SilentE := (KeepsE st_world).

Section keepsE.
Context {W X : Type} (f : St W → X).

#[export] Instance keepsE_ret {A} (a : A) : KeepsE f (mret a : EIO W A).
Proof. done. Qed.
#[export] Instance keepsE_lift {A} (r : result A) : KeepsE f (lift r : EIO W A).
Proof. done. Qed.
#[export] Instance keepsE_throw {A} e : KeepsE f (throw e : EIO W A).
Proof. done. Qed.
#[export] Instance keepsE_try {A} (m : EIO W A) : KeepsE f m → KeepsE f (try m).
Proof. intros Hm st. unfold try. rewrite <-(Hm st). by destruct (m st). Qed.
#[export] Instance keepsE_if {A} (b : bool) (m1 m2 : EIO W A) :
  KeepsE f m1 → KeepsE f m2 → KeepsE f (if b then m1 else m2).
Proof. by destruct b. Qed.
#[export] Instance keepsE_result {A B} (r : result A) (m1 : A → EIO W B) (m2 : error → EIO W B) :
  (∀ a, KeepsE f (m1 a)) → (∀ e, KeepsE f (m2 e)) →
  KeepsE f (match r with Ok a => m1 a | Err e => m2 e end).
Proof. by destruct r. Qed.
#[export] Instance keeps_result {A B} (r : result A) (m1 : A → IO W B) (m2 : error → IO W B) :
  (∀ a, Keeps f (m1 a)) → (∀ e, Keeps f (m2 e)) →
  Keeps f (match r with Ok a => m1 a | Err e => m2 e end).
Proof. by destruct r. Qed.
#[export] Instance keeps_attempt {A} (m : EIO W A) : KeepsE f m → Keeps f (attempt m).
Proof. done. Qed.
#[export] Instance keepsE_liftIO {A} (m : IO W A) : Keeps f m → KeepsE f (liftIO m).
Proof. intros Hm st. unfold liftIO. rewrite <-(Hm st). by destruct (m st). Qed.
#[export] Instance keepsE_bind {A B} (m : EIO W A) (k : A → EIO W B) :
  KeepsE f m → (∀ a, KeepsE f (k a)) → KeepsE f (m ≫= k).
Proof.
  intros Hm Hk st. unfold mbind, EIO_bind. specialize (Hm st).
  destruct (m st) as [[a|e] st1]; simpl in *; [|done]. by rewrite (Hk a).
Qed.
End keepsE.

(** The part [f] of the state after a run that keeps it. *)
Lemma keepsE_run {W A X} (f : St W → X) (m : EIO W A) `{!KeepsE f m} st r st' :
  m st = (r, st') → f st' = f st.
Proof. intros E. pose proof (keepsE (f := f) (m := m) st) as Hk. by rewrite E in Hk. Qed.

Section keepsE_policies.
Context `{K8sLib} {W X : Type} `{Client W} (f : St W → X).

#[export] Instance keepsE_read {A} (g : Reader → result A) : KeepsE f (read g : EIO W A).
Proof. done. Qed.

Lemma keepsE_for_each {A} (l : list A) (body : A → EIO W unit) :
  (∀ x, KeepsE f (body x)) → KeepsE f (for_each l body).
Proof. intros Hb. induction l as [|x l IH]; simpl; [apply _|]. by apply keepsE_bind. Qed.

(** Applying and sweeping keep what their writes keep. *)
Lemma keepsE_applyPolicy rd p :
  KeepsE f (write (W := W) (WApplyPolicy p)) → KeepsE f (applyPolicy (W := W) rd p).
Proof.
  intros Hw st. unfold applyPolicy.
  assert (∀ b, KeepsE f (_ ← write (WApplyPolicy p); mret b : EIO W bool)) as Hb by (intros b; apply _).
  destruct (get_netpol _ _) as [live|e].
  - destruct (policyUpToDate live p); [done|apply Hb].
  - destruct (IsNotFound e); [apply Hb|done].
Qed.

Lemma keepsE_sweep opts keep skip :
  (∀ p, KeepsE f (write (W := W) (WDeletePolicy p))) → KeepsE f (sweepStalePolicies (W := W) opts keep skip).
Proof.
  intros Hw. apply keepsE_bind; [apply _|]. intros l. apply keepsE_for_each. intros p.
  apply keepsE_if; [apply _|]. apply keepsE_bind; [apply _|].
  intros [a|e]; [apply _|]. destruct (IsNotFound e); apply _.
Qed.
End keepsE_policies.

Section results.
Context {W : Type}.

(** The result of a program that starts with a step whose result is known. *)
Lemma bind_result {A B} (m : EIO W A) (f : A → EIO W B) st :
  ((m ≫= f) st).1 = match (m st).1 with Ok a => (f a (m st).2).1 | Err e => Err e end.
Proof. unfold mbind, EIO_bind. by destruct (m st) as [[]]. Qed.

Lemma fold_result {A B} (l : list A) (acc : B) (body : B → A → IO W B) (f : B → A → B) :
  (∀ acc x st, (body acc x st).1 = f acc x) → ∀ st, (for_fold l acc body st).1 = foldl f acc l.
Proof.
  intros Hb. revert acc. induction l as [|x l IH]; intros acc st; simpl; [done|].
  by rewrite bind_IO, IH, Hb.
Qed.
End results.

Lemma bind_keeps {W A B X} (f : St W → X) (m : IO W A) `{!Keeps f m} (k : A → EIO W B) st r st' :
  (liftIO m ≫= k) st = (r, st') → ∃ a st1, f st1 = f st ∧ k a st1 = (r, st').
Proof. rewrite bind_liftIO. intros Hk. exists (m st).1, (m st).2. split; [apply keeps|done]. Qed.

(** Step over a first step of the program of [H] that keeps [f]. *)
Tactic Notation "kv_keeps" constr(f) hyp(H) "as" ident(a) ident(st) ident(Hw) :=
  apply (bind_keeps f) in H as (a & st & Hw & H); [|apply _].

(** Step over a silent first step of the program of [H]. *)
Tactic Notation "kv_silent" hyp(H) "as" ident(a) ident(st) ident(Hw) :=
  apply bind_silent in H as (a & st & _ & Hw & H); [|apply _].

(** The writes of a state's log, with their results. *)
Definition write_results {W} (st : St W) : list (Write * result unit) :=
  omap (λ a, match a with AWrite w r => Some (w, r) | _ => None end) (st_log st).

Section writes.
Context {W : Type}.

#[export] Instance writes_eventf r obj t reason a n args :
  Keeps write_results (eventf (W := W) r obj t reason a n args).
Proof.
  intros st. unfold eventf. destruct r; [|done]. unfold write_results. simpl.
  by rewrite omap_app, app_nil_r.
Qed.
#[export] Instance writes_first {A} `{Object A} (o : A) r : Keeps write_results (@first W A _ o r).
Proof. intros st. unfold first. by destruct (once_first _ _ _ _). Qed.

Lemma write_results_write `{Client W} q (st : St W) :
  ∃ res, write q st = (res, (write q st).2) ∧
    write_results (write q st).2 = write_results st ++ [(q, res)].
Proof.
  unfold write. destruct (cl_write q (st_world st)) as [res w]. exists res. split; [done|].
  unfold write_results. simpl. by rewrite omap_app.
Qed.
End writes.

(** ** Facts about [syncManagedLabels] *)

Section sync_facts.
Implicit Types labels desired m : gmap string string.

Lemma insert_subseteq_iff m labels k v : m !! k = None →
  <[k:=v]> m ⊆ labels ↔ labels !! k = Some v ∧ m ⊆ labels.
Proof.
  intros Hk. rewrite !map_subseteq_spec. split.
  - intros Hs. split; [apply Hs, lookup_insert_eq|]. intros j x Hj. apply Hs.
    by rewrite lookup_insert_ne by congruence.
  - intros [Hl Hs] j x. destruct (decide (k = j)) as [<-|].
    + rewrite lookup_insert_eq. congruence.
    + rewrite lookup_insert_ne by done. apply Hs.
Qed.

Lemma sync_fold m labels b :
  (map_fold sync_label (labels, b) m).1 = m ∪ labels ∧
  ((map_fold sync_label (labels, b) m).2 = true ↔ b = true ∨ ¬ m ⊆ labels).
Proof.
  apply (map_fold_weak_ind
    (λ acc m, acc.1 = m ∪ labels ∧ (acc.2 = true ↔ b = true ∨ ¬ m ⊆ labels))).
  - rewrite (left_id_L ∅ _). pose proof (map_empty_subseteq labels). naive_solver.
  - clear m. intros k v m [l c] Hk [IH1 IH2]. simpl in *. subst l. unfold sync_label. simpl.
    rewrite lookup_union_r, insert_subseteq_iff, <-insert_union_l by done.
    destruct (labels !! k) as [cur|] eqn:E; [|naive_solver].
    case_bool_decide; simpl; [subst|naive_solver].
    rewrite insert_id by by rewrite lookup_union_r. split; [done|]. rewrite IH2. naive_solver.
Qed.

(** The labels end up being the desired ones and the unmanaged old ones. *)
Lemma syncManagedLabels_lookup labels isManaged desired k :
  (syncManagedLabels labels isManaged desired).1 !! k =
    match desired !! k with
    | Some v => Some v
    | None => if isManaged k then None else labels !! k
    end.
Proof.
  unfold syncManagedLabels. rewrite (proj1 (sync_fold _ _ _)).
  destruct (desired !! k) as [v|] eqn:E; [by apply lookup_union_Some_l|].
  rewrite lookup_union_r by done.
  destruct (labels !! k) as [x|] eqn:El.
  - destruct (isManaged k) eqn:Em.
    + apply map_lookup_filter_None_2. right. intros y _ []. done.
    + apply map_lookup_filter_Some_2; [done|]. simpl. intros [? _]. congruence.
  - rewrite map_lookup_filter_None_2 by auto. by destruct (isManaged k).
Qed.

(** [changed] tells exactly whether the labels changed. *)
Lemma syncManagedLabels_changed labels isManaged desired :
  (syncManagedLabels labels isManaged desired).2 = true ↔
  (syncManagedLabels labels isManaged desired).1 ≠ labels.
Proof.
  unfold syncManagedLabels. set (kept := filter _ labels).
  destruct (sync_fold desired kept (negb (size kept =?? size labels))) as [H1 H2].
  rewrite H2, H1, negb_true_iff, bool_decide_eq_false.
  assert (kept ⊆ labels) as Hkl by apply map_filter_subseteq.
  assert (size kept ≠ size labels → desired ∪ kept ≠ labels) as Hsz.
  { intros Hs Heq. apply Hs. f_equal. apply (anti_symm (⊆)); [done|].
    apply map_subseteq_spec. intros j x Hj. apply map_lookup_filter_Some_2; [done|].
    simpl. intros [Hm Hd]. rewrite <-Heq, lookup_union_r in Hj by done.
    apply map_lookup_filter_Some in Hj as [_ Hn]. simpl in Hn. auto. }
  clearbody kept. split.
  - intros [Hs|Hns] Heq; [by apply Hsz|].
    destruct (decide (size kept = size labels)) as [He|He]; [|by apply Hsz].
    assert (kept = labels) as -> by (apply map_subseteq_size_eq; [done|lia]).
    apply Hns. rewrite <-Heq. apply map_union_subseteq_l.
  - intros Hne. destruct (decide (size kept = size labels)) as [He|]; [right|by left].
    assert (kept = labels) as -> by (apply map_subseteq_size_eq; [done|lia]).
    intros Hs. apply Hne. by apply map_subseteq_union.
Qed.
End sync_facts.

(** ** Facts about applying and sweeping *)

Section apply_facts.
Context `{K8sLib, !K8sLaws} {W : Type} `{PolicyServer W}.
Implicit Types (st : St W) (p : NetworkPolicy).

Definition memory_of st := (st_restores st, st_once st).

Lemma write_inv q st r st' :
  write q st = (r, st') →
  cl_write q (st_world st) = (r, st_world st') ∧ st_log st' = st_log st ++ [AWrite q r] ∧
  memory_of st' = memory_of st.
Proof. unfold write. destruct (cl_write q (st_world st)) as [r1 w1]. by intros [= <- <-]. Qed.

Lemma policyUpToDate_applied live p :
  ObjectKeyFromObject live = ObjectKeyFromObject p → policyUpToDate live p = true → applied p live.
Proof.
  unfold policyUpToDate, applied. intros Hk.
  destruct (m_deleting _ || _) eqn:E1; [done|].
  destruct (negb (bool_decide (_ ⊆ _))) eqn:E2; [done|]. intros Hu. kv_bools.
  rewrite !DeepEqual_spec in *. split_and!; [done|done| |done|]; by repeat match goal with
    Ho : _ = _ |- _ => rewrite Ho
  end.
Qed.

(** A successful apply makes the policy live and reports whether it was absent;
    a failed one changes nothing. Nothing is written for a policy up to date. *)
Lemma applyPolicy_inv rd p st r st' :
  rd = cl_reader ∨ rd = cl_apireader →
  applyPolicy rd p st = (r, st') →
  memory_of st' = memory_of st ∧
  (∃ l, st_log st' = st_log st ++ l ∧ (l = [] ∨ ∃ res, l = [AWrite (WApplyPolicy p) res])) ∧
  match r with
  | Ok created =>
      (∃ live, stored st' = <[ObjectKeyFromObject p := live]> (stored st) ∧ applied p live) ∧
      (created = true ↔ stored st !! ObjectKeyFromObject p = None)
  | Err _ => stored st' = stored st
  end.
Proof.
  intros Hrd. unfold applyPolicy, stored.
  pose proof (reads_policies (st_world st) (rd (st_world st)) (ObjectKeyFromObject p)) as Hget.
  specialize (Hget ltac:(destruct Hrd; subst; auto)).
  assert (∀ b st1 r1, (_ ← write (WApplyPolicy p); mret b : EIO W bool) st = (r1, st1) →
    memory_of st1 = memory_of st ∧
    (∃ l, st_log st1 = st_log st ++ l ∧ (l = [] ∨ ∃ res, l = [AWrite (WApplyPolicy p) res])) ∧
    match r1 with
    | Ok c => c = b ∧ ∃ live, policies (st_world st1) =
        <[ObjectKeyFromObject p := live]> (policies (st_world st)) ∧ applied p live
    | Err _ => policies (st_world st1) = policies (st_world st)
    end) as Hw.
  { intros b st1 r1 [([] & st2 & Hw & [= <- <-])|(e & Hw & ->)]%EIO_bind_inv;
      apply write_inv in Hw as (Hw & Hlog & Hm).
    - split_and!; [done|eauto 10|done|]. by apply apply_stores.
    - split_and!; [done|eauto 10|]. by eapply failed_apply. }
  destruct (get_netpol _ _) as [live|e].
  - destruct (policyUpToDate live p) eqn:Eu.
    + intros [= <- <-]. split; [done|split; [exists []; rewrite app_nil_r; auto|]].
      pose proof (policies_key _ _ _ Hget) as Hk.
      split; [|by rewrite Hget]. exists live. rewrite insert_id by done.
      split; [done|]. by apply policyUpToDate_applied.
    + intros (Hm & Hl & Hr)%Hw. split; [done|split; [done|]]. destruct r as [c|]; [|done].
      destruct Hr as [-> Hr]. split; [done|]. by rewrite Hget.
  - destruct (IsNotFound e) eqn:En.
    + intros (Hm & Hl & Hr)%Hw. split; [done|split; [done|]]. destruct r as [c|]; [|done].
      destruct Hr as [-> Hr]. split; [done|]. by rewrite Hget.
    + intros [= <- <-]. split_and!; [done|exists []; rewrite app_nil_r; auto|done].
Qed.

Definition stale (keep : gset ObjectKey) (skip : NetworkPolicy → bool) p : Prop :=
  (ObjectKeyFromObject p ∉ keep) ∧ skip p = false.

#[local] Instance stale_dec keep skip p : Decision (stale keep skip p).
Proof. unfold stale. apply _. Defined.

Lemma sweep_one_inv keep skip p st r st' :
  sweep_one keep skip p st = (r, st') →
  memory_of st' = memory_of st ∧
  (∃ l, st_log st' = st_log st ++ l ∧ (l = [] ∨ ∃ res, l = [AWrite (WDeletePolicy p) res])) ∧
  match r with
  | Ok _ => stored st' = if decide (stale keep skip p)
                         then delete (ObjectKeyFromObject p) (stored st) else stored st
  | Err _ => stored st' = stored st
  end.
Proof.
  unfold sweep_one, stored, stale.
  destruct (bool_decide _ || skip p) eqn:Es.
  - intros [= <- <-]. split_and!; [done|exists []; rewrite app_nil_r; auto|].
    apply orb_true_iff in Es. rewrite decide_False; [done|]. rewrite bool_decide_eq_true in Es.
    intros [? ?]. destruct Es; congruence.
  - kv_bools. rewrite bind_try.
    destruct (write (WDeletePolicy p) st) as [r1 st1] eqn:Ew. simpl.
    apply write_inv in Ew as (Hw & Hl & Hm). rewrite decide_True by done.
    destruct r1 as [[]|e]; [intros [= <- <-]|destruct (IsNotFound e) eqn:En; intros [= <- <-]];
      (split; [done|split; [eauto 10|]]).
    + by eapply delete_removes.
    + eapply delete_removes; [done|]. done.
    + by eapply failed_delete.
Qed.

Lemma sweep_each_inv keep skip l st r st' :
  for_each l (sweep_one keep skip) st = (r, st') →
  memory_of st' = memory_of st ∧
  (∀ k, stored st' !! k = stored st !! k ∨
     stored st' !! k = None ∧ ∃ p, p ∈ l ∧ ObjectKeyFromObject p = k ∧ stale keep skip p) ∧
  (r = Ok tt → ∀ p, p ∈ l → stale keep skip p → stored st' !! ObjectKeyFromObject p = None).
Proof.
  revert st. induction l as [|p l IH]; intros st; simpl.
  { intros [= <- <-]. split_and!; [done|auto|]. intros _ p Hp. by apply not_elem_of_nil in Hp. }
  intros [([] & st1 & Hx1 & Hx2)|(e & Hx1 & ->)]%EIO_bind_inv;
    apply sweep_one_inv in Hx1 as (Hm1 & _ & Hs1).
  - destruct (IH _ Hx2) as (Hm2 & Hk2 & Hd2). split_and!; [congruence|..].
    + intros k. destruct (Hk2 k) as [->|[-> (q & ? & ? & ?)]].
      * rewrite Hs1. case_decide as Hst; [|by left].
        destruct (decide (ObjectKeyFromObject p = k)) as [<-|].
        -- right. rewrite lookup_delete_eq. split; [done|]. exists p. split; [by left|done].
        -- left. by rewrite lookup_delete_ne.
      * right. split; [done|]. exists q. split; [by right|done].
    + intros Hr q [->|Hq]%elem_of_cons Hst; [|by apply Hd2].
      destruct (Hk2 (ObjectKeyFromObject p)) as [->|[-> _]]; [|done].
      rewrite Hs1, decide_True by done. apply lookup_delete_eq.
  - split_and!; [done| |done]. intros k. left. by rewrite Hs1.
Qed.

(** A sweep deletes nothing but stale policies its selector matches, and all of
    them when it returns without error. *)
Lemma sweep_inv opts keep skip st r st' :
  sweepStalePolicies opts keep skip st = (r, st') →
  memory_of st' = memory_of st ∧
  (∀ k, stored st' !! k = stored st !! k ∨
     stored st' !! k = None ∧
       ∃ p, stored st !! k = Some p ∧ selected_by opts p = true ∧ stale keep skip p) ∧
  (r = Ok tt → ∀ k, stored st' !! k =
     match stored st !! k with
     | Some p => if selected_by opts p && bool_decide (stale keep skip p) then None else Some p
     | None => None
     end).
Proof.
  unfold sweepStalePolicies, read.
  intros [(l & st1 & [= Hl <-] & Hx2)|(e & [= He <-] & ->)]%EIO_bind_inv;
    [|split_and!; [done|auto|done]].
  pose proof (lists_policies _ _ _ Hl) as Hin. fold (stored st) in Hin.
  apply sweep_each_inv in Hx2 as (Hm & Hk & Hd). split_and!; [done|..].
  - intros k. destruct (Hk k) as [?|[? (p & [Hp ?]%Hin & <- & ?)]]; [auto|]. right. eauto.
  - intros Hr k. destruct (stored st !! k) as [p|] eqn:E.
    + pose proof (policies_key _ _ _ E) as Hpk. rewrite <-Hpk in E. subst k.
      destruct (selected_by opts p) eqn:Es; simpl.
      * assert (p ∈ l) by by apply Hin. case_bool_decide as Hst; [by apply Hd|].
        destruct (Hk (ObjectKeyFromObject p)) as [->|[_ (q & [Hq _]%Hin & Hqk & Hst')]]; [done|].
        destruct Hst. rewrite Hqk in Hq. congruence.
      * destruct (Hk (ObjectKeyFromObject p)) as [->|[_ (q & [Hq ?]%Hin & Hqk & _)]]; [done|].
        rewrite Hqk in Hq. congruence.
    + destruct (Hk k) as [->|[-> _]]; done.
Qed.
End apply_facts.

(** ** Composition *)

Definition own_none : NetworkPolicy → bool := λ _, false.

Section compose.
Implicit Types (own : NetworkPolicy → bool) (want : list NetworkPolicy).

Lemma elem_of_keys k want :
  k ∈ map ObjectKeyFromObject want ↔ ∃ p, p ∈ want ∧ ObjectKeyFromObject p = k.
Proof. rewrite list_elem_of_fmap. naive_solver. Qed.

Lemma confined_refl own want m : confined own want m m.
Proof. split; auto. Qed.

Lemma confined_trans own want m1 m2 m3 :
  confined own want m1 m2 → confined own want m2 m3 → confined own want m1 m3.
Proof.
  intros [Ha1 Hb1] [Ha2 Hb2]. split; [auto|]. intros k Hk.
  destruct (Hb1 k Hk) as [E1|[E1 ?]], (Hb2 k Hk) as [E2|[E2 (q & E3 & ?)]].
  - left. congruence.
  - right. rewrite <-E1. eauto.
  - right. split; [congruence|done].
  - congruence.
Qed.

Lemma confined_insert own want m p live :
  p ∈ want → confined own want m (<[ObjectKeyFromObject p := live]> m).
Proof.
  intros Hp. split.
  - intros k _ Hs. destruct (decide (ObjectKeyFromObject p = k)) as [<-|].
    + rewrite lookup_insert_eq. eauto.
    + by rewrite lookup_insert_ne.
  - intros k Hk. left. apply lookup_insert_ne. intros <-. apply Hk, elem_of_keys. eauto.
Qed.

Lemma confined_weaken own want want' m1 m2 :
  (∀ p, p ∈ want' → p ∈ want) → confined own_none want' m1 m2 → confined own want m1 m2.
Proof.
  intros Hsub [Ha Hb].
  assert (∀ k, k ∉ map ObjectKeyFromObject want' → m2 !! k = m1 !! k) as Hsame.
  { intros k Hk. by destruct (Hb k Hk) as [?|[_ (? & _ & ?)]]. }
  split.
  - intros k _ Hs. destruct (decide (k ∈ map ObjectKeyFromObject want')); [auto|].
    by rewrite Hsame.
  - intros k Hk. left. apply Hsame. intros (p & ? & <-)%elem_of_keys. apply Hk, elem_of_keys. eauto.
Qed.

Lemma reconciled_nil m : reconciled own_none [] m m.
Proof. split; [intros p Hp; by apply not_elem_of_nil in Hp|]. intros k _. by destruct (m !! k). Qed.

Lemma reconciled_none_lookup want m1 m2 k :
  reconciled own_none want m1 m2 → k ∉ map ObjectKeyFromObject want → m2 !! k = m1 !! k.
Proof. intros [_ Hr] Hk. rewrite Hr by done. by destruct (m1 !! k). Qed.

Lemma reconciled_insert m p live : applied p live →
  reconciled own_none [p] m (<[ObjectKeyFromObject p := live]> m).
Proof.
  intros Ha. split.
  - intros q ->%list_elem_of_singleton. exists live. by rewrite lookup_insert_eq.
  - intros k Hk. rewrite lookup_insert_ne; [by destruct (m !! k)|].
    intros <-. apply Hk. by left.
Qed.

Lemma reconciled_cons p want m1 m2 m3 :
  ObjectKeyFromObject p ∉ map ObjectKeyFromObject want →
  reconciled own_none [p] m1 m2 → reconciled own_none want m2 m3 →
  reconciled own_none (p :: want) m1 m3.
Proof.
  intros Hp H1 H2. split.
  - intros q [->|Hq]%elem_of_cons; [|by apply H2].
    rewrite (reconciled_none_lookup _ _ _ _ H2 Hp). apply H1. by left.
  - simpl. intros k [Hkp Hkw]%not_elem_of_cons.
    rewrite (reconciled_none_lookup _ _ _ _ H2 Hkw).
    rewrite (reconciled_none_lookup _ _ _ _ H1) by (by intros ->%list_elem_of_singleton).
    by destruct (m1 !! k).
Qed.
End compose.

Lemma stored_world {W} `{PolicyServer W} (st1 st2 : St W) :
  st_world st1 = st_world st2 → stored st1 = stored st2.
Proof. unfold stored. by intros ->. Qed.

Section loops.
Context `{K8sLib, !K8sLaws} {W : Type} `{PolicyServer W}.
Implicit Types (st : St W) (p : NetworkPolicy).

(** A step that, on success, has applied [p] and changed no other policy, and
    on failure has changed none. *)
Definition applies (body : EIO W unit) p : Prop := ∀ st r st', body st = (r, st') →
  match r with
  | Ok _ => ∃ live, stored st' = <[ObjectKeyFromObject p := live]> (stored st) ∧ applied p live
  | Err _ => stored st' = stored st
  end.

Lemma for_each_applies (body : NetworkPolicy → EIO W unit) want st r st' :
  (∀ p, p ∈ want → applies (body p) p) → for_each want body st = (r, st') →
  (NoDup (map ObjectKeyFromObject want) → r = Ok tt →
    reconciled own_none want (stored st) (stored st')) ∧
  confined own_none want (stored st) (stored st').
Proof.
  revert st. induction want as [|p want IH]; intros st Hb; simpl.
  { intros [= <- <-]. split; [intros; apply reconciled_nil|apply confined_refl]. }
  intros [([] & st1 & Hx1 & Hx2)|(e & Hx1 & ->)]%EIO_bind_inv;
    pose proof (Hb p ltac:(by left) _ _ _ Hx1) as Hs; cbv beta iota in Hs.
  - destruct Hs as (live & Hs & Ha). destruct (IH st1) as [IH1 IH2]; [|done|].
    { intros q Hq. apply Hb. by right. }
    rewrite Hs in IH1, IH2. split.
    + intros [Hp Hnd]%NoDup_cons Hr. eapply reconciled_cons; [done|by apply reconciled_insert|auto].
    + eapply confined_trans; [apply (confined_insert _ _ _ p); by left|].
      eapply confined_weaken; [|done]. intros q Hq. by right.
  - rewrite Hs. split; [done|apply confined_refl].
Qed.

(** Applying wanted policies, then sweeping those that are not kept. *)
Lemma apply_and_sweep_keep opts keep skip want m st r st' :
  (∀ k, k ∈ map ObjectKeyFromObject want → k ∈ keep) →
  reconciled own_none want m (stored st) →
  sweepStalePolicies opts keep skip st = (r, st') →
  let own q := swept opts skip q && bool_decide (ObjectKeyFromObject q ∉ keep) in
  confined own want m (stored st') ∧ (r = Ok tt → reconciled own want m (stored st')).
Proof.
  intros Hkeep Hr (_ & Hc & Hok)%sweep_inv own.
  assert (∀ k, k ∈ map ObjectKeyFromObject want → stored st' !! k = stored st !! k) as Hsame.
  { intros k Hk. destruct (Hc k) as [?|(_ & p & Hp & _ & Hst & _)]; [done|].
    destruct Hst. apply Hkeep. by rewrite (policies_key _ _ _ Hp). }
  split; [split|].
  - intros k Hk Hs. rewrite Hsame by done. apply elem_of_keys in Hk as (p & Hp & <-).
    destruct (proj1 Hr p Hp) as (live & -> & _). eauto.
  - intros k Hk. pose proof (reconciled_none_lookup _ _ _ _ Hr Hk) as Hm.
    destruct (Hc k) as [->|[? (p & ? & Hs & Hnk & Hsk)]]; [by left|]. right. rewrite <-Hm.
    split; [done|]. exists p. split; [done|]. unfold own, swept. rewrite Hs, Hsk.
    by rewrite bool_decide_eq_true_2.
  - intros Ht. split.
    + intros p Hp. rewrite Hsame by (apply elem_of_keys; eauto). by apply Hr.
    + intros k Hk. rewrite (Hok Ht), (reconciled_none_lookup _ _ _ _ Hr Hk).
      destruct (m !! k) as [q|]; [|done]. unfold own, swept.
      destruct (selected_by opts q); simpl; [|done].
      case_bool_decide as Hst; unfold stale in Hst; case_bool_decide;
        destruct (skip q); simpl in *; naive_solver.
Qed.

(** The same when nothing else is kept. *)
Lemma apply_and_sweep opts keep skip want m st r st' :
  (∀ k, k ∈ map ObjectKeyFromObject want → k ∈ keep) →
  (∀ k q, m !! k = Some q → swept opts skip q = true → k ∈ keep → k ∈ map ObjectKeyFromObject want) →
  reconciled own_none want m (stored st) →
  sweepStalePolicies opts keep skip st = (r, st') →
  confined (swept opts skip) want m (stored st') ∧
  (r = Ok tt → reconciled (swept opts skip) want m (stored st')).
Proof.
  intros Hkeep Hkeep' Hr Hsw.
  destruct (apply_and_sweep_keep _ _ _ _ _ _ _ _ Hkeep Hr Hsw) as [[Hc1 Hc2] Hok].
  split; [split; [done|]|].
  - intros k Hk. destruct (Hc2 k Hk) as [?|[? (q & ? & [? _]%andb_true_iff)]]; [by left|right; eauto].
  - intros [H3 H4]%Hok. split; [done|]. intros k Hk. rewrite (H4 k Hk).
    destruct (m !! k) as [q|] eqn:E; [|done]. destruct (swept opts skip q) eqn:Es; simpl; [|done].
    rewrite bool_decide_eq_true_2; [done|]. intros Hin.
    assert (ObjectKeyFromObject q = k) as Hq.
    { apply (policies_key (st_world st)). fold (stored st).
      by rewrite (reconciled_none_lookup _ _ _ _ Hr Hk). }
    rewrite Hq in Hin. apply Hk. by eapply Hkeep'.
Qed.

Lemma sweep_only opts keep skip st r st' :
  (∀ k q, stored st !! k = Some q → swept opts skip q = true → k ∉ keep) →
  sweepStalePolicies opts keep skip st = (r, st') →
  confined (swept opts skip) [] (stored st) (stored st') ∧
  (r = Ok tt → reconciled (swept opts skip) [] (stored st) (stored st')).
Proof.
  intros Hk. apply apply_and_sweep; [|intros k q Hq Hs Hin; by destruct (Hk _ _ Hq Hs)|].
  - intros k Hin. by apply not_elem_of_nil in Hin.
  - apply reconciled_nil.
Qed.

Lemma apply_one_and_sweep opts skip p live m st r st' :
  stored st = <[ObjectKeyFromObject p := live]> m → applied p live →
  sweepStalePolicies opts {[ObjectKeyFromObject p]} skip st = (r, st') →
  confined (swept opts skip) [p] m (stored st') ∧
  (r = Ok tt → reconciled (swept opts skip) [p] m (stored st')).
Proof.
  intros Hs Ha. apply apply_and_sweep.
  - simpl. intros k ->%list_elem_of_singleton. by apply elem_of_singleton.
  - simpl. intros k q _ _ ->%elem_of_singleton. by left.
  - rewrite Hs. by apply reconciled_insert.
Qed.
End loops.

(** ** Specification of the in-memory signals *)

Inductive TrackerOp :=
  | TApplied (key : ObjectKey) (created : bool)
  | TForget (key : ObjectKey)
  | TForgetNamespace (ns : string) (keep : gset ObjectKey).

Definition tracker_step (keys : gset ObjectKey) (op : TrackerOp) : gset ObjectKey :=
  match op with
  | TApplied key created => (tracker_applied keys key created).2
  | TForget key => tracker_forget keys key
  | TForgetNamespace ns keep => tracker_forgetNamespace keys ns keep
  end.

(** [key] was applied and not forgotten since; the newest operation comes first. *)
Fixpoint applied_since (key : ObjectKey) (newest_first : list TrackerOp) : bool :=
  match newest_first with
  | [] => false
  | TApplied k _ :: ops => (k =?? key) || applied_since key ops
  | TForget k :: ops => negb (k =?? key) && applied_since key ops
  | TForgetNamespace ns keep :: ops =>
      negb ((key_ns key =?? ns) && bool_decide (key ∉ keep)) && applied_since key ops
  end.

Inductive OnceOp :=
  | OFirst (nn : ObjectKey) (uid reason : string)
  | OClear (nn : ObjectKey) (reason : string)
  | OForget (nn : ObjectKey).

Definition once_step (seen : OnceSet) (op : OnceOp) : OnceSet :=
  match op with
  | OFirst nn uid reason => (once_first seen nn uid reason).2
  | OClear nn reason => once_clear seen nn reason
  | OForget nn => once_forget seen nn
  end.

(** The UID last asked about for an object's name and a reason, unless cleared
    or forgotten since. *)
Fixpoint last_reported (nn : ObjectKey) (reason : string) (newest_first : list OnceOp) :
    option string :=
  match newest_first with
  | [] => None
  | OFirst nn' uid r :: ops =>
      if (nn' =?? nn) && (r =?? reason) then Some uid else last_reported nn reason ops
  | OClear nn' r :: ops =>
      if (nn' =?? nn) && (r =?? reason) then None else last_reported nn reason ops
  | OForget nn' :: ops => if nn' =?? nn then None else last_reported nn reason ops
  end.

Definition seen_uid (seen : OnceSet) (nn : ObjectKey) (reason : string) : option string :=
  seen !! nn ≫= λ byReason, byReason !! reason.

Lemma seen_uid_default seen nn reason :
  seen_uid seen nn reason = default ∅ (seen !! nn) !! reason.
Proof. unfold seen_uid. destruct (seen !! nn); [done|]. simpl. by rewrite lookup_empty. Qed.

Lemma once_step_seen seen op nn reason :
  seen_uid (once_step seen op) nn reason =
  match op with
  | OFirst nn' uid r =>
      if (nn' =?? nn) && (r =?? reason) then Some uid else seen_uid seen nn reason
  | OClear nn' r => if (nn' =?? nn) && (r =?? reason) then None else seen_uid seen nn reason
  | OForget nn' => if nn' =?? nn then None else seen_uid seen nn reason
  end.
Proof.
  destruct op as [nn' uid r|nn' r|nn']; simpl.
  - unfold once_first. rewrite <-seen_uid_default.
    case_bool_decide as E; simpl.
    + repeat case_bool_decide; simpl; congruence.
    + rewrite !seen_uid_default. destruct (decide (nn' = nn)) as [<-|].
      * rewrite lookup_insert_eq. simpl. rewrite (bool_decide_eq_true_2 (nn' = nn')) by done. simpl.
        case_bool_decide; [subst; apply lookup_insert_eq|by apply lookup_insert_ne].
      * rewrite lookup_insert_ne, (bool_decide_eq_false_2 (nn' = nn)) by done. done.
  - unfold seen_uid, once_clear. case_bool_decide as E; simpl.
    + subst. rewrite lookup_alter_eq. destruct (seen !! nn) as [m|]; simpl; [|by case_bool_decide].
      case_bool_decide; [subst; apply lookup_delete_eq|by apply lookup_delete_ne].
    + by rewrite lookup_alter_ne.
  - unfold seen_uid, once_forget. case_bool_decide; [subst; by rewrite lookup_delete_eq|].
    by rewrite lookup_delete_ne.
Qed.

(** ** Properties *)

(** [applyPolicy] converges and is quiet: when it returns without error the
    desired policy is live with everything it sets, and [created] tells exactly
    whether it was absent; when it fails no stored policy changed; and when the
    live policy is already up to date nothing is written at all. *)
Theorem applyPolicy_converges `{K8sLib, !K8sLaws} {W} `{PolicyServer W}
    (rd : W → Reader) (p : NetworkPolicy) (st : St W) r st'
    (Hrd : rd = cl_reader ∨ rd = cl_apireader) (Ha : applyPolicy rd p st = (r, st')) :
  match r with
  | Ok created =>
      (∃ live, stored st' = <[ObjectKeyFromObject p := live]> (stored st) ∧ applied p live) ∧
      (created = true ↔ stored st !! ObjectKeyFromObject p = None)
  | Err _ => stored st' = stored st
  end ∧
  (∀ live, stored st !! ObjectKeyFromObject p = Some live → policyUpToDate live p = true →
    st' = st).
Proof.
  split; [by eapply (applyPolicy_inv rd p st r st')|]. intros live Hl Hu.
  unfold applyPolicy in Ha.
  pose proof (reads_policies (st_world st) (rd (st_world st)) (ObjectKeyFromObject p)) as Hget.
  specialize (Hget ltac:(destruct Hrd; subst; auto)). unfold stored in Hl.
  destruct (get_netpol _ _) as [live'|e].
  - assert (live' = live) as -> by congruence. rewrite Hu in Ha. by simplify_eq.
  - destruct (IsNotFound e) eqn:En; [|by simplify_eq].
    specialize (Hget eq_refl). congruence.
Qed.

Import Model.

(** A state over the in-memory server. *)
Definition initial (c : Model.Cluster) : St Model.Cluster := mkSt c [] ∅ ∅.

Definition example_policy (ns name role : string) : NetworkPolicy :=
  mkNP NetworkingGroupVersion "NetworkPolicy"
    (new_meta ns name {[LabelManagedBy := LabelManagedByValue; LabelRole := role]})
    (mkNPSpec (mkSel ∅ []) [] [PolicyTypeIngress]).

Lemma applyPolicy_converges_witness :
  let p := example_policy "shop" "web" LabelRoleBaseline in
  let run := applyPolicy cl_reader p (initial empty_cluster) in
  run.1 = Ok true ∧
  ∃ live, stored run.2 = <[ObjectKeyFromObject p := live]> (stored (initial empty_cluster)) ∧
    applied p live.
Proof.
  intros p run. assert (run.1 = Ok true) as Hr by (vm_compute; reflexivity). split; [done|].
  exact (proj1 (proj1 (applyPolicy_converges cl_reader p (initial empty_cluster) (Ok true) _
    (or_introl eq_refl) (run_result _ _ _ Hr)))).
Defined.

(** [sweepStalePolicies] deletes no policy that its selector does not match,
    that is kept or that is skipped, whatever fails on the way; and when it
    returns without error, every policy it should delete is gone, one deleted by
    someone else in the meantime included. *)
Theorem sweep_exact `{K8sLib, !K8sLaws} {W} `{PolicyServer W} opts keep skip (st : St W) r st'
    (Hs : sweepStalePolicies opts keep skip st = (r, st')) :
  (∀ k p, stored st !! k = Some p → stored st' !! k ≠ Some p →
    selected_by opts p = true ∧ (ObjectKeyFromObject p ∉ keep) ∧ skip p = false) ∧
  (∀ k, stored st !! k = None → stored st' !! k = None) ∧
  (r = Ok tt → ∀ k p, stored st !! k = Some p →
    selected_by opts p = true → ObjectKeyFromObject p ∉ keep → skip p = false →
    stored st' !! k = None).
Proof.
  apply sweep_inv in Hs as (_ & Hc & Hok). split_and!.
  - intros k p Hp Hne. destruct (Hc k) as [?|[_ (q & ? & ? & Hst)]]; [congruence|].
    by replace p with q by congruence.
  - intros k Hk. by destruct (Hc k) as [->|[? _]].
  - intros Hr k p Hp Hsel Hk Hsk. rewrite (Hok Hr), Hp, Hsel. by rewrite bool_decide_eq_true_2.
Qed.

Definition sweep_cluster : Model.Cluster :=
  Model.set_netpols
    (list_to_map (map (λ p, (ObjectKeyFromObject p, p))
      [example_policy "shop" "old" LabelRoleBaseline; example_policy "shop" BaselinePolicyName LabelRoleBaseline;
       example_policy "other" "old" LabelRoleBaseline]))
    Model.empty_cluster.

Lemma sweep_exact_witness :
  let opts := inNamespacePolicyLabels "shop" {[LabelRole := LabelRoleBaseline]} in
  let keep := {[mkKey "shop" BaselinePolicyName]} in
  let run := sweepStalePolicies opts keep no_skip (initial sweep_cluster) in
  run.1 = Ok tt ∧ size (stored run.2) = 2 ∧ stored run.2 !! mkKey "shop" "old" = None.
Proof.
  intros opts keep run. assert (run.1 = Ok tt) as Hr by (vm_compute; reflexivity).
  split; [done|]. split; [vm_compute; reflexivity|].
  refine (proj2 (proj2 (sweep_exact opts keep no_skip (initial sweep_cluster) (Ok tt) _
    (run_result _ _ _ Hr))) eq_refl
    (mkKey "shop" "old") (example_policy "shop" "old" LabelRoleBaseline) _ _ _ _);
    first [kv_decide | vm_compute; reflexivity].
Defined.

(** The in-memory signals report exactly the transitions. An apply counts as a
    restore exactly when it created the policy and this process had applied it
    and not forgotten it since (by name, or with its namespace while not kept);
    an Event is a first exactly when the last report of that reason for the name
    was for another UID, or was cleared or forgotten. *)
Theorem signals_report_transitions (trace : list TrackerOp) (onces : list OnceOp) :
  (∀ key created,
    (tracker_applied (foldr (λ op keys, tracker_step keys op) ∅ trace) key created).1 =
      created && applied_since key trace) ∧
  (∀ nn uid reason,
    (once_first (foldr (λ op seen, once_step seen op) ∅ onces) nn uid reason).1 =
      negb (last_reported nn reason onces =?? Some uid)).
Proof.
  split.
  - intros key created. unfold tracker_applied. simpl. f_equal.
    induction trace as [|[k c|k|ns keep] trace IH]; simpl; [done|..]; rewrite <-IH.
    + unfold tracker_applied. simpl. repeat case_bool_decide; set_solver.
    + unfold tracker_forget. repeat case_bool_decide; set_solver.
    + unfold tracker_forgetNamespace. rewrite <-bool_decide_and, <-bool_decide_not, <-bool_decide_and.
      apply bool_decide_ext. rewrite elem_of_filter. tauto.
  - intros nn uid reason. unfold once_first. rewrite <-seen_uid_default.
    assert (∀ l, seen_uid (foldr (λ op seen, once_step seen op) ∅ l) nn reason =
      last_reported nn reason l) as ->; [|by case_bool_decide].
    induction l as [|op l IH]; [done|]. simpl. rewrite once_step_seen, IH. by destruct op.
Qed.
