(* ===== verification/Stamps.v ===== *)
(** * The stamps on a pod (internal/controller/stamps.go, pod_ports.go and the
    host-port stamps of hostport_controller.go)

    The reconciler and the admission webhooks write the operator's output on a
    pod through the same helpers. The theorem says what they leave on the pod:
    the desired stamps among those the caller owns, everything else untouched. *)

From S2P Require Import Prelude GoStrings Types Effects Names Apply.

Definition AnnotationResolvedGeneration : string := "kube-vnet.system/resolved-generation".
Definition AnnotationResolvedBy : string := "kube-vnet.system/resolved-by".
Definition ResolvedByController : string := "controller".
Definition ResolvedByAdmission : string := "admission".

(** resolver.go *)
Definition IsResolutionManagedLabel (k : string) : bool :=
  HasPrefix k LabelSystemNetPrefix || HasPrefix k LabelSystemHostPortPrefix.

Definition ResolutionStamps (pod : Pod) : gmap string string :=
  filter (λ kv, IsResolutionManagedLabel kv.1 = true) (obj_labels pod).

(** The pod after the call, and whether any label changed; [owns] of a caller
    that passes nil is [owns_all]. *)
Definition owns_all : string → bool := λ _, true.

Definition SyncStamps (pod : Pod) (desired : gmap string string) (owns : string → bool) : Pod * bool :=
  let owned := filter (λ kv, owns kv.1 = true) desired in
  let '(labels, changed) :=
    syncManagedLabels (obj_labels pod) (λ k, IsResolutionManagedLabel k && owns k) owned in
  (set_pod_labels labels pod, changed).

Definition MarkResolved (pod : Pod) (by_ : string) : Pod :=
  set_pod_annotations
    (<[AnnotationResolvedBy := by_]>
      (<[AnnotationResolvedGeneration := pretty (m_generation (pod_meta pod))]> (obj_annotations pod)))
    pod.

Definition ClearResolved (pod : Pod) : Pod * bool :=
  let hadGen := bool_decide (is_Some (obj_annotations pod !! AnnotationResolvedGeneration)) in
  let hadBy := bool_decide (is_Some (obj_annotations pod !! AnnotationResolvedBy)) in
  (set_pod_annotations
     (delete AnnotationResolvedBy (delete AnnotationResolvedGeneration (obj_annotations pod))) pod,
   hadGen || hadBy).

(** pod_ports.go: the containers the iterator yields, in order. *)
Definition namedPortContainers (spec : PodSpec) : list Container :=
  ps_containers spec ++
  filter (λ c, c_restartPolicy c = Some "Always") (ps_initContainers spec).

(** ** Facts *)

Lemma set_pod_labels_inj l1 l2 pod : set_pod_labels l1 pod = set_pod_labels l2 pod → l1 = l2.
Proof. intros E. by apply (f_equal (λ p, m_labels (pod_meta p))) in E. Qed.

Lemma ResolutionStamps_lookup pod k :
  ResolutionStamps pod !! k = if IsResolutionManagedLabel k then obj_labels pod !! k else None.
Proof.
  unfold ResolutionStamps. destruct (IsResolutionManagedLabel k) eqn:E.
  - destruct (obj_labels pod !! k) as [v|] eqn:El; [by apply map_lookup_filter_Some_2|].
    apply map_lookup_filter_None_2. by left.
  - apply map_lookup_filter_None_2. right. simpl. congruence.
Qed.

(** The desired stamps are labels of the two families. *)
Definition stamps_only (desired : gmap string string) : Prop :=
  ∀ k, is_Some (desired !! k) → IsResolutionManagedLabel k = true.

Lemma SyncStamps_fst pod desired owns : ∃ labels,
  SyncStamps pod desired owns = (set_pod_labels labels pod, bool_decide (labels ≠ obj_labels pod)) ∧
  (stamps_only desired → ∀ k, labels !! k =
    if IsResolutionManagedLabel k && owns k then desired !! k else obj_labels pod !! k).
Proof.
  unfold SyncStamps. set (owned := filter _ desired).
  pose proof (syncManagedLabels_changed (obj_labels pod)
    (λ k, IsResolutionManagedLabel k && owns k) owned) as Hc.
  pose proof (syncManagedLabels_lookup (obj_labels pod)
    (λ k, IsResolutionManagedLabel k && owns k) owned) as Hl.
  destruct (syncManagedLabels _ _ owned) as [labels changed]. simpl in *.
  exists labels. split.
  { f_equal. symmetry. destruct changed.
    - apply bool_decide_eq_true_2. by apply Hc.
    - apply bool_decide_eq_false_2. intros Hn%Hc. done. }
  intros Hd k. rewrite Hl. destruct (owned !! k) as [v|] eqn:E.
  - apply map_lookup_filter_Some in E as [E Ho]. simpl in Ho.
    by rewrite Hd, Ho, E by eauto.
  - destruct (IsResolutionManagedLabel k && owns k) eqn:Em; [|done].
    apply andb_true_iff in Em as [_ Ho]. destruct (desired !! k) as [v|] eqn:Ed; [|done].
    apply map_lookup_filter_None in E as [?|E]; [congruence|]. by destruct (E v).
Qed.

Lemma SyncStamps_lookup pod desired owns k : stamps_only desired →
  obj_labels (SyncStamps pod desired owns).1 !! k =
    if IsResolutionManagedLabel k && owns k then desired !! k else obj_labels pod !! k.
Proof.
  intros Hd. destruct (SyncStamps_fst pod desired owns) as (labels & -> & Hl). by apply Hl.
Qed.

Lemma SyncStamps_changed pod desired owns :
  (SyncStamps pod desired owns).2 = true ↔ (SyncStamps pod desired owns).1 ≠ pod.
Proof.
  destruct (SyncStamps_fst pod desired owns) as (labels & -> & _). simpl.
  rewrite bool_decide_eq_true. pose proof (set_pod_labels_id pod) as Hid. split.
  - intros Hne Heq. apply Hne, (set_pod_labels_inj _ _ pod).
    exact (eq_trans Heq (eq_sym Hid)).
  - intros Hne ->. done.
Qed.

Lemma SyncStamps_stamps pod desired :
  stamps_only desired → ResolutionStamps (SyncStamps pod desired owns_all).1 = desired.
Proof.
  intros Hd. apply map_eq. intros k. unfold ResolutionStamps.
  destruct (IsResolutionManagedLabel k) eqn:Em.
  - destruct (desired !! k) as [v|] eqn:Ed.
    + apply map_lookup_filter_Some_2; [|done].
      rewrite SyncStamps_lookup by done. by rewrite Em.
    + apply map_lookup_filter_None_2. left. rewrite SyncStamps_lookup by done. by rewrite Em.
  - trans (@None string).
    + apply map_lookup_filter_None_2. right. simpl. congruence.
    + symmetry. apply eq_None_not_Some. intros Hs%Hd. congruence.
Qed.

(** ** Properties *)

(** [SyncStamps] leaves on the pod exactly the desired stamps among those the
    caller owns, and nothing else changed: no user label, no stamp it does not own
    and nothing outside the labels. It reports a change exactly when the pod
    changed; a caller that owns every stamp leaves the desired set and has nothing
    to do the second time. *)
Theorem SyncStamps_spec pod desired owns (Hd : stamps_only desired) :
  let pod' := (SyncStamps pod desired owns).1 in
  (∀ k, obj_labels pod' !! k =
    if IsResolutionManagedLabel k && owns k then desired !! k else obj_labels pod !! k) ∧
  set_pod_labels (obj_labels pod) pod' = pod ∧
  ((SyncStamps pod desired owns).2 = true ↔ pod' ≠ pod) ∧
  (owns = owns_all → ResolutionStamps pod' = desired ∧ SyncStamps pod' desired owns = (pod', false)).
Proof.
  intros pod'. subst pod'.
  split; [|split; [|split]].
  - intros k. by apply SyncStamps_lookup.
  - destruct (SyncStamps_fst pod desired owns) as (labels & -> & _). simpl.
    by destruct pod as [[] ?].
  - apply SyncStamps_changed.
  - intros ->. split; [by apply SyncStamps_stamps|].
    set (pod1 := (SyncStamps pod desired owns_all).1).
    destruct (SyncStamps_fst pod1 desired owns_all) as (labels & -> & Hl).
    assert (labels = obj_labels pod1) as ->.
    { apply map_eq. intros k. rewrite (Hl Hd). subst pod1. rewrite !SyncStamps_lookup by done.
      by destruct (_ && _). }
    rewrite bool_decide_eq_false_2 by (by intros []). f_equal. apply set_pod_labels_id.
Qed.

Lemma SyncStamps_spec_witness :
  let pod := mkPod (new_meta "shop" "web-0" {["app" := "web"; "kube-vnet.system/net.old.net" := "both"]})
               (mkPodSpec [] [] false) in
  let desired := {["kube-vnet.system/net.shop.payments" := "ingress"]} in
  let run := SyncStamps pod desired owns_all in
  run.2 = true ∧ obj_labels run.1 = {["app" := "web"; "kube-vnet.system/net.shop.payments" := "ingress"]} ∧
  (owns_all = owns_all → ResolutionStamps run.1 = desired ∧ SyncStamps run.1 desired owns_all = (run.1, false)).
Proof.
  intros pod desired run. split; [vm_compute; reflexivity|]. split; [kv_decide|].
  refine (proj2 (proj2 (proj2 (SyncStamps_spec pod desired owns_all _)))).
  intros k [v [<- <-]%lookup_singleton_Some]. vm_compute. reflexivity.
Defined.
