(* ===== verification/Baseline.v ===== *)
(** * The namespace baseline (internal/controller/baseline.go,
    namespace_reconciler.go)

    [NamespaceReconciler] keeps the default-deny policy in every managed namespace
    and none in the others. *)

From S2P Require Import Prelude GoStrings Types Effects Names ApiServer Permits Apply.

Definition ApplyErrorBaseline : string := "baseline".

Definition DesiredBaseline (ns : string) : NetworkPolicy :=
  mkNP NetworkingGroupVersion "NetworkPolicy"
    (new_meta ns BaselinePolicyName
       {[LabelManagedBy := LabelManagedByValue; LabelK8sManagedBy := LabelManagedByValue;
         LabelRole := LabelRoleBaseline]})
    (mkNPSpec (mkSel ∅ []) [] [PolicyTypeIngress]).

Definition baselinePredicate (labels : gmap string string) : bool :=
  (get_or "" labels LabelManagedBy =?? LabelManagedByValue) &&
  (get_or "" labels LabelRole =?? LabelRoleBaseline).

(** The requests of a change to a namespaced object: its Namespace. *)
Definition objectNamespace {A} `{Object A} (obj : A) : list ObjectKey := [mkKey "" (obj_ns obj)].

Definition baseline_options (ns : string) : ListOptions :=
  inNamespacePolicyLabels ns {[LabelRole := LabelRoleBaseline]}.

Definition note_baseline_failed : string :=
  "the baseline NetworkPolicy %s could not be applied: %v. While this persists the namespace has no kube-vnet default-deny: its pods accept traffic from anywhere (fail-open). Check ResourceQuotas and admission policies on NetworkPolicies in this namespace.".

Definition note_baseline_restored : string :=
  "this NetworkPolicy was deleted and has been recreated: it is the namespace's kube-vnet default-deny baseline. An administrator opts a namespace out with the annotation kube-vnet/disabled=true.".

Section reconcile.
Context `{K8sLib} {W : Type} `{Client W} (NSFilter : NamespaceFilter) (Recorder : bool).

(** The steps on a managed namespace. *)
Definition reconcile_managed (ns : string) : EIO W Outcome :=
  let desired := DesiredBaseline ns in
  created ← try (applyPolicy cl_reader desired);
  match created with
  | Err e =>
      _ ← liftIO (applyFailed Recorder (ref_of desired) ApplyErrorBaseline note_baseline_failed
                    [AStr (obj_name desired); AStr (error_string e)]);
      throw e
  | Ok created =>
      restored ← liftIO (restores_applied (ObjectKeyFromObject desired) created);
      _ ← liftIO (if restored : bool
                  then policyRestored Recorder (ref_of desired) note_baseline_restored []
                  else mret tt);
      _ ← sweepStalePolicies (baseline_options ns) {[ObjectKeyFromObject desired]} no_skip;
      mret Finished
  end.

Definition NamespaceReconcile (name : string) : EIO W Outcome :=
  r ← try (read (λ rd, get_namespace rd name));
  match r with
  | Err e =>
      if IsNotFound e then (_ ← liftIO (restores_forgetNamespace name ∅); mret Finished)
      else throw e
  | Ok ns =>
      if m_deleting (ns_meta ns) then mret Finished
      else if negb (IsManaged NSFilter ns) then
        _ ← liftIO (restores_forgetNamespace (obj_name ns) ∅);
        _ ← sweepStalePolicies (baseline_options (obj_name ns)) ∅ no_skip;
        mret Finished
      else reconcile_managed (obj_name ns)
  end.
End reconcile.

(** ** Properties *)

Section facts.
Context `{K8sLib, !K8sLaws} {W : Type} `{PolicyServer W} (NSFilter : NamespaceFilter) (rec : bool).
Implicit Types (st : St W).

(** The namespace's own policies and what it wants of them. *)
Definition baseline_own (ns : string) : NetworkPolicy → bool := swept (baseline_options ns) no_skip.

Lemma reconcile_managed_inv ns st r st' :
  reconcile_managed rec ns st = (r, st') →
  confined (baseline_own ns) [DesiredBaseline ns] (stored st) (stored st') ∧
  (r = Ok Finished → reconciled (baseline_own ns) [DesiredBaseline ns] (stored st) (stored st')).
Proof.
  unfold reconcile_managed. rewrite bind_try.
  destruct (applyPolicy cl_reader (DesiredBaseline ns) st) as [r1 st1] eqn:Ea.
  apply applyPolicy_inv in Ea as (_ & _ & Ha); [|by left]. cbn [fst snd].
  destruct r1 as [created|e]; intros Hx.
  - destruct Ha as [(live & Hs & Hl) _]. kv_silent Hx as restored st2 Hw2. kv_silent Hx as u st3 Hw3.
    rewrite <-(stored_world _ _ Hw2), <-(stored_world _ _ Hw3) in Hs.
    apply EIO_bind_inv in Hx as [([] & st4 & Hsw & [= <- <-])|(e & Hsw & ->)];
      eapply apply_one_and_sweep in Hsw as [Hc Hok]; eauto. done.
  - kv_silent Hx as u st2 Hw2. injection Hx as <- <-.
    rewrite (stored_world _ _ Hw2), Ha. split; [apply confined_refl|done].
Qed.
End facts.

(** The whole reconcile. *)
Lemma NamespaceReconcile_inv `{K8sLib, !K8sLaws} {W} `{PolicyServer W}
    (NSFilter : NamespaceFilter) (rec : bool) (name : string) (st : St W) r st'
    (Hr : NamespaceReconcile NSFilter rec name st = (r, st')) :
  match get_namespace (cl_reader (st_world st)) name with
  | Ok ns =>
      let want := if IsManaged NSFilter ns then [DesiredBaseline (obj_name ns)] else [] in
      if m_deleting (ns_meta ns) then r = Ok Finished ∧ st' = st
      else
        confined (baseline_own (obj_name ns)) want (stored st) (stored st') ∧
        (r = Ok Finished →
          reconciled (baseline_own (obj_name ns)) want (stored st) (stored st'))
  | Err e => stored st' = stored st ∧ st_log st' = st_log st ∧
      r = if IsNotFound e then Ok Finished else Err e
  end.
Proof.
  unfold NamespaceReconcile in Hr. rewrite bind_try in Hr. cbn [read fst snd] in Hr.
  destruct (get_namespace _ name) as [ns|e]; cbv zeta in *.
  - destruct (m_deleting (ns_meta ns)); [by injection Hr as <- <-|].
    destruct (IsManaged NSFilter ns); simpl in Hr; [by eapply reconcile_managed_inv|].
    kv_silent Hr as u st1 Hw. rewrite <-(stored_world _ _ Hw).
    apply EIO_bind_inv in Hr as [([] & st2 & Hsw & [= <- <-])|(e & Hsw & ->)];
      apply sweep_only in Hsw as [Hc Hok]; try done; by split; [|auto].
  - destruct (IsNotFound e); [|by injection Hr as <- <-].
    injection Hr as <- <-. done.
Qed.


Import Model.

Definition baseline_cluster : Cluster :=
  set_netpols (list_to_map (map (λ p, (ObjectKeyFromObject p, p))
      [example_policy "shop" "old" LabelRoleBaseline; example_policy "shop" "mem" LabelRoleMembership]))
    (mkCluster ∅ {["shop" := mkNamespace (new_meta "" "shop" ∅)]} ∅ ∅ ∅ ∅ ∅ ∅ [] [] [] ∅).

