(* ===== verification/ServicePolicies.v ===== *)
(** * Service-owned policies (internal/controller/external_allow_controller.go)

    The shared reconcile of the two kinds of policy a Service owns, and the
    policy that opens an externally exposed Service. *)

From S2P Require Import Prelude GoStrings Types Effects Names ApiServer Permits Apply Stamps.
From S2P Require Import Baseline.

Definition ReasonNamedPortUnresolved : string := "NamedPortUnresolved".
Definition ReasonServiceHasNoSelector : string := "ServiceHasNoSelector".
Definition ApplyErrorExternalAllow : string := "external_allow".
Definition ApplyErrorApiserverReachable : string := "apiserver_reachable".
Definition ProtocolTCP : string := "TCP".
Definition ClusterIPNone : string := "None".

(** [errors.Is(err, errNamedPortUnresolvable)]. *)
Fixpoint is_named_port_error (e : error) : bool :=
  match e with
  | ErrNamedPortUnresolvable => true
  | ErrWrap _ e => is_named_port_error e
  | ErrJoin es => existsb is_named_port_error es
  | _ => false
  end.

(** ** Policies and ports *)

Definition externalAllowPolicy (name ns sourceKind source : string)
    (podSelector : gmap string string) (cidr : string) (ports : list NetworkPolicyPort) :
    NetworkPolicy :=
  mkNP "networking.k8s.io/v1" "NetworkPolicy"
    (new_meta ns name
       {[LabelManagedBy := LabelManagedByValue; LabelK8sManagedBy := LabelManagedByValue;
         LabelRole := LabelRoleExternalAllow; LabelSourceKind := sourceKind; LabelSource := source]})
    (mkNPSpec (mkSel podSelector [])
       [mkIngress [mkPeer None None (Some cidr)] ports] [PolicyTypeIngress]).

Definition isExternallyExposed (svc : option Service) : bool :=
  match svc with
  | None => false
  | Some svc =>
      let spec := svc_spec svc in
      if ss_clusterIP spec =?? ClusterIPNone then false
      else if (ss_type spec =?? "LoadBalancer") || (ss_type spec =?? "NodePort") then true
      else if (ss_type spec =?? "ClusterIP") || (ss_type spec =?? "") then
        negb (ss_externalIPs spec =?? [])
      else false
  end.

Definition labelsMatchSelector (labels selector : gmap string string) : bool :=
  if size selector =?? 0 then false
  else forallb (λ kv, get_or "" labels kv.1 =?? kv.2) (map_to_list selector).

(** The ports of a pod that a name resolves to. *)
Definition named_ports (name : string) (p : Pod) : list Z :=
  flat_map (λ c, map cp_containerPort (filter (λ cp, cp_name cp = name) (c_ports c)))
    (namedPortContainers (pod_spec p)).

Definition resolveTargetPorts (sp : ServicePort) (selector : gmap string string) (pods : list Pod) :
    result (list Z) :=
  let tp := sp_targetPort sp in
  if bool_decide (ios_type tp = IntType) && negb (ios_int tp =?? 0%Z) then Ok [ios_int tp]
  else if negb (bool_decide (ios_type tp = StringType)) || (ios_str tp =?? "") then Ok [sp_port sp]
  else
    let out := flat_map (named_ports (ios_str tp))
      (filter (λ p, labelsMatchSelector (obj_labels p) selector = true) pods) in
    if length out =?? 0 then Err ErrNamedPortUnresolvable
    else Ok (compact (stable_sort Z.le out)).

(** Entries of [ports] have both pointers set, or [appendPolicyPort] would panic. *)
Definition port_is (p : NetworkPolicyPort) (proto : string) (port : Z) : bool :=
  bool_decide (npp_protocol p = Some proto) && bool_decide (ios_int <$> npp_port p = Some port).

Definition appendPolicyPort (ports : list NetworkPolicyPort) (proto : string) (port : Z) :
    list NetworkPolicyPort :=
  if existsb (λ p, port_is p proto port) ports then ports
  else ports ++ [mkNPPort (Some proto) (Some (FromInt32 port))].

Definition append_ports (ports : list NetworkPolicyPort) (proto : string) (tps : list Z) :
    list NetworkPolicyPort :=
  foldl (λ ps tp, appendPolicyPort ps proto tp) ports tps.

Definition or_TCP (proto : string) : string := if proto =?? "" then ProtocolTCP else proto.

(** The loop over the Service's ports. *)
Fixpoint service_ports (selector : gmap string string) (pods : list Pod) (sps : list ServicePort)
    (ports : list NetworkPolicyPort) : result (list NetworkPolicyPort) :=
  match sps with
  | [] => Ok ports
  | sp :: sps =>
      targetPorts ← resolveTargetPorts sp selector pods;
      service_ports selector pods sps (append_ports ports (or_TCP (sp_protocol sp)) targetPorts)
  end.

(** ** The two kinds of Service-owned policies *)

Record serviceSource := mkSource {
  src_kind : string;
  src_prefix : string;
  src_errorKind : string;
  src_what : string;
  src_who : string;
  src_sweepLabels : gmap string string;
  src_skip : option (NetworkPolicy → bool) }.

Definition claimedByOtherSourceKind (p : NetworkPolicy) : bool :=
  match obj_labels p !! LabelSourceKind with
  | Some sk => negb (sk =?? LabelSourceKindService)
  | None => false
  end.

Definition svcSourcePolicies : serviceSource :=
  mkSource LabelSourceKindService "svc-" ApplyErrorExternalAllow "external-allow" "external clients"
    {[LabelRole := LabelRoleExternalAllow]} (Some claimedByOtherSourceKind).

Definition apiserverPolicies : serviceSource :=
  mkSource LabelSourceKindApiserver "apiserver-" ApplyErrorApiserverReachable "apiserver-reachable"
    "the kube-apiserver"
    {[LabelRole := LabelRoleExternalAllow; LabelSourceKind := LabelSourceKindApiserver]} None.

Definition source_policy (s : serviceSource) (svc : Service) (name cidr : string)
    (ports : list NetworkPolicyPort) : NetworkPolicy :=
  externalAllowPolicy name (obj_ns svc) (src_kind s)
    (SourceLabelValue (src_prefix s) (obj_ns svc) (obj_name svc))
    (ss_selector (svc_spec svc)) cidr ports.

Definition externalAllowPolicyName (svc : Service) : string :=
  servicePolicyName LabelSourceKindService (obj_ns svc) (obj_name svc).

(** [None] is a nil policy. *)
Definition buildExternalAllowPolicy (svc : Service) (podsInNS : list Pod) : result (option NetworkPolicy) :=
  let selector := ss_selector (svc_spec svc) in
  if negb (isExternallyExposed (Some svc)) || (size selector =?? 0) then Ok None
  else
    ports ← service_ports selector podsInNS (ss_ports (svc_spec svc)) [];
    Ok (Some (source_policy svcSourcePolicies svc (externalAllowPolicyName svc) "0.0.0.0/0" ports)).

(** ** The reconcile of both kinds *)

Definition note_waits : string :=
  "the %s policy waits for a running pod behind this Service that declares its named targetPort; until then %s cannot reach that port. Normal while pods start; if it lasts, compare the Service's targetPort names with the pods' containerPort names.".
Definition note_service_failed : string :=
  "the %s NetworkPolicy %s could not be applied: %v. Until this is fixed, %s cannot reach this Service's pods.".
Definition note_service_restored : string :=
  "this NetworkPolicy was deleted and has been recreated: kube-vnet lets %s reach Service %s through it. To opt the Service out, annotate it %s=false.".
Definition note_no_selector : string :=
  "the Service is exposed externally but has no spec.selector, so kube-vnet cannot tell which pods to open to external clients; they stay blocked by the namespace baseline. Add a selector, or write a NetworkPolicy for the pods behind the Service's Endpoints.".

Definition sweep_options (s : serviceSource) (ns : string) : ListOptions :=
  inNamespacePolicyLabels ns (src_sweepLabels s).

(** The closure [sweep] passes as [skip]. *)
Definition sweep_skip (s : serviceSource) (svc : Service) (p : NetworkPolicy) : bool :=
  negb (hasControllerOwner (m_ownerReferences (np_meta p)) "Service" (obj_name svc) (obj_uid svc)) ||
  match src_skip s with Some skip => skip p | None => false end.

Definition source_options (s : serviceSource) (ns name : string) : ListOptions :=
  inNamespacePolicyLabels ns
    {[LabelRole := LabelRoleExternalAllow; LabelSourceKind := src_kind s;
      LabelSource := SourceLabelValue (src_prefix s) ns name]}.

Section reconcile.
Context `{K8sLib} {W : Type} `{Client W} (s : serviceSource) (nsFilter : NamespaceFilter) (rec : bool)
  (desired : Service → EIO W (option NetworkPolicy)).

Definition source_sweep (svc : Service) (keep : string) : EIO W unit :=
  sweepStalePolicies (sweep_options s (obj_ns svc)) {[mkKey (obj_ns svc) keep]} (sweep_skip s svc).

Definition deleteByServiceKey (ns name : string) : EIO W unit :=
  sweepStalePolicies (source_options s ns name) ∅ no_skip.

(** [forget] of the request. *)
Definition forget_request (req : ObjectKey) : IO W unit :=
  restores_forget (mkKey (key_ns req) (servicePolicyName (src_kind s) (key_ns req) (key_name req))).

(** Applying the policy the Service wants. *)
Definition apply_wanted (svc : Service) (policy : NetworkPolicy) : EIO W unit :=
  policy ← lift (SetControllerReference svc policy);
  created ← try (applyPolicy cl_reader policy);
  match created with
  | Err e =>
      _ ← liftIO (applyFailed rec (ref_of svc) (src_errorKind s) note_service_failed
                    [AStr (src_what s); AStr (obj_name policy); AStr (error_string e); AStr (src_who s)]);
      throw e
  | Ok created =>
      restored ← liftIO (restores_applied (ObjectKeyFromObject policy) created);
      _ ← liftIO (if restored : bool
                  then policyRestored rec (ref_of policy) note_service_restored
                         [AStr (src_who s); AStr (obj_name svc); AStr AnnotationExternalAllow]
                  else mret tt);
      source_sweep svc (obj_name policy)
  end.

(** From the Service on; the boolean is [waiting]. *)
Definition reconcile_service (req : ObjectKey) (svc : Service) : EIO W (Outcome * bool) :=
  r ← try (read (λ rd, get_namespace rd (key_ns req)));
  match r with
  | Err e =>
      if IsNotFound e then (_ ← liftIO (forget_request req); mret (Finished, false)) else throw e
  | Ok ns =>
      if m_deleting (ns_meta ns) then mret (Finished, false)
      else if negb (IsManaged nsFilter ns) || ExternalAllowOptedOut (obj_annotations ns) ||
              ExternalAllowOptedOut (obj_annotations svc) then
        _ ← liftIO (forget_request req);
        _ ← source_sweep svc "";
        mret (Finished, false)
      else
        policy ← try (desired svc);
        match policy with
        | Err e =>
            if is_named_port_error e then
              start ← liftIO (first svc ReasonNamedPortUnresolved);
              _ ← liftIO (if start : bool
                          then eventf rec (ref_of svc) EventTypeNormal ReasonNamedPortUnresolved "Reconcile"
                                 note_waits [AStr (src_what s); AStr (src_who s)]
                          else mret tt);
              mret (RequeueAfter 30, true)
            else throw e
        | Ok None =>
            _ ← liftIO (forget_request req);
            _ ← source_sweep svc "";
            mret (Finished, false)
        | Ok (Some policy) =>
            _ ← apply_wanted svc policy;
            mret (Finished, false)
        end
  end.

(** The deferred [clear] runs on every outcome but another wait. *)
Definition source_reconcile (req : ObjectKey) : EIO W Outcome :=
  r ← try (read (λ rd, get_service rd req));
  match r with
  | Err e =>
      if IsNotFound e then
        _ ← liftIO (forget_request req);
        _ ← liftIO (forget req);
        _ ← deleteByServiceKey (key_ns req) (key_name req);
        mret Finished
      else throw e
  | Ok svc =>
      r ← try (reconcile_service req svc);
      match r with
      | Ok (o, true) => mret o
      | Ok (o, false) => _ ← liftIO (clear svc ReasonNamedPortUnresolved); mret o
      | Err e => _ ← liftIO (clear svc ReasonNamedPortUnresolved); throw e
      end
  end.
End reconcile.

(** ** ExternalAllowReconciler *)

Section external_allow.
Context `{K8sLib} {W : Type} `{Client W} (nsFilter : NamespaceFilter) (rec : bool).

Definition external_desired (svc : Service) : EIO W (option NetworkPolicy) :=
  pods ← read (λ rd, list_pods rd (InNamespace (obj_ns svc)));
  let desired := buildExternalAllowPolicy svc pods in
  _ ← liftIO (match desired with
              | Ok None =>
                  if isExternallyExposed (Some svc) && (size (ss_selector (svc_spec svc)) =?? 0) then
                    eventf rec (ref_of svc) EventTypeWarning ReasonServiceHasNoSelector "Reconcile"
                      note_no_selector []
                  else mret tt
              | _ => mret tt
              end);
  lift desired.

Definition ExternalAllowReconcile (req : ObjectKey) : EIO W Outcome :=
  source_reconcile svcSourcePolicies nsFilter rec external_desired req.
End external_allow.

(** ** Watches *)

Definition externalAllowPolicyPredicate (sourceKind : string) (labels : gmap string string) : bool :=
  (get_or "" labels LabelManagedBy =?? LabelManagedByValue) &&
  (get_or "" labels LabelRole =?? LabelRoleExternalAllow) &&
  (get_or "" labels LabelSourceKind =?? sourceKind).

Definition hasNamedTargetPort (svc : Service) : bool :=
  existsb (λ p, bool_decide (ios_type (sp_targetPort p) = StringType) &&
                negb (ios_str (sp_targetPort p) =?? "")) (ss_ports (svc_spec svc)).

(** [keep] of a caller that passes nil accepts every Service. *)
Definition servicesInNamespace (rd : Reader) (ns : string) (keep : Service → bool) : list ObjectKey :=
  match list_services rd (InNamespace ns) with
  | Err _ => []
  | Ok svcs => map ObjectKeyFromObject (filter (λ svc, keep svc = true) svcs)
  end.

Definition namespaceToServices (rd : Reader) (ns : Namespace) : list ObjectKey :=
  servicesInNamespace rd (obj_name ns) (λ _, true).

Definition pod_enqueue (rd : Reader) (ns : string) (affected : gmap string string → bool) : list ObjectKey :=
  servicesInNamespace rd ns (λ svc, hasNamedTargetPort svc && affected (ss_selector (svc_spec svc))).

Inductive PodEvent := PodCreated (p : Pod) | PodUpdated (old new : Pod) | PodDeleted (p : Pod).

Definition podToSelectingServices (rd : Reader) (e : PodEvent) : list ObjectKey :=
  match e with
  | PodCreated p | PodDeleted p => pod_enqueue rd (obj_ns p) (labelsMatchSelector (obj_labels p))
  | PodUpdated old new =>
      if obj_labels old =?? obj_labels new then []
      else pod_enqueue rd (obj_ns new) (λ sel,
        negb (eqb (labelsMatchSelector (obj_labels old) sel) (labelsMatchSelector (obj_labels new) sel)))
  end.

(** ** Facts about ports *)

Definition port_entry (pz : string * Z) : NetworkPolicyPort :=
  mkNPPort (Some pz.1) (Some (FromInt32 pz.2)).

#[export] Instance port_entry_inj : Inj (=) (=) port_entry.
Proof. intros [] [] E. by injection E as -> ->. Qed.

Lemma appendPolicyPort_entries l proto port :
  appendPolicyPort (map port_entry l) proto port =
    map port_entry (if bool_decide ((proto, port) ∈ l) then l else l ++ [(proto, port)]).
Proof.
  unfold appendPolicyPort.
  assert (existsb (λ p, port_is p proto port) (map port_entry l) = bool_decide ((proto, port) ∈ l)) as ->.
  { apply eq_bool_prop_intro. rewrite bool_decide_spec, Is_true_true, existsb_exists.
    setoid_rewrite <-list_elem_of_In. split.
    - intros (x & Hx & Hp). apply list_elem_of_fmap in Hx as ([pr z] & -> & Hx).
      unfold port_is in Hp. simpl in Hp. kv_bools. by simplify_eq.
    - intros Hx. exists (port_entry (proto, port)). split; [by apply list_elem_of_fmap_2|].
      unfold port_is. simpl. by rewrite !bool_decide_eq_true_2. }
  case_bool_decide; [done|]. by rewrite map_app.
Qed.

Lemma append_ports_entries l proto tps : NoDup l → ∃ l',
  append_ports (map port_entry l) proto tps = map port_entry l' ∧ NoDup l' ∧
  ∀ x, x ∈ l' ↔ x ∈ l ∨ x.1 = proto ∧ x.2 ∈ tps.
Proof.
  unfold append_ports. revert l. induction tps as [|tp tps IH]; intros l Hl; simpl.
  - exists l. split_and!; [done..|]. intros x. rewrite elem_of_nil. tauto.
  - rewrite appendPolicyPort_entries.
    destruct (IH (if bool_decide ((proto, tp) ∈ l) then l else l ++ [(proto, tp)])) as (l' & E & Hnd & Hl').
    { case_bool_decide; [done|]. apply NoDup_app. split_and!; [done| |apply NoDup_singleton].
      intros x Hx ->%list_elem_of_singleton. done. }
    exists l'. split_and!; [done..|]. intros [pr z]. rewrite Hl'. simpl. rewrite elem_of_cons.
    case_bool_decide; rewrite ?elem_of_app, ?list_elem_of_singleton; naive_solver.
Qed.

(** The pod-side ports a Service port reaches, as the endpoints controller finds them. *)
Definition reaches (sp : ServicePort) (selector : gmap string string) (pods : list Pod) (port : Z) : Prop :=
  let tp := sp_targetPort sp in
  (ios_type tp = IntType ∧ ios_int tp ≠ 0%Z ∧ port = ios_int tp) ∨
  (((ios_type tp = IntType ∧ ios_int tp = 0%Z) ∨ (ios_type tp = StringType ∧ ios_str tp = "")) ∧
    port = sp_port sp) ∨
  (ios_type tp = StringType ∧ ios_str tp ≠ "" ∧
    ∃ p c cp, p ∈ pods ∧ labelsMatchSelector (obj_labels p) selector = true ∧
      c ∈ namedPortContainers (pod_spec p) ∧ cp ∈ c_ports c ∧ cp_name cp = ios_str tp ∧
      port = cp_containerPort cp).

Lemma elem_of_named_ports name p port :
  port ∈ named_ports name p ↔ ∃ c cp, c ∈ namedPortContainers (pod_spec p) ∧ cp ∈ c_ports c ∧
    cp_name cp = name ∧ port = cp_containerPort cp.
Proof.
  unfold named_ports. rewrite elem_of_flat_map. setoid_rewrite list_elem_of_fmap.
  setoid_rewrite list_elem_of_filter. naive_solver.
Qed.

Lemma resolveTargetPorts_Ok sp selector pods out :
  resolveTargetPorts sp selector pods = Ok out →
  NoDup out ∧ (∃ port, port ∈ out) ∧ ∀ port, port ∈ out ↔ reaches sp selector pods port.
Proof.
  unfold resolveTargetPorts, reaches. destruct (sp_targetPort sp) as [ty n name]. simpl.
  destruct ty; simpl; [destruct (n =?? 0%Z) eqn:En|destruct (name =?? "") eqn:En]; simpl; kv_bools.
  - intros [= <-]. split_and!; [apply NoDup_singleton|eexists; by left|].
    intros. rewrite list_elem_of_singleton. naive_solver.
  - intros [= <-]. split_and!; [apply NoDup_singleton|eexists; by left|].
    intros. rewrite list_elem_of_singleton. naive_solver.
  - intros [= <-]. split_and!; [apply NoDup_singleton|eexists; by left|].
    intros. rewrite list_elem_of_singleton. naive_solver.
  - case_bool_decide as Hne; [done|]. intros [= <-]. split_and!; [apply compact_sort_NoDup; apply _|..].
    { destruct (flat_map _ _) as [|z zs] eqn:E; [done|]. exists z.
      rewrite elem_of_compact, elem_of_stable_sort. by left. }
    intros port. rewrite elem_of_compact, elem_of_stable_sort, elem_of_flat_map.
    setoid_rewrite list_elem_of_filter. setoid_rewrite elem_of_named_ports. split.
    + intros (p & [? ?] & c & cp & ?). right. right. split_and!; [done..|]. naive_solver.
    + intros [?|[?|(_ & _ & p & c & cp & ?)]]; [naive_solver..|]. exists p. naive_solver.
Qed.

(** A Service port that does not resolve reaches nothing. *)
Lemma resolveTargetPorts_Err sp selector pods e :
  resolveTargetPorts sp selector pods = Err e →
  e = ErrNamedPortUnresolvable ∧ ∀ port, ¬ reaches sp selector pods port.
Proof.
  unfold resolveTargetPorts, reaches. destruct (sp_targetPort sp) as [ty n name]. simpl.
  destruct ty; simpl; [by destruct (n =?? 0%Z)|destruct (name =?? "") eqn:En; [done|]]. simpl.
  destruct (length _ =?? 0) eqn:El; [|by intros]. intros [= <-]. split; [done|]. kv_bools.
  apply length_zero_iff_nil in El.
  intros port [?|[?|(_ & _ & p & c & cp & ? & ? & Hc)]]; [naive_solver..|].
  assert (port ∈ @nil Z) as []%not_elem_of_nil. rewrite <-El. apply elem_of_flat_map.
  exists p. rewrite list_elem_of_filter, elem_of_named_ports. naive_solver.
Qed.

(** The (protocol, port) pairs a list of Service ports reaches. *)
Definition opens (sps : list ServicePort) (selector : gmap string string) (pods : list Pod)
    (x : string * Z) : Prop :=
  ∃ sp, sp ∈ sps ∧ x.1 = or_TCP (sp_protocol sp) ∧ reaches sp selector pods x.2.

Lemma service_ports_spec selector pods sps l : NoDup l →
  match service_ports selector pods sps (map port_entry l) with
  | Ok ports => ∃ l', ports = map port_entry l' ∧ NoDup l' ∧
      (∀ x, x ∈ l' ↔ x ∈ l ∨ opens sps selector pods x) ∧
      (∀ sp, sp ∈ sps → ∃ port, reaches sp selector pods port)
  | Err e => e = ErrNamedPortUnresolvable ∧
      ∃ sp, sp ∈ sps ∧ ∀ port, ¬ reaches sp selector pods port
  end.
Proof.
  revert l. induction sps as [|sp sps IH]; intros l Hl; simpl.
  { exists l. split_and!; [done..| |].
    - intros x. unfold opens. setoid_rewrite elem_of_nil. naive_solver.
    - intros sp Hsp. by apply not_elem_of_nil in Hsp. }
  destruct (resolveTargetPorts sp selector pods) as [tps|e] eqn:Et; simpl.
  2: { apply resolveTargetPorts_Err in Et as [-> ?]. split; [done|]. exists sp. split; [by left|done]. }
  apply resolveTargetPorts_Ok in Et as (Hnd & [z Hz] & Ht).
  destruct (append_ports_entries l (or_TCP (sp_protocol sp)) tps Hl) as (l1 & -> & Hnd1 & Hl1).
  specialize (IH l1 Hnd1). destruct (service_ports _ _ sps _) as [ports|e].
  - destruct IH as (l' & -> & Hnd' & Hl' & Hr). exists l'. split_and!; [done..| |].
    + intros x. rewrite Hl', Hl1. unfold opens. setoid_rewrite elem_of_cons. setoid_rewrite Ht.
      naive_solver.
    + intros sp' [->|?]%elem_of_cons; [|auto]. exists z. by apply Ht.
  - destruct IH as (-> & sp' & ? & ?). split; [done|]. exists sp'. split; [by right|done].
Qed.

(** ** Facts about the reconcile *)

Section source_facts.
Context `{K8sLib, !K8sLaws} {W : Type} `{PolicyServer W}.
Context (s : serviceSource) (nsFilter : NamespaceFilter) (rec : bool).
Context (desired : Service → EIO W (option NetworkPolicy)).
Implicit Types (st : St W) (svc : Service).

(** [svc]'s own policies of this source. *)
Definition source_own svc : NetworkPolicy → bool :=
  swept (sweep_options s (obj_ns svc)) (sweep_skip s svc).

(** The policy as it is applied: with the Service as controller owner. *)
Definition owned_by svc (p : NetworkPolicy) : NetworkPolicy :=
  mkNP (np_apiVersion p) (np_kind p)
    (set_ownerReferences
       [mkOwnerRef "v1" "Service" (obj_name svc) (obj_uid svc) (Some true) (Some true)] (np_meta p))
    (np_spec p).

(** [desired] writes nothing and names the policy it returns in the Service's namespace. *)
Definition desired_ok : Prop := ∀ svc st,
  st_world (desired svc st).2 = st_world st ∧
  ∀ p, (desired svc st).1 = Ok (Some p) → obj_ns p = obj_ns svc ∧ m_ownerReferences (np_meta p) = [].

Lemma apply_wanted_inv svc p st r st' :
  obj_ns p = obj_ns svc → m_ownerReferences (np_meta p) = [] →
  apply_wanted s rec svc p st = (r, st') →
  confined (source_own svc) [owned_by svc p] (stored st) (stored st') ∧
  (r = Ok tt → reconciled (source_own svc) [owned_by svc p] (stored st) (stored st')).
Proof.
  intros Hns Ho. unfold apply_wanted. rewrite SetControllerReference_new by done.
  fold (owned_by svc p). set (q := owned_by svc p).
  assert (∀ f : NetworkPolicy → EIO W unit, (lift (Ok q) ≫= f) st = f q st) as -> by done.
  rewrite bind_try. destruct (applyPolicy cl_reader q st) as [r1 st1] eqn:Ea.
  apply applyPolicy_inv in Ea as (_ & _ & Ha); [|by left]. cbn [fst snd].
  destruct r1 as [created|e]; intros Hx.
  - destruct Ha as [(live & Hs & Hl) _]. kv_silent Hx as restored st2 Hw2. kv_silent Hx as u st3 Hw3.
    rewrite <-(stored_world _ _ Hw2), <-(stored_world _ _ Hw3) in Hs.
    unfold source_sweep in Hx. rewrite <-Hns in Hx at 2.
    eapply (apply_one_and_sweep _ _ q live); [exact Hs|exact Hl|exact Hx].
  - kv_silent Hx as u st2 Hw2. injection Hx as <- <-.
    rewrite (stored_world _ _ Hw2), Ha. split; [apply confined_refl|done].
Qed.

Lemma source_sweep_inv svc st r st' :
  source_sweep s svc "" st = (r, st') →
  confined (source_own svc) [] (stored st) (stored st') ∧
  (r = Ok tt → reconciled (source_own svc) [] (stored st) (stored st')).
Proof.
  apply sweep_only. intros k q Hq _ ->%elem_of_singleton. by apply policies_named in Hq.
Qed.

(** What the Service's policy should be. *)
Definition source_wants (ns : Namespace) svc st : result (option NetworkPolicy) :=
  if negb (IsManaged nsFilter ns) || ExternalAllowOptedOut (obj_annotations ns) ||
     ExternalAllowOptedOut (obj_annotations svc)
  then Ok None else (desired svc st).1.

Lemma reconcile_service_inv req svc ns st r st' :
  desired_ok → get_namespace (cl_reader (st_world st)) (key_ns req) = Ok ns →
  reconcile_service s nsFilter rec desired req svc st = (r, st') →
  if m_deleting (ns_meta ns) then stored st' = stored st ∧ r = Ok (Finished, false)
  else match source_wants ns svc st with
  | Err e => stored st' = stored st ∧
      r = if is_named_port_error e then Ok (RequeueAfter 30, true) else Err e
  | Ok w =>
      let want := match w with Some p => [owned_by svc p] | None => [] end in
      confined (source_own svc) want (stored st) (stored st') ∧
      (∀ o, r = Ok o → o = (Finished, false) ∧
        reconciled (source_own svc) want (stored st) (stored st'))
  end.
Proof.
  intros Hdes Hns. unfold reconcile_service. rewrite bind_try. cbn [read fst snd]. rewrite Hns.
  destruct (m_deleting (ns_meta ns)); [by intros [= <- <-]|]. unfold source_wants.
  assert (∀ st r st', (_ ← liftIO (forget_request s req); _ ← source_sweep s svc "";
      mret (Finished, false) : EIO W _) st = (r, st') →
    confined (source_own svc) [] (stored st) (stored st') ∧
    (∀ o, r = Ok o → o = (Finished, false) ∧ reconciled (source_own svc) [] (stored st) (stored st')))
    as Hsweep.
  { clear. intros st r st' Hx. kv_silent Hx as u st1 Hw. rewrite <-(stored_world _ _ Hw).
    apply EIO_bind_inv in Hx as [([] & st2 & Hsw & [= <- <-])|(e & Hsw & ->)];
      apply source_sweep_inv in Hsw as [Hc Hok]; (split; [done|]); [|done].
    intros o [= <-]. auto. }
  destruct (_ || _ || _); intros Hx; [by apply Hsweep|].
  rewrite bind_try in Hx. destruct (Hdes svc st) as [Hw Hp]. apply stored_world in Hw.
  destruct (desired svc st) as [[[p|]|e] st1]; cbn [fst snd] in *.
  - destruct (Hp p eq_refl) as [Hpn Hpo]. rewrite <-Hw.
    apply EIO_bind_inv in Hx as [([] & st2 & Ha & [= <- <-])|(e & Ha & ->)];
      apply apply_wanted_inv in Ha as [Hc Hok]; try done.
    split; [done|]. intros o [= <-]. auto.
  - rewrite <-Hw. by apply Hsweep.
  - destruct (is_named_port_error e); [|by injection Hx as <- <-].
    kv_silent Hx as start st2 Hw2. kv_silent Hx as u st3 Hw3. injection Hx as <- <-.
    rewrite (stored_world _ _ Hw3), (stored_world _ _ Hw2). done.
Qed.

Lemma source_reconcile_inv req svc ns st r st' :
  desired_ok → get_service (cl_reader (st_world st)) req = Ok svc →
  get_namespace (cl_reader (st_world st)) (key_ns req) = Ok ns →
  source_reconcile s nsFilter rec desired req st = (r, st') →
  if m_deleting (ns_meta ns) then stored st' = stored st ∧ r = Ok Finished
  else match source_wants ns svc st with
  | Err e => stored st' = stored st ∧
      r = if is_named_port_error e then Ok (RequeueAfter 30) else Err e
  | Ok w =>
      let want := match w with Some p => [owned_by svc p] | None => [] end in
      confined (source_own svc) want (stored st) (stored st') ∧
      (∀ o, r = Ok o → o = Finished ∧ reconciled (source_own svc) want (stored st) (stored st'))
  end.
Proof.
  intros Hdes Hsvc Hns. unfold source_reconcile. rewrite bind_try. cbn [read fst snd]. rewrite Hsvc.
  rewrite bind_try. destruct (reconcile_service s nsFilter rec desired req svc st) as [r1 st1] eqn:E.
  eapply reconcile_service_inv in E; [|done..]. cbn [fst snd]. intros Hx.
  assert (stored st' = stored st1 ∧
    r = match r1 with Ok (o, _) => Ok o | Err e => Err e end) as [-> ->].
  { destruct r1 as [[o []]|e]; [by injection Hx as <- <-|..];
      kv_silent Hx as u st2 Hw; injection Hx as <- <-; (split; [by apply stored_world|done]). }
  destruct (m_deleting (ns_meta ns)); [by destruct E as [-> ->]|].
  destruct (source_wants ns svc st) as [w|e].
  - destruct E as [Hc Hok]. split; [done|]. destruct r1 as [[o b]|]; [|done].
    destruct (Hok _ eq_refl) as [[= -> ->] ?]. by intros o [= <-].
  - destruct E as [-> ->]. by destruct (is_named_port_error e).
Qed.
End source_facts.

(** ** Properties *)

(** [c ∈ l] with [NoDup l] as the ingress of a policy from one CIDR. *)
Definition ingress_opens (cidr : string) (l : list (string * Z)) : list IngressRule :=
  [mkIngress [mkPeer None None (Some cidr)] (map port_entry l)].

Lemma buildExternalAllowPolicy_err svc pods e :
  buildExternalAllowPolicy svc pods = Err e → is_named_port_error e = true.
Proof.
  unfold buildExternalAllowPolicy. destruct (_ || _); [done|].
  pose proof (service_ports_spec (ss_selector (svc_spec svc)) pods (ss_ports (svc_spec svc)) []
    NoDup_nil_2) as Hp. simpl in Hp.
  destruct (service_ports _ _ _ _) as [|e']; [done|]. destruct Hp as [-> _]. by intros [= <-].
Qed.

(** The policy of an externally exposed Service opens exactly the ports that
    traffic to the Service reaches on its pods, to every address: it selects what
    the Service selects and lists, without duplicates, each protocol and pod-side
    port some Service port resolves to, numeric, defaulted or named in any backing
    pod. There is no policy exactly when the Service is not exposed or selects
    nothing; and no partial policy: if a port resolves to nothing there is an error
    instead, so an empty port list, which would open every port, means a Service
    without ports. *)
Theorem buildExternalAllowPolicy_spec svc pods :
  let selector := ss_selector (svc_spec svc) in
  match buildExternalAllowPolicy svc pods with
  | Ok None => isExternallyExposed (Some svc) = false ∨ selector = ∅
  | Ok (Some p) =>
      isExternallyExposed (Some svc) = true ∧ selector ≠ ∅ ∧
      obj_ns p = obj_ns svc ∧ nps_podSelector (np_spec p) = mkSel selector [] ∧
      nps_policyTypes (np_spec p) = [PolicyTypeIngress] ∧
      ∃ l, nps_ingress (np_spec p) = ingress_opens "0.0.0.0/0" l ∧ NoDup l ∧
        (∀ x, x ∈ l ↔ opens (ss_ports (svc_spec svc)) selector pods x) ∧
        (l = [] → ss_ports (svc_spec svc) = [])
  | Err e => isExternallyExposed (Some svc) = true ∧ e = ErrNamedPortUnresolvable ∧
      ∃ sp, sp ∈ ss_ports (svc_spec svc) ∧ ∀ port, ¬ reaches sp selector pods port
  end.
Proof.
  intros selector. unfold buildExternalAllowPolicy. fold selector.
  destruct (isExternallyExposed (Some svc)) eqn:Ee; simpl; [|by left].
  destruct (size selector =?? 0) eqn:Es; kv_bools.
  { right. by apply map_size_empty_iff. }
  pose proof (service_ports_spec selector pods (ss_ports (svc_spec svc)) [] NoDup_nil_2) as Hp.
  change (map port_entry []) with (@nil NetworkPolicyPort) in Hp.
  destruct (service_ports _ _ _ []) as [ports|e]; [|by destruct Hp]. simpl.
  destruct Hp as (l & -> & Hnd & Hl & Hr).
  split_and!; [done| |done..|].
  { intros E. by apply Es, map_size_empty_iff. }
  exists l. split_and!; [done..| |].
  - intros x. rewrite Hl, elem_of_nil. tauto.
  - intros ->. destruct (ss_ports (svc_spec svc)) as [|sp sps]; [done|]. exfalso.
    destruct (Hr sp) as [z Hz]; [by left|].
    apply (not_elem_of_nil (or_TCP (sp_protocol sp), z)). apply Hl. right. exists sp.
    split; [by left|done].
Qed.


Import Model.

Definition web_service : Service :=
  mkService (new_meta "shop" "web" ∅)
    (mkSvcSpec "LoadBalancer" "10.0.0.7" [] {["app" := "web"]}
      [mkSPort 80 "" (mkIOS StringType 0 "http"); mkSPort 443 "TCP" (FromInt32 8443)]).
Definition web_pod (name : string) (port : Z) : Pod :=
  mkPod (new_meta "shop" name {["app" := "web"]})
    (mkPodSpec [mkContainer "main" "" "" [] [mkCPort "http" port 0 "TCP"] None ∅ ∅ None] [] false).
Definition service_cluster : Cluster :=
  mkCluster
    (list_to_map (map (λ p, (ObjectKeyFromObject p, p)) [web_pod "web-0" 8080; web_pod "web-1" 8081]))
    {["shop" := mkNamespace (new_meta "" "shop" ∅)]} ∅ ∅ ∅ ∅
    {[mkKey "shop" "web" := web_service]} ∅ [] [] [] ∅.




(** [labelsMatchSelector] is containment of the selector in the labels, for a
    non-empty selector whose values are non-empty. *)
Theorem labelsMatchSelector_spec labels selector (Hv : ∀ k, selector !! k ≠ Some "") :
  labelsMatchSelector labels selector = true ↔ selector ≠ ∅ ∧ selector ⊆ labels.
Proof.
  unfold labelsMatchSelector. case_bool_decide as Hs.
  { apply map_size_empty_iff in Hs. naive_solver. }
  rewrite map_size_empty_iff in Hs. rewrite forallb_forall, map_subseteq_spec. split.
  - intros Hall. split; [done|]. intros k v Hk.
    specialize (Hall (k, v)). rewrite <-list_elem_of_In, elem_of_map_to_list in Hall.
    specialize (Hall Hk). simpl in Hall. kv_bools. unfold get_or in Hall.
    destruct (labels !! k); simpl in *; [congruence|]. subst. by destruct (Hv k).
  - intros [_ Hsub] [k v] Hk%list_elem_of_In%elem_of_map_to_list. simpl.
    apply bool_decide_eq_true. unfold get_or. by rewrite (Hsub k v Hk).
Qed.

Lemma labelsMatchSelector_spec_witness :
  labelsMatchSelector {["app" := "web"; "tier" := "front"]} {["app" := "web"]} = true ↔
  {["app" := "web"]} ≠ (∅ : gmap string string) ∧
  {["app" := "web"]} ⊆ ({["app" := "web"; "tier" := "front"]} : gmap string string).
Proof.
  apply labelsMatchSelector_spec. intros k Hk. apply lookup_singleton_Some in Hk as [_ [=]].
Defined.

(** With an empty value it is not: a pod without the label matches. *)
Example labelsMatchSelector_empty_value :
  labelsMatchSelector ∅ {["app" := ""]} = true.
Proof. vm_compute. reflexivity. Qed.
