(* ===== verification/ApiserverReachable.v ===== *)
(** * Services the apiserver dials
    (internal/controller/apiserver_reachable_controller.go)

    The second kind of Service-owned policy: it opens the ports on which webhooks,
    aggregated APIs, CRD conversions or an annotation say the apiserver reaches a
    Service. *)

From S2P Require Import Prelude GoStrings Types Effects Names ApiServer Permits Apply Stamps.
From S2P Require Import Baseline ServicePolicies.

(** Namespace, name and port of a reference. *)
Record serviceRef := mkServiceRef { sref_namespace : string; sref_name : string; sref_port : Z }.

#[export] Instance serviceRef_eq_dec : EqDecision serviceRef.
Proof. solve_decision. Defined.

(** The objects of the four lists. *)
Inductive DiscoveryObject :=
  | DValidatingWebhook (o : WebhookConfiguration)
  | DMutatingWebhook (o : WebhookConfiguration)
  | DAPIService (o : APIService)
  | DCRD (o : CustomResourceDefinition).

(** The closure [add]. *)
Definition add_ref (s : ServiceReference) : serviceRef :=
  mkServiceRef (sr_namespace s) (sr_name s)
    (match sr_port s with Some p => if negb (p =?? 0%Z) then p else 443 | None => 443 end).

Definition WebhookConverter : string := "Webhook".

Definition serviceRefs (obj : DiscoveryObject) : list serviceRef :=
  match obj with
  | DValidatingWebhook o => map add_ref (omap id (wc_services o))
  | DMutatingWebhook o => map add_ref (omap id (wc_services o))
  | DAPIService o => match as_service o with Some s => [add_ref s] | None => [] end
  | DCRD o =>
      match crd_conversion o with
      | Some (mkConversion strategy (Some (Some (Some s)))) =>
          if strategy =?? WebhookConverter then [add_ref s] else []
      | _ => []
      end
  end.

(** The ports of one list's references to the Service. *)
Definition refs_ports (svc : Service) (objs : list DiscoveryObject) : list Z :=
  flat_map (λ obj, map sref_port (filter (λ ref,
    sref_namespace ref = obj_ns svc ∧ sref_name ref = obj_name svc) (serviceRefs obj))) objs.

Definition collectReferencedPorts (rd : Reader) (svc : Service) : result (list Z) :=
  vs ← list_validating_webhooks rd;
  ms ← list_mutating_webhooks rd;
  as_ ← list_apiservices rd;
  cs ← list_crds rd;
  let portSet : gset Z := list_to_set
    (refs_ports svc (map DValidatingWebhook vs) ++ refs_ports svc (map DMutatingWebhook ms) ++
     refs_ports svc (map DAPIService as_) ++ refs_ports svc (map DCRD cs)) in
  let portSet :=
    if ApiserverReachableOptedIn (obj_annotations svc)
    then list_to_set (map sp_port (ss_ports (svc_spec svc))) ∪ portSet else portSet in
  Ok (stable_sort Z.le (elements portSet)).

Definition findServicePort (svc : Service) (port : Z) : option ServicePort :=
  List.find (λ sp, sp_port sp =?? port) (ss_ports (svc_spec svc)).

Definition apiserverReachablePolicyName (svc : Service) : string :=
  servicePolicyName LabelSourceKindApiserver (obj_ns svc) (obj_name svc).

(** The loop over the referenced ports. *)
Fixpoint apiserver_ports (svc : Service) (pods : list Pod) (ports : list Z)
    (policyPorts : list NetworkPolicyPort) : result (list NetworkPolicyPort) :=
  match ports with
  | [] => Ok policyPorts
  | port :: ports =>
      targetPorts ← match findServicePort svc port with
                    | Some sp => resolveTargetPorts sp (ss_selector (svc_spec svc)) pods
                    | None => Ok [port]
                    end;
      apiserver_ports svc pods ports (append_ports policyPorts ProtocolTCP targetPorts)
  end.

Definition buildApiserverReachablePolicy (svc : Service) (podsInNS : list Pod) (ports : list Z)
    (sourceCIDR : string) : result NetworkPolicy :=
  let sourceCIDR := if sourceCIDR =?? "" then "0.0.0.0/0" else sourceCIDR in
  policyPorts ← apiserver_ports svc podsInNS ports [];
  Ok (source_policy apiserverPolicies svc (apiserverReachablePolicyName svc) sourceCIDR policyPorts).

(** [desired], which only reads. *)
Definition apiserver_policy (SourceCIDR : string) (rd : Reader) (svc : Service) :
    result (option NetworkPolicy) :=
  if (ss_clusterIP (svc_spec svc) =?? ClusterIPNone) || (ss_type (svc_spec svc) =?? "ExternalName") ||
     (size (ss_selector (svc_spec svc)) =?? 0)
  then Ok None
  else
    ports ← collectReferencedPorts rd svc;
    if length ports =?? 0 then Ok None
    else
      pods ← list_pods rd (InNamespace (obj_ns svc));
      Some <$> buildApiserverReachablePolicy svc pods ports SourceCIDR.

Definition apiserver_desired {W} `{Client W} (SourceCIDR : string) (svc : Service) :
    EIO W (option NetworkPolicy) :=
  read (λ rd, apiserver_policy SourceCIDR rd svc).

Definition ApiserverReachableReconcile `{K8sLib} {W} `{Client W} (SourceCIDR : string)
    (nsFilter : NamespaceFilter) (rec : bool) (req : ObjectKey) : EIO W Outcome :=
  source_reconcile apiserverPolicies nsFilter rec (apiserver_desired SourceCIDR) req.

(** The requests of an event on a discovery resource, each Service once. *)
Definition discoveryToServices (obj : DiscoveryObject) : list ObjectKey :=
  foldl (λ out ref,
    let req := mkKey (sref_namespace ref) (sref_name ref) in
    if bool_decide (req ∈ out) then out else out ++ [req]) [] (serviceRefs obj).

(** ** Specification *)

(** Some discovery resource says that the apiserver dials the Service on [port]. *)
Definition references (rd : Reader) (svc : Service) (port : Z) : Prop :=
  (∃ l objs obj, (l = list_validating_webhooks rd ∧ objs = DValidatingWebhook ∨
                  l = list_mutating_webhooks rd ∧ objs = DMutatingWebhook) ∧
     (∃ os, l = Ok os ∧ obj ∈ os) ∧
     mkServiceRef (obj_ns svc) (obj_name svc) port ∈ serviceRefs (objs obj)) ∨
  (∃ os obj, list_apiservices rd = Ok os ∧ obj ∈ os ∧
     mkServiceRef (obj_ns svc) (obj_name svc) port ∈ serviceRefs (DAPIService obj)) ∨
  (∃ os obj, list_crds rd = Ok os ∧ obj ∈ os ∧
     mkServiceRef (obj_ns svc) (obj_name svc) port ∈ serviceRefs (DCRD obj)).

(** The pod-side ports behind a port the apiserver dials. *)
Definition dials (svc : Service) (pods : list Pod) (port tp : Z) : Prop :=
  match findServicePort svc port with
  | Some sp => reaches sp (ss_selector (svc_spec svc)) pods tp
  | None => tp = port
  end.

(** ** Facts *)

Lemma elem_of_refs_ports svc {A} (f : A → DiscoveryObject) objs port :
  port ∈ refs_ports svc (map f objs) ↔
  ∃ obj, obj ∈ objs ∧ mkServiceRef (obj_ns svc) (obj_name svc) port ∈ serviceRefs (f obj).
Proof.
  unfold refs_ports. rewrite elem_of_flat_map. setoid_rewrite list_elem_of_fmap.
  setoid_rewrite list_elem_of_filter. split.
  - intros (? & (obj & -> & ?) & [ns name p] & -> & [? ?] & ?). simpl in *. subst. eauto.
  - intros (obj & ? & ?). exists (f obj). split; [eauto|]. by eexists; split; [|split; [|done]].
Qed.

Lemma collectReferencedPorts_Ok rd svc ports : collectReferencedPorts rd svc = Ok ports →
  NoDup ports ∧ ∀ port, port ∈ ports ↔
    references rd svc port ∨
    ApiserverReachableOptedIn (obj_annotations svc) = true ∧ port ∈ map sp_port (ss_ports (svc_spec svc)).
Proof.
  unfold collectReferencedPorts.
  intros (vs & Hv & (ms & Hm & (as_ & Ha & (cs & Hc & [= <-])%result_bind_Ok)%result_bind_Ok)
    %result_bind_Ok)%result_bind_Ok.
  split; [rewrite stable_sort_perm; apply NoDup_elements|]. intros port.
  assert (port ∈ refs_ports svc (map DValidatingWebhook vs) ++ refs_ports svc (map DMutatingWebhook ms) ++
    refs_ports svc (map DAPIService as_) ++ refs_ports svc (map DCRD cs) ↔ references rd svc port) as Href.
  { rewrite !elem_of_app, !elem_of_refs_ports. unfold references. rewrite Hv, Hm, Ha, Hc. split.
    - intros [(o & ? & ?)|[(o & ? & ?)|[(o & ? & ?)|(o & ? & ?)]]].
      + left. exists (Ok vs), DValidatingWebhook, o. eauto 10.
      + left. exists (Ok ms), DMutatingWebhook, o. eauto 10.
      + right. left. eauto.
      + right. right. eauto.
    - intros [(l & objs & o & [[-> ->]|[-> ->]] & (os & [= <-] & ?) & ?)|
              [(os & o & [= <-] & ? & ?)|(os & o & [= <-] & ? & ?)]];
        [left|right; left|do 2 right; left|do 3 right]; exists o; done. }
  rewrite elem_of_stable_sort, elem_of_elements.
  destruct (ApiserverReachableOptedIn _).
  - rewrite elem_of_union, !elem_of_list_to_set, Href. naive_solver.
  - rewrite elem_of_list_to_set, Href. naive_solver.
Qed.

Lemma apiserver_ports_spec svc pods ports l : NoDup l →
  match apiserver_ports svc pods ports (map port_entry l) with
  | Ok pps => ∃ l', pps = map port_entry l' ∧ NoDup l' ∧
      (∀ x, x ∈ l' ↔ x ∈ l ∨ x.1 = ProtocolTCP ∧ ∃ port, port ∈ ports ∧ dials svc pods port x.2) ∧
      (∀ port, port ∈ ports → ∃ tp, dials svc pods port tp)
  | Err e => e = ErrNamedPortUnresolvable ∧ ∃ port, port ∈ ports ∧ ∀ tp, ¬ dials svc pods port tp
  end.
Proof.
  revert l. induction ports as [|port ports IH]; intros l Hl; simpl.
  { exists l. split_and!; [done..| |].
    - intros x. setoid_rewrite elem_of_nil. naive_solver.
    - intros sp Hsp. by apply not_elem_of_nil in Hsp. }
  assert (match match findServicePort svc port with
    | Some sp => resolveTargetPorts sp (ss_selector (svc_spec svc)) pods | None => Ok [port] end with
    | Ok tps => (∃ tp, tp ∈ tps) ∧ ∀ tp, tp ∈ tps ↔ dials svc pods port tp
    | Err e => e = ErrNamedPortUnresolvable ∧ ∀ tp, ¬ dials svc pods port tp
    end) as Hd.
  { unfold dials. destruct (findServicePort svc port) as [sp|].
    - destruct (resolveTargetPorts _ _ _) eqn:E; [by apply resolveTargetPorts_Ok in E as [_ E]|].
      by apply resolveTargetPorts_Err in E.
    - split; [exists port; by left|]. intros tp. by rewrite list_elem_of_singleton. }
  destruct (match findServicePort svc port with Some _ => _ | None => _ end) as [tps|e]; simpl.
  2: { destruct Hd as [-> ?]. split; [done|]. exists port. split; [by left|done]. }
  destruct Hd as [[z Hz] Ht].
  destruct (append_ports_entries l ProtocolTCP tps Hl) as (l1 & -> & Hnd1 & Hl1).
  specialize (IH l1 Hnd1). destruct (apiserver_ports _ _ ports _) as [pps|e].
  - destruct IH as (l' & -> & Hnd' & Hl' & Hr). exists l'. split_and!; [done..| |].
    + intros x. rewrite Hl', Hl1. setoid_rewrite elem_of_cons. setoid_rewrite Ht. naive_solver.
    + intros p [->|?]%elem_of_cons; [|auto]. exists z. by apply Ht.
  - destruct IH as (-> & p & ? & ?). split; [done|]. exists p. split; [by right|done].
Qed.

Lemma build_apiserver_err svc pods ports cidr e :
  buildApiserverReachablePolicy svc pods ports cidr = Err e → e = ErrNamedPortUnresolvable.
Proof.
  unfold buildApiserverReachablePolicy. pose proof (apiserver_ports_spec svc pods ports [] NoDup_nil_2) as Hp.
  change (map port_entry []) with (@nil NetworkPolicyPort) in Hp.
  destruct (apiserver_ports _ _ _ _); [done|]. destruct Hp as [-> _]. by intros [= <-].
Qed.

(** ** Properties *)

(** The policy of a Service the apiserver dials opens exactly the pod-side
    ports of the ports that webhooks, aggregated APIs, CRD conversions and the
    opt-in annotation name, over TCP, each once, from the configured CIDR (every
    address by default). There is none when nothing names the Service or it has no
    pods of its own to select; an unresolvable port is an error, never a partial
    policy, and a policy never has an empty port list, which would open every port. *)
Theorem apiserver_policy_spec SourceCIDR rd svc :
  let named port := references rd svc port ∨
    ApiserverReachableOptedIn (obj_annotations svc) = true ∧ port ∈ map sp_port (ss_ports (svc_spec svc)) in
  match apiserver_policy SourceCIDR rd svc with
  | Ok None => ss_clusterIP (svc_spec svc) = ClusterIPNone ∨ ss_type (svc_spec svc) = "ExternalName" ∨
      ss_selector (svc_spec svc) = ∅ ∨ ∀ port, ¬ named port
  | Ok (Some p) => ∃ pods l,
      list_pods rd (InNamespace (obj_ns svc)) = Ok pods ∧
      obj_ns p = obj_ns svc ∧ nps_podSelector (np_spec p) = mkSel (ss_selector (svc_spec svc)) [] ∧
      nps_ingress (np_spec p) =
        ingress_opens (if SourceCIDR =?? "" then "0.0.0.0/0" else SourceCIDR) l ∧
      NoDup l ∧ l ≠ [] ∧
      ∀ x, x ∈ l ↔ x.1 = ProtocolTCP ∧ ∃ port, named port ∧ dials svc pods port x.2
  | Err e => collectReferencedPorts rd svc = Err e ∨ list_pods rd (InNamespace (obj_ns svc)) = Err e ∨
      e = ErrNamedPortUnresolvable ∧
      ∃ pods port, list_pods rd (InNamespace (obj_ns svc)) = Ok pods ∧ named port ∧
        ∀ tp, ¬ dials svc pods port tp
  end.
Proof.
  intros named. unfold apiserver_policy.
  destruct (_ =?? ClusterIPNone) eqn:E1; [kv_bools; by left|].
  destruct (_ =?? "ExternalName") eqn:E2; [kv_bools; right; by left|].
  destruct (size _ =?? 0) eqn:E3; [kv_bools; do 2 right; left; by apply map_size_empty_iff|]. simpl.
  destruct (collectReferencedPorts rd svc) as [ports|e] eqn:Ec; simpl; [|by left].
  apply collectReferencedPorts_Ok in Ec as [_ Hn]. fold named in Hn.
  destruct (length ports =?? 0) eqn:El; kv_bools.
  { apply length_zero_iff_nil in El as ->. do 3 right. intros port Hp%Hn. by apply not_elem_of_nil in Hp. }
  destruct (list_pods _ _) as [pods|e] eqn:Epods; simpl; [|by right; left].
  unfold buildApiserverReachablePolicy. pose proof (apiserver_ports_spec svc pods ports [] NoDup_nil_2) as Hp.
  change (map port_entry []) with (@nil NetworkPolicyPort) in Hp.
  destruct (apiserver_ports _ _ _ _) as [pps|e]; simpl.
  - destruct Hp as (l & -> & Hnd & Hl & Hr). exists pods, l.
    assert (∀ x, x ∈ l ↔ x.1 = ProtocolTCP ∧ ∃ port, named port ∧ dials svc pods port x.2) as Hl'.
    { intros x. rewrite Hl, elem_of_nil. setoid_rewrite Hn. naive_solver. }
    split_and!; try done. destruct ports as [|p ports]; [done|]. intros ->.
    destruct (Hr p) as [tp Htp]; [by left|].
    apply (not_elem_of_nil (ProtocolTCP, tp)), Hl'. split; [done|]. exists p.
    split; [|done]. apply Hn. by left.
  - destruct Hp as (-> & port & Hin & Hno). do 2 right. split; [done|]. exists pods, port.
    split; [done|]. split; [by apply Hn|done].
Qed.

(** [C25] The apiserver-reachable reconcile converges as the external-allow one does:
    with current reads of a live namespace a successful run leaves exactly the policy
    the references call for, owned by the Service, and removes its other policies of
    this kind; unresolved named ports change nothing and run again; failed runs lose
    no wanted policy and touch no other owner's. *)
Theorem ApiserverReachableReconcile_converges `{K8sLib, !K8sLaws} {W} `{PolicyServer W}
    SourceCIDR (nsFilter : NamespaceFilter) (rec : bool) req svc ns (st : St W) r st'
    (Hsvc : get_service (cl_reader (st_world st)) req = Ok svc)
    (Hns : get_namespace (cl_reader (st_world st)) (key_ns req) = Ok ns)
    (Hr : ApiserverReachableReconcile SourceCIDR nsFilter rec req st = (r, st')) :
  let own := source_own apiserverPolicies svc in
  let wants :=
    if negb (IsManaged nsFilter ns) || ExternalAllowOptedOut (obj_annotations ns) ||
       ExternalAllowOptedOut (obj_annotations svc)
    then Ok None else apiserver_policy SourceCIDR (cl_reader (st_world st)) svc in
  if m_deleting (ns_meta ns) then stored st' = stored st ∧ r = Ok Finished
  else match wants with
  | Err e => stored st' = stored st ∧
      r = if is_named_port_error e then Ok (RequeueAfter 30) else Err e
  | Ok w =>
      let want := match w with Some p => [owned_by svc p] | None => [] end in
      confined own want (stored st) (stored st') ∧
      (∀ o, r = Ok o → o = Finished ∧ reconciled own want (stored st) (stored st'))
  end.
Proof.
  intros own wants. refine (source_reconcile_inv apiserverPolicies nsFilter rec
    (apiserver_desired SourceCIDR) req svc ns st r st' _ Hsvc Hns Hr).
  clear. intros svc st. split; [done|]. intros p. simpl. unfold apiserver_policy.
  destruct (_ || _ || _); [done|].
  intros (ports & _ & Hp)%result_bind_Ok. destruct (_ =?? 0); [done|].
  apply result_bind_Ok in Hp as (pods & _ & (q & Hq & [= ->])%result_fmap_Ok).
  by apply result_bind_Ok in Hq as (pps & _ & [= <-]).
Qed.

Import Model.

Definition webhook_cluster : Cluster :=
  mkCluster
    (list_to_map (map (λ p, (ObjectKeyFromObject p, p)) [web_pod "web-0" 8080]))
    {["shop" := mkNamespace (new_meta "" "shop" ∅)]} ∅ ∅ ∅ ∅
    {[mkKey "shop" "web" := web_service]} ∅
    [mkWebhookConfig (new_meta "" "hook" ∅) [None; Some (mkSvcRef "shop" "web" (Some 80%Z))]] [] [] ∅.

Lemma ApiserverReachableReconcile_converges_witness :
  let st := initial webhook_cluster in
  let run := ApiserverReachableReconcile "" (NewNamespaceFilter []) true (mkKey "shop" "web") st in
  run.1 = Ok Finished ∧
  match apiserver_policy "" (cluster_reader webhook_cluster) web_service with
  | Ok (Some p) =>
      reconciled (source_own apiserverPolicies web_service) [owned_by web_service p]
        (stored st) (stored run.2)
  | _ => False
  end.
Proof.
  intros st run. assert (run.1 = Ok Finished) as Hr by (vm_compute; reflexivity). split; [done|].
  refine (proj2 (proj2 (ApiserverReachableReconcile_converges "" (NewNamespaceFilter []) true
    (mkKey "shop" "web") web_service (mkNamespace (new_meta "" "shop" ∅))
    st (Ok Finished) run.2 _ _ (run_result _ _ _ Hr)) Finished eq_refl)); vm_compute; reflexivity.
Defined.
