(* ===== verification/HostPort.v ===== *)
(** * Host ports (internal/controller/hostport_controller.go)

    One policy per namespace, host port and protocol that a pod declares, and the
    stamps on the pods that the policies select. *)

From S2P Require Import Prelude GoStrings Sha256 Types Effects Names ApiServer Permits Apply Stamps.
From S2P Require Import Baseline ServicePolicies.

Definition ApplyErrorHostPort : string := "host_port".

Record hostPortKey := mkHPKey { hp_port : Z; hp_protocol : string }.

#[export] Instance hostPortKey_eq_dec : EqDecision hostPortKey.
Proof. solve_decision. Defined.
#[export] Instance hostPortKey_countable : Countable hostPortKey :=
  inj_countable' (λ k, (hp_port k, hp_protocol k)) (λ p, mkHPKey p.1 p.2) (λ '(mkHPKey _ _), eq_refl).

(** [hostPortKey.String]. *)
Definition hostPortKey_String (k : hostPortKey) : string :=
  pretty (hp_port k) +:+ "." +:+ ToLower (hp_protocol k).

Definition desiredHostPortKeys (pods : list Pod) : gset hostPortKey :=
  list_to_set (flat_map (λ p,
    if ps_hostNetwork (pod_spec p) then []
    else flat_map (λ c,
      flat_map (λ cp,
        if cp_hostPort cp =?? 0%Z then []
        else [mkHPKey (cp_hostPort cp) (or_TCP (cp_protocol cp))]) (c_ports c))
      (ps_containers (pod_spec p))) pods).

(** resolution_controller.go: the stamps a pod's host ports call for. *)
Definition desiredHostPortStamps (pod : Pod) : gset string :=
  set_map (λ key, LabelSystemHostPortPrefix +:+ hostPortKey_String key) (desiredHostPortKeys [pod]).

Definition buildHostPortPolicy (ns : string) (key : hostPortKey) : NetworkPolicy :=
  externalAllowPolicy (hostPortPolicyName ns (hostPortKey_String key)) ns LabelSourceKindHost
    ("host-" +:+ pretty (hp_port key) +:+ "-" +:+ ToLower (hp_protocol key))
    {[LabelSystemHostPortPrefix +:+ hostPortKey_String key := "true"]}
    "0.0.0.0/0"
    (appendPolicyPort [] (hp_protocol key) (hp_port key)).

Definition host_options (ns : string) : ListOptions :=
  inNamespacePolicyLabels ns
    {[LabelRole := LabelRoleExternalAllow; LabelSourceKind := LabelSourceKindHost]}.

Definition note_host_failed : string :=
  "the host-port NetworkPolicy %s could not be applied: %v. Until this is fixed, traffic to hostPort %d/%s on pods in this namespace is blocked.".
Definition note_host_restored : string :=
  "this NetworkPolicy was deleted and has been recreated: kube-vnet lets external traffic reach hostPort %d/%s on pods in this namespace through it. An administrator opts the namespace out with the annotation %s=false.".

(** [errors.Join]: nil when every error is. *)
Definition errors_Join (es : list error) (last : option error) : option error :=
  match es ++ option_list last with [] => None | es => Some (ErrJoin es) end.

Section reconcile.
Context `{K8sLib} {W : Type} `{Client W} (NSFilter : NamespaceFilter) (rec : bool).

(** The order in which Go visits a map is not specified: it is a parameter. *)
Context (order : gset hostPortKey → list hostPortKey).

(** One iteration of the loop; [keep] and [applyErrs]. *)
Definition host_port_one (ns : string) (acc : gset ObjectKey * list error) (key : hostPortKey) :
    IO W (gset ObjectKey * list error) :=
  let pol := buildHostPortPolicy ns key in
  let keep := {[ObjectKeyFromObject pol]} ∪ acc.1 in
  created ← attempt (applyPolicy cl_reader pol);
  match created with
  | Err e =>
      _ ← applyFailed rec (ref_of pol) ApplyErrorHostPort note_host_failed
            [AStr (obj_name pol); AStr (error_string e); AInt (hp_port key); AStr (hp_protocol key)];
      mret (keep, acc.2 ++ [ErrWrap ("apply host-port policy " +:+ hostPortKey_String key +:+ ": ") e])
  | Ok created =>
      restored ← restores_applied (ObjectKeyFromObject pol) created;
      _ ← (if restored : bool
           then policyRestored rec (ref_of pol) note_host_restored
                  [AInt (hp_port key); AStr (hp_protocol key); AStr AnnotationExternalAllow]
           else mret tt);
      mret (keep, acc.2)
  end.

(** The steps on a namespace whose host ports get policies. *)
Definition reconcile_host_ports (ns : string) : EIO W Outcome :=
  pods ← read (λ rd, list_pods rd (InNamespace ns));
  acc ← liftIO (for_fold (order (desiredHostPortKeys pods)) (∅, []) (host_port_one ns));
  _ ← liftIO (restores_forgetNamespace ns acc.1);
  swept ← try (sweepStalePolicies (host_options ns) acc.1 no_skip);
  match errors_Join acc.2 (match swept with Err e => Some e | Ok _ => None end) with
  | Some e => throw e
  | None => mret Finished
  end.

Definition HostPortReconcile (name : string) : EIO W Outcome :=
  r ← try (read (λ rd, get_namespace rd name));
  match r with
  | Err e =>
      if IsNotFound e then (_ ← liftIO (restores_forgetNamespace name ∅); mret Finished)
      else throw e
  | Ok ns =>
      if m_deleting (ns_meta ns) then mret Finished
      else if negb (IsManaged NSFilter ns) || ExternalAllowOptedOut (obj_annotations ns) then
        _ ← liftIO (restores_forgetNamespace (obj_name ns) ∅);
        _ ← sweepStalePolicies (host_options (obj_name ns)) ∅ no_skip;
        mret Finished
      else reconcile_host_ports (obj_name ns)
  end.
End reconcile.

(** The watch on pods: whether an event enqueues the namespace. *)
Definition keysOf (pod : Pod) : gset hostPortKey := desiredHostPortKeys [pod].

Definition HostPortChangedPredicate (e : PodEvent) : bool :=
  match e with
  | PodCreated p | PodDeleted p => negb (keysOf p =?? ∅)
  | PodUpdated old new => negb (keysOf old =?? keysOf new)
  end.

(** ** Facts *)

Definition declares (p : Pod) (key : hostPortKey) : Prop :=
  ps_hostNetwork (pod_spec p) = false ∧
  ∃ c cp, c ∈ ps_containers (pod_spec p) ∧ cp ∈ c_ports c ∧ cp_hostPort cp ≠ 0%Z ∧
    key = mkHPKey (cp_hostPort cp) (or_TCP (cp_protocol cp)).

Lemma elem_of_desiredHostPortKeys pods key :
  key ∈ desiredHostPortKeys pods ↔ ∃ p, p ∈ pods ∧ declares p key.
Proof.
  unfold desiredHostPortKeys, declares. rewrite elem_of_list_to_set, elem_of_flat_map.
  apply exist_proper. intros p. apply and_iff_compat_l.
  destruct (ps_hostNetwork (pod_spec p)); [rewrite elem_of_nil; naive_solver|].
  rewrite elem_of_flat_map. setoid_rewrite elem_of_flat_map. split.
  - intros (c & ? & cp & ? & Hk). case_bool_decide; [by apply not_elem_of_nil in Hk|].
    apply list_elem_of_singleton in Hk. naive_solver.
  - intros (_ & c & cp & ? & ? & ? & ->). exists c. split; [done|]. exists cp. split; [done|].
    rewrite bool_decide_eq_false_2 by done. by left.
Qed.

Lemma desiredHostPortKeys_middle pre p post :
  desiredHostPortKeys (pre ++ p :: post) = keysOf p ∪ desiredHostPortKeys (pre ++ post).
Proof.
  apply set_eq. intros key. unfold keysOf.
  rewrite elem_of_union, !elem_of_desiredHostPortKeys. split.
  - intros (q & Hq & Hd). apply elem_of_app in Hq as [Hq|[->|Hq]%elem_of_cons].
    + right. exists q. split; [apply elem_of_app; by left|done].
    + left. exists p. split; [by left|done].
    + right. exists q. split; [apply elem_of_app; by right|done].
  - intros [(q & ->%list_elem_of_singleton & Hd)|(q & Hq & Hd)].
    + exists p. split; [apply elem_of_app; right; by left|done].
    + exists q. split; [|done]. apply elem_of_app. apply elem_of_app in Hq as [?|?]; [by left|].
      right. by right.
Qed.

(** The protocols the API accepts. *)
Definition valid_protocol (key : hostPortKey) : Prop := hp_protocol key ∈ ["TCP"; "UDP"; "SCTP"].

Lemma rendered_inj_diff p1 p2 s : s ∈ ["tcp"; "udp"] → p1 +:+ "." +:+ s ≠ p2 +:+ "." +:+ "sctp".
Proof.
  intros Hs Heq. rewrite <-(app_assoc_str p2 "." "sctp") in Heq.
  assert (∃ x y z, s = String x (String y (String z ""))) as (x & y & z & ->)
    by (repeat (apply elem_of_cons in Hs as [->|Hs]; [by do 3 eexists|]); by apply not_elem_of_nil in Hs).
  apply (app_inj_length_r p1 _ ("." +:+ String x (String y (String z ""))) "sctp") in Heq as [_ Hd]; done.
Qed.

Lemma hostPortKey_String_inj k1 k2 : valid_protocol k1 → valid_protocol k2 →
  hostPortKey_String k1 = hostPortKey_String k2 → k1 = k2.
Proof.
  destruct k1 as [n1 s1], k2 as [n2 s2]. unfold valid_protocol, hostPortKey_String. simpl.
  intros H1 H2.
  assert (∀ s, s ∈ ["TCP"; "UDP"; "SCTP"] → s = "TCP" ∨ s = "UDP" ∨ s = "SCTP") as Hc.
  { intros s Hs. repeat (apply elem_of_cons in Hs as [->|Hs]; [tauto|]). by apply not_elem_of_nil in Hs. }
  assert (∀ a b, String.length a = String.length b →
    pretty n1 +:+ "." +:+ a = pretty n2 +:+ "." +:+ b → n1 = n2 ∧ a = b) as Hsame.
  { intros a b Hab Heq. apply app_inj_length_r in Heq as [Hp Hd]; [|by rewrite !length_app_str, Hab].
    split; [by apply (inj pretty)|by injection Hd]. }
  destruct (Hc _ H1) as [->|[->| ->]], (Hc _ H2) as [->|[->| ->]]; intros Heq;
    first [apply Hsame in Heq as [-> Hs]; [by try discriminate Hs|done]
          |by apply rendered_inj_diff in Heq; [|by repeat constructor]
          |symmetry in Heq; apply rendered_inj_diff in Heq; [done|by repeat constructor]].
Qed.

Lemma hostPortPolicyName_inj ns i1 i2 : hostPortPolicyName ns i1 = hostPortPolicyName ns i2 → i1 = i2.
Proof.
  unfold hostPortPolicyName. intros Heq. rewrite <-!app_assoc_str in Heq.
  apply app_inj_length_r in Heq as [Heq _]; [|by rewrite !length_hex8].
  apply app_inj_length_r in Heq as [Heq _]; [|done].
  by apply (inj (String.app _)) in Heq.
Qed.

Lemma buildHostPortPolicy_keys ns keys : NoDup keys → Forall valid_protocol keys →
  NoDup (map ObjectKeyFromObject (map (buildHostPortPolicy ns) keys)).
Proof.
  intros Hnd Hv. rewrite <-list_fmap_compose. apply NoDup_fmap_2_strong; [|done].
  intros k1 k2 Hk1 Hk2 Heq. rewrite Forall_forall in Hv.
  apply hostPortKey_String_inj; [by apply Hv..|]. apply (hostPortPolicyName_inj ns).
  by apply (f_equal key_name) in Heq.
Qed.

Section loop.
Context `{K8sLib, !K8sLaws} {W : Type} `{PolicyServer W} (rec : bool) (ns : string).
Implicit Types (st : St W).

Lemma host_port_one_inv acc key st acc' st' :
  host_port_one rec ns acc key st = (acc', st') →
  acc'.1 = {[ObjectKeyFromObject (buildHostPortPolicy ns key)]} ∪ acc.1 ∧
  (acc'.2 = acc.2 ∧ (∃ live, applied (buildHostPortPolicy ns key) live ∧
      stored st' = <[ObjectKeyFromObject (buildHostPortPolicy ns key) := live]> (stored st)) ∨
   acc'.2 ≠ [] ∧ stored st' = stored st).
Proof.
  unfold host_port_one. set (pol := buildHostPortPolicy ns key). rewrite bind_IO.
  unfold attempt. destruct (applyPolicy cl_reader pol st) as [r1 st1] eqn:Ea.
  apply applyPolicy_inv in Ea as (_ & _ & Ha); [|by left]. cbn [fst snd].
  destruct r1 as [created|e]; rewrite bind_IO.
  - destruct Ha as [(live & Hs & Hl) _]. rewrite bind_IO. intros [= <- <-]. simpl. split; [done|].
    left. split; [done|]. exists live. split; [done|]. rewrite <-Hs.
    etrans; [apply stored_world, keeps|done].
  - intros [= <- <-]. simpl. split; [done|]. right. split; [by destruct acc.2|].
    rewrite <-Ha. apply stored_world, keeps.
Qed.

Lemma host_port_loop_inv keys acc st acc' st' :
  for_fold keys acc (host_port_one rec ns) st = (acc', st') →
  let want := map (buildHostPortPolicy ns) keys in
  (∀ k, k ∈ acc'.1 ↔ k ∈ acc.1 ∨ k ∈ map ObjectKeyFromObject want) ∧
  confined own_none want (stored st) (stored st') ∧
  (acc'.2 = [] → acc.2 = [] ∧
    (NoDup (map ObjectKeyFromObject want) → reconciled own_none want (stored st) (stored st'))).
Proof.
  revert acc st. induction keys as [|key keys IH]; intros acc st; simpl.
  { intros [= <- <-]. split_and!; [intros; rewrite elem_of_nil; tauto|apply confined_refl|].
    intros He. split; [done|]. intros _. apply reconciled_nil. }
  rewrite bind_IO. destruct (host_port_one rec ns acc key st) as [acc1 st1] eqn:E1. cbn [fst snd].
  apply host_port_one_inv in E1 as (Hk1 & Hs1). intros Hx.
  apply IH in Hx as (Hk & Hc & Hok). split_and!.
  - intros k. rewrite Hk, Hk1, elem_of_union, elem_of_singleton, elem_of_cons. tauto.
  - eapply confined_trans; [|eapply confined_weaken; [|exact Hc]; intros q Hq; by right].
    destruct Hs1 as [(_ & live & _ & ->)|[_ ->]]; [|apply confined_refl].
    apply confined_insert. by left.
  - intros He. destruct (Hok He) as [He1 Hr]. destruct Hs1 as [(He0 & live & Ha & Hst)|[? _]]; [|done].
    split; [congruence|]. intros [Hn Hnd]%NoDup_cons.
    eapply reconciled_cons; [done| |by apply Hr]. rewrite Hst. by apply reconciled_insert.
Qed.

Lemma reconcile_host_ports_inv order st pods r st' :
  (∀ s, order s ≡ₚ elements s) →
  list_pods (cl_reader (st_world st)) (InNamespace ns) = Ok pods →
  reconcile_host_ports rec order ns st = (r, st') →
  let want := map (buildHostPortPolicy ns) (elements (desiredHostPortKeys pods)) in
  confined (swept (host_options ns) no_skip) want (stored st) (stored st') ∧
  (r = Ok Finished → NoDup (map ObjectKeyFromObject want) →
    reconciled (swept (host_options ns) no_skip) want (stored st) (stored st')).
Proof.
  intros Hord Hpods. unfold reconcile_host_ports. rewrite bind_read, Hpods.
  set (keys := order (desiredHostPortKeys pods)). intros Hx.
  set (want := map (buildHostPortPolicy ns) (elements (desiredHostPortKeys pods))).
  assert (keys ≡ₚ elements (desiredHostPortKeys pods)) as Hkeys by apply Hord.
  set (want1 := map (buildHostPortPolicy ns) keys).
  assert (want1 ≡ₚ want) as Hw by (by apply fmap_Permutation).
  rewrite bind_liftIO in Hx.
  destruct (for_fold keys (∅, []) (host_port_one rec ns) st) as [acc st1] eqn:Eloop. cbn [fst snd] in Hx.
  apply host_port_loop_inv in Eloop as (Hk & Hc & Hok). fold want1 in Hk, Hc, Hok. simpl in Hk, Hok.
  kv_silent Hx as u st2 Hw2. apply stored_world in Hw2. rewrite bind_try in Hx.
  destruct (sweepStalePolicies (host_options ns) acc.1 no_skip st2) as [r3 st3] eqn:Esw. cbn [fst snd] in Hx.
  assert (∀ own m1 m2, confined own want1 m1 m2 → confined own want m1 m2) as Hcw.
  { intros own m1 m2 [H3 H4]. split; intros k Hk'; [apply H3|apply H4]; by rewrite ?Hw in *. }
  assert (st' = st3 ∧ (r = Ok Finished → acc.2 = [] ∧ r3 = Ok tt)) as [-> Hr].
  { unfold errors_Join in Hx. destruct acc.2, r3 as [[]|]; simpl in Hx; by injection Hx as <- <-. }
  split.
  - apply Hcw. eapply confined_trans; [eapply confined_weaken; [|exact Hc]; done|].
    rewrite <-Hw2. apply sweep_inv in Esw as (_ & Hcs & _). split.
    + intros k Hk' Hs. destruct (Hcs k) as [->|(_ & p & Hp & _ & Hst & _)]; [done|].
      destruct Hst. apply Hk. right. by rewrite (policies_key _ _ _ Hp).
    + intros k _. destruct (Hcs k) as [->|[? (p & ? & Hs & _ & Hsk)]]; [by left|]. right.
      split; [done|]. exists p. unfold swept. by rewrite Hs, Hsk.
  - intros [He ->]%Hr Hnd. destruct (Hok He) as [_ Hrec].
    eapply (apply_and_sweep _ _ _ want1 (stored st)) in Esw as [_ Hrec'].
    + specialize (Hrec' eq_refl). destruct Hrec' as [H3 H4].
      split; [intros p Hp; apply H3; by rewrite Hw|]. intros k Hk'. apply H4. by rewrite Hw.
    + intros k Hk'. apply Hk. by right.
    + intros k q _ _ [Hin|?]%Hk; [by apply not_elem_of_empty in Hin|done].
    + rewrite Hw2. apply Hrec. by rewrite Hw.
Qed.
End loop.

(** ** Properties *)

(** Stamps and policies line up. A pod carries the host-port stamp a policy
    selects on exactly when it declares that port and protocol as a host port on
    its own network, in any container; and every policy opens exactly that port, to
    every address, on the pods with the stamp. *)
Theorem host_stamps_select ns pod key (Hv : valid_protocol key)
    (Hp : ∀ key', declares pod key' → valid_protocol key') :
  (LabelSystemHostPortPrefix +:+ hostPortKey_String key ∈ desiredHostPortStamps pod ↔ declares pod key) ∧
  np_spec (buildHostPortPolicy ns key) =
    mkNPSpec (mkSel {[LabelSystemHostPortPrefix +:+ hostPortKey_String key := "true"]} [])
      (ingress_opens "0.0.0.0/0" [(hp_protocol key, hp_port key)]) [PolicyTypeIngress].
Proof.
  split; [|done]. unfold desiredHostPortStamps. rewrite elem_of_map.
  setoid_rewrite elem_of_desiredHostPortKeys. setoid_rewrite list_elem_of_singleton. split.
  - intros (k & Hk & p & -> & Hd). apply (inj (String.app _)) in Hk.
    apply hostPortKey_String_inj in Hk as ->; auto.
  - intros Hd. eauto.
Qed.

(** A pod with host port 8080 on a container. *)
Definition host_pod (name : string) : Pod :=
  mkPod (new_meta "shop" name {["app" := "web"]})
    (mkPodSpec [mkContainer "main" "" "" [] [mkCPort "http" 80 8080 "TCP"] None ∅ ∅ None] [] false).

Lemma host_stamps_select_witness :
  "kube-vnet.system/host-port.8080.tcp" ∈ desiredHostPortStamps (host_pod "web-0") ↔
  declares (host_pod "web-0") (mkHPKey 8080 "TCP").
Proof.
  refine (proj1 (host_stamps_select "shop" (host_pod "web-0") (mkHPKey 8080 "TCP") _ _)).
  - by left.
  - intros key' (_ & c & cp & Hc & Hcp & _ & ->). apply list_elem_of_singleton in Hc as ->.
    apply list_elem_of_singleton in Hcp as ->. by left.
Defined.

(** [C24] The host-port reconcile converges, in whatever order it visits the ports.
    On a live managed namespace that is not opted out, a run without error leaves
    exactly one policy per declared port and protocol and removes the namespace's
    other host-port policies; when it is opted out or disabled all of them are
    removed; a run with failures still loses no wanted policy and touches nothing
    that is not a host-port policy of the namespace. *)
Theorem HostPortReconcile_converges `{K8sLib, !K8sLaws} {W} `{PolicyServer W}
    (NSFilter : NamespaceFilter) (rec : bool) order name ns pods (st : St W) r st'
    (Hord : ∀ s, order s ≡ₚ elements s)
    (Hns : get_namespace (cl_reader (st_world st)) name = Ok ns)
    (Hpods : list_pods (cl_reader (st_world st)) (InNamespace (obj_name ns)) = Ok pods)
    (Hvalid : ∀ p key, p ∈ pods → declares p key → valid_protocol key)
    (Hr : HostPortReconcile NSFilter rec order name st = (r, st')) :
  let own := swept (host_options (obj_name ns)) no_skip in
  let want :=
    if negb (IsManaged NSFilter ns) || ExternalAllowOptedOut (obj_annotations ns) then []
    else map (buildHostPortPolicy (obj_name ns)) (elements (desiredHostPortKeys pods)) in
  if m_deleting (ns_meta ns) then r = Ok Finished ∧ st' = st
  else confined own want (stored st) (stored st') ∧
       (r = Ok Finished → reconciled own want (stored st) (stored st')).
Proof.
  unfold HostPortReconcile in Hr. rewrite bind_try in Hr. cbn [read fst snd] in Hr. rewrite Hns in Hr.
  cbv zeta. destruct (m_deleting (ns_meta ns)); [by injection Hr as <- <-|].
  destruct (negb _ || _).
  - kv_silent Hr as u st1 Hw. rewrite <-(stored_world _ _ Hw).
    apply EIO_bind_inv in Hr as [([] & st2 & Hsw & [= <- <-])|(e & Hsw & ->)];
      apply sweep_only in Hsw as [Hc Hok]; try done; by split; [|auto].
  - eapply reconcile_host_ports_inv in Hr as [Hc Hok]; [|done..]. split; [done|].
    intros ->. apply Hok; [done|]. apply buildHostPortPolicy_keys; [apply NoDup_elements|].
    apply Forall_forall. intros key (p & ? & ?)%elem_of_elements%elem_of_desiredHostPortKeys. eauto.
Qed.

Import Model.

Definition host_cluster : Cluster :=
  set_netpols (list_to_map (map (λ p, (ObjectKeyFromObject p, p))
      [buildHostPortPolicy "shop" (mkHPKey 9090 "UDP"); example_policy "shop" "mem" LabelRoleMembership]))
    (mkCluster {[mkKey "shop" "web-0" := host_pod "web-0"]}
       {["shop" := mkNamespace (new_meta "" "shop" ∅)]} ∅ ∅ ∅ ∅ ∅ ∅ [] [] [] ∅).

Lemma HostPortReconcile_converges_witness :
  let st := initial host_cluster in
  let run := HostPortReconcile (NewNamespaceFilter []) true elements "shop" st in
  run.1 = Ok Finished ∧ size (stored run.2) = 2 ∧
  reconciled (swept (host_options "shop") no_skip)
    (map (buildHostPortPolicy "shop") (elements (desiredHostPortKeys [host_pod "web-0"])))
    (stored st) (stored run.2).
Proof.
  intros st run. assert (run.1 = Ok Finished) as Hr by (vm_compute; reflexivity).
  split; [done|]. split; [vm_compute; reflexivity|].
  refine (proj2 (HostPortReconcile_converges (NewNamespaceFilter []) true elements "shop"
    (mkNamespace (new_meta "" "shop" ∅)) [host_pod "web-0"] st (Ok Finished) run.2
    _ _ _ _ (run_result _ _ _ Hr)) eq_refl); [done|vm_compute; reflexivity|vm_compute; reflexivity|].
  intros p key ->%list_elem_of_singleton (_ & c & cp & Hc & Hcp & _ & ->).
  apply list_elem_of_singleton in Hc as ->. apply list_elem_of_singleton in Hcp as ->. by left.
Defined.

(** The pod watch of the host-port reconcile misses nothing: an event it drops
    leaves the set of declared ports of the namespace unchanged, whichever other pods
    there are, so a status update of a pod with host ports enqueues nothing and a
    changed port always does. *)
Theorem HostPortChangedPredicate_complete e pre post
    (He : HostPortChangedPredicate e = false) :
  match e with
  | PodCreated p | PodDeleted p =>
      desiredHostPortKeys (pre ++ p :: post) = desiredHostPortKeys (pre ++ post)
  | PodUpdated old new =>
      desiredHostPortKeys (pre ++ old :: post) = desiredHostPortKeys (pre ++ new :: post)
  end.
Proof.
  destruct e as [p|old new|p]; simpl in He; kv_bools; rewrite !desiredHostPortKeys_middle.
  - by rewrite He, (left_id_L ∅ (∪)).
  - by rewrite He.
  - by rewrite He, (left_id_L ∅ (∪)).
Qed.

Lemma HostPortChangedPredicate_complete_witness :
  desiredHostPortKeys ([] ++ host_pod "web-0" :: [host_pod "web-1"]) =
  desiredHostPortKeys ([] ++ set_pod_labels {["app" := "api"]} (host_pod "web-0") :: [host_pod "web-1"]).
Proof.
  apply (HostPortChangedPredicate_complete
    (PodUpdated (host_pod "web-0") (set_pod_labels {["app" := "api"]} (host_pod "web-0")))
    [] [host_pod "web-1"]).
  vm_compute. reflexivity.
Defined.
