(* ===== verification/Resolver.v ===== *)
(** * The resolver (internal/controller/resolver.go)

    [DesiredLabels] collects the rules of the three tiers that apply to a pod,
    drops those naming a vnet the pod's namespace may not join, resolves the rest
    and renders the stamps. It is the only implementation of resolution: the
    reconciler and the admission webhook share it. *)

From Stdlib Require Import Ascii.
From S2P Require Import Prelude GoStrings Types Effects Direction Names Resolution ResolutionSpec.
From S2P Require Import ApiServer Permits Apply Stamps HostPort.

Definition ReasonVirtualNetworkNotJoinable : string := "VirtualNetworkNotJoinable".
Definition ReasonInvalidDirection : string := "InvalidDirection".

Definition ServiceAccountUsername (namespace name : string) : string :=
  if (namespace =?? "") || (name =?? "") then ""
  else "system:serviceaccount:" +:+ namespace +:+ ":" +:+ name.

(** ** Hints (resolution_controller.go) *)

Definition notJoinableHint (ref : VirtualNetworkRef) : string :=
  if ref_name ref =?? SystemVnetCluster then
    " hint: `cluster` is a cluster-wide singleton living in the operator's namespace; omit `namespace` (recommended) or set it to the operator's namespace."
  else if ref_name ref =?? SystemVnetNamespace then
    " hint: the `namespace` system vnet exists in every managed namespace — not in the operator's (unmanaged) namespace; omit `namespace` to mean the pod's own namespace."
  else "".

Definition bareJoinLabelHint (labelKey suffix : string) : string :=
  if Contains "." suffix || (suffix =?? SystemVnetCluster) || (suffix =?? SystemVnetNamespace) then ""
  else Sprintf " hint: the bare form %q is only honored in the vnet's home namespace; to join a vnet hosted in another namespace use the prefixed form %q."
         [AStr labelKey; AStr (DefaultLabelPrefix +:+ "net.<homeNS>." +:+ suffix)].

(** ** Rules of a tier *)

(** One iteration of the loop of [baselineRules]. *)
Definition baseline_rule (podNS source : string) (owner : ObjRef) (m : BaselineMembership) :
    list ResolutionRule :=
  match ParseDirection (bm_direction m) with
  | Some dir => [mkRule (canonicalVnetKey (bm_virtualNetworkRef m) podNS) dir source
                   (bm_virtualNetworkRef m) "" (Some owner)]
  | None => []
  end.

Definition baselineRules (ms : list BaselineMembership) (podNS source : string) (owner : ObjRef) :
    list ResolutionRule := flat_map (baseline_rule podNS source owner) ms.

(** [client.IgnoreNotFound]: an absent object means no rules. *)
Definition ignore_not_found {A} (e : error) : result (list A) :=
  if IsNotFound e then Ok [] else Err e.

Definition clusterBaselineRules (rd : Reader) (pod : Pod) : result (list ResolutionRule) :=
  match get_cluster_baseline rd "default" with
  | Err e => ignore_not_found e
  | Ok cb => Ok (baselineRules (cvb_memberships cb) (obj_ns pod) "ClusterVirtualNetworkBaseline/default"
                   (ref_of pod))
  end.

Definition namespaceBaselineRules (rd : Reader) (pod : Pod) : result (list ResolutionRule) :=
  match get_baseline rd (mkKey (obj_ns pod) "default") with
  | Err e => ignore_not_found e
  | Ok nb => Ok (baselineRules (vb_memberships nb) (obj_ns pod)
                   ("VirtualNetworkBaseline/" +:+ obj_ns pod +:+ "/default") (ref_of nb))
  end.

Section rules.
Context `{K8sLib}.

(** One iteration of the loop of [bindingRules]. *)
Definition binding_rule (pod : Pod) (b : VirtualNetworkBinding) : list ResolutionRule :=
  match LabelSelectorAsSelector (bs_podSelector (vnb_spec b)) with
  | Err _ => []
  | Ok matches =>
      if negb (matches (obj_labels pod)) then []
      else
        let dirStr := if bs_direction (vnb_spec b) =?? "" then DirectionBoth
                      else bs_direction (vnb_spec b) in
        match ParseBareDirection dirStr with
        | None => []
        | Some dir => [mkRule (canonicalVnetKey (bs_virtualNetworkRef (vnb_spec b)) (obj_ns pod)) dir
                         ("VirtualNetworkBinding/" +:+ obj_name b) (bs_virtualNetworkRef (vnb_spec b)) ""
                         (Some (ref_of b))]
        end
  end.

Definition bindingRules (rd : Reader) (pod : Pod) : result (list ResolutionRule) :=
  vnbs ← list_vnbs rd (InNamespace (obj_ns pod));
  Ok (flat_map (binding_rule pod) vnbs).
End rules.

Definition note_bad_direction : string :=
  "join label %s has the value %q, which is not a direction; use both, ingress, egress or none. The label is ignored until fixed.".
Definition note_prefixed_cluster : string :=
  "pod label %s: the cluster network has no namespace; use %s%s. The label is ignored until fixed.".
Definition note_cannot_join : string := "cannot join VirtualNetwork %s (from %s): %s.%s%s".

Section resolver.
Context `{K8sLib} {W : Type} (Recorder : bool) (rd : Reader).

(** One iteration of the loop over the pod's labels. *)
Definition pod_label_rule (pod : Pod) (out : list ResolutionRule) (kv : string * string) :
    IO W (list ResolutionRule) :=
  let '(k, v) := kv in
  match CutPrefix k userJoinPrefix with
  | None => mret out
  | Some suffix =>
      match ParseBareDirection v with
      | None =>
          _ ← eventf Recorder (ref_of pod) EventTypeWarning ReasonInvalidDirection "Resolve"
                note_bad_direction [AStr k; AStr v];
          mret out
      | Some dir =>
          if isPrefixedClusterSuffix suffix then
            _ ← eventf Recorder (ref_of pod) EventTypeWarning ReasonVirtualNetworkNotJoinable "Resolve"
                  note_prefixed_cluster [AStr k; AStr userJoinPrefix; AStr SystemVnetCluster];
            mret out
          else mret (out ++ [mkRule (CanonicalSuffix suffix (obj_ns pod)) dir ("pod label " +:+ k)
                               (mkVnetRef "" "") (bareJoinLabelHint k suffix) (Some (ref_of pod))])
      end
  end.

(** Go visits the labels in no particular order; the order of the rules does not
    matter to resolution ([Resolve_order_independent]). *)
Definition podLabelRules (pod : Pod) : IO W (list ResolutionRule) :=
  for_fold (map_to_list (obj_labels pod)) [] (pod_label_rule pod).

Definition notJoinableNote (key : VnetKey) (podNS : string) : string :=
  match splitVnetKey key with
  | None => Sprintf "%q is not a valid VirtualNetwork reference" [AStr key]
  | Some (homeNS, name) =>
      match get_vnet rd (mkKey homeNS name) with
      | Err e =>
          if IsNotFound e then Sprintf "VirtualNetwork %s does not exist" [AStr (Display key)]
          else Sprintf "VirtualNetwork %s could not be read to tell why (%v)"
                 [AStr (Display key); AStr (error_string e)]
      | Ok _ => Sprintf "VirtualNetwork %s does not permit namespace %q; its owner can add it to spec.allowedNamespaces"
                  [AStr (Display key); AStr podNS]
      end
  end.

Definition set_rule_vnet (v : VnetKey) (r : ResolutionRule) : ResolutionRule :=
  mkRule v (rr_direction r) (rr_source r) (rr_ref r) (rr_hint r) (rr_owner r).

(** The loop reuses the slice it reads: a rule is written at or before the index
    it was read from, so the list is rebuilt here. *)
Fixpoint filterPermittedRules (rules : list ResolutionRule) (podNS : string) :
    EIO W (list ResolutionRule) :=
  match rules with
  | [] => mret []
  | rule :: rules =>
      ok ← lift (Permits rd (rr_vnet rule) podNS);
      if negb ok then
        _ ← liftIO (match rr_owner rule with
                    | Some owner =>
                        eventf Recorder owner EventTypeWarning ReasonVirtualNetworkNotJoinable "Resolve"
                          note_cannot_join
                          [AStr (Display (rr_vnet rule)); AStr (rr_source rule);
                           AStr (notJoinableNote (rr_vnet rule) podNS);
                           AStr (notJoinableHint (rr_ref rule)); AStr (rr_hint rule)]
                    | None => mret tt
                    end);
        filterPermittedRules rules podNS
      else
        out ← filterPermittedRules rules podNS;
        mret (set_rule_vnet (stampedVnetKey (rr_vnet rule)) rule :: out)
  end.

(** The rules of a tier. *)
Definition tier_rules (pod : Pod) (scope : ResolutionScope) : EIO W (list ResolutionRule) :=
  match scope with
  | ScopeClusterBaseline => lift (clusterBaselineRules rd pod)
  | ScopeNamespaceBaseline => lift (namespaceBaselineRules rd pod)
  | ScopePod =>
      rules ← lift (bindingRules rd pod);
      labels ← liftIO (podLabelRules pod);
      mret (rules ++ labels)
  end.

Fixpoint build_tiers (pod : Pod) (tiers : list ResolutionScope) : EIO W (list ResolutionLayer) :=
  match tiers with
  | [] => mret []
  | scope :: tiers =>
      rules ← tier_rules pod scope;
      rules ← filterPermittedRules rules (obj_ns pod);
      layers ← build_tiers pod tiers;
      mret (if (0 <? length rules)%nat then mkLayer scope rules :: layers else layers)
  end.

Definition buildLayers (pod : Pod) : EIO W (list ResolutionLayer) :=
  build_tiers pod [ScopeClusterBaseline; ScopeNamespaceBaseline; ScopePod].

(** The stamps of the result: membership and host ports. *)
Definition render_stamps (pod : Pod) (effective : gmap string Direction) : gmap string string :=
  set_fold (λ stamp m, <[stamp := "true"]> m)
    (kmap (String.app LabelSystemNetPrefix) effective) (desiredHostPortStamps pod).

Definition DesiredLabels (pod : Pod) : EIO W (gmap string string * ResolutionResult) :=
  layers ← buildLayers pod;
  let res := Resolve layers in
  mret (render_stamps pod (res_effective res), res).
End resolver.

(** ** Specification *)

(** The rule a join label declares, if it is one. *)
Definition label_rule (pod : Pod) (kv : string * string) : list ResolutionRule :=
  match CutPrefix kv.1 userJoinPrefix, ParseBareDirection kv.2 with
  | Some suffix, Some dir =>
      if isPrefixedClusterSuffix suffix then []
      else [mkRule (CanonicalSuffix suffix (obj_ns pod)) dir ("pod label " +:+ kv.1) (mkVnetRef "" "")
              (bareJoinLabelHint kv.1 suffix) (Some (ref_of pod))]
  | _, _ => []
  end.

Definition label_rules (pod : Pod) : list ResolutionRule :=
  flat_map (label_rule pod) (map_to_list (obj_labels pod)).

(** The rules that apply to the pod in a tier, permitted or not. *)
Definition candidates `{K8sLib} (rd : Reader) (pod : Pod) (scope : ResolutionScope) :
    result (list ResolutionRule) :=
  match scope with
  | ScopeClusterBaseline => clusterBaselineRules rd pod
  | ScopeNamespaceBaseline => namespaceBaselineRules rd pod
  | ScopePod => bs ← bindingRules rd pod; Ok (bs ++ label_rules pod)
  end.

Definition stamped_rule (r : ResolutionRule) : ResolutionRule :=
  set_rule_vnet (stampedVnetKey (rr_vnet r)) r.

(** The permitted ones, under the key that is stamped. *)
Definition permitted `{K8sLib} (rd : Reader) (podNS : string) (rules : list ResolutionRule) :
    result (list ResolutionRule) :=
  map stamped_rule <$> result_filterM (λ r, Permits rd (rr_vnet r) podNS) rules.

Definition tier `{K8sLib} (rd : Reader) (pod : Pod) (scope : ResolutionScope) : result ResolutionLayer :=
  rules ← candidates rd pod scope;
  mkLayer scope <$> permitted rd (obj_ns pod) rules.

Definition all_scopes : list ResolutionScope := [ScopeClusterBaseline; ScopeNamespaceBaseline; ScopePod].

(** The three tiers, as the reads of [rd] give them. *)
Definition tiers `{K8sLib} (rd : Reader) (pod : Pod) : result (list ResolutionLayer) :=
  result_mapM (tier rd pod) all_scopes.

(** ** Facts *)

(** The resolver keeps whatever its Events keep: the world, always; everything,
    without a recorder. *)
Section keeps_resolver.
Context `{K8sLib} {W X : Type} (f : St W → X) (rec : bool) (rd : Reader).
Context `{Hev : !∀ obj t r a n args, Keeps f (@eventf W rec obj t r a n args)}.

#[local] Instance podLabelRules_keeps pod : Keeps f (podLabelRules rec pod).
Proof.
  apply keeps_fold. intros out [k v]. unfold pod_label_rule.
  destruct (CutPrefix k userJoinPrefix); [|apply _]. destruct (ParseBareDirection v); [|apply _].
  destruct (isPrefixedClusterSuffix _); apply _.
Qed.

#[local] Instance filterPermitted_keeps rules podNS : KeepsE f (filterPermittedRules rec rd rules podNS).
Proof.
  induction rules as [|r rules IH]; simpl; [apply _|].
  apply keepsE_bind; [apply _|]. intros [|]; simpl; [apply _|].
  apply keepsE_bind; [|apply _]. destruct (rr_owner r); apply _.
Qed.

#[local] Instance tier_rules_keeps pod scope : KeepsE f (tier_rules rec rd pod scope).
Proof. destruct scope; simpl; apply _. Qed.

#[local] Instance build_tiers_keeps pod scopes : KeepsE f (build_tiers rec rd pod scopes).
Proof. induction scopes; simpl; apply _. Qed.

Lemma DesiredLabels_keeps pod : KeepsE f (DesiredLabels rec rd pod).
Proof. unfold DesiredLabels, buildLayers. apply _. Qed.
End keeps_resolver.

#[export] Instance DesiredLabels_silent `{K8sLib} {W} rec rd pod :
  SilentE (DesiredLabels (W := W) rec rd pod).
Proof. apply DesiredLabels_keeps. intros. apply _. Qed.

Definition nonempty_layer (l : ResolutionLayer) : Prop := rl_rules l ≠ [].
#[export] Instance nonempty_layer_dec l : Decision (nonempty_layer l).
Proof. unfold nonempty_layer. apply _. Defined.

Section facts.
Context `{K8sLib} {W : Type} (rec : bool) (rd : Reader).
Implicit Types (st : St W) (pod : Pod).

Lemma podLabelRules_result pod st : (podLabelRules rec pod st).1 = label_rules pod.
Proof.
  unfold podLabelRules, label_rules.
  rewrite (fold_result _ _ _ (λ out kv, out ++ label_rule pod kv)).
  - generalize (map_to_list (obj_labels pod)). intros l.
    change (flat_map (label_rule pod) l) with ([] ++ flat_map (label_rule pod) l).
    generalize (@nil ResolutionRule). induction l as [|kv l IH]; intros out; simpl;
      [by rewrite app_nil_r|]. by rewrite IH, <-app_assoc.
  - clear st. intros out [k v] st. unfold pod_label_rule, label_rule. simpl.
    destruct (CutPrefix k userJoinPrefix) as [suffix|]; simpl; [|by rewrite app_nil_r].
    destruct (ParseBareDirection v) as [dir|]; simpl; [|by rewrite bind_IO, app_nil_r].
    destruct (isPrefixedClusterSuffix suffix); [by rewrite bind_IO, app_nil_r|done].
Qed.

Lemma filterPermitted_result rules podNS st :
  (filterPermittedRules rec rd rules podNS st).1 = permitted rd podNS rules.
Proof.
  unfold permitted. revert st. induction rules as [|r rules IH]; intros st; simpl; [done|].
  rewrite bind_result. simpl. destruct (Permits rd (rr_vnet r) podNS) as [[]|e]; simpl; [| |done].
  - rewrite bind_result, IH. simpl. by destruct (result_filterM _ rules).
  - rewrite bind_result. unfold liftIO. destruct (_ st) as [u st1]. simpl. rewrite IH.
    by destruct (result_filterM _ rules).
Qed.

Lemma tier_rules_result pod scope st : (tier_rules rec rd pod scope st).1 = candidates rd pod scope.
Proof.
  destruct scope; simpl; [done..|]. rewrite bind_result. simpl. destruct (bindingRules rd pod); [|done].
  simpl. rewrite bind_liftIO. simpl. by rewrite podLabelRules_result.
Qed.

Lemma build_tiers_result pod scopes st :
  (build_tiers rec rd pod scopes st).1 = filter nonempty_layer <$> result_mapM (tier rd pod) scopes.
Proof.
  revert st. induction scopes as [|scope scopes IH]; intros st; simpl; [done|].
  rewrite bind_result, tier_rules_result.
  change (tier rd pod scope) with
    (rules ← candidates rd pod scope; mkLayer scope <$> permitted rd (obj_ns pod) rules).
  destruct (candidates rd pod scope) as [rules|e]; simpl; [|done].
  rewrite bind_result, filterPermitted_result.
  destruct (permitted rd (obj_ns pod) rules) as [rules'|e]; simpl; [|done].
  rewrite bind_result, IH. destruct (result_mapM _ scopes) as [ls|e]; simpl; [|done].
  f_equal. destruct rules' as [|r rules']; simpl.
  - rewrite filter_cons_False; [done|]. intros Hn. by apply Hn.
  - by rewrite filter_cons_True.
Qed.

(** What the resolver returns, as a function of the reads alone. *)
Lemma DesiredLabels_result pod st :
  (DesiredLabels rec rd pod st).1 =
    (layers ← tiers rd pod;
     let res := Resolve (filter nonempty_layer layers) in
     Ok (render_stamps pod (res_effective res), res)).
Proof.
  unfold DesiredLabels, buildLayers. rewrite bind_result, build_tiers_result. unfold tiers, all_scopes.
  by destruct (result_mapM _ _).
Qed.
End facts.

(** ** The stamps against the specification of resolution *)

Lemma spec_effective_nonempty v layers : StronglySorted (by_key rl_scope scope_le) layers →
  spec_effective v (filter nonempty_layer layers) = spec_effective v layers.
Proof.
  intros Hs. unfold spec_effective.
  assert (spec_grant v (filter nonempty_layer layers) = spec_grant v layers) as ->; [|done].
  unfold spec_grant, ordered_layers.
  rewrite !stable_sort_id by (try apply StronglySorted_filter; done).
  generalize (@None Grant). induction layers as [|l layers IH]; intros og; [done|].
  rewrite filter_cons. inversion Hs. case_decide as Hl; simpl; rewrite IH by done; [done|].
  f_equal. unfold layer_grant, rules_for. unfold nonempty_layer in Hl.
  by destruct (rl_rules l) as [|r rs]; [|destruct Hl].
Qed.

Lemma result_mapM_Ok {A B} (f : A → result B) l ys :
  result_mapM f l = Ok ys ↔ Forall2 (λ x y, f x = Ok y) l ys.
Proof.
  revert ys. induction l as [|x l IH]; intros ys; simpl.
  - split; [intros [= <-]; constructor|]. by inversion 1.
  - rewrite result_bind_Ok. setoid_rewrite result_bind_Ok. split.
    + intros (y & Hy & ys' & Hys & [= <-]). constructor; [done|]. by apply IH.
    + inversion 1; subst. eexists. split; [done|]. eexists. by rewrite IH.
Qed.

Section spec.
Context `{K8sLib} (rd : Reader) (pod : Pod).

Lemma tier_Ok scope layer : tier rd pod scope = Ok layer →
  rl_scope layer = scope ∧ ∃ rules, candidates rd pod scope = Ok rules ∧
    ∀ r', r' ∈ rl_rules layer ↔
      ∃ r, r ∈ rules ∧ Permits rd (rr_vnet r) (obj_ns pod) = Ok true ∧ r' = stamped_rule r.
Proof.
  unfold tier. intros (rules & Hr & Hl)%result_bind_Ok.
  apply result_fmap_Ok in Hl as (rs & Hp & ->). split; [done|]. exists rules. split; [done|].
  unfold permitted in Hp. apply result_fmap_Ok in Hp as (rs' & Hf & ->). simpl.
  intros r'. rewrite list_elem_of_fmap. setoid_rewrite (result_filterM_Ok _ _ _ Hf). naive_solver.
Qed.

Lemma tiers_sorted layers : tiers rd pod = Ok layers → StronglySorted (by_key rl_scope scope_le) layers.
Proof.
  unfold tiers, all_scopes. rewrite result_mapM_Ok. intros Ht.
  assert (map rl_scope layers = all_scopes) as Hs.
  { clear -Ht. unfold all_scopes. induction Ht as [|s l ss ls Hl _ IH]; [done|]. simpl. f_equal; [|done].
    by apply tier_Ok in Hl as [-> _]. }
  clear Ht. destruct layers as [|l1 [|l2 [|l3 [|]]]]; try done. injection Hs as H1 H2 H3.
  unfold by_key, scope_le. repeat constructor; rewrite ?H1, ?H2, ?H3; simpl; lia.
Qed.

Lemma candidates_valid scope rules : candidates rd pod scope = Ok rules → rules_valid rules.
Proof.
  assert (∀ ms src o, rules_valid (baselineRules ms (obj_ns pod) src o)) as Hb.
  { intros ms src o. apply Forall_forall. intros r (m & _ & Hr)%elem_of_flat_map.
    unfold baseline_rule in Hr. destruct (ParseDirection _) as [d|] eqn:E; [|by apply not_elem_of_nil in Hr].
    apply list_elem_of_singleton in Hr as ->. simpl.
    by apply ParseDirection_Some in E as [-> ?]. }
  assert (∀ v d, ParseBareDirection v = Some d → valid_direction d) as Hp.
  { intros v d [-> ?]%ParseBareDirection_Some. auto with kv. }
  destruct scope; simpl.
  - unfold clusterBaselineRules, ignore_not_found. destruct (get_cluster_baseline _ _); [by intros [= <-]|].
    destruct (IsNotFound e); [|done]. intros [= <-]. constructor.
  - unfold namespaceBaselineRules, ignore_not_found. destruct (get_baseline _ _); [by intros [= <-]|].
    destruct (IsNotFound e); [|done]. intros [= <-]. constructor.
  - intros (bs & Hbs & [= <-])%result_bind_Ok. apply Forall_app. split; apply Forall_forall; intros r.
    + apply result_bind_Ok in Hbs as (vnbs & _ & [= <-]). intros (b & _ & Hr)%elem_of_flat_map.
      unfold binding_rule in Hr. destruct (LabelSelectorAsSelector _); [|by apply not_elem_of_nil in Hr].
      destruct (negb _); [by apply not_elem_of_nil in Hr|].
      destruct (ParseBareDirection _) eqn:E; [|by apply not_elem_of_nil in Hr].
      apply list_elem_of_singleton in Hr as ->. by eapply Hp.
    + intros (kv & _ & Hr)%elem_of_flat_map. unfold label_rule in Hr.
      destruct (CutPrefix _ _); [|by apply not_elem_of_nil in Hr].
      destruct (ParseBareDirection _) eqn:E; [|by apply not_elem_of_nil in Hr].
      destruct (isPrefixedClusterSuffix _); [by apply not_elem_of_nil in Hr|].
      apply list_elem_of_singleton in Hr as ->. by eapply Hp.
Qed.

Lemma tiers_valid layers : tiers rd pod = Ok layers → layers_valid layers.
Proof.
  unfold tiers. rewrite result_mapM_Ok. intros Ht. unfold layers_valid.
  induction Ht as [|s l ss ls Hl _ IH]; constructor; [|done].
  apply tier_Ok in Hl as (_ & rules & Hc%candidates_valid & Hr). apply Forall_forall.
  intros r' (r & Hin & _ & ->)%Hr. unfold rules_valid in Hc. rewrite Forall_forall in Hc. by apply (Hc r).
Qed.

Lemma layers_valid_filter layers : layers_valid layers → layers_valid (filter nonempty_layer layers).
Proof.
  unfold layers_valid. rewrite !Forall_forall. intros Hl l [_ ?]%list_elem_of_filter. auto.
Qed.
End spec.

Lemma render_stamps_lookup pod (eff : gmap string Direction) k :
  render_stamps pod eff !! k =
    if decide (k ∈ desiredHostPortStamps pod) then Some "true"
    else match CutPrefix k LabelSystemNetPrefix with Some v => eff !! v | None => None end.
Proof.
  unfold render_stamps. set (m0 := kmap _ eff).
  assert (m0 !! k = match CutPrefix k LabelSystemNetPrefix with Some v => eff !! v | None => None end) as <-.
  { subst m0. destruct (CutPrefix k _) as [v|] eqn:E.
    - apply CutPrefix_Some in E as ->. apply lookup_kmap. apply _.
    - apply eq_None_not_Some. intros [d Hd]. apply lookup_kmap_Some in Hd as (v & -> & _); [|apply _].
      by rewrite CutPrefix_app in E. }
  assert (∀ X : gset string, (k ∈ X → set_fold (λ stamp m, <[stamp := "true"]> m) m0 X !! k = Some "true") ∧
    (k ∉ X → set_fold (λ stamp m, <[stamp := "true"]> m) m0 X !! k = m0 !! k)) as HX.
  { intros X. apply (set_fold_ind_L (λ m X, (k ∈ X → m !! k = Some "true") ∧ (k ∉ X → m !! k = m0 !! k)));
      [split; [set_solver|done]|].
    intros x X' m Hx [IH1 IH2]. destruct (decide (x = k)) as [<-|Hne].
    - rewrite lookup_insert_eq. split; [done|set_solver].
    - rewrite lookup_insert_ne by done. split; intros; [apply IH1|apply IH2]; set_solver. }
  case_decide as Hk; by apply HX.
Qed.

(** The two families of stamps share no key. *)
Lemma host_stamp_not_net v pod : LabelSystemNetPrefix +:+ v ∉ desiredHostPortStamps pod.
Proof.
  unfold desiredHostPortStamps. rewrite elem_of_map. intros (k & Hk & _). by vm_compute in Hk.
Qed.

Lemma render_stamps_net pod eff v : render_stamps pod eff !! (LabelSystemNetPrefix +:+ v) = eff !! v.
Proof.
  rewrite render_stamps_lookup, decide_False by apply host_stamp_not_net. by rewrite CutPrefix_app.
Qed.

Lemma render_stamps_only pod eff : stamps_only (render_stamps pod eff).
Proof.
  intros k [v Hk]. rewrite render_stamps_lookup in Hk. unfold IsResolutionManagedLabel.
  apply orb_true_iff. rewrite !HasPrefix_iff. case_decide as Hs.
  - right. unfold desiredHostPortStamps in Hs. apply elem_of_map in Hs as (key & -> & _). eauto.
  - left. destruct (CutPrefix k _) as [s|] eqn:E; [|done]. apply CutPrefix_Some in E. eauto.
Qed.

Lemma Ok_pair_inj {A B} (a a' : A) (b b' : B) : Ok (a, b) = Ok (a', b') → a = a' ∧ b = b'.
Proof. by intros [= -> ->]. Qed.

Lemma DesiredLabels_Ok `{K8sLib} {W} rec rd pod (st : St W) desired res st' :
  DesiredLabels rec rd pod st = (Ok (desired, res), st') →
  ∃ layers, tiers rd pod = Ok layers ∧ layers_valid (filter nonempty_layer layers) ∧
    desired = render_stamps pod (res_effective (Resolve (filter nonempty_layer layers))).
Proof.
  intros Hd. pose proof (DesiredLabels_result rec rd pod st) as Hr. rewrite Hd in Hr. cbn [fst] in Hr.
  destruct (tiers rd pod) as [layers|] eqn:Et; [|done]. exists layers. split; [done|].
  split; [by eapply layers_valid_filter, tiers_valid|]. by apply Ok_pair_inj in Hr as [-> _].
Qed.

(** A stamped vnet was named by a permitted rule of some tier. *)
Lemma stamped_permitted `{K8sLib} rd pod layers v p :
  tiers rd pod = Ok layers → spec_effective v (filter nonempty_layer layers) = Some p →
  ∃ scope rules r, candidates rd pod scope = Ok rules ∧ r ∈ rules ∧
    Permits rd (rr_vnet r) (obj_ns pod) = Ok true ∧ v = stampedVnetKey (rr_vnet r).
Proof.
  intros Ht Hv. rewrite spec_effective_nonempty in Hv by by eapply tiers_sorted.
  unfold spec_effective in Hv. destruct (spec_grant v layers) as [g|] eqn:Eg; [|done].
  assert (∃ l, l ∈ ordered_layers layers ∧ is_Some (layer_grant v l)) as (l & Hl & Hg).
  { clear -Eg. unfold spec_grant in Eg. revert Eg.
    assert (∀ ls og, foldl (λ cur layer, cascade_grant cur (layer_grant v layer)) og ls = Some g →
      is_Some og ∨ ∃ l, l ∈ ls ∧ is_Some (layer_grant v l)) as Hf.
    { induction ls as [|l ls IH]; intros og; simpl; [intros ->; eauto|].
      intros [Hs|(l' & ? & ?)]%IH; [|right; exists l'; split; [by right|done]].
      destruct (layer_grant v l) eqn:El; [right; exists l; rewrite El; split; [by left|eauto]|left].
      by destruct og. }
    intros [[]|?]%Hf; done. }
  unfold ordered_layers in Hl. rewrite elem_of_stable_sort in Hl.
  unfold tiers in Ht. rewrite result_mapM_Ok in Ht.
  apply list_elem_of_lookup in Hl as [i Hi].
  destruct (Forall2_lookup_r _ _ _ _ _ Ht Hi) as (scope & _ & Htier).
  apply tier_Ok in Htier as (_ & rules & Hc & Hr).
  unfold layer_grant, rules_for in Hg.
  destruct (filter _ (rl_rules l)) as [|r' rs] eqn:Ef; [by destruct Hg|].
  assert (r' ∈ filter (λ r, rr_vnet r = v) (rl_rules l)) as Hin by (rewrite Ef; by left).
  apply list_elem_of_filter in Hin as [<- (r & ? & ? & ->)%Hr]. simpl. eauto 10.
Qed.

(** ** Properties *)

(** [C8] The resolver computes the cascade of its inputs. When it returns, the three
    tiers were all read, each holding the rules that name a vnet the pod's namespace
    may join, under the key that is stamped; the membership stamps are then exactly
    what the specification of resolution grants on these tiers, the other stamps are
    exactly those of the pod's host ports, and nothing else is desired. *)
Theorem DesiredLabels_spec `{K8sLib} {W} (rec : bool) rd pod (st : St W) desired res st'
    (Hd : DesiredLabels rec rd pod st = (Ok (desired, res), st')) :
  ∃ layers, tiers rd pod = Ok layers ∧
    (∀ v d, desired !! (LabelSystemNetPrefix +:+ v) = Some d ↔
      bare_direction d ∧ spec_effective v layers = Some (perm d)) ∧
    (∀ k, HasPrefix k LabelSystemNetPrefix = false →
      desired !! k = if decide (k ∈ desiredHostPortStamps pod) then Some "true" else None) ∧
    stamps_only desired.
Proof.
  apply DesiredLabels_Ok in Hd as (layers & Et & Hv & ->). exists layers. split; [done|].
  split_and!; [| |apply render_stamps_only].
  - intros v d. rewrite render_stamps_net, Resolve_lookup by done.
    rewrite <-spec_effective_nonempty by by eapply tiers_sorted. unfold spec_effective. split.
    + intros (Hb & Hn & g & -> & Hp). split; [done|]. rewrite Hp, bool_decide_eq_false_2; [done|].
      rewrite perm_none_iff by auto with kv. by rewrite Bare_of_bare.
    + intros [Hb Hs]. destruct (spec_grant v _) as [g|]; [|done].
      destruct (gr_perm g =?? perm_none) eqn:En; [done|]. injection Hs as Hs. kv_bools.
      split_and!; [done| |by exists g]. intros ->. apply En. by rewrite Hs.
  - intros k Hk. rewrite render_stamps_lookup. case_decide; [done|].
    unfold HasPrefix in Hk. by destruct (CutPrefix k _).
Qed.

(** [C9] No stamp without permission. Every membership stamp the resolver asks for
    names the cluster network or an existing vnet that admits the pod's namespace,
    and a rule that applies to the pod named it. *)
Theorem DesiredLabels_only_permitted `{K8sLib} {W} (rec : bool) rd pod (st : St W) desired res st' v d
    (Hd : DesiredLabels rec rd pod st = (Ok (desired, res), st'))
    (Hv : desired !! (LabelSystemNetPrefix +:+ v) = Some d) :
  ∃ scope rules r, candidates rd pod scope = Ok rules ∧ r ∈ rules ∧ v = stampedVnetKey (rr_vnet r) ∧
    (rr_vnet r = SystemVnetCluster ∨
     ∃ homeNS name vnet, splitVnetKey (rr_vnet r) = Some (homeNS, name) ∧
       get_vnet rd (mkKey homeNS name) = Ok vnet ∧ admitted rd vnet (obj_ns pod)).
Proof.
  apply DesiredLabels_Ok in Hd as (layers & Et & Hval & ->).
  rewrite render_stamps_net, Resolve_lookup in Hv by done.
  destruct Hv as (Hb & Hn & g & Hg & Hp).
  assert (spec_effective v (filter nonempty_layer layers) = Some (perm d)) as Hs.
  { unfold spec_effective. rewrite Hg, Hp, bool_decide_eq_false_2; [done|].
    rewrite perm_none_iff by auto with kv. by rewrite Bare_of_bare. }
  destruct (stamped_permitted rd pod layers v _ Et Hs) as (scope & rules & r & Hc & Hr & Hperm & ->).
  exists scope, rules, r. split_and!; [done..|].
  apply Permits_true in Hperm as [?|(h & n & vn & ? & _ & ? & ?)]; [by left|right; by exists h, n, vn].
Qed.

(** The admission webhook and the reconciler agree. What the resolver returns, an
    error included, is a function of the pod and the reads alone: with and without a
    recorder, in whatever state, it is the same; it never writes, and without a
    recorder it leaves no trace at all. *)
Theorem DesiredLabels_parity `{K8sLib} {W} rd pod (st1 st2 : St W) :
  (DesiredLabels true rd pod st1).1 = (DesiredLabels false rd pod st2).1 ∧
  (∀ rec, st_world (DesiredLabels rec rd pod st1).2 = st_world st1) ∧
  (DesiredLabels false rd pod st1).2 = st1.
Proof.
  split; [by rewrite !DesiredLabels_result|]. split; [intros rec; apply keepsE|].
  apply (DesiredLabels_keeps id false rd).
Qed.

Import Model.

(** A pod that joins [shop/payments] by label and by binding, in a namespace the
    vnet admits. *)
Definition join_pod : Pod :=
  mkPod (new_meta "web" "front-0" {["app" := "front"; "kube-vnet/net.shop.payments" := "both"]})
    (mkPodSpec [mkContainer "main" "" "" [] [mkCPort "http" 80 8080 "TCP"] None ∅ ∅ None] [] false).
Definition join_binding : VirtualNetworkBinding :=
  mkBinding (new_meta "web" "front" ∅)
    (mkBindingSpec (mkVnetRef "payments" "shop") "egress" (mkSel {["app" := "front"]} []))
    (mkBindingStatus [] [] 0).
Definition join_cluster : Cluster :=
  set_vnbs {[mkKey "web" "front" := join_binding]}
    (mkCluster {[mkKey "web" "front-0" := join_pod]}
       {["shop" := mkNamespace (new_meta "" "shop" ∅); "web" := mkNamespace (new_meta "" "web" ∅)]}
       {[mkKey "shop" "payments" := permits_vnet]} ∅ ∅ ∅ ∅ ∅ [] [] [] ∅).

Definition join_result : result (gmap string string * ResolutionResult) :=
  (DesiredLabels true (cluster_reader join_cluster) join_pod (initial join_cluster)).1.
Definition join_stamps : gmap string string :=
  match join_result with Ok (desired, _) => desired | Err _ => ∅ end.
Definition join_resolution : ResolutionResult :=
  match join_result with Ok (_, res) => res | Err _ => mkResult ∅ [] [] end.

Lemma join_run : ∃ st',
  DesiredLabels true (cluster_reader join_cluster) join_pod (initial join_cluster) =
    (Ok (join_stamps, join_resolution), st').
Proof.
  exists (DesiredLabels true (cluster_reader join_cluster) join_pod (initial join_cluster)).2.
  apply run_result. unfold join_stamps, join_resolution. fold join_result.
  assert (∃ x, join_result = Ok x) as [[d r] ->]; [|done].
  destruct join_result as [x|e] eqn:E; [by exists x|]. vm_compute in E. discriminate.
Defined.

Lemma DesiredLabels_spec_witness :
  join_stamps = {["kube-vnet.system/net.shop.payments" := "egress";
                  "kube-vnet.system/host-port.8080.tcp" := "true"]} ∧
  ∃ layers, tiers (cluster_reader join_cluster) join_pod = Ok layers ∧
    (join_stamps !! (LabelSystemNetPrefix +:+ "shop.payments") = Some "egress" ↔
      bare_direction "egress" ∧ spec_effective "shop.payments" layers = Some (perm "egress")).
Proof.
  split; [kv_decide|]. destruct join_run as [st' Hrun].
  destruct (DesiredLabels_spec _ _ _ _ _ _ _ Hrun) as (layers & Ht & Hv & _).
  exists layers. split; [exact Ht|apply Hv].
Defined.

Lemma DesiredLabels_only_permitted_witness :
  ∃ scope rules r, candidates (cluster_reader join_cluster) join_pod scope = Ok rules ∧ r ∈ rules ∧
    "shop.payments" = stampedVnetKey (rr_vnet r).
Proof.
  destruct join_run as [st' Hrun].
  destruct (DesiredLabels_only_permitted true (cluster_reader join_cluster) join_pod
    (initial join_cluster) join_stamps join_resolution st' "shop.payments" "egress" Hrun
    ltac:(vm_compute; reflexivity)) as (scope & rules & r & H1 & H2 & H3 & _).
  exists scope, rules, r. exact (conj H1 (conj H2 H3)).
Defined.
