(* ===== verification/Semantics.v ===== *)
(** * What network policies mean (k8s.io/api/networking/v1)

    The documented meaning of ingress policies: a pod some policy of its namespace
    selects for ingress accepts a connection when a rule of such a policy allows
    it; a pod no policy selects accepts everything. The theorems about generated
    policies are stated in these terms. *)

From S2P Require Import Prelude GoStrings Types Effects.

(** Where a connection comes from: a pod, with the labels of its namespace. An
    address outside the cluster is matched by IP blocks only. *)
Record PodSource := mkPodSource { src_pod : Pod; src_nsLabels : gmap string string }.

Section semantics.
Context `{K8sLib}.

Definition selector_matches (s : LabelSelector) (l : gmap string string) : bool :=
  match LabelSelectorAsSelector s with Ok f => f l | Err _ => false end.

Definition peer_allows (policyNS : string) (peer : NetworkPolicyPeer) (src : PodSource) : bool :=
  match peer_namespaceSelector peer, peer_podSelector peer with
  | Some ns, Some ps =>
      selector_matches ns (src_nsLabels src) && selector_matches ps (obj_labels (src_pod src))
  | Some ns, None => selector_matches ns (src_nsLabels src)
  | None, Some ps => (obj_ns (src_pod src) =?? policyNS) && selector_matches ps (obj_labels (src_pod src))
  | None, None => false
  end.

Definition port_allows (p : NetworkPolicyPort) (proto : string) (port : Z) : bool :=
  bool_decide (npp_protocol p = Some proto) &&
  match npp_port p with Some n => bool_decide (n = FromInt32 port) | None => true end.

Definition rule_allows (policyNS : string) (r : IngressRule) (src : PodSource) (proto : string) (port : Z) :
    bool :=
  (bool_decide (ir_from r = []) || existsb (λ peer, peer_allows policyNS peer src) (ir_from r)) &&
  (bool_decide (ir_ports r = []) || existsb (λ p, port_allows p proto port) (ir_ports r)).

(** The policy applies to the pod's ingress. *)
Definition isolates (p : NetworkPolicy) (dst : Pod) : bool :=
  (obj_ns p =?? obj_ns dst) && selector_matches (nps_podSelector (np_spec p)) (obj_labels dst) &&
  bool_decide (PolicyTypeIngress ∈ nps_policyTypes (np_spec p)).

Definition policy_allows (p : NetworkPolicy) (src : PodSource) (dst : Pod) (proto : string) (port : Z) :
    bool :=
  isolates p dst &&
  existsb (λ r, rule_allows (obj_ns p) r src proto port) (nps_ingress (np_spec p)).

Definition connection_allowed (ps : list NetworkPolicy) (src : PodSource) (dst : Pod)
    (proto : string) (port : Z) : bool :=
  negb (existsb (λ p, isolates p dst) ps) || existsb (λ p, policy_allows p src dst proto port) ps.
End semantics.

Section facts.
Context `{K8sLaws}.

Lemma selector_matches_labels m l : selector_matches (mkSel m []) l = true ↔ m ⊆ l.
Proof.
  unfold selector_matches. destruct (selector_matchLabels m) as (f & -> & Hf). apply Hf.
Qed.

Lemma selector_matches_in k vs l : vs ≠ [] →
  selector_matches (mkSel ∅ [mkReq k LabelSelectorOpIn vs]) l = true ↔
  ∃ v, l !! k = Some v ∧ v ∈ vs.
Proof.
  intros Hvs. unfold selector_matches. destruct (selector_in k vs Hvs) as (f & -> & Hf). apply Hf.
Qed.

Lemma selector_matches_all l : selector_matches (mkSel ∅ []) l = true.
Proof. apply selector_matches_labels, map_empty_subseteq. Qed.
End facts.
