(* ===== verification/Generator.v ===== *)
(** * The policy generator (internal/controller/policy_generator.go)

    A pure function from a vnet and its members, per namespace and direction, to
    the membership policies. *)

From S2P Require Import Prelude GoStrings Types Effects Direction Names Semantics ApiServer.

Definition VnetGroupVersion : string := "kube-vnet.lhns.de/v1alpha1".

Abbreviation Members := (gmap string (gmap string (list string))) (only parsing).

Record InvalidJoiner := mkInvalid { ij_namespace : string; ij_name : string; ij_reason : string }.

Record GenerateInput := mkGenInput { gi_vnet : VirtualNetwork; gi_membersByNS : Members }.

Definition selfValuesReceiver : list string := [DirectionBoth; DirectionIngress].
Definition peerInitiatorValues : list string := [DirectionBoth; DirectionEgress].

Definition pods_of (byDir : gmap string (list string)) (d : Direction) : list string :=
  default [] (byDir !! d).

Definition hasReceiver (byDir : gmap string (list string)) : bool :=
  (0 <? length (pods_of byDir DirectionBoth))%nat || (0 <? length (pods_of byDir DirectionIngress))%nat.

Definition hasInitiator (byDir : gmap string (list string)) : bool :=
  (0 <? length (pods_of byDir DirectionBoth))%nat || (0 <? length (pods_of byDir DirectionEgress))%nat.

(** The namespaces with a pod in some bucket, sorted. *)
Definition memberNamespaces (m : Members) : list string :=
  sort_strings (map fst (filter (λ nb, existsb (λ dp, (0 <? length dp.2)%nat) (map_to_list nb.2) = true)
    (map_to_list m))).

Definition members_in (m : Members) (ns : string) : gmap string (list string) := default ∅ (m !! ns).

Definition peer_from (selectorKey peerNS : string) : NetworkPolicyPeer :=
  mkPeer (Some (mkSel ∅ [mkReq selectorKey LabelSelectorOpIn peerInitiatorValues]))
    (Some (mkSel {[NamespaceMetadataNameLabel := peerNS]} [])) None.

Definition membership_policy (vnet : VirtualNetwork) (peerFroms : list NetworkPolicyPeer) (ns : string) :
    NetworkPolicy :=
  let homeNS := obj_ns vnet in
  let meta := new_meta ns (PolicyName (obj_name vnet) homeNS)
    {[LabelManagedBy := LabelManagedByValue; LabelK8sManagedBy := LabelManagedByValue;
      LabelNetwork := dotted homeNS (obj_name vnet); LabelRole := LabelRoleMembership]} in
  mkNP NetworkingGroupVersion "NetworkPolicy"
    (if ns =?? homeNS then
       set_ownerReferences
         [mkOwnerRef VnetGroupVersion "VirtualNetwork" (obj_name vnet) (obj_uid vnet) (Some true) (Some true)]
         meta
     else meta)
    (mkNPSpec
       (mkSel ∅ [mkReq (SystemLabelKey homeNS (obj_name vnet)) LabelSelectorOpIn selfValuesReceiver])
       (if (0 <? length peerFroms)%nat then [mkIngress peerFroms []] else [])
       [PolicyTypeIngress]).

Definition Generate (in_ : GenerateInput) : list NetworkPolicy :=
  let vnet := gi_vnet in_ in
  let members := gi_membersByNS in_ in
  let nss := memberNamespaces members in
  if length nss =?? 0 then []
  else
    let selectorKey := SystemLabelKey (obj_ns vnet) (obj_name vnet) in
    let peerFroms := map (peer_from selectorKey)
      (filter (λ ns, hasInitiator (members_in members ns) = true) nss) in
    map (membership_policy vnet peerFroms)
      (filter (λ ns, hasReceiver (members_in members ns) = true) nss).

(** ** Facts *)

Lemma elem_of_memberNamespaces m ns :
  ns ∈ memberNamespaces m ↔ ∃ byDir d pods, m !! ns = Some byDir ∧ byDir !! d = Some pods ∧ pods ≠ [].
Proof.
  unfold memberNamespaces. rewrite elem_of_sort_strings, list_elem_of_fmap.
  setoid_rewrite list_elem_of_filter. split.
  - intros ([ns' byDir] & -> & He & Hin%elem_of_map_to_list). simpl in *.
    apply existsb_exists in He as ([d pods] & Hd & Hp).
    apply list_elem_of_In, elem_of_map_to_list in Hd. exists byDir, d, pods. split_and!; [done..|].
    by intros ->.
  - intros (byDir & d & pods & Hm & Hd & Hp). exists (ns, byDir). split; [done|]. split.
    + apply existsb_exists. exists (d, pods). split; [by apply list_elem_of_In, elem_of_map_to_list|].
      simpl. by destruct pods.
    + by apply elem_of_map_to_list.
Qed.

Lemma NoDup_memberNamespaces m : NoDup (memberNamespaces m).
Proof.
  unfold memberNamespaces, sort_strings. rewrite stable_sort_perm.
  eapply sublist_NoDup; [apply (NoDup_fst_map_to_list m)|]. apply fmap_sublist, sublist_filter.
Qed.

Lemma pods_of_pos byDir d : (0 <? length (pods_of byDir d))%nat = true ↔
  ∃ pods, byDir !! d = Some pods ∧ pods ≠ [].
Proof.
  unfold pods_of. destruct (byDir !! d) as [pods|]; simpl.
  - split.
    + intros Hl. exists pods. split; [done|]. by intros ->.
    + intros (? & [= <-] & Hne). by destruct pods.
  - split; [done|]. by intros (? & ? & _).
Qed.

(** A role is held in a namespace by some pod with one of the role's directions. *)
Definition has_role (values : list string) (m : Members) (ns : string) : Prop :=
  ∃ d byDir pods, d ∈ values ∧ m !! ns = Some byDir ∧ byDir !! d = Some pods ∧ pods ≠ [].

Lemma has_role_spec d1 d2 m ns :
  (0 <? length (pods_of (members_in m ns) d1))%nat || (0 <? length (pods_of (members_in m ns) d2))%nat = true ↔
  has_role [d1; d2] m ns.
Proof.
  unfold members_in, has_role. rewrite orb_true_iff, !pods_of_pos.
  destruct (m !! ns) as [byDir|]; simpl.
  - split.
    + intros [(pods & ? & ?)|(pods & ? & ?)]; [exists d1, byDir, pods|exists d2, byDir, pods];
        (split; [|done]); [by left|right; by left].
    + intros (d & byDir' & pods & Hd & [= <-] & ? & ?).
      apply elem_of_cons in Hd as [->|Hd]; [left; eauto|].
      apply list_elem_of_singleton in Hd as ->. right; eauto.
  - split; [|by intros (? & ? & ? & _ & ? & _)]. intros [(? & Hp & _)|(? & Hp & _)]; by rewrite lookup_empty in Hp.
Qed.

Lemma hasReceiver_spec m ns : hasReceiver (members_in m ns) = true ↔ has_role selfValuesReceiver m ns.
Proof. apply has_role_spec. Qed.
Lemma hasInitiator_spec m ns : hasInitiator (members_in m ns) = true ↔ has_role peerInitiatorValues m ns.
Proof. apply has_role_spec. Qed.

Lemma has_role_member values m ns : has_role values m ns → ns ∈ memberNamespaces m.
Proof. rewrite elem_of_memberNamespaces. intros (d & byDir & pods & _ & ? & ? & ?). by exists byDir, d, pods. Qed.

Definition peers_of (in_ : GenerateInput) : list NetworkPolicyPeer :=
  map (peer_from (SystemLabelKey (obj_ns (gi_vnet in_)) (obj_name (gi_vnet in_))))
    (filter (λ ns, hasInitiator (members_in (gi_membersByNS in_) ns) = true)
      (memberNamespaces (gi_membersByNS in_))).

(** One policy per namespace with a receiver. *)
Lemma elem_of_Generate in_ p :
  p ∈ Generate in_ ↔ ∃ ns, has_role selfValuesReceiver (gi_membersByNS in_) ns ∧
    p = membership_policy (gi_vnet in_) (peers_of in_) ns.
Proof.
  unfold Generate, peers_of. case_bool_decide as Hl.
  - apply length_zero_iff_nil in Hl. split; [intros Hp; by apply not_elem_of_nil in Hp|].
    intros (ns & Hr%has_role_member & _). rewrite Hl in Hr. by apply not_elem_of_nil in Hr.
  - rewrite list_elem_of_fmap. setoid_rewrite list_elem_of_filter. setoid_rewrite hasReceiver_spec.
    split; [naive_solver|]. intros (ns & Hr & ->). exists ns. split; [done|]. split; [done|].
    by eapply has_role_member.
Qed.

Lemma Generate_keys in_ : NoDup (map ObjectKeyFromObject (Generate in_)).
Proof.
  unfold Generate. case_bool_decide; [constructor|]. rewrite <-list_fmap_compose.
  apply NoDup_fmap_2; [|apply NoDup_filter, NoDup_memberNamespaces].
  intros ns1 ns2 E. apply (f_equal key_ns) in E. unfold compose, ObjectKeyFromObject, meta_key in E.
  simpl in E. by destruct (ns1 =?? _), (ns2 =?? _).
Qed.

(** ** What the generated policies allow *)

(** A pod's stamp gives it a role. *)
Definition stamp_in (values : list string) (key : string) (p : Pod) : Prop :=
  ∃ v, obj_labels p !! key = Some v ∧ v ∈ values.

Section connects.
Context `{K8sLaws} (in_ : GenerateInput).
Implicit Types (src : PodSource) (dst : Pod).

Definition key_of : string := SystemLabelKey (obj_ns (gi_vnet in_)) (obj_name (gi_vnet in_)).

Lemma membership_policy_isolates ns dst :
  isolates (membership_policy (gi_vnet in_) (peers_of in_) ns) dst = true ↔
  ns = obj_ns dst ∧ stamp_in selfValuesReceiver key_of dst.
Proof.
  unfold isolates. rewrite !andb_true_iff, !bool_decide_eq_true.
  unfold membership_policy at 2. simpl. rewrite selector_matches_in by done.
  assert (obj_ns (membership_policy (gi_vnet in_) (peers_of in_) ns) = ns) as ->.
  { unfold membership_policy. cbv zeta. by destruct (ns =?? _). }
  unfold stamp_in, key_of. rewrite list_elem_of_singleton. naive_solver.
Qed.

Lemma peers_allow policyNS src :
  existsb (λ peer, peer_allows policyNS peer src) (peers_of in_) = true ↔
  ∃ ns, has_role peerInitiatorValues (gi_membersByNS in_) ns ∧
    src_nsLabels src !! NamespaceMetadataNameLabel = Some ns ∧
    stamp_in peerInitiatorValues key_of (src_pod src).
Proof.
  rewrite existsb_exists. setoid_rewrite <-list_elem_of_In. unfold peers_of.
  setoid_rewrite list_elem_of_fmap. setoid_rewrite list_elem_of_filter.
  setoid_rewrite hasInitiator_spec. split.
  - intros (peer & (ns & -> & Hr & _) & Hp). exists ns. unfold peer_allows, peer_from in Hp. simpl in Hp.
    apply andb_true_iff in Hp as [Hns Hp]. rewrite selector_matches_labels in Hns.
    rewrite selector_matches_in in Hp by done. split_and!; [done| |done].
    eapply lookup_weaken; [|exact Hns]. apply lookup_singleton_eq.
  - intros (ns & Hr & Hns & Hp). eexists. split; [exists ns; split_and!; [done..|by eapply has_role_member]|].
    unfold peer_allows, peer_from. simpl. apply andb_true_iff.
    rewrite selector_matches_labels, selector_matches_in by done.
    split; [by apply map_singleton_subseteq_l|done].
Qed.

Lemma membership_policy_allows ns src dst proto port :
  policy_allows (membership_policy (gi_vnet in_) (peers_of in_) ns) src dst proto port = true ↔
  ns = obj_ns dst ∧ stamp_in selfValuesReceiver key_of dst ∧
  ∃ ns', has_role peerInitiatorValues (gi_membersByNS in_) ns' ∧
    src_nsLabels src !! NamespaceMetadataNameLabel = Some ns' ∧
    stamp_in peerInitiatorValues key_of (src_pod src).
Proof.
  unfold policy_allows. rewrite andb_true_iff, membership_policy_isolates.
  rewrite <-(peers_allow (obj_ns (membership_policy (gi_vnet in_) (peers_of in_) ns))).
  assert (∀ P Q R S : Prop, (R ↔ S) → ((P ∧ Q) ∧ R ↔ P ∧ Q ∧ S)) as Hand by tauto. apply Hand.
  unfold membership_policy at 2. simpl. destruct (peers_of in_) as [|peer peers] eqn:E; simpl; [done|].
  unfold rule_allows. simpl. by rewrite orb_false_r, andb_true_r.
Qed.

Lemma Generate_allows src dst proto port :
  existsb (λ p, policy_allows p src dst proto port) (Generate in_) = true ↔
  has_role selfValuesReceiver (gi_membersByNS in_) (obj_ns dst) ∧
  stamp_in selfValuesReceiver key_of dst ∧
  ∃ ns, has_role peerInitiatorValues (gi_membersByNS in_) ns ∧
    src_nsLabels src !! NamespaceMetadataNameLabel = Some ns ∧
    stamp_in peerInitiatorValues key_of (src_pod src).
Proof.
  rewrite existsb_exists. setoid_rewrite <-list_elem_of_In. setoid_rewrite elem_of_Generate. split.
  - intros (p & (ns & Hr & ->) & (-> & ? & ?)%membership_policy_allows). done.
  - intros (Hr & Hd & Hs). eexists. split; [by exists (obj_ns dst)|]. by apply membership_policy_allows.
Qed.
End connects.

(** ** Properties *)

(** [C4] What the membership policies of a vnet let through. A connection is allowed
    by one of them exactly when the receiver's stamp for this vnet accepts traffic
    and its namespace has a receiving member, and the sender's stamp initiates
    traffic and its namespace has an initiating member: on any protocol and port,
    and for no one else. *)
Theorem Generate_connects `{K8sLaws} in_ src dst proto port
    (Hname : src_nsLabels src !! NamespaceMetadataNameLabel = Some (obj_ns (src_pod src))) :
  existsb (λ p, policy_allows p src dst proto port) (Generate in_) = true ↔
  has_role selfValuesReceiver (gi_membersByNS in_) (obj_ns dst) ∧
  stamp_in selfValuesReceiver (key_of in_) dst ∧
  has_role peerInitiatorValues (gi_membersByNS in_) (obj_ns (src_pod src)) ∧
  stamp_in peerInitiatorValues (key_of in_) (src_pod src).
Proof. rewrite Generate_allows, Hname. naive_solver. Qed.

(** The shape of the output. One policy per namespace with a receiving member,
    no two with the same key, all under the name and the network label of the vnet,
    ingress only; an owner reference, to the vnet, exactly on the policy of the home
    namespace; and the result does not depend on the order of the maps. *)
Theorem Generate_shape in_ :
  NoDup (map ObjectKeyFromObject (Generate in_)) ∧
  (∀ ns, has_role selfValuesReceiver (gi_membersByNS in_) ns ↔ ns ∈ map obj_ns (Generate in_)) ∧
  (∀ p, p ∈ Generate in_ →
    let vnet := gi_vnet in_ in
    obj_name p = PolicyName (obj_name vnet) (obj_ns vnet) ∧
    obj_labels p !! LabelNetwork = Some (dotted (obj_ns vnet) (obj_name vnet)) ∧
    obj_labels p !! LabelManagedBy = Some LabelManagedByValue ∧
    nps_policyTypes (np_spec p) = [PolicyTypeIngress] ∧
    m_ownerReferences (np_meta p) =
      if obj_ns p =?? obj_ns vnet then
        [mkOwnerRef VnetGroupVersion "VirtualNetwork" (obj_name vnet) (obj_uid vnet) (Some true) (Some true)]
      else []) ∧
  StronglySorted (λ p q, String.le (obj_ns p) (obj_ns q)) (Generate in_).
Proof.
  assert (∀ vnet peers ns, obj_ns (membership_policy vnet peers ns) = ns) as Hns.
  { intros. unfold membership_policy. cbv zeta. by destruct (ns =?? _). }
  split_and!.
  - apply Generate_keys.
  - intros ns. rewrite list_elem_of_fmap. setoid_rewrite elem_of_Generate. split.
    + intros Hr. eexists. split; [|by exists ns]. by rewrite Hns.
    + intros (p & -> & ns' & Hr & ->). by rewrite Hns.
  - intros p (ns & _ & ->)%elem_of_Generate. cbv zeta. rewrite Hns. unfold membership_policy. cbv zeta.
    split_and!; try done; by destruct (ns =?? _).
  - unfold Generate. case_bool_decide; [constructor|].
    match goal with |- context [membership_policy _ ?ps] => generalize ps end. intros peers.
    assert (StronglySorted String.le (filter (λ ns, hasReceiver (members_in (gi_membersByNS in_) ns) = true)
      (memberNamespaces (gi_membersByNS in_)))) as Hs
      by (apply StronglySorted_filter, stable_sort_sorted; apply _).
    induction Hs as [|x l Hs IH Hx]; simpl; constructor; [done|].
    apply Forall_forall. intros p (ns & -> & Hin)%list_elem_of_fmap. rewrite !Hns.
    rewrite Forall_forall in Hx. by apply Hx.
Qed.

(** A vnet with a receiver in its home and a client elsewhere. *)
Definition gen_vnet : VirtualNetwork :=
  mkVnet (mkMeta "shop" "payments" "uid-1" 1 ∅ ∅ false []) (mkVnetSpec "" None) empty_vnet_status.
Definition gen_input : GenerateInput :=
  mkGenInput gen_vnet {["shop" := {[DirectionIngress := ["db-0"]]}; "web" := {[DirectionEgress := ["front-0"]]}]}.
Definition stamped_pod (ns name dir : string) : Pod :=
  mkPod (new_meta ns name {["kube-vnet.system/net.shop.payments" := dir]}) (mkPodSpec [] [] false).
Definition gen_source : PodSource :=
  mkPodSource (stamped_pod "web" "front-0" "egress") {[NamespaceMetadataNameLabel := "web"]}.

Import ApiServer.Model.

Lemma Generate_connects_witness :
  existsb (λ p, policy_allows p gen_source (stamped_pod "shop" "db-0" "ingress") "TCP" 5432)
    (Generate gen_input) = true ∧
  has_role peerInitiatorValues (gi_membersByNS gen_input) "web" ∧
  stamp_in peerInitiatorValues (key_of gen_input) (src_pod gen_source).
Proof.
  assert (existsb (λ p, policy_allows p gen_source (stamped_pod "shop" "db-0" "ingress") "TCP" 5432)
    (Generate gen_input) = true) as Hc by (vm_compute; reflexivity).
  split; [exact Hc|].
  apply (Generate_connects gen_input gen_source (stamped_pod "shop" "db-0" "ingress") "TCP" 5432) in Hc;
    [|vm_compute; reflexivity].
  exact (proj2 (proj2 Hc)).
Defined.
