(* ===== verification/Members.v ===== *)
(** * Who is a member (internal/controller/virtualnetwork_controller.go:
    discoverMembers; virtualnetworkbinding_controller.go: isStampedMember)

    A vnet's members are the pods resolution stamped for it, in namespaces that are
    managed and that the vnet admits now; a stamp alone is not trusted. *)

From Stdlib Require Import Ascii.
From S2P Require Import Prelude GoStrings Types Effects Direction Names ApiServer Permits Apply.
From S2P Require Import Stamps Generator.

Definition ReasonNamespaceNotAllowed : string := "NamespaceNotAllowed".
Definition ReasonNamespaceExcluded : string := "NamespaceExcluded".
Definition ReasonInvalidDirection : string := "InvalidDirection".

Definition isStampedMember (pod : Pod) (stampKey : string) : bool :=
  if get_or "" (obj_annotations pod) AnnotationResolvedGeneration =?? "" then false
  else match ParseBareDirection (get_or "" (obj_labels pod) stampKey) with
       | Some dir => negb (dir =?? DirectionNone)
       | None => false
       end.

(** What the loop over the pods carries: its results and the memo maps. *)
Record Discovery := mkDiscovery {
  d_members : Members;
  d_invalid : list InvalidJoiner;
  d_nsAdmitted : gmap string bool;
  d_nsReason : gmap string string }.

Section discover.
Context `{K8sLib} (NSFilter : NamespaceFilter) (rd : Reader) (vnet : VirtualNetwork).

Definition sysKey : string := SystemLabelKey (obj_ns vnet) (obj_name vnet).
Definition userBareKey : string := userJoinPrefix +:+ obj_name vnet.
Definition userPrefixedKey : string := userJoinPrefix +:+ dotted (obj_ns vnet) (obj_name vnet).
Definition clusterVnet : bool := obj_name vnet =?? SystemVnetCluster.

Definition admits (d : Discovery) (ns : string) : result (bool * Discovery) :=
  match d_nsAdmitted d !! ns with
  | Some ok => Ok (ok, d)
  | None =>
      ok ← PermitsForVnet rd (Some vnet) ns;
      Ok (ok, mkDiscovery (d_members d) (d_invalid d) (<[ns := ok]> (d_nsAdmitted d)) (d_nsReason d))
  end.

Definition set_reason (ns reason : string) (d : Discovery) : Discovery :=
  mkDiscovery (d_members d) (d_invalid d) (d_nsAdmitted d) (<[ns := reason]> (d_nsReason d)).

Definition ineligible (d : Discovery) (ns : string) : result (string * Discovery) :=
  match d_nsReason d !! ns with
  | Some reason => Ok (reason, d)
  | None =>
      managed ← Manages NSFilter rd ns;
      if negb managed then Ok (ReasonNamespaceExcluded, set_reason ns ReasonNamespaceExcluded d)
      else
        '(ok, d) ← admits d ns;
        let reason := if negb ok then ReasonNamespaceNotAllowed else "" in
        Ok (reason, set_reason ns reason d)
  end.

(** The values of the join labels of the pod that name this vnet. *)
Definition userVals (p : Pod) : list string :=
  (if bool_decide (obj_ns p = obj_ns vnet) || clusterVnet
   then option_list (obj_labels p !! userBareKey) else []) ++
  (if negb clusterVnet then option_list (obj_labels p !! userPrefixedKey) else []).

Definition add_invalid (j : InvalidJoiner) (d : Discovery) : Discovery :=
  mkDiscovery (d_members d) (d_invalid d ++ [j]) (d_nsAdmitted d) (d_nsReason d).

Definition add_member (ns dir name : string) (d : Discovery) : Discovery :=
  let byDir := members_in (d_members d) ns in
  mkDiscovery (<[ns := <[dir := pods_of byDir dir ++ [name]]> byDir]> (d_members d))
    (d_invalid d) (d_nsAdmitted d) (d_nsReason d).

(** The diagnostic half of an iteration. *)
Definition diagnose (d : Discovery) (p : Pod) : result Discovery :=
  '(vals, d) ← (if 0 <? length (userVals p)
                then '(ok, d) ← admits d (obj_ns p); Ok (if ok : bool then userVals p else [], d)
                else Ok ([], d))%nat;
  if (0 <? length (vals : list string))%nat then
    if forallb (λ v, if ParseBareDirection v is Some _ then true else false) vals then
      '(reason, d) ← ineligible d (obj_ns p);
      Ok (if negb (reason =?? "") then add_invalid (mkInvalid (obj_ns p) (obj_name p) reason) d else d)
    else Ok (add_invalid (mkInvalid (obj_ns p) (obj_name p) ReasonInvalidDirection) d)
  else Ok d.

(** One iteration of the loop over the pods. *)
Definition discover_pod (d : Discovery) (p : Pod) : result Discovery :=
  d ← diagnose d p;
  if negb (isStampedMember p sysKey) then Ok d
  else
    '(reason, d) ← ineligible d (obj_ns p);
    Ok (if negb (reason =?? "") then d
        else add_member (obj_ns p) (get_or "" (obj_labels p) sysKey) (obj_name p) d).

Fixpoint discover_pods (d : Discovery) (pods : list Pod) : result Discovery :=
  match pods with
  | [] => Ok d
  | p :: pods => d ← discover_pod d p; discover_pods d pods
  end.

Definition discoverMembers : result (Members * list InvalidJoiner) :=
  pods ← list_pods rd ListAll;
  d ← discover_pods (mkDiscovery ∅ [] ∅ ∅) pods;
  Ok (d_members d, d_invalid d).
End discover.

(** ** Specification *)

#[local] Arguments PermitsForVnet : simpl never.
#[local] Arguments Manages : simpl never.

Section spec.
Context `{K8sLib} (NSFilter : NamespaceFilter) (rd : Reader) (vnet : VirtualNetwork).

(** The namespace is managed and the vnet admits it. *)
Definition eligible (ns : string) : Prop :=
  Manages NSFilter rd ns = Ok true ∧ PermitsForVnet rd (Some vnet) ns = Ok true.

(** A member with the given direction. *)
Definition is_member (dir : string) (p : Pod) : Prop :=
  isStampedMember p (sysKey vnet) = true ∧ obj_labels p !! sysKey vnet = Some dir ∧ eligible (obj_ns p).

(** The reason a namespace's pods cannot be members, empty if they can. *)
Definition reason_of (ns : string) : result string :=
  managed ← Manages NSFilter rd ns;
  if negb managed then Ok ReasonNamespaceExcluded
  else ok ← PermitsForVnet rd (Some vnet) ns; Ok (if negb ok then ReasonNamespaceNotAllowed else "").

(** The pod's join labels for this vnet ask for something it will not get. *)
Definition invalid_joiner (j : InvalidJoiner) (p : Pod) : Prop :=
  ij_namespace j = obj_ns p ∧ ij_name j = obj_name p ∧ userVals vnet p ≠ [] ∧
  PermitsForVnet rd (Some vnet) (obj_ns p) = Ok true ∧
  ((∃ v, v ∈ userVals vnet p ∧ ParseBareDirection v = None ∧ ij_reason j = ReasonInvalidDirection) ∨
   (∀ v, v ∈ userVals vnet p → is_Some (ParseBareDirection v)) ∧
     Manages NSFilter rd (obj_ns p) = Ok false ∧ ij_reason j = ReasonNamespaceExcluded).

(** ** Facts *)

(** The memo maps hold answers of the reads. *)
Definition memo_ok (d : Discovery) : Prop :=
  (∀ ns ok, d_nsAdmitted d !! ns = Some ok → PermitsForVnet rd (Some vnet) ns = Ok ok) ∧
  (∀ ns reason, d_nsReason d !! ns = Some reason → reason_of ns = Ok reason).

Definition same_results (d d' : Discovery) : Prop :=
  d_members d' = d_members d ∧ d_invalid d' = d_invalid d.

Lemma admits_spec d ns : memo_ok d →
  match admits rd vnet d ns with
  | Ok (ok, d') => PermitsForVnet rd (Some vnet) ns = Ok ok ∧ memo_ok d' ∧ same_results d d'
  | Err e => PermitsForVnet rd (Some vnet) ns = Err e
  end.
Proof.
  intros [Ha Hr]. unfold admits. destruct (d_nsAdmitted d !! ns) as [ok|] eqn:E.
  { split; [by apply Ha|]. by repeat split. }
  destruct (PermitsForVnet rd (Some vnet) ns) as [ok|e] eqn:Ep; simpl; [|done].
  split; [done|]. split; [split; simpl|by repeat split]; [|done].
  intros ns' ok'. destruct (decide (ns = ns')) as [<-|].
  - rewrite lookup_insert_eq. by intros [= <-].
  - rewrite lookup_insert_ne by done. apply Ha.
Qed.

Lemma set_reason_ok d ns reason : memo_ok d → reason_of ns = Ok reason → memo_ok (set_reason ns reason d).
Proof.
  intros [Ha Hr] Hn. split; [done|]. simpl. intros ns' reason'.
  destruct (decide (ns = ns')) as [<-|].
  - rewrite lookup_insert_eq. by intros [= <-].
  - rewrite lookup_insert_ne by done. apply Hr.
Qed.

Lemma ineligible_spec d ns : memo_ok d →
  match ineligible NSFilter rd vnet d ns with
  | Ok (reason, d') => reason_of ns = Ok reason ∧ memo_ok d' ∧ same_results d d'
  | Err e => reason_of ns = Err e
  end.
Proof.
  intros Hd. unfold ineligible. destruct (d_nsReason d !! ns) as [reason|] eqn:E.
  { split; [by apply (proj2 Hd)|]. split; [done|by split]. }
  pose proof (admits_spec d ns Hd) as Had.
  destruct (Manages NSFilter rd ns) as [[]|e] eqn:Em; simpl.
  - destruct (admits rd vnet d ns) as [[ok d']|e]; simpl.
    + destruct Had as (Hp & Hd' & Hs).
      assert (reason_of ns = Ok (if negb ok then ReasonNamespaceNotAllowed else "")) as Hreason
        by (unfold reason_of; by rewrite Em, Hp).
      split; [done|]. split; [by apply set_reason_ok|done].
    + unfold reason_of. by rewrite Em, Had.
  - assert (reason_of ns = Ok ReasonNamespaceExcluded) by (unfold reason_of; by rewrite Em).
    split; [done|]. split; [by apply set_reason_ok|by split].
  - unfold reason_of. by rewrite Em.
Qed.

Lemma reason_of_eligible ns reason : reason_of ns = Ok reason → reason = "" ↔ eligible ns.
Proof.
  unfold reason_of, eligible. intros ([] & -> & Hr)%result_bind_Ok; simpl in Hr.
  - apply result_bind_Ok in Hr as ([] & -> & [= <-]); [done|]. split; [done|]. by intros [_ ?].
  - injection Hr as <-. split; [done|]. by intros [? _].
Qed.
End spec.

Section discover_facts.
Context `{K8sLib} (NSFilter : NamespaceFilter) (rd : Reader) (vnet : VirtualNetwork).
Implicit Types (d : Discovery) (p : Pod) (pods : list Pod).

Definition bad_label (p : Pod) : bool :=
  negb (forallb (λ v, if ParseBareDirection v is Some _ then true else false) (userVals vnet p)).

(** What the diagnostic half adds for a pod. *)
Definition diagnosis (p : Pod) : result (list InvalidJoiner) :=
  if (0 <? length (userVals vnet p))%nat then
    ok ← PermitsForVnet rd (Some vnet) (obj_ns p);
    if negb ok then Ok []
    else if bad_label p then Ok [mkInvalid (obj_ns p) (obj_name p) ReasonInvalidDirection]
    else reason ← reason_of NSFilter rd vnet (obj_ns p);
         Ok (if negb (reason =?? "") then [mkInvalid (obj_ns p) (obj_name p) reason] else [])
  else Ok [].

Lemma diagnose_spec d p : memo_ok NSFilter rd vnet d →
  match diagnose NSFilter rd vnet d p with
  | Ok d' => ∃ js, diagnosis p = Ok js ∧ memo_ok NSFilter rd vnet d' ∧
      d_members d' = d_members d ∧ d_invalid d' = d_invalid d ++ js
  | Err e => diagnosis p = Err e
  end.
Proof.
  intros Hd. unfold diagnose, diagnosis.
  destruct (0 <? length (userVals vnet p))%nat eqn:El; simpl;
    [|exists []; by rewrite app_nil_r].
  pose proof (admits_spec NSFilter rd vnet d (obj_ns p) Hd) as Ha.
  destruct (admits rd vnet d (obj_ns p)) as [[ok d1]|e]; simpl; [|by rewrite Ha].
  destruct Ha as (-> & Hd1 & Hm1 & Hi1). simpl. destruct ok; simpl;
    [|exists []; by rewrite app_nil_r, Hi1].
  rewrite El. unfold bad_label. destruct (forallb _ _); simpl.
  - pose proof (ineligible_spec NSFilter rd vnet d1 (obj_ns p) Hd1) as Hr.
    destruct (ineligible NSFilter rd vnet d1 (obj_ns p)) as [[reason d2]|e]; simpl; [|by rewrite Hr].
    destruct Hr as (-> & Hd2 & Hm2 & Hi2). simpl. eexists. split; [done|].
    destruct (negb _); simpl.
    + split; [destruct Hd2; by split|]. by rewrite Hm2, Hm1, Hi2, Hi1.
    + by rewrite Hm2, Hm1, Hi2, Hi1, app_nil_r.
  - eexists. split; [done|]. split; [destruct Hd1; by split|]. simpl. by rewrite Hm1, Hi1.
Qed.

(** Whether a pod is counted, and what it adds. *)
Definition counted (p : Pod) : result bool :=
  if negb (isStampedMember p (sysKey vnet)) then Ok false
  else reason ← reason_of NSFilter rd vnet (obj_ns p); Ok (reason =?? "").

Definition count (p : Pod) (m : Members) : Members :=
  let byDir := members_in m (obj_ns p) in
  let dir := get_or "" (obj_labels p) (sysKey vnet) in
  <[obj_ns p := <[dir := pods_of byDir dir ++ [obj_name p]]> byDir]> m.

Lemma discover_pod_spec d p : memo_ok NSFilter rd vnet d →
  match discover_pod NSFilter rd vnet d p with
  | Ok d' => ∃ js (b : bool), diagnosis p = Ok js ∧ counted p = Ok b ∧ memo_ok NSFilter rd vnet d' ∧
      d_members d' = (if b then count p (d_members d) else d_members d) ∧ d_invalid d' = d_invalid d ++ js
  | Err e => diagnosis p = Err e ∨ counted p = Err e
  end.
Proof.
  intros Hd. unfold discover_pod, counted. pose proof (diagnose_spec d p Hd) as Hg.
  destruct (diagnose NSFilter rd vnet d p) as [d1|e]; simpl; [|by left].
  destruct Hg as (js & Hjs & Hd1 & Hm1 & Hi1). rewrite Hjs.
  destruct (negb (isStampedMember p (sysKey vnet))); [by exists js, false|].
  pose proof (ineligible_spec NSFilter rd vnet d1 (obj_ns p) Hd1) as Hr.
  destruct (ineligible NSFilter rd vnet d1 (obj_ns p)) as [[reason d2]|e]; simpl; [|right; by rewrite Hr].
  destruct Hr as (-> & Hd2 & Hm2 & Hi2). simpl. exists js, (reason =?? "").
  split; [done|]. split; [done|]. destruct (reason =?? ""); simpl.
  - split; [destruct Hd2; by split|]. by rewrite Hm2, Hm1, Hi2, Hi1.
  - by rewrite Hm2, Hm1, Hi2, Hi1.
Qed.

(** The names counted in a namespace and direction. *)
Definition counted_in (ns dir : string) (p : Pod) : bool :=
  (obj_ns p =?? ns) && (get_or "" (obj_labels p) (sysKey vnet) =?? dir) &&
  (if counted p is Ok true then true else false).

Lemma pods_of_count p m ns dir :
  pods_of (members_in (count p m) ns) dir =
    pods_of (members_in m ns) dir ++
    if (obj_ns p =?? ns) && (get_or "" (obj_labels p) (sysKey vnet) =?? dir) then [obj_name p] else [].
Proof.
  unfold count, members_in. destruct (decide (obj_ns p = ns)) as [<-|Hns].
  - rewrite lookup_insert_eq, (bool_decide_eq_true_2 (obj_ns p = obj_ns p)) by done. simpl.
    unfold pods_of at 1. destruct (decide (get_or "" (obj_labels p) (sysKey vnet) = dir)) as [<-|Hd].
    + by rewrite lookup_insert_eq, bool_decide_eq_true_2.
    + by rewrite lookup_insert_ne, bool_decide_eq_false_2, app_nil_r.
  - by rewrite lookup_insert_ne, bool_decide_eq_false_2, app_nil_r.
Qed.

Lemma discover_pods_spec pods d d' : memo_ok NSFilter rd vnet d →
  discover_pods NSFilter rd vnet d pods = Ok d' →
  (∀ ns dir, pods_of (members_in (d_members d') ns) dir =
     pods_of (members_in (d_members d) ns) dir ++ map obj_name (List.filter (counted_in ns dir) pods)) ∧
  (∀ j, j ∈ d_invalid d' ↔ j ∈ d_invalid d ∨ ∃ p js, p ∈ pods ∧ diagnosis p = Ok js ∧ j ∈ js) ∧
  (∀ p, p ∈ pods → ∃ js b, diagnosis p = Ok js ∧ counted p = Ok b).
Proof.
  revert d. induction pods as [|p pods IH]; intros d Hd; simpl.
  { intros [= <-]. split_and!.
    - intros. by rewrite app_nil_r.
    - intros j. setoid_rewrite elem_of_nil. naive_solver.
    - intros p Hp. by apply not_elem_of_nil in Hp. }
  intros (d1 & H1 & H2)%result_bind_Ok. pose proof (discover_pod_spec d p Hd) as Hp. rewrite H1 in Hp.
  destruct Hp as (js & b & Hjs & Hb & Hd1 & Hm1 & Hi1).
  destruct (IH d1 Hd1 H2) as (IHm & IHi & IHr). split_and!.
  - intros ns dir. rewrite IHm, Hm1. unfold counted_in at 2. rewrite Hb.
    destruct b; [rewrite pods_of_count, andb_true_r|rewrite andb_false_r; done].
    rewrite <-app_assoc. by destruct (_ && _).
  - intros j. rewrite IHi, Hi1, elem_of_app. setoid_rewrite elem_of_cons. split.
    + intros [[?|?]|(q & js' & ? & ? & ?)]; [by left|right; exists p, js; auto|right; exists q, js'; auto].
    + intros [?|(q & js' & [->|?] & Hq & ?)]; [by left; left| |right; eauto].
      left. right. rewrite Hjs in Hq. by simplify_eq.
  - intros q [->|Hq]%elem_of_cons; [eauto|auto].
Qed.

(** A counted pod is a member. *)
Lemma counted_member p dir : (∃ b, counted p = Ok b) →
  counted p = Ok true ∧ get_or "" (obj_labels p) (sysKey vnet) = dir ↔ is_member NSFilter rd vnet dir p.
Proof.
  intros [b Hb]. unfold counted, is_member in *. destruct (isStampedMember p (sysKey vnet)) eqn:Es; simpl in *.
  - apply result_bind_Ok in Hb as (reason & Hr & _). rewrite Hr. simpl.
    rewrite <-(reason_of_eligible _ _ _ _ _ Hr).
    assert (get_or "" (obj_labels p) (sysKey vnet) = dir ↔ obj_labels p !! sysKey vnet = Some dir) as Hdir.
    { unfold isStampedMember in Es. unfold get_or in *. destruct (_ =?? ""); [done|].
      destruct (obj_labels p !! sysKey vnet) as [v|]; simpl in *; [naive_solver|done]. }
    rewrite Hdir. split; [|naive_solver]. intros [[= ?] ?]. kv_bools. done.
  - split; [by intros [? _]|by intros [? _]].
Qed.
End discover_facts.

Section joiner_facts.
Context `{K8sLib} (NSFilter : NamespaceFilter) (rd : Reader) (vnet : VirtualNetwork).

Lemma bad_label_spec p : bad_label vnet p = true ↔
  ∃ v, v ∈ userVals vnet p ∧ ParseBareDirection v = None.
Proof.
  unfold bad_label. rewrite negb_true_iff. split.
  - intros Hf. destruct (List.find (λ v, if ParseBareDirection v is Some _ then false else true) (userVals vnet p))
      as [v|] eqn:E.
    + apply find_some in E as [Hv%list_elem_of_In Hp]. exists v. split; [done|].
      by destruct (ParseBareDirection v).
    + exfalso. apply not_true_iff_false in Hf. apply Hf, forallb_forall. intros v Hv.
      pose proof (find_none _ _ E v Hv) as Hn. simpl in Hn. by destruct (ParseBareDirection v).
  - intros (v & Hv%list_elem_of_In & Hp). apply not_true_iff_false. intros Ha.
    rewrite forallb_forall in Ha. specialize (Ha v Hv). by rewrite Hp in Ha.
Qed.

Lemma elem_of_singleton_joiner j ns name r :
  j ∈ [mkInvalid ns name r] ↔ ij_namespace j = ns ∧ ij_name j = name ∧ ij_reason j = r.
Proof. rewrite list_elem_of_singleton. destruct j; simpl. split; [by intros [= -> -> ->]|naive_solver]. Qed.

(** What the diagnosis of a pod says is exactly what is wrong with its join labels. *)
Lemma diagnosis_spec p js j : diagnosis NSFilter rd vnet p = Ok js →
  j ∈ js ↔ invalid_joiner NSFilter rd vnet j p.
Proof.
  unfold diagnosis, invalid_joiner. destruct (userVals vnet p) as [|v0 vs] eqn:Eu; cbn [length Nat.ltb Nat.leb].
  { intros [= <-]. rewrite elem_of_nil. naive_solver. }
  rewrite <-Eu. assert (userVals vnet p ≠ []) as Hne by by rewrite Eu.
  intros (ok & Hok & Hj)%result_bind_Ok. rewrite Hok.
  destruct ok; cbn [negb] in Hj; [|injection Hj as <-; rewrite elem_of_nil; naive_solver].
  destruct (bad_label vnet p) eqn:Eb.
  - injection Hj as <-. apply bad_label_spec in Eb as (v & Hv & Hn).
    rewrite elem_of_singleton_joiner. split.
    + intros (-> & -> & ->). split_and!; [done..|]. left. by exists v.
    + intros (? & ? & _ & _ & [(? & ? & ? & ?)|[Hall _]]); [done|].
      destruct (Hall v Hv) as [d Hd]. congruence.
  - apply result_bind_Ok in Hj as (reason & Hr & [= <-]).
    assert (∀ v, v ∈ userVals vnet p → is_Some (ParseBareDirection v)) as Hall.
    { intros v Hv. destruct (ParseBareDirection v) eqn:Ep; [done|].
      assert (bad_label vnet p = true) by (apply bad_label_spec; by exists v). congruence. }
    assert (¬ ∃ v, v ∈ userVals vnet p ∧ ParseBareDirection v = None ∧ ij_reason j = ReasonInvalidDirection)
      as Hnb by (intros (v & Hv & Hn & _); destruct (Hall v Hv); congruence).
    unfold reason_of in Hr. apply result_bind_Ok in Hr as (managed & Hm & Hr). rewrite Hm.
    destruct managed; cbn [negb] in Hr.
    + rewrite Hok in Hr. cbn in Hr. injection Hr as <-. rewrite elem_of_nil. naive_solver.
    + injection Hr as <-. change (negb (ReasonNamespaceExcluded =?? "")) with true. cbv iota.
      rewrite elem_of_singleton_joiner. naive_solver.
Qed.
End joiner_facts.

(** A role is held exactly where a member with one of its directions is. *)
Lemma has_role_pods values m ns :
  has_role values m ns ↔ ∃ d, d ∈ values ∧ pods_of (members_in m ns) d ≠ [].
Proof.
  unfold has_role, members_in, pods_of. split.
  - intros (d & byDir & pods & Hd & -> & Hp & Hne). exists d. simpl. by rewrite Hp.
  - intros (d & Hd & Hne). destruct (m !! ns) as [byDir|]; simpl in *; [|by rewrite lookup_empty in Hne].
    destruct (byDir !! d) as [pods|] eqn:E; [|done]. by exists d, byDir, pods.
Qed.

Section exact.
Context `{K8sLib} (NSFilter : NamespaceFilter) (rd : Reader) (vnet : VirtualNetwork).

Lemma memo_empty : memo_ok NSFilter rd vnet (mkDiscovery ∅ [] ∅ ∅).
Proof. split; intros ns x; simpl; by rewrite lookup_empty. Qed.

Lemma discoverMembers_spec members invalid : discoverMembers NSFilter rd vnet = Ok (members, invalid) →
  ∃ pods, list_pods rd ListAll = Ok pods ∧
    (∀ ns dir name, name ∈ pods_of (members_in members ns) dir ↔
      ∃ p, p ∈ pods ∧ obj_ns p = ns ∧ obj_name p = name ∧ is_member NSFilter rd vnet dir p) ∧
    (∀ j, j ∈ invalid ↔ ∃ p, p ∈ pods ∧ invalid_joiner NSFilter rd vnet j p).
Proof.
  intros (pods & Hl & (d & Hd & [= <- <-])%result_bind_Ok)%result_bind_Ok. exists pods. split; [done|].
  destruct (discover_pods_spec _ _ _ _ _ _ memo_empty Hd) as (Hm & Hi & Hr). split.
  - intros ns dir name. rewrite Hm. change (pods_of (members_in (d_members (mkDiscovery ∅ [] ∅ ∅)) ns) dir) with (@nil string).
    simpl. rewrite list_elem_of_fmap. setoid_rewrite list_elem_of_In.
    setoid_rewrite filter_In. setoid_rewrite <-list_elem_of_In. split.
    + intros (p & -> & Hp & Hc). exists p. unfold counted_in in Hc. kv_bools.
      split_and!; [done..|]. apply counted_member; [by destruct (Hr p Hp) as (js & b & _ & ?); eauto|].
      split; [|done]. by destruct (counted NSFilter rd vnet p) as [[]|].
    + intros (p & Hp & <- & <- & Hmem). exists p. split_and!; [done..|].
      apply counted_member in Hmem as [Hc Hdir]; [|by destruct (Hr p Hp) as (js & b & _ & ?); eauto].
      unfold counted_in. rewrite Hc, Hdir. by rewrite !bool_decide_eq_true_2.
  - intros j. rewrite Hi. simpl. split.
    + intros [Hj|(p & js & Hp & Hjs & Hj)]; [by apply not_elem_of_nil in Hj|].
      exists p. split; [done|]. by eapply diagnosis_spec.
    + intros (p & Hp & Hj). right. destruct (Hr p Hp) as (js & b & Hjs & _).
      exists p, js. split_and!; [done..|]. by eapply diagnosis_spec.
Qed.
End exact.

(** ** Properties *)

(** [C10] Membership is exact. The members found are exactly the pods whose stamp for
    this vnet resolution has set, with a direction other than none, in namespaces
    that are managed and that the vnet admits now; a stale or forged stamp elsewhere
    counts for nothing, and the memoised reads change nothing. The invalid joiners
    are exactly the pods of admitted namespaces whose own join label for this vnet
    has no valid direction, or whose namespace is not managed: no pod outside the
    namespaces the vnet admits can appear in its status. *)
Theorem discoverMembers_exact `{K8sLib} NSFilter rd vnet members invalid
    (Hd : discoverMembers NSFilter rd vnet = Ok (members, invalid)) :
  ∃ pods, list_pods rd ListAll = Ok pods ∧
    (∀ ns dir name, name ∈ pods_of (members_in members ns) dir ↔
      ∃ p, p ∈ pods ∧ obj_ns p = ns ∧ obj_name p = name ∧ is_member NSFilter rd vnet dir p) ∧
    (∀ j, j ∈ invalid ↔ ∃ p, p ∈ pods ∧ invalid_joiner NSFilter rd vnet j p).
Proof. by apply discoverMembers_spec. Qed.

Import Model.

(** Members of [shop/payments], one stale stamp in a namespace it does not admit, and
    a misspelt join label. *)
Definition member_pod (ns name dir : string) (extra : gmap string string) : Pod :=
  set_pod_annotations {[AnnotationResolvedGeneration := "1"]}
    (set_pod_labels (extra ∪ {["kube-vnet.system/net.shop.payments" := dir]})
      (mkPod (new_meta ns name ∅) (mkPodSpec [] [] false))).
Definition members_cluster : Cluster :=
  mkCluster
    (list_to_map (map (λ p, (ObjectKeyFromObject p, p))
      [member_pod "shop" "db-0" "ingress" ∅; member_pod "web" "front-0" "egress" ∅;
       member_pod "dev" "stale" "both" ∅;
       member_pod "web" "typo" "none" {["kube-vnet/net.shop.payments" := "bth"]}]))
    {["shop" := mkNamespace (new_meta "" "shop" ∅); "web" := mkNamespace (new_meta "" "web" ∅);
      "dev" := mkNamespace (new_meta "" "dev" ∅)]}
    {[mkKey "shop" "payments" := permits_vnet]} ∅ ∅ ∅ ∅ ∅ [] [] [] ∅.

Definition members_found : result (Members * list InvalidJoiner) :=
  discoverMembers (NewNamespaceFilter []) (cluster_reader members_cluster) permits_vnet.

Lemma discoverMembers_exact_witness :
  members_found = Ok ({["shop" := {["ingress" := ["db-0"]]}; "web" := {["egress" := ["front-0"]]}]},
    [mkInvalid "web" "typo" ReasonInvalidDirection]) ∧
  ∃ p, obj_ns p = "web" ∧ obj_name p = "front-0" ∧
    is_member (NewNamespaceFilter []) (cluster_reader members_cluster) permits_vnet "egress" p.
Proof.
  assert (members_found = Ok ({["shop" := {["ingress" := ["db-0"]]}; "web" := {["egress" := ["front-0"]]}]},
    [mkInvalid "web" "typo" ReasonInvalidDirection])) as Hf by (vm_compute; reflexivity).
  split; [exact Hf|].
  destruct (discoverMembers_exact _ _ _ _ _ Hf) as (pods & _ & Hm & _).
  destruct (proj1 (Hm "web" "egress" "front-0")) as (p & _ & H1 & H2 & H3); [by left|].
  exists p. exact (conj H1 (conj H2 H3)).
Defined.
