(* ===== verification/VnetController.v ===== *)
(** * The vnet controller (internal/controller/virtualnetwork_controller.go)

    Generates, applies and sweeps a vnet's membership policies in every member
    namespace and reports its state in status, Events and metrics. *)

From Stdlib Require Import Ascii.
From S2P Require Import Prelude GoStrings Types Effects Direction Names ApiServer Permits Apply.
From S2P Require Import Stamps Generator Members.

Definition ReasonPoliciesGenerated : string := "PoliciesGenerated".
Definition ReasonNoMembers : string := "NoMembers".
Definition ReasonInvalidJoiners : string := "InvalidJoiners".
Definition ReasonHomeNamespaceExcluded : string := "HomeNamespaceExcluded".
Definition ReasonApplyFailed : string := "ApplyFailed".
Definition ReasonInvalidName : string := "InvalidName".
Definition ReasonNoIssues : string := "NoIssues".
Definition EventReady : string := "Ready".
Definition EventNotReady : string := "NotReady".
Definition EventDegraded : string := "Degraded".
Definition EventRecovered : string := "Recovered".
Definition ApplyErrorMembershipPolicy : string := "membership_policy".
Definition ConditionTrue : string := "True".
Definition ConditionFalse : string := "False".
Definition ConditionUnknown : string := "Unknown".
Definition ResultSuccess : string := "success".
Definition ResultError : string := "error".
Definition nameRegex_string : string := "^[a-z0-9]([-a-z0-9]*[a-z0-9])?$".

(** ** Formatting helpers *)

Definition pluralize (n : nat) (singular plural : string) : string :=
  if n =?? 1 then singular else Sprintf plural [AInt (Z.of_nat n)].

Definition firstFew (items : list string) (sep more : string) : string :=
  let items := if (3 <? length items)%nat
               then take 3 items ++ [Sprintf more [AInt (Z.of_nat (length items - 3))]] else items in
  Join items sep.

Definition joinErrorMessages (errs : list error) : string :=
  firstFew (map error_string errs) "; " "and %d more".

(** ** Status *)

Definition set_status (f : VirtualNetworkStatus → VirtualNetworkStatus) (v : VirtualNetwork) : VirtualNetwork :=
  mkVnet (vnet_meta v) (vnet_spec v) (f (vnet_status v)).

Definition uniquePods (byDir : gmap string (list string)) : list string :=
  compact (stable_sort String.le (flat_map snd (map_to_list byDir))).

(** The members of the status, sorted by namespace. *)
Definition status_members (members : Members) : list NamespaceMembers :=
  stable_sort (by_key nm_namespace String.le)
    (map (λ nb, mkNSMembers nb.1 (uniquePods nb.2)) (map_to_list members)).

Section status.
Context `{K8sLib}.

Definition conditionStatus (v : VirtualNetwork) (t : string) : string :=
  match FindStatusCondition (vst_conditions (vnet_status v)) t with
  | Some c => cond_status c
  | None => ConditionUnknown
  end.

Definition set_condition (t status reason msg : string) (v : VirtualNetwork) : VirtualNetwork :=
  set_status (λ s, mkVnetStatus (SetStatusCondition (vst_conditions s) (mkCond t status reason msg))
    (vst_members s) (vst_generatedPolicies s) (vst_observedGeneration s)) v.

Definition setReady : string → string → string → VirtualNetwork → VirtualNetwork := set_condition "Ready".
Definition setDegraded : string → string → string → VirtualNetwork → VirtualNetwork :=
  set_condition "Degraded".

Definition conditionMessage (c : Condition) : string :=
  if negb (cond_message c =?? "") then cond_message c else cond_reason c.

(** The vnet with the status the update writes. *)
Definition with_status (members : Members) (policies : list PolicyRef) (v : VirtualNetwork) : VirtualNetwork :=
  set_status (λ s, mkVnetStatus (vst_conditions s) (status_members members) policies
    (m_generation (vnet_meta v))) v.

Context {W : Type} `{Client W}.

Definition updateStatus (v : VirtualNetwork) (members : Members) (policies : list PolicyRef)
    (stored : VirtualNetworkStatus) : EIO W unit :=
  let v' := with_status members policies v in
  if DeepEqual stored (vnet_status v') then mret tt else write (WUpdateVnetStatus v').

(** One of the two halves of [emitTransitionEvents]. *)
Definition emit_transition (rec : bool) (v : VirtualNetwork) (t prior : string)
    (on_true on_false : string * string) : IO W unit :=
  match FindStatusCondition (vst_conditions (vnet_status v)) t with
  | Some c =>
      if cond_status c =?? prior then mret tt
      else if cond_status c =?? ConditionTrue then
        eventf rec (ref_of v) on_true.1 on_true.2 "Reconcile" "%s" [AStr (conditionMessage c)]
      else if cond_status c =?? ConditionFalse then
        eventf rec (ref_of v) on_false.1 on_false.2 "Reconcile" "%s" [AStr (conditionMessage c)]
      else mret tt
  | None => mret tt
  end.

Definition emitTransitionEvents (rec : bool) (v : VirtualNetwork) (priorReady priorDegraded : string) :
    IO W unit :=
  _ ← emit_transition rec v "Ready" priorReady (EventTypeNormal, EventReady) (EventTypeWarning, EventNotReady);
  emit_transition rec v "Degraded" priorDegraded (EventTypeWarning, EventDegraded)
    (EventTypeNormal, EventRecovered).
End status.

(** ** Metrics (metrics.go) *)

Section metrics.
Context {W : Type}.

Definition setMembers (homeNS name : string) (count : nat) : IO W unit :=
  log_action (AMetric (MSetMembers (homeNS +:+ "/" +:+ name) count)).
Definition clearMembers (homeNS name : string) : IO W unit :=
  log_action (AMetric (MClearMembers (homeNS +:+ "/" +:+ name))).

(** The deferred [observeReconcile]. *)
Definition observed {A} (m : EIO W A) : EIO W A :=
  r ← try m;
  _ ← liftIO (log_action (AMetric (MReconciled (match r with Err _ => ResultError | Ok _ => ResultSuccess end))));
  lift r.
End metrics.

(** ** Reconcile *)

Definition membership_options (homeNS name : string) : ListOptions :=
  mkList None {[LabelManagedBy := LabelManagedByValue; LabelNetwork := dotted homeNS name]} None.

(** The closure that spares the namespaces with a failed apply. *)
Definition spare (spareNS : gset string) (p : NetworkPolicy) : bool := bool_decide (obj_ns p ∈ spareNS).

Definition note_membership_failed : string :=
  "NetworkPolicy %s for VirtualNetwork %s/%s could not be applied in this namespace: %v. Until this is fixed, member pods here receive no traffic from the vnet's other members.".
Definition note_recreated : string := "recreated previously-deleted policy %s/%s".
Definition note_membership_restored : string :=
  "this NetworkPolicy was deleted and has been recreated: kube-vnet manages it for VirtualNetwork %s/%s. To take pods out of the vnet, remove their join labels, bindings or baseline entries instead.".

(** What the loop over the generated policies carries. *)
Record ApplyState := mkApply {
  ap_refs : list PolicyRef;
  ap_errs : list error;
  ap_failedNS : gset string }.

Section reconcile.
Context `{K8sLib} {W : Type} `{Client W}.
Context (APIReader : bool) (rec : bool) (NSFilter : NamespaceFilter).

Definition namespaceTerminating (name : string) (rd : Reader) : result bool :=
  match get_namespace rd name with
  | Err e => if IsNotFound e then Ok false else Err e
  | Ok ns => Ok (m_deleting (ns_meta ns))
  end.

Definition deleteMembershipPolicies (homeNS name : string) (keep : gset ObjectKey) (spareNS : gset string) :
    EIO W unit :=
  sweepStalePolicies (membership_options homeNS name) keep (spare spareNS).

(** [reader]: the uncached reader when there is one. *)
Definition policy_reader : W → Reader := if APIReader then cl_apireader else cl_reader.

(** One iteration of the loop over the generated policies; [listed] are the
    policies of the last status. *)
Definition apply_one (vnet : VirtualNetwork) (listed : gset ObjectKey) (acc : ApplyState) (p : NetworkPolicy) :
    IO W ApplyState :=
  terminating ← attempt (read (namespaceTerminating (obj_ns p)));
  match terminating with
  | Ok true => mret acc
  | _ =>
      created ← attempt (match terminating with
                         | Ok _ => applyPolicy policy_reader p
                         | Err e => throw e
                         end);
      match created with
      | Err e =>
          _ ← applyFailed rec (ref_of p) ApplyErrorMembershipPolicy note_membership_failed
                [AStr (obj_name p); AStr (obj_ns vnet); AStr (obj_name vnet); AStr (error_string e)];
          mret (mkApply (ap_refs acc) (ap_errs acc ++ [ErrWrap ("namespace " +:+ obj_ns p +:+ ": ") e])
                  ({[obj_ns p]} ∪ ap_failedNS acc))
      | Ok created =>
          _ ← (if created && bool_decide (ObjectKeyFromObject p ∈ listed) then
                 _ ← policyRestored rec (ref_of vnet) note_recreated [AStr (obj_ns p); AStr (obj_name p)];
                 policyRestored rec (ref_of p) note_membership_restored
                   [AStr (obj_ns vnet); AStr (obj_name vnet)]
               else mret tt);
          mret (mkApply (ap_refs acc ++ [mkPolicyRef (obj_ns p) (obj_name p)]) (ap_errs acc) (ap_failedNS acc))
      end
  end.

(** The conditions a reconcile of a served vnet sets, and its summary Event. *)
Definition joiner_message (invalid : list InvalidJoiner) : string :=
  let parts := map (λ j, ij_namespace j +:+ "/" +:+ ij_name j +:+ ":" +:+ ij_reason j) invalid in
  pluralize (length invalid) "1 invalid joiner" "%d invalid joiners" +:+ ": " +:+
  firstFew parts ", " "(+%d more)".

Definition set_joiners (invalid : list InvalidJoiner) (v : VirtualNetwork) : VirtualNetwork :=
  if (0 <? length invalid)%nat
  then setDegraded ConditionTrue ReasonInvalidJoiners (joiner_message invalid) v
  else setDegraded ConditionFalse ReasonNoIssues "" v.

Definition failed_message (errs : list error) (policies : nat) : string :=
  pretty (Z.of_nat (length errs)) +:+ " of " +:+
  pluralize policies "1 NetworkPolicy" "%d NetworkPolicies" +:+ " failed to apply: " +:+
  joinErrorMessages errs.

Definition set_outcome (errs : list error) (policies namespaces : nat) (v : VirtualNetwork) : VirtualNetwork :=
  if (0 <? length errs)%nat then setReady ConditionFalse ReasonApplyFailed (failed_message errs policies) v
  else if policies =?? 0 then
    setReady ConditionTrue ReasonNoMembers "no pods are joining this VirtualNetwork" v
  else setReady ConditionTrue ReasonPoliciesGenerated
         (pluralize policies "1 NetworkPolicy" "%d NetworkPolicies" +:+ " in " +:+
          pluralize namespaces "1 namespace" "%d namespaces") v.

Definition policy_keys (policies : list NetworkPolicy) : gset ObjectKey :=
  list_to_set (map ObjectKeyFromObject policies).

Definition listed_keys (s : VirtualNetworkStatus) : gset ObjectKey :=
  list_to_set (map (λ r, mkKey (pr_namespace r) (pr_name r)) (vst_generatedPolicies s)).

Definition err_of {A} (r : result A) : option error := match r with Err e => Some e | Ok _ => None end.

(** After the sweep: status, Events, metrics and the joined errors. *)
Definition report_members (vnet : VirtualNetwork) (members : Members) (invalid : list InvalidJoiner)
    (policies : nat) (acc : ApplyState) (sweepErr : result unit) : EIO W Outcome :=
  let applyErrs := ap_errs acc in
  let vnet' := set_outcome applyErrs policies (size members) (set_joiners invalid vnet) in
  _ ← liftIO (if (0 <? length applyErrs)%nat
              then eventf rec (ref_of vnet) EventTypeWarning EventApplyFailed "Apply" "%s"
                     [AStr (failed_message applyErrs policies)]
              else mret tt);
  statusErr ← try (updateStatus vnet' members (ap_refs acc) (vnet_status vnet));
  match statusErr, applyErrs with
  | Err e, [] => throw e
  | _, _ =>
      _ ← liftIO (emitTransitionEvents rec vnet' (conditionStatus vnet "Ready")
                    (conditionStatus vnet "Degraded"));
      _ ← liftIO (setMembers (obj_ns vnet) (obj_name vnet)
                    (list_sum (map (λ nb, length (uniquePods nb.2)) (map_to_list members))));
      if (0 <? length applyErrs)%nat
      then throw (ErrJoin (applyErrs ++ option_list (err_of sweepErr) ++ option_list (err_of statusErr)))
      else mret (RequeueAfter 600)
  end.

(** From the members on: apply, sweep, report. *)
Definition reconcile_members (vnet : VirtualNetwork) (members : Members) (invalid : list InvalidJoiner) :
    EIO W Outcome :=
  let policies := Generate (mkGenInput vnet members) in
  acc ← liftIO (for_fold policies (mkApply [] [] ∅) (apply_one vnet (listed_keys (vnet_status vnet))));
  sweepErr ← try (deleteMembershipPolicies (obj_ns vnet) (obj_name vnet) (policy_keys policies)
                    (ap_failedNS acc));
  match sweepErr, ap_errs acc with
  | Err e, [] => throw e
  | _, _ => report_members vnet members invalid (length policies) acc sweepErr
  end.

(** The branches of a vnet that is not served set both conditions, ignore a
    failed status write, and report. *)
Definition report_not_served (reason ready_msg degraded_msg : string) (vnet : VirtualNetwork) : EIO W unit :=
  let vnet' := setDegraded ConditionTrue reason degraded_msg (setReady ConditionFalse reason ready_msg vnet) in
  _ ← try (updateStatus vnet' ∅ [] (vnet_status vnet));
  liftIO (emitTransitionEvents rec vnet' (conditionStatus vnet "Ready") (conditionStatus vnet "Degraded")).

Definition reconcile_vnet (vnet : VirtualNetwork) : EIO W Outcome :=
  let homeNS := obj_ns vnet in
  let name := obj_name vnet in
  if m_deleting (vnet_meta vnet) then
    _ ← liftIO (clearMembers homeNS name);
    _ ← deleteMembershipPolicies homeNS name ∅ ∅;
    mret Finished
  else if negb (is_dns_label name) then
    _ ← report_not_served ReasonInvalidName (Sprintf "name %q is not a DNS-1123 label" [AStr name])
          (Sprintf "VirtualNetwork name %q must match %s" [AStr name; AStr nameRegex_string]) vnet;
    mret Finished
  else
    homeManaged ← read (λ rd, Manages NSFilter rd homeNS);
    if negb (operatorManaged vnet) && negb homeManaged then
      _ ← report_not_served ReasonHomeNamespaceExcluded
            (Sprintf "home namespace %q is excluded by the operator" [AStr homeNS])
            (Sprintf "home namespace %q is in the operator excluded list or has kube-vnet/disabled=true"
               [AStr homeNS]) vnet;
      _ ← liftIO (setMembers homeNS name 0);
      _ ← deleteMembershipPolicies homeNS name ∅ ∅;
      mret Finished
    else
      '(members, invalid) ← read (λ rd, discoverMembers NSFilter rd vnet);
      reconcile_members vnet members invalid.

Definition VnetReconcile (req : ObjectKey) : EIO W Outcome :=
  observed (
    r ← try (read (λ rd, get_vnet rd req));
    match r with
    | Err e =>
        if IsNotFound e then
          _ ← liftIO (clearMembers (key_ns req) (key_name req));
          _ ← deleteMembershipPolicies (key_ns req) (key_name req) ∅ ∅;
          mret Finished
        else throw e
    | Ok vnet => reconcile_vnet vnet
    end).
End reconcile.

(** ** Watches *)

Definition isJoinLabel (k : string) : bool := HasPrefix k userJoinPrefix || HasPrefix k LabelSystemNetPrefix.

Definition joinLabelSet (pod : option Pod) : gmap string string :=
  match pod with
  | Some p => filter (λ kv, isJoinLabel kv.1 = true) (obj_labels p)
  | None => ∅
  end.

Definition HasJoinLabel (pod : option Pod) : bool := (0 <? size (joinLabelSet pod))%nat.

Definition resolvedGeneration (pod : option Pod) : string :=
  match pod with Some p => get_or "" (obj_annotations p) AnnotationResolvedGeneration | None => "" end.

(** The update case of [JoinLabelChangedPredicate]; the others are [HasJoinLabel]. *)
Definition join_labels_updated (old new : option Pod) : bool :=
  negb (joinLabelSet old =?? joinLabelSet new) || negb (resolvedGeneration old =?? resolvedGeneration new).

(** The request of one label of a pod, if it is a join label or a stamp. *)
Definition label_request (OperatorNamespace ns k : string) : option ObjectKey :=
  let suffix := match CutPrefix k userJoinPrefix with
                | Some s => Some s
                | None => CutPrefix k LabelSystemNetPrefix
                end in
  match suffix with
  | None => None
  | Some suffix =>
      let '(homeNS, name, qualified) := Cut "." suffix in
      Some (if (suffix =?? SystemVnetCluster) && negb (OperatorNamespace =?? "") then
              mkKey OperatorNamespace suffix
            else if qualified : bool then mkKey homeNS name
            else mkKey ns suffix)
  end.

Definition podToVnets (OperatorNamespace : string) (pod : Pod) : list ObjectKey :=
  omap (λ kv, label_request OperatorNamespace (obj_ns pod) kv.1) (map_to_list (obj_labels pod)).

Definition policyToVNet (p : NetworkPolicy) : list ObjectKey :=
  let '(homeNS, name, ok) := Cut "." (get_or "" (obj_labels p) LabelNetwork) in
  if ok : bool then [mkKey homeNS name] else [].

Definition nsToVnets `{K8sLib} (rd : Reader) (ns : Namespace) : list ObjectKey :=
  match list_vnets rd with
  | Err _ => []
  | Ok vnets =>
      map ObjectKeyFromObject
        (filter (λ v, (if PermitsForVnet rd (Some v) (obj_name ns) is Ok true then true else false) = true) vnets)
  end.
