(* ===== verification/VnetControllerSpec.v ===== *)
(** * What a reconcile of a vnet leaves (internal/controller/virtualnetwork_controller.go)

    An abstract plan says which policies a vnet should have; a reconcile brings the
    cluster to the plan, writes the status only when it changed, and does nothing on
    a cluster that is in order. *)

From Stdlib Require Import Ascii.
From S2P Require Import Prelude GoStrings Types Effects Direction Names ApiServer Permits Apply.
From S2P Require Import Stamps Generator Members VnetController.

(** ** The plan *)

(** The policies of the vnet of a request: none once it is gone, being deleted or not
    served, those of its members otherwise; [None] for a name that is not a DNS
    label, which is only reported. *)
Definition vnet_plan `{K8sLib} (NSFilter : NamespaceFilter) (rd : Reader) (req : ObjectKey) :
    result (option (list NetworkPolicy)) :=
  match get_vnet rd req with
  | Err e => if IsNotFound e then Ok (Some []) else Err e
  | Ok vnet =>
      if m_deleting (vnet_meta vnet) then Ok (Some [])
      else if negb (is_dns_label (obj_name vnet)) then Ok None
      else
        homeManaged ← Manages NSFilter rd (obj_ns vnet);
        if negb (operatorManaged vnet) && negb homeManaged then Ok (Some [])
        else
          found ← discoverMembers NSFilter rd vnet;
          Ok (Some (Generate (mkGenInput vnet found.1)))
  end.

(** Nothing is applied into a namespace that is being deleted. *)
Definition live_namespace (rd : Reader) (p : NetworkPolicy) : Prop :=
  namespaceTerminating (obj_ns p) rd ≠ Ok true.

#[export] Instance result_bool_eq_dec (r : result bool) : Decision (r = Ok true).
Proof. destruct r as [[]|e]; [by left|by right|by right]. Defined.
#[export] Instance live_namespace_dec rd p : Decision (live_namespace rd p).
Proof. unfold live_namespace. apply _. Defined.

(** The policies of the vnet that a reconcile with this plan may remove. *)
Definition vnet_own (req : ObjectKey) (plan : list NetworkPolicy) (q : NetworkPolicy) : bool :=
  swept (membership_options (key_ns req) (key_name req)) no_skip q &&
  bool_decide (ObjectKeyFromObject q ∉ policy_keys plan).

(** ** Facts *)

Lemma elem_of_policy_keys k ps : k ∈ policy_keys ps ↔ k ∈ map ObjectKeyFromObject ps.
Proof. unfold policy_keys. by rewrite elem_of_list_to_set. Qed.

Lemma confined_own own own' want m1 m2 :
  (∀ q, own q = true → own' q = true) → confined own want m1 m2 → confined own' want m1 m2.
Proof.
  intros Ho [H1 H2]. split; [done|]. intros k Hk.
  destruct (H2 k Hk) as [?|[? (q & ? & ?)]]; [by left|right; eauto].
Qed.

Lemma attempt_bind {W A B} (m : EIO W A) (f : result A → IO W B) st :
  (attempt m ≫= f) st = f (m st).1 (m st).2.
Proof. apply bind_IO. Qed.

Lemma liftIO_run {W A} (m : IO W A) st : liftIO m st = (Ok (m st).1, (m st).2).
Proof. unfold liftIO. by destruct (m st). Qed.

Lemma attempt_read {W A B} `{Client W} (g : Reader → result A) (f : result A → IO W B) (st : St W) :
  (attempt (read g) ≫= f) st = f (g (cl_reader (st_world st))) st.
Proof. done. Qed.

Lemma reconciled_ext own own' want m1 m2 :
  (∀ q, own q = own' q) → reconciled own want m1 m2 → reconciled own' want m1 m2.
Proof.
  intros Ho [H1 H2]. split; [done|]. intros k Hk. rewrite (H2 k Hk).
  destruct (m1 !! k) as [q|]; [|done]. by rewrite Ho.
Qed.

Section facts.
Context `{K8sLib, !K8sLaws} {W : Type} `{PolicyServer W} (APIReader rec : bool) (NSFilter : NamespaceFilter).
Implicit Types (st : St W) (p : NetworkPolicy).

(** The Namespaces of the state. *)
Definition namespaces_of st : string → result Namespace := get_namespace (cl_reader (st_world st)).

#[export] Instance silent_keeps_ns {A} (m : IO W A) : Silent m → Keeps namespaces_of m.
Proof. intros Hm st. unfold namespaces_of. by rewrite (Hm st). Qed.

Lemma write_namespaces q : policy_write q = true → KeepsE namespaces_of (@write W _ q).
Proof.
  intros Hq st. unfold write, namespaces_of. destruct (cl_write q (st_world st)) as [r w] eqn:E.
  by eapply keeps_namespaces.
Qed.

#[export] Instance applyPolicy_namespaces rd p : KeepsE namespaces_of (applyPolicy rd p : EIO W bool).
Proof. by apply keepsE_applyPolicy, write_namespaces. Qed.

Lemma sweep_confined opts keep skip want st r st' :
  (∀ k, k ∈ map ObjectKeyFromObject want → k ∈ keep) →
  sweepStalePolicies opts keep skip st = (r, st') →
  confined (λ q, swept opts skip q && bool_decide (ObjectKeyFromObject q ∉ keep)) want (stored st) (stored st').
Proof.
  intros Hkeep (_ & Hc & _)%sweep_inv. split.
  - intros k Hk Hs. destruct (Hc k) as [->|(_ & p & Hp & _ & Hst & _)]; [done|].
    destruct Hst. apply Hkeep. by rewrite (policies_key _ _ _ Hp).
  - intros k _. destruct (Hc k) as [->|[? (p & ? & Hs & Hn & Hsk)]]; [by left|]. right.
    split; [done|]. exists p. split; [done|]. unfold swept. rewrite Hs, Hsk. by rewrite bool_decide_eq_true_2.
Qed.

(** One iteration: skipped in a terminating namespace, else applied or failed. *)
Lemma apply_one_inv vnet listed acc p st acc' st' :
  apply_one APIReader rec vnet listed acc p st = (acc', st') →
  namespaces_of st' = namespaces_of st ∧
  ((¬ live_namespace (cl_reader (st_world st)) p ∧ acc' = acc ∧ stored st' = stored st) ∨
   (live_namespace (cl_reader (st_world st)) p ∧
    ((ap_errs acc' = ap_errs acc ∧ ap_failedNS acc' = ap_failedNS acc ∧
      ap_refs acc' = ap_refs acc ++ [mkPolicyRef (obj_ns p) (obj_name p)] ∧
      ∃ live, applied p live ∧ stored st' = <[ObjectKeyFromObject p := live]> (stored st)) ∨
     (ap_errs acc' ≠ [] ∧ stored st' = stored st)))).
Proof.
  unfold apply_one, live_namespace. rewrite attempt_read.
  set (t := namespaceTerminating _ _). destruct t as [[]|e].
  - intros [= <- <-]. split; [done|]. left. by split; [intros Hn|].
  - rewrite attempt_bind.
    destruct (applyPolicy (policy_reader APIReader) p st) as [r1 st1] eqn:Ea. cbn [fst snd].
    assert (namespaces_of st1 = namespaces_of st) as Hn1.
    { pose proof (applyPolicy_namespaces (policy_reader APIReader) p st) as Hn. by rewrite Ea in Hn. }
    apply applyPolicy_inv in Ea as (_ & _ & Ha); [|destruct APIReader; [by right|by left]].
    destruct r1 as [created|e]; rewrite bind_IO.
    + destruct Ha as [(live & Hs & Hl) _]. intros [= <- <-]. split.
      { etrans; [|exact Hn1]. apply (keeps (f := namespaces_of)). }
      right. split; [done|]. left. cbn. split_and!; [done..|]. exists live. split; [done|]. rewrite <-Hs.
      apply stored_world, keeps.
    + intros [= <- <-]. split.
      { etrans; [|exact Hn1]. apply (keeps (f := namespaces_of)). }
      right. split; [done|]. right. cbn. split; [by destruct (ap_errs acc)|].
      rewrite <-Ha. apply stored_world, keeps.
  - rewrite attempt_bind. cbn [throw fst snd]. rewrite bind_IO. intros [= <- <-].
    split; [apply (keeps (f := namespaces_of))|]. right. split; [done|]. right.
    cbn. split; [by destruct (ap_errs acc)|]. apply stored_world, keeps.
Qed.

(** The live policies do not change while the loop runs. *)
Lemma live_namespace_same rd rd' p :
  get_namespace rd = get_namespace rd' → live_namespace rd p ↔ live_namespace rd' p.
Proof. unfold live_namespace, namespaceTerminating. by intros ->. Qed.

Lemma apply_loop_inv vnet listed ps acc st acc' st' :
  for_fold ps acc (apply_one APIReader rec vnet listed) st = (acc', st') →
  let live := filter (live_namespace (cl_reader (st_world st))) ps in
  namespaces_of st' = namespaces_of st ∧
  confined own_none ps (stored st) (stored st') ∧
  (ap_errs acc' = [] → ap_errs acc = [] ∧ ap_failedNS acc' = ap_failedNS acc ∧
    ap_refs acc' = ap_refs acc ++ map (λ p, mkPolicyRef (obj_ns p) (obj_name p)) live ∧
    (NoDup (map ObjectKeyFromObject ps) → reconciled own_none live (stored st) (stored st'))).
Proof.
  revert acc st. induction ps as [|p ps IH]; intros acc st; simpl.
  { intros [= <- <-]. split_and!; [done|apply confined_refl|]. intros He.
    rewrite app_nil_r. split_and!; [done..|]. intros _. apply reconciled_nil. }
  rewrite bind_IO. destruct (apply_one APIReader rec vnet listed acc p st) as [acc1 st1] eqn:E1. cbn [fst snd].
  apply apply_one_inv in E1 as [Hn1 Hs1]. intros Hx. apply IH in Hx as (Hn & Hc & Hok). clear IH.
  assert (filter (live_namespace (cl_reader (st_world st1))) ps =
          filter (live_namespace (cl_reader (st_world st))) ps) as Hlive.
  { apply list_filter_iff. intros q. by apply live_namespace_same. }
  rewrite Hlive in Hok. rewrite filter_cons. split_and!; [congruence|..].
  - eapply confined_trans; [|eapply confined_weaken; [|exact Hc]; intros q Hq; by right].
    destruct Hs1 as [(_ & _ & ->)|(_ & [(_ & _ & _ & live & _ & ->)|[_ ->]])]; [apply confined_refl| |apply confined_refl].
    apply confined_insert. by left.
  - intros He. destruct (Hok He) as (He1 & Hf & Hrefs & Hr).
    destruct Hs1 as [(Hd & -> & Hst)|(Hl & [(He0 & Hf0 & Hrefs0 & live & Ha & Hst)|[? _]])]; [| |done].
    + rewrite decide_False by done. split_and!; [done..|]. intros [_ Hnd]%NoDup_cons.
      rewrite <-Hst. auto.
    + rewrite decide_True by done. split_and!; [congruence..| |].
      * rewrite Hrefs, Hrefs0. by rewrite <-app_assoc.
      * intros [Hk Hnd]%NoDup_cons. apply (reconciled_cons _ _ _ (stored st1)); [|by rewrite Hst; apply reconciled_insert|by apply Hr].
        intros Hin. apply Hk. apply elem_of_keys in Hin as (q & [_ Hq]%list_elem_of_filter & <-).
        apply elem_of_keys. eauto.
Qed.

#[export] Instance silent_stored {A} (m : IO W A) : Silent m → Keeps stored m.
Proof. intros Hm st. unfold stored. by rewrite (Hm st). Qed.

#[export] Instance silent_emit v t prior on_true on_false :
  Silent (emit_transition (W := W) rec v t prior on_true on_false).
Proof. unfold emit_transition. destruct (FindStatusCondition _ _); apply _. Qed.
#[export] Instance silent_emits v ready degraded :
  Silent (emitTransitionEvents (W := W) rec v ready degraded).
Proof. unfold emitTransitionEvents. apply _. Qed.

#[export] Instance stored_updateStatus v members refs status :
  KeepsE stored (updateStatus (W := W) v members refs status).
Proof.
  unfold updateStatus. apply keepsE_if; [apply _|]. intros st. unfold write, stored.
  destruct (cl_write _ (st_world st)) as [r w] eqn:E. simpl. by eapply (other_writes (WUpdateVnetStatus _)).
Qed.

#[export] Instance stored_report reason m1 m2 v : KeepsE stored (report_not_served (W := W) rec reason m1 m2 v).
Proof. unfold report_not_served. apply _. Qed.

(** The report does not touch policies, and succeeds only without failed applies. *)
Lemma report_members_inv vnet members invalid n acc sweepErr st r st' :
  report_members rec vnet members invalid n acc sweepErr st = (r, st') →
  stored st' = stored st ∧ (∀ out, r = Ok out → ap_errs acc = []).
Proof.
  unfold report_members. intros Hx. kv_silent Hx as u1 st1 Hw1. rewrite bind_try in Hx.
  destruct (updateStatus _ _ _ _ st1) as [r2 st2] eqn:Eu. cbn [fst snd] in Hx.
  apply (keepsE_run stored) in Eu; [|apply _]. rewrite (stored_world _ _ Hw1) in Eu. rewrite <-Eu.
  destruct r2 as [[]|e2], (ap_errs acc) as [|e1 errs]; [| |by injection Hx as <- <-|];
    kv_silent Hx as u3 st3 Hw3; kv_silent Hx as u4 st4 Hw4; injection Hx as <- <-;
    (split; [|done]); by rewrite (stored_world _ _ Hw4), (stored_world _ _ Hw3).
Qed.

(** From the members on; a run that succeeds had no failed apply and no failed sweep. *)
Lemma reconcile_members_inv vnet members invalid st r st' :
  reconcile_members APIReader rec vnet members invalid st = (r, st') →
  let plan := Generate (mkGenInput vnet members) in
  let own := vnet_own (ObjectKeyFromObject vnet) plan in
  confined own plan (stored st) (stored st') ∧
  (∀ out, r = Ok out →
    reconciled own (filter (live_namespace (cl_reader (st_world st))) plan) (stored st) (stored st')).
Proof.
  unfold reconcile_members. set (plan := Generate _). cbv zeta. rewrite bind_liftIO.
  destruct (for_fold plan _ _ st) as [acc st1] eqn:Eloop. cbn [fst snd].
  apply apply_loop_inv in Eloop as (_ & Hc & Hok). rewrite bind_try.
  destruct (deleteMembershipPolicies _ _ _ _ st1) as [r2 st2] eqn:Esw. cbn [fst snd].
  intros Hx. set (own := vnet_own _ plan).
  assert (stored st' = stored st2 ∧ (∀ out, r = Ok out → r2 = Ok tt ∧ ap_errs acc = [])) as [-> Hr].
  { destruct r2 as [[]|e2], (ap_errs acc) as [|e1 errs] eqn:Eerrs; [..|by injection Hx as <- <-|];
      apply report_members_inv in Hx as [-> Hr]; (split; [done|]); intros out Ho; apply Hr in Ho; try done;
      by rewrite Eerrs in Ho. }
  assert (∀ q, swept (membership_options (obj_ns vnet) (obj_name vnet)) (spare (ap_failedNS acc)) q &&
    bool_decide (ObjectKeyFromObject q ∉ policy_keys plan) = true → own q = true) as Hown.
  { intros q. unfold own, vnet_own, swept, no_skip. simpl.
    destruct (selected_by _ q); simpl; [|done]. by destruct (spare _ q). }
  unfold deleteMembershipPolicies in Esw. split.
  - eapply confined_trans; [eapply confined_own, confined_weaken; [..|exact Hc]; done|].
    eapply confined_own, sweep_confined; [exact Hown| |exact Esw].
    intros k Hk. by apply elem_of_policy_keys.
  - intros out [-> He]%Hr. destruct (Hok He) as (_ & Hf & _ & Hrec).
    eapply apply_and_sweep_keep in Esw as [_ Hre].
    + specialize (Hre eq_refl). eapply reconciled_ext; [|exact Hre]. intros q. unfold own, vnet_own, swept, no_skip.
      rewrite Hf. unfold spare. simpl. by rewrite (bool_decide_eq_false_2 (_ ∈ ∅)) by apply not_elem_of_empty.
    + intros k Hk. apply elem_of_policy_keys. apply elem_of_keys in Hk as (q & [_ Hq]%list_elem_of_filter & <-).
      apply elem_of_keys. eauto.
    + apply Hrec, Generate_keys.
Qed.

Lemma observed_inv {A} (m : EIO W A) st r st' :
  observed m st = (r, st') → ∃ st1, m st = (r, st1) ∧ st_world st' = st_world st1.
Proof.
  unfold observed. rewrite bind_try, bind_liftIO. unfold lift. intros [= <- <-].
  exists (m st).2. split; [by destruct (m st)|done].
Qed.

(** A run that only withdraws the policies of a vnet. *)
Lemma withdraw_inv ns name (st : St W) r st' :
  (_ ← deleteMembershipPolicies ns name ∅ ∅; mret Finished : EIO W Outcome) st = (r, st') →
  let own := vnet_own (mkKey ns name) [] in
  confined own [] (stored st) (stored st') ∧
  (∀ out, r = Ok out → reconciled own [] (stored st) (stored st')).
Proof.
  unfold deleteMembershipPolicies. intros Hx. cbv zeta.
  assert (∀ r' st1, sweepStalePolicies (membership_options ns name) ∅ (spare ∅) st = (r', st1) →
    confined (vnet_own (mkKey ns name) []) [] (stored st) (stored st1) ∧
    (r' = Ok tt → reconciled (vnet_own (mkKey ns name) []) [] (stored st) (stored st1))) as Hsw.
  { intros r' st1 Hs. apply (apply_and_sweep_keep _ _ _ [] (stored st)) in Hs as [Hc Hr];
      [|by intros k Hk%not_elem_of_nil|apply reconciled_nil].
    assert (∀ q, swept (membership_options ns name) (spare ∅) q &&
      bool_decide (ObjectKeyFromObject q ∉ (∅ : gset ObjectKey)) =
      vnet_own (mkKey ns name) [] q) as Ho.
    { intros q. unfold vnet_own, swept, no_skip, spare, policy_keys. simpl.
      by rewrite (bool_decide_eq_false_2 (_ ∈ ∅)) by apply not_elem_of_empty. }
    split; [eapply confined_own; [|exact Hc]|intros Hr'; eapply reconciled_ext; [|exact (Hr Hr')]].
    - intros q. by rewrite <-Ho.
    - apply Ho. }
  apply EIO_bind_inv in Hx as [([] & st1 & Hs & [= <- <-])|(e & Hs & ->)].
  - apply Hsw in Hs as [Hc Hr]. split; [done|]. intros _ _. by apply Hr.
  - apply Hsw in Hs as [Hc _]. by split.
Qed.

Lemma reconcile_vnet_inv vnet st r st' :
  reconcile_vnet APIReader rec NSFilter vnet st = (r, st') →
  let rd := cl_reader (st_world st) in
  let req := ObjectKeyFromObject vnet in
  if m_deleting (vnet_meta vnet) then
    confined (vnet_own req []) [] (stored st) (stored st') ∧
    (∀ out, r = Ok out → reconciled (vnet_own req []) [] (stored st) (stored st'))
  else if negb (is_dns_label (obj_name vnet)) then r = Ok Finished ∧ stored st' = stored st
  else match Manages NSFilter rd (obj_ns vnet) with
  | Err e => r = Err e ∧ stored st' = stored st
  | Ok homeManaged =>
      if negb (operatorManaged vnet) && negb homeManaged then
        confined (vnet_own req []) [] (stored st) (stored st') ∧
        (∀ out, r = Ok out → reconciled (vnet_own req []) [] (stored st) (stored st'))
      else match discoverMembers NSFilter rd vnet with
      | Err e => r = Err e ∧ stored st' = stored st
      | Ok found =>
          let plan := Generate (mkGenInput vnet found.1) in
          confined (vnet_own req plan) plan (stored st) (stored st') ∧
          (∀ out, r = Ok out →
            reconciled (vnet_own req plan) (filter (live_namespace rd) plan) (stored st) (stored st'))
      end
  end.
Proof.
  unfold reconcile_vnet. intros Hx. cbv zeta.
  destruct (m_deleting (vnet_meta vnet)).
  { kv_silent Hx as u1 st1 Hw. rewrite <-(stored_world _ _ Hw). by apply withdraw_inv in Hx. }
  destruct (negb (is_dns_label _)).
  { apply EIO_bind_inv in Hx as [(u & st1 & Hs & [= <- <-])|(e & Hs & ->)];
      [split; [done|]; exact (keepsE_run stored _ _ _ _ Hs)|].
    exfalso. unfold report_not_served in Hs. by rewrite bind_try, liftIO_run in Hs. }
  rewrite bind_read in Hx. destruct (Manages _ _ _) as [homeManaged|e]; [|by injection Hx as <- <-].
  destruct (negb (operatorManaged vnet) && negb homeManaged).
  - apply EIO_bind_inv in Hx as [(u & st1 & Hs & Hx)|(e & Hs & ->)].
    + apply (keepsE_run stored) in Hs; [|apply _]. kv_silent Hx as u2 st2 Hw.
      rewrite <-Hs, <-(stored_world _ _ Hw). by apply withdraw_inv in Hx.
    + exfalso. unfold report_not_served in Hs. by rewrite bind_try, liftIO_run in Hs.
  - rewrite bind_read in Hx. destruct (discoverMembers _ _ _) as [[members invalid]|e]; [|by injection Hx as <- <-].
    by apply reconcile_members_inv in Hx.
Qed.

(** ** The status *)

(** The status updates of a state's log, with their results. *)
Definition status_updates (st : St W) : list (VirtualNetwork * result unit) :=
  omap (λ a, match a with AWrite (WUpdateVnetStatus v) r => Some (v, r) | _ => None end) (st_log st).

(** The vnet whose status a reconcile with these members and failures writes. *)
Definition final_vnet (vnet : VirtualNetwork) (members : Members) (invalid : list InvalidJoiner)
    (refs : list PolicyRef) (errs : list error) : VirtualNetwork :=
  with_status members refs
    (set_outcome errs (length (Generate (mkGenInput vnet members))) (size members) (set_joiners invalid vnet)).

#[export] Instance status_log a :
  (∀ v r, a ≠ AWrite (WUpdateVnetStatus v) r) → Keeps status_updates (log_action a : IO W unit).
Proof.
  intros Ha st. unfold status_updates. simpl. rewrite omap_app. simpl.
  destruct a as [[]| |]; simpl; rewrite ?app_nil_r; try done. by edestruct Ha.
Qed.
#[export] Instance status_eventf r obj t reason a n args :
  Keeps status_updates (eventf (W := W) r obj t reason a n args).
Proof. unfold eventf. apply keeps_if; [apply _|]. by apply status_log. Qed.
#[export] Instance status_applyFailed r obj k n args : Keeps status_updates (applyFailed (W := W) r obj k n args).
Proof. unfold applyFailed. apply keeps_bind; [by apply status_log|apply _]. Qed.
#[export] Instance status_policyRestored r obj n args :
  Keeps status_updates (policyRestored (W := W) r obj n args).
Proof. unfold policyRestored. apply _. Qed.
#[export] Instance status_emit v t prior on_true on_false :
  Keeps status_updates (emit_transition (W := W) rec v t prior on_true on_false).
Proof. unfold emit_transition. destruct (FindStatusCondition _ _); apply _. Qed.
#[export] Instance status_emits v ready degraded :
  Keeps status_updates (emitTransitionEvents (W := W) rec v ready degraded).
Proof. unfold emitTransitionEvents. apply _. Qed.
#[export] Instance status_setMembers ns name n : Keeps status_updates (setMembers (W := W) ns name n).
Proof. by apply status_log. Qed.

Lemma status_write q : (∀ v, q ≠ WUpdateVnetStatus v) → KeepsE status_updates (write (W := W) q).
Proof.
  intros Hq st. unfold write. destruct (cl_write q (st_world st)) as [r w]. unfold status_updates. simpl.
  rewrite omap_app. simpl. destruct q; simpl; rewrite ?app_nil_r; try done. by destruct (Hq v).
Qed.
#[export] Instance status_applyPolicy rd p : KeepsE status_updates (applyPolicy (W := W) rd p).
Proof. by apply keepsE_applyPolicy, status_write. Qed.
#[export] Instance status_sweep opts keep skip : KeepsE status_updates (sweepStalePolicies (W := W) opts keep skip).
Proof. apply keepsE_sweep. intros p. by apply status_write. Qed.

#[export] Instance status_apply_one vnet listed acc p :
  Keeps status_updates (apply_one (W := W) APIReader rec vnet listed acc p).
Proof.
  unfold apply_one. apply keeps_bind; [apply _|]. intros [[]|e]; [apply _|..];
    apply keeps_bind; apply _.
Qed.

Lemma updateStatus_updates v members refs status st r st' :
  updateStatus v members refs status st = (r, st') →
  let v' := with_status members refs v in
  status_updates st' = status_updates st ++ (if status =?? vnet_status v' then [] else [(v', r)]) ∧
  (status = vnet_status v' → r = Ok tt).
Proof.
  unfold updateStatus. cbv zeta. destruct (DeepEqual _ _) eqn:E.
  - apply (proj1 (DeepEqual_spec _ _)) in E. rewrite bool_decide_eq_true_2 by done. intros [= <- <-]. by rewrite app_nil_r.
  - rewrite bool_decide_eq_false_2 by (intros Hs%(proj2 (DeepEqual_spec _ _)); congruence).
    intros Hw. split.
    + unfold write in Hw. destruct (cl_write _ _) as [r1 w1]. injection Hw as <- <-.
      unfold status_updates. simpl. by rewrite omap_app.
    + intros Hs%(proj2 (DeepEqual_spec _ _)). congruence.
Qed.

Lemma report_members_status vnet members invalid n acc sweepErr st r st' :
  report_members rec vnet members invalid n acc sweepErr st = (r, st') →
  let final := with_status members (ap_refs acc)
    (set_outcome (ap_errs acc) n (size members) (set_joiners invalid vnet)) in
  ∃ res, status_updates st' = status_updates st ++
      (if vnet_status vnet =?? vnet_status final then [] else [(final, res)]) ∧
    (∀ out, r = Ok out ↔ ap_errs acc = [] ∧ res = Ok tt ∧ out = RequeueAfter 600).
Proof.
  unfold report_members. intros Hx. cbv zeta. kv_keeps status_updates Hx as u1 st1 H1'.
  rewrite bind_try in Hx. destruct (updateStatus _ _ _ _ st1) as [r2 st2] eqn:Eu. cbn [fst snd] in Hx.
  apply updateStatus_updates in Eu as [Eu _]. rewrite H1' in Eu. exists r2. rewrite <-Eu. clear Eu.
  destruct r2 as [[]|e2], (ap_errs acc) as [|e1 errs]; [| |injection Hx as <- <-; split; [done|naive_solver]|];
    kv_keeps status_updates Hx as u3 st3 Hu3; kv_keeps status_updates Hx as u4 st4 Hu4; injection Hx as <- <-;
    (split; [congruence|]); naive_solver.
Qed.

(** What a reconcile of a served vnet does with the status. *)
Lemma reconcile_members_status vnet members invalid st r st' :
  reconcile_members APIReader rec vnet members invalid st = (r, st') →
  let plan := Generate (mkGenInput vnet members) in
  let live := filter (live_namespace (cl_reader (st_world st))) plan in
  (∃ e, r = Err e ∧ status_updates st' = status_updates st) ∨
  ∃ errs refs res, let final := final_vnet vnet members invalid refs errs in
    status_updates st' = status_updates st ++
      (if vnet_status vnet =?? vnet_status final then [] else [(final, res)]) ∧
    (errs = [] → refs = map (λ p, mkPolicyRef (obj_ns p) (obj_name p)) live) ∧
    (∀ out, r = Ok out ↔ errs = [] ∧ res = Ok tt ∧ out = RequeueAfter 600).
Proof.
  unfold reconcile_members. set (plan := Generate _). cbv zeta. rewrite bind_liftIO.
  destruct (for_fold plan _ _ st) as [acc st1] eqn:Eloop. cbn [fst snd].
  assert (status_updates st1 = status_updates st) as Hs1.
  { pose proof (keeps_fold status_updates plan (mkApply [] [] ∅)
      (apply_one APIReader rec vnet (listed_keys (vnet_status vnet))) _ st) as Hk. by rewrite Eloop in Hk. }
  apply apply_loop_inv in Eloop as (_ & _ & Hok). rewrite bind_try.
  destruct (deleteMembershipPolicies _ _ _ _ st1) as [r2 st2] eqn:Esw. cbn [fst snd].
  apply (keepsE_run status_updates) in Esw; [|apply status_sweep]. rewrite Hs1 in Esw. intros Hx.
  assert (∀ errs, ap_errs acc = errs → report_members rec vnet members invalid (length plan) acc r2 st2 = (r, st') →
    ∃ errs refs res, let final := final_vnet vnet members invalid refs errs in
    status_updates st' = status_updates st ++
      (if vnet_status vnet =?? vnet_status final then [] else [(final, res)]) ∧
    (errs = [] → refs = map (λ p, mkPolicyRef (obj_ns p) (obj_name p))
      (filter (live_namespace (cl_reader (st_world st))) plan)) ∧
    (∀ out, r = Ok out ↔ errs = [] ∧ res = Ok tt ∧ out = RequeueAfter 600)) as Hrep.
  { intros errs Herrs (res & Hup & Hr)%report_members_status. rewrite Esw in Hup. exists (ap_errs acc), (ap_refs acc), res.
    split_and!; [done| |done]. intros He. by apply Hok in He as (_ & _ & -> & _). }
  destruct r2 as [[]|e2], (ap_errs acc) as [|e1 errs] eqn:Eerrs; [right; by eapply Hrep..| |right; by eapply Hrep].
  left. injection Hx as <- <-. eauto.
Qed.

(** The vnet of the request is served, with these members and invalid joiners. *)
Definition serves (rd : Reader) (req : ObjectKey) (vnet : VirtualNetwork) (members : Members)
    (invalid : list InvalidJoiner) : Prop :=
  get_vnet rd req = Ok vnet ∧ m_deleting (vnet_meta vnet) = false ∧ is_dns_label (obj_name vnet) = true ∧
  (∃ managed, Manages NSFilter rd (obj_ns vnet) = Ok managed ∧ operatorManaged vnet || managed = true) ∧
  discoverMembers NSFilter rd vnet = Ok (members, invalid).

(** The policies a status lists. *)
Definition policy_refs (ps : list NetworkPolicy) : list PolicyRef :=
  map (λ p, mkPolicyRef (obj_ns p) (obj_name p)) ps.

Lemma observed_at {A} (m m' : EIO W A) st : m st = m' st → observed m st = observed m' st.
Proof. unfold observed. rewrite !bind_try. by intros ->. Qed.

Lemma serves_run req vnet members invalid st :
  serves (cl_reader (st_world st)) req vnet members invalid →
  VnetReconcile APIReader rec NSFilter req st =
  observed (reconcile_members APIReader rec vnet members invalid) st.
Proof.
  intros (Hg & Hd & Hn & (managed & Hm & Ho) & Hf). apply observed_at. rewrite bind_try. cbn [read fst snd]. rewrite Hg. unfold reconcile_vnet. rewrite Hd, Hn. cbn [negb].
  rewrite bind_read, Hm. destruct (operatorManaged vnet), managed; try done; cbn [negb andb];
    by rewrite bind_read, Hf.
Qed.

Lemma conditions_final vnet members invalid refs errs :
  let v := final_vnet vnet members invalid refs errs in
  conditionStatus v "Ready" = (if errs is [] then ConditionTrue else ConditionFalse) ∧
  conditionStatus v "Degraded" = (if invalid is [] then ConditionFalse else ConditionTrue).
Proof.
  unfold final_vnet, conditionStatus, with_status, set_outcome, set_joiners, setReady, setDegraded, set_condition, set_status.
  destruct errs as [|e errs], invalid as [|j invalid]; simpl; try destruct (_ =?? 0); simpl;
    rewrite (find_set_condition _ (mkCond "Ready" _ _ _)), (find_set_condition_ne _ (mkCond "Ready" _ _ _)) by done;
    by rewrite (find_set_condition _ (mkCond "Degraded" _ _ _)).
Qed.

Lemma observed_status {A} (m : EIO W A) st r st' :
  observed m st = (r, st') → ∃ st1, m st = (r, st1) ∧ status_updates st' = status_updates st1.
Proof.
  unfold observed. rewrite bind_try, bind_liftIO. unfold lift. intros [= <- <-].
  exists (m st).2. split; [by destruct (m st)|]. by apply (status_log (AMetric _)).
Qed.

(** ** A cluster in order *)

(** The wanted policies are live and current, nothing else of the vnet is stored, and
    the status says so. *)
Definition in_order (st : St W) (vnet : VirtualNetwork) (members : Members) (invalid : list InvalidJoiner) : Prop :=
  let rd := cl_reader (st_world st) in
  let plan := Generate (mkGenInput vnet members) in
  (∀ p, p ∈ plan → ∃ b, namespaceTerminating (obj_ns p) rd = Ok b) ∧
  (∀ p, p ∈ plan → live_namespace rd p → ∃ live,
    get_netpol (policy_reader APIReader (st_world st)) (ObjectKeyFromObject p) = Ok live ∧
    policyUpToDate live p = true) ∧
  (∃ l, list_netpols rd (membership_options (obj_ns vnet) (obj_name vnet)) = Ok l ∧
    ∀ q, q ∈ l → ObjectKeyFromObject q ∈ policy_keys plan) ∧
  vnet_status vnet = vnet_status (final_vnet vnet members invalid (policy_refs (filter (live_namespace rd) plan)) []).

Lemma quiet_loop vnet listed ps acc st :
  (∀ p, p ∈ ps → ∃ b, namespaceTerminating (obj_ns p) (cl_reader (st_world st)) = Ok b) →
  (∀ p, p ∈ ps → live_namespace (cl_reader (st_world st)) p → ∃ live,
    get_netpol (policy_reader APIReader (st_world st)) (ObjectKeyFromObject p) = Ok live ∧
    policyUpToDate live p = true) →
  for_fold ps acc (apply_one APIReader rec vnet listed) st =
    (mkApply (ap_refs acc ++ policy_refs (filter (live_namespace (cl_reader (st_world st))) ps))
       (ap_errs acc) (ap_failedNS acc), st).
Proof.
  revert acc. induction ps as [|p ps IH]; intros acc Ht Hu; simpl.
  { rewrite app_nil_r. by destruct acc. }
  rewrite bind_IO. assert (apply_one APIReader rec vnet listed acc p st =
    (mkApply (ap_refs acc ++ if decide (live_namespace (cl_reader (st_world st)) p)
                              then [mkPolicyRef (obj_ns p) (obj_name p)] else [])
       (ap_errs acc) (ap_failedNS acc), st)) as ->.
  { unfold apply_one. rewrite attempt_read. destruct (Ht p) as [b Hb]; [by left|].
    case_decide as Hlive; unfold live_namespace in Hlive; rewrite Hb; (destruct b; [|]); try done.
    - rewrite attempt_bind. destruct (Hu p) as (live & Hg & Hup); [by left|done|].
      assert (applyPolicy (policy_reader APIReader) p st = (Ok false, st)) as ->
        by (unfold applyPolicy; by rewrite Hg, Hup). done.
    - rewrite app_nil_r. by destruct acc.
    - destruct Hlive. congruence. }
  cbn [fst snd]. rewrite IH; [|intros q Hq; apply Ht; by right|intros q Hq; apply Hu; by right].
  rewrite filter_cons. simpl. case_decide; simpl; by rewrite <-app_assoc.
Qed.

Lemma quiet_sweep opts keep skip st l :
  list_netpols (cl_reader (st_world st)) opts = Ok l → (∀ q, q ∈ l → ObjectKeyFromObject q ∈ keep) →
  sweepStalePolicies opts keep skip st = (Ok tt, st).
Proof.
  intros Hl Hk. unfold sweepStalePolicies. rewrite bind_read, Hl. clear Hl.
  induction l as [|q l IH]; simpl; [done|]. unfold mbind, EIO_bind. unfold sweep_one at 1.
  rewrite bool_decide_eq_true_2 by (apply Hk; by left). simpl. apply IH. intros q' Hq'. apply Hk. by right.
Qed.

Lemma quiet_emits v v0 st :
  vst_conditions (vnet_status v0) = vst_conditions (vnet_status v) →
  emitTransitionEvents rec v (conditionStatus v0 "Ready") (conditionStatus v0 "Degraded") st = (tt, st).
Proof.
  intros Hs. unfold emitTransitionEvents.
  assert (∀ t on_true on_false,
    emit_transition (W := W) rec v t (conditionStatus v0 t) on_true on_false = mret tt) as Hq; [|by rewrite !Hq].
  intros. unfold emit_transition, conditionStatus. rewrite Hs.
  destruct (FindStatusCondition _ _) as [c|]; [|done]. by rewrite bool_decide_eq_true_2.
Qed.

(** On a cluster in order only the members metric is set. *)
Lemma quiet_run vnet members invalid st : in_order st vnet members invalid →
  reconcile_members APIReader rec vnet members invalid st =
    (Ok (RequeueAfter 600), (setMembers (W := W) (obj_ns vnet) (obj_name vnet)
       (list_sum (map (λ nb, length (uniquePods nb.2)) (map_to_list members))) st).2).
Proof.
  intros (Ht & Hu & (l & Hl & Hk) & Hst). set (plan := Generate _) in *.
  unfold reconcile_members. fold plan. rewrite bind_liftIO, quiet_loop by done. cbn [fst snd].
  rewrite bind_try. unfold deleteMembershipPolicies. rewrite (quiet_sweep _ _ _ _ _ Hl Hk). cbn [fst snd ap_errs].
  unfold report_members. rewrite bind_liftIO, bind_try. cbn [ap_errs ap_refs app fst snd length Nat.ltb Nat.leb].
  unfold updateStatus. unfold final_vnet in Hst. fold plan in Hst.
  rewrite (proj2 (DeepEqual_spec _ _) Hst). cbn [mret EIO_ret fst snd IO_ret].
  apply (f_equal vst_conditions) in Hst. rewrite !bind_liftIO, quiet_emits by done. done.
Qed.
End facts.

(** The whole reconcile, by the plan of its request. *)
Lemma VnetReconcile_plan `{K8sLib, !K8sLaws} {W} `{PolicyServer W}
    APIReader rec NSFilter req (st : St W) r st'
    (Hkey : ∀ vnet, get_vnet (cl_reader (st_world st)) req = Ok vnet → ObjectKeyFromObject vnet = req)
    (Hr : VnetReconcile APIReader rec NSFilter req st = (r, st')) :
  let rd := cl_reader (st_world st) in
  match vnet_plan NSFilter rd req with
  | Err e => r = Err e ∧ stored st' = stored st
  | Ok None => r = Ok Finished ∧ stored st' = stored st
  | Ok (Some plan) =>
      confined (vnet_own req plan) plan (stored st) (stored st') ∧
      (∀ out, r = Ok out →
        reconciled (vnet_own req plan) (filter (live_namespace rd) plan) (stored st) (stored st'))
  end.
Proof.
  apply observed_inv in Hr as (st1 & Hr & Hw%stored_world). rewrite Hw. clear Hw.
  rewrite bind_try in Hr. cbn [read fst snd] in Hr. unfold vnet_plan. cbv zeta.
  destruct (get_vnet _ req) as [vnet|e] eqn:Eg.
  - apply reconcile_vnet_inv in Hr. rewrite (Hkey _ eq_refl) in Hr. cbv zeta in Hr.
    destruct (m_deleting _); [done|]. destruct (negb (is_dns_label _)); [done|].
    destruct (Manages _ _ _) as [hm|]; [|done]. simpl. destruct (negb _ && _); [done|].
    by destruct (discoverMembers _ _ _).
  - destruct (IsNotFound e); [|by injection Hr as <- <-].
    kv_silent Hr as u1 st2 Hw. rewrite <-(stored_world _ _ Hw). apply withdraw_inv in Hr. by destruct req.
Qed.

(** ** Properties *)



(** [C19] A second reconcile is quiet. On a cluster in order, the policies of the plan
    live and current, no others of this vnet, the status as the last run left it, a
    reconcile of a served vnet succeeds, writes nothing and emits no Event. *)
Theorem VnetReconcile_quiet `{K8sLib, !K8sLaws} {W} `{PolicyServer W}
    APIReader rec NSFilter req vnet members invalid (st : St W)
    (Hs : serves NSFilter (cl_reader (st_world st)) req vnet members invalid)
    (Ho : in_order APIReader st vnet members invalid) :
  let run := VnetReconcile APIReader rec NSFilter req st in
  run.1 = Ok (RequeueAfter 600) ∧ st_world run.2 = st_world st ∧
  writes_of (st_log run.2) = writes_of (st_log st) ∧ events_of (st_log run.2) = events_of (st_log st).
Proof.
  rewrite (serves_run _ _ _ _ _ _ _ _ Hs). cbv zeta. unfold observed. rewrite bind_try, (quiet_run _ _ _ _ _ _ Ho).
  cbn [fst snd]. rewrite bind_liftIO. unfold lift. cbn [fst snd]. split_and!; [done..| |].
  - unfold log_action. cbn. by rewrite !writes_of_app, !app_nil_r.
  - unfold log_action. cbn. by rewrite !events_of_app, !app_nil_r.
Qed.

Import Model.

(** The members' cluster with a membership policy of the vnet in a namespace that has
    none any more. *)
Definition vnet_cluster : Cluster :=
  set_netpols {[mkKey "dev" (PolicyName "payments" "shop") := membership_policy permits_vnet [] "dev"]}
    members_cluster.
Definition vnet_run : result Outcome * St Cluster :=
  VnetReconcile false true (NewNamespaceFilter []) (mkKey "shop" "payments") (initial vnet_cluster).
Definition vnet_filter : NamespaceFilter := NewNamespaceFilter [].

Lemma vnet_run_ok : vnet_run.1 = Ok (RequeueAfter 600).
Proof. vm_compute. reflexivity. Qed.

Definition planned (c : Cluster) (req : ObjectKey) : list NetworkPolicy :=
  match vnet_plan vnet_filter (cluster_reader c) req with Ok (Some plan) => plan | _ => [] end.


(** The members of the cluster, and the state the first reconcile leaves. *)
Definition vnet_members : Members :=
  {["shop" := {["ingress" := ["db-0"]]}; "web" := {["egress" := ["front-0"]]}]}.
Definition vnet_invalid : list InvalidJoiner := [mkInvalid "web" "typo" ReasonInvalidDirection].
Definition vnet_key : ObjectKey := mkKey "shop" "payments".

Lemma vnet_served :
  serves vnet_filter (cl_reader (st_world (initial vnet_cluster))) vnet_key permits_vnet vnet_members vnet_invalid.
Proof.
  do 3 (split; [vm_compute; reflexivity|]). split; [|vm_compute; reflexivity].
  exists true. by split; vm_compute.
Qed.


(** [in_order], as a computation. *)
Definition in_order_check (st : St Cluster) (vnet : VirtualNetwork) (members : Members)
    (invalid : list InvalidJoiner) : bool :=
  let rd := cl_reader (st_world st) in
  let plan := Generate (mkGenInput vnet members) in
  forallb (λ p, match namespaceTerminating (obj_ns p) rd with Ok _ => true | Err _ => false end &&
      match get_netpol rd (ObjectKeyFromObject p) with Ok live => policyUpToDate live p | Err _ => false end) plan &&
  match list_netpols rd (membership_options (obj_ns vnet) (obj_name vnet)) with
  | Ok l => forallb (λ q, bool_decide (ObjectKeyFromObject q ∈ policy_keys plan)) l
  | Err _ => false
  end &&
  bool_decide (vnet_status vnet =
    vnet_status (final_vnet vnet members invalid (policy_refs (filter (live_namespace rd) plan)) [])).

Lemma in_order_check_ok st vnet members invalid :
  in_order_check st vnet members invalid = true → in_order false st vnet members invalid.
Proof.
  unfold in_order_check, in_order. cbv zeta. intros [[Hp Hl]%andb_true_iff Hs%bool_decide_eq_true]%andb_true_iff.
  rewrite forallb_forall in Hp. split_and!; [..|done].
  - intros p [Ht _]%list_elem_of_In%Hp%andb_true_iff. destruct (namespaceTerminating _ _) as [b|]; [by exists b|done].
  - intros p [_ Hu]%list_elem_of_In%Hp%andb_true_iff _. unfold policy_reader.
    destruct (get_netpol _ _) as [live|] eqn:E; [|done]. exists live. by split.
  - destruct (list_netpols _ _) as [l|]; [|done]. exists l. split; [done|].
    rewrite forallb_forall in Hl. by intros q Hq%list_elem_of_In%Hl%bool_decide_eq_true.
Qed.

Definition settled : St Cluster := vnet_run.2.
Definition settled_vnet : VirtualNetwork := default permits_vnet (cl_vnets (st_world settled) !! vnet_key).

Lemma settled_served :
  serves vnet_filter (cl_reader (st_world settled)) vnet_key settled_vnet vnet_members vnet_invalid.
Proof.
  do 3 (split; [vm_compute; reflexivity|]). split; [|vm_compute; reflexivity].
  exists true. split; vm_compute; reflexivity.
Qed.

Lemma settled_in_order : in_order false settled settled_vnet vnet_members vnet_invalid.
Proof. apply in_order_check_ok. vm_compute. reflexivity. Qed.

Lemma VnetReconcile_quiet_witness :
  let run := VnetReconcile false true vnet_filter vnet_key settled in
  run.1 = Ok (RequeueAfter 600) ∧ st_world run.2 = st_world settled ∧
  writes_of (st_log run.2) = writes_of (st_log settled) ∧ events_of (st_log run.2) = events_of (st_log settled).
Proof.
  exact (VnetReconcile_quiet false true vnet_filter vnet_key settled_vnet vnet_members vnet_invalid settled
    settled_served settled_in_order).
Defined.

(** A namespace and a vnet whose names are valid labels can still give a network label
    over the 63 characters of a label value: no such policy can be applied. *)
Example network_label_overflows :
  let long c := String.concat "" (repeat c 40) in
  let vnet := mkVnet (new_meta (long "n") (long "v") ∅) (mkVnetSpec "" None) empty_vnet_status in
  let value p := get_or "" (obj_labels p) LabelNetwork in
  is_dns_label (obj_name vnet) = true ∧ is_dns_label (obj_ns vnet) = true ∧
  map (λ p, String.length (value p)) (Generate (mkGenInput vnet {["dev" := {["both" := ["db-0"]]}]})) = [81].
Proof. vm_compute. split_and!; reflexivity. Qed.
