(* ===== verification/VnetWatches.v ===== *)
(** * The watches of the vnet controller miss nothing
    (internal/controller/virtualnetwork_controller.go: SetupWithManager and its maps)

    A pod event that changes what a vnet's reconcile sees of the pod enqueues the vnet,
    and an event on a membership policy enqueues the vnet it belongs to. *)

From Stdlib Require Import Ascii.
From S2P Require Import Prelude GoStrings Types Effects Direction Names ApiServer Permits Apply.
From S2P Require Import Stamps ServicePolicies Generator Members VnetController.

(** The predicate and the map function of the pod watch, as the builder composes them. *)
Definition pod_requests (OperatorNamespace : string) (e : PodEvent) : list ObjectKey :=
  match e with
  | PodCreated p | PodDeleted p => if HasJoinLabel (Some p) then podToVnets OperatorNamespace p else []
  | PodUpdated old new =>
      if join_labels_updated (Some old) (Some new)
      then podToVnets OperatorNamespace old ++ podToVnets OperatorNamespace new else []
  end.

(** The vnets the webhooks let exist: names without dots, and [cluster] only in the
    operator's namespace. *)
Definition addressable (OperatorNamespace : string) (vnet : VirtualNetwork) : Prop :=
  Contains "." (obj_ns vnet) = false ∧ Contains "." (obj_name vnet) = false ∧
  (obj_name vnet = SystemVnetCluster → obj_ns vnet = OperatorNamespace ∧ OperatorNamespace ≠ "").

(** The pod matters to the vnet's reconcile. *)
Definition concerns (vnet : VirtualNetwork) (p : Pod) : Prop :=
  userVals vnet p ≠ [] ∨ isStampedMember p (sysKey vnet) = true.

Instance concerns_dec vnet p : Decision (concerns vnet p).
Proof. unfold concerns. apply _. Defined.

(** ** Facts *)

Lemma CutPrefix_user_net s : CutPrefix (LabelSystemNetPrefix +:+ s) userJoinPrefix = None.
Proof. done. Qed.

Lemma label_request_net op ns suffix k :
  k = userJoinPrefix +:+ suffix ∨ k = LabelSystemNetPrefix +:+ suffix →
  label_request op ns k = Some (
    if (suffix =?? SystemVnetCluster) && negb (op =?? "") then mkKey op suffix
    else if (Cut "." suffix).2 then mkKey (Cut "." suffix).1.1 (Cut "." suffix).1.2 else mkKey ns suffix).
Proof.
  intros [-> | ->]; unfold label_request.
  - rewrite CutPrefix_app. by destruct (Cut "." suffix) as [[]].
  - rewrite CutPrefix_user_net, CutPrefix_app. by destruct (Cut "." suffix) as [[]].
Qed.

Section requests.
Context (op : string) (vnet : VirtualNetwork) (Ha : addressable op vnet).

(** The request of the dotted form of the vnet, and of its bare one. *)
Lemma request_dotted ns k :
  obj_name vnet ≠ SystemVnetCluster →
  k = userJoinPrefix +:+ dotted (obj_ns vnet) (obj_name vnet) ∨
  k = LabelSystemNetPrefix +:+ dotted (obj_ns vnet) (obj_name vnet) →
  label_request op ns k = Some (ObjectKeyFromObject vnet).
Proof.
  intros Hn Hk. rewrite (label_request_net _ _ _ _ Hk), (bool_decide_eq_false_2 (_ = SystemVnetCluster))
    by apply dotted_not_cluster.
  destruct Ha as (Hh & _). by rewrite Cut_dotted.
Qed.

Lemma request_bare ns k :
  ns = obj_ns vnet ∨ obj_name vnet = SystemVnetCluster →
  k = userJoinPrefix +:+ obj_name vnet ∨ k = LabelSystemNetPrefix +:+ obj_name vnet →
  label_request op ns k = Some (ObjectKeyFromObject vnet).
Proof.
  intros Hns Hk. rewrite (label_request_net _ _ _ _ Hk). destruct Ha as (_ & Hn & Hc).
  rewrite Cut_none by done. simpl. unfold ObjectKeyFromObject, meta_key.
  fold (obj_ns vnet) (obj_name vnet). case_bool_decide as Hcl; simpl.
  - destruct (Hc Hcl) as [-> Hop]. by rewrite bool_decide_eq_false_2.
  - by destruct Hns as [->|].
Qed.

Lemma elem_of_podToVnets p k v req :
  obj_labels p !! k = Some v → label_request op (obj_ns p) k = Some req → req ∈ podToVnets op p.
Proof.
  intros Hk Hr. unfold podToVnets. apply list_elem_of_omap. exists (k, v). split; [|done].
  by apply elem_of_map_to_list.
Qed.

(** The join labels of a pod that concerns a vnet name it. *)
Lemma concerns_label p : concerns vnet p → ∃ k v,
  obj_labels p !! k = Some v ∧ isJoinLabel k = true ∧
  label_request op (obj_ns p) k = Some (ObjectKeyFromObject vnet).
Proof.
  assert (∀ s, isJoinLabel (userJoinPrefix +:+ s) = true) as Hu
    by (intros s; unfold isJoinLabel; by rewrite HasPrefix_app).
  assert (∀ s, isJoinLabel (LabelSystemNetPrefix +:+ s) = true) as Hl
    by (intros s; unfold isJoinLabel; rewrite (HasPrefix_app LabelSystemNetPrefix); apply orb_true_r).
  intros [Hv|Hst].
  - unfold userVals in Hv.
    destruct (bool_decide (obj_ns p = obj_ns vnet) || clusterVnet vnet) eqn:Eb;
      [destruct (obj_labels p !! userBareKey vnet) as [v|] eqn:E|].
    + exists (userBareKey vnet), v. split_and!; [done|apply Hu|]. apply request_bare; [|by left].
      apply orb_true_iff in Eb as [Eb|Eb]; apply bool_decide_eq_true in Eb; auto.
    + destruct (clusterVnet vnet) eqn:Ec; [done|]. simpl in Hv.
      destruct (obj_labels p !! userPrefixedKey vnet) as [v|] eqn:E2; [|done].
      exists (userPrefixedKey vnet), v. split_and!; [done|apply Hu|]. apply request_dotted; [|by left].
      by apply bool_decide_eq_false in Ec.
    + destruct (clusterVnet vnet) eqn:Ec; [by rewrite orb_true_r in Eb|]. simpl in Hv.
      destruct (obj_labels p !! userPrefixedKey vnet) as [v|] eqn:E2; [|done].
      exists (userPrefixedKey vnet), v. split_and!; [done|apply Hu|]. apply request_dotted; [|by left].
      by apply bool_decide_eq_false in Ec.
  - unfold isStampedMember in Hst. destruct (_ =?? ""); [done|].
    destruct (obj_labels p !! sysKey vnet) as [v|] eqn:E; [|by unfold get_or in Hst; rewrite E in Hst].
    exists (sysKey vnet), v. split; [done|]. unfold sysKey, SystemLabelKey.
    case_bool_decide as Hc; (split; [apply Hl|]).
    + rewrite <-Hc. apply request_bare; auto.
    + apply request_dotted; auto.
Qed.

Lemma concerns_enqueued p : concerns vnet p →
  HasJoinLabel (Some p) = true ∧ ObjectKeyFromObject vnet ∈ podToVnets op p.
Proof.
  intros (k & v & Hk & Hj & Hr)%concerns_label. split; [|by eapply elem_of_podToVnets].
  unfold HasJoinLabel. apply Nat.ltb_lt. simpl.
  destruct (size (filter _ (obj_labels p))) eqn:E; [|lia]. apply map_size_empty_inv in E.
  assert (filter (λ kv : string * string, isJoinLabel kv.1 = true) (obj_labels p) !! k = Some v) as Hf
    by (by apply map_lookup_filter_Some_2). by rewrite E, lookup_empty in Hf.
Qed.
End requests.

(** Pods with the same join labels and marker. *)
Lemma join_label_kept old new k : join_labels_updated (Some old) (Some new) = false → isJoinLabel k = true →
  obj_labels old !! k = obj_labels new !! k.
Proof.
  intros [Hl _]%orb_false_iff Hj. kv_bools. simpl in Hl. apply option_eq. intros v.
  assert (∀ m : gmap string string,
    filter (λ kv, isJoinLabel kv.1 = true) m !! k = Some v ↔ m !! k = Some v) as Hf
    by (intros m; rewrite map_lookup_filter_Some; naive_solver).
  by rewrite <-(Hf (obj_labels old)), <-(Hf (obj_labels new)), Hl.
Qed.

Lemma sysKey_join vnet : isJoinLabel (sysKey vnet) = true.
Proof.
  unfold isJoinLabel, sysKey, SystemLabelKey.
  case_bool_decide; rewrite (HasPrefix_app LabelSystemNetPrefix); apply orb_true_r.
Qed.

Lemma stamped_kept old new vnet : join_labels_updated (Some old) (Some new) = false →
  obj_labels old !! sysKey vnet = obj_labels new !! sysKey vnet ∧
  isStampedMember old (sysKey vnet) = isStampedMember new (sysKey vnet).
Proof.
  intros Hu. pose proof (join_label_kept old new _ Hu (sysKey_join vnet)) as Hs. split; [done|].
  apply orb_false_iff in Hu as [_ Hg]. kv_bools. simpl in Hg.
  unfold isStampedMember, get_or in *. by rewrite Hg, Hs.
Qed.

Section discover.
Context `{K8sLib} (NSFilter : NamespaceFilter) (rd : Reader) (vnet : VirtualNetwork).

(** A pod that does not concern the vnet changes nothing. *)
Lemma discover_unconcerned d p : ¬ concerns vnet p → discover_pod NSFilter rd vnet d p = Ok d.
Proof.
  intros Hn. unfold discover_pod, diagnose. assert (userVals vnet p = []) as ->.
  { destruct (userVals vnet p) eqn:E; [done|]. destruct Hn. left. by rewrite E. }
  simpl. destruct (isStampedMember p (sysKey vnet)) eqn:E; [|done]. destruct Hn. by right.
Qed.

(** The reconcile reads nothing of a pod but its name, its join labels and the
    resolution marker. *)
Lemma discover_same d old new :
  ObjectKeyFromObject old = ObjectKeyFromObject new → join_labels_updated (Some old) (Some new) = false →
  discover_pod NSFilter rd vnet d old = discover_pod NSFilter rd vnet d new.
Proof.
  intros Hkey Hu. assert (obj_ns old = obj_ns new ∧ obj_name old = obj_name new) as [Hns Hname] by (by injection Hkey).
  destruct (stamped_kept old new vnet Hu) as [Hs Hm].
  assert (userVals vnet old = userVals vnet new) as Hv.
  { unfold userVals, userBareKey, userPrefixedKey.
    by rewrite Hns, !(join_label_kept old new) by (done || by unfold isJoinLabel; rewrite HasPrefix_app). }
  unfold discover_pod, diagnose, get_or. by rewrite Hv, Hns, Hname, Hm, Hs.
Qed.
End discover.

(** ** Properties *)

(** [C32] The pod watch of the vnet controller misses nothing. An event on a pod, created,
    changed or deleted, either enqueues a vnet or leaves what the vnet's reconcile
    computes of the pod as it was, whatever it has computed of the other pods; so status
    churn is ignored and a changed label, stamp or resolution marker is not. *)
Theorem pod_watch_complete `{K8sLib} op NSFilter rd vnet e
    (Ha : addressable op vnet)
    (Hkey : ∀ old new, e = PodUpdated old new → ObjectKeyFromObject old = ObjectKeyFromObject new) :
  ObjectKeyFromObject vnet ∈ pod_requests op e ∨
  ∀ d, match e with
       | PodCreated p | PodDeleted p => discover_pod NSFilter rd vnet d p = Ok d
       | PodUpdated old new => discover_pod NSFilter rd vnet d old = discover_pod NSFilter rd vnet d new
       end.
Proof.
  destruct e as [p|old new|p]; simpl.
  - destruct (decide (concerns vnet p)) as [Hc|Hc]; [left|right; intros d; by apply discover_unconcerned].
    by destruct (concerns_enqueued op vnet Ha p Hc) as [-> ?].
  - destruct (join_labels_updated _ _) eqn:Eu; [|right; intros d; by apply discover_same; [apply Hkey|]].
    destruct (decide (concerns vnet old)) as [Hc|Hc];
      [left; apply elem_of_app; left; by apply concerns_enqueued|].
    destruct (decide (concerns vnet new)) as [Hc'|Hc'];
      [left; apply elem_of_app; right; by apply concerns_enqueued|].
    right. intros d. by rewrite !discover_unconcerned.
  - destruct (decide (concerns vnet p)) as [Hc|Hc]; [left|right; intros d; by apply discover_unconcerned].
    by destruct (concerns_enqueued op vnet Ha p Hc) as [-> ?].
Qed.

Import Model.

Lemma pod_watch_complete_witness :
  mkKey "shop" "payments" ∈ pod_requests "kube-vnet"
    (PodUpdated (member_pod "web" "front-0" "egress" ∅) (member_pod "web" "front-0" "none" ∅)).
Proof.
  destruct (pod_watch_complete "kube-vnet" (NewNamespaceFilter []) permits_reader permits_vnet
    (PodUpdated (member_pod "web" "front-0" "egress" ∅) (member_pod "web" "front-0" "none" ∅))) as [He|Hd].
  - split_and!; [reflexivity..|]. intros Hc. discriminate Hc.
  - intros old new [= <- <-]. reflexivity.
  - exact He.
  - specialize (Hd (mkDiscovery ∅ [] ∅ ∅)). vm_compute in Hd. discriminate Hd.
Defined.

(** Every policy of a vnet leads back to it. A NetworkPolicy event enqueues the vnet
    whose network label it carries, so the deletion or change of a generated policy, or
    of any other policy the vnet's sweep would remove, wakes the reconcile that
    restores or removes it. *)
Theorem policyToVNet_roundtrip in_ (Hh : Contains "." (obj_ns (gi_vnet in_)) = false) p
    (Hp : p ∈ Generate in_ ∨
      selected_by (membership_options (obj_ns (gi_vnet in_)) (obj_name (gi_vnet in_))) p = true) :
  policyToVNet p = [ObjectKeyFromObject (gi_vnet in_)].
Proof.
  assert (obj_labels p !! LabelNetwork = Some (dotted (obj_ns (gi_vnet in_)) (obj_name (gi_vnet in_)))) as Hl.
  { destruct Hp as [(ns & _ & ->)%elem_of_Generate|Hs].
    - unfold membership_policy. cbv zeta. by destruct (ns =?? _).
    - unfold selected_by in Hs. kv_bools. eapply lookup_weaken; [|eassumption]. done. }
  unfold policyToVNet, get_or. rewrite Hl. unfold default. simpl (id _). by rewrite Cut_dotted.
Qed.

Lemma policyToVNet_roundtrip_witness :
  policyToVNet (membership_policy gen_vnet [] "web") = [mkKey "shop" "payments"].
Proof.
  apply (policyToVNet_roundtrip gen_input); [reflexivity|]. right. vm_compute. reflexivity.
Defined.

(** ** A namespace that a vnet stops admitting *)

(** [shop/payments] admits the namespaces labelled [team=web]. *)
Definition selector_vnet : VirtualNetwork :=
  mkVnet (new_meta "shop" "payments" ∅)
    (mkVnetSpec "" (Some (mkNSSel false [] (Some (mkSel {["team" := "web"]} []))))) empty_vnet_status.

(** The cluster with the namespace [web] under some labels. *)
Definition labelled_reader (labels : gmap string string) : Reader :=
  cluster_reader
    (mkCluster {[mkKey "web" "front-0" := member_pod "web" "front-0" "egress" ∅]}
       {["shop" := mkNamespace (new_meta "" "shop" ∅); "web" := mkNamespace (new_meta "" "web" labels)]}
       {[mkKey "shop" "payments" := selector_vnet]} ∅ ∅ ∅ ∅ ∅ [] [] [] ∅).

(** Dropping the label that admitted the namespace changes the members of the vnet,
    and the Namespace event enqueues nothing: [nsToVnets] tests the new labels only.
    The vnet is enqueued once resolution has removed the stamps. *)
Example nsToVnets_narrowed :
  let before := labelled_reader {["team" := "web"]} in
  let after := labelled_reader ∅ in
  discoverMembers (NewNamespaceFilter []) before selector_vnet = Ok ({["web" := {["egress" := ["front-0"]]}]}, []) ∧
  discoverMembers (NewNamespaceFilter []) after selector_vnet = Ok (∅, []) ∧
  nsToVnets before (mkNamespace (new_meta "" "web" {["team" := "web"]})) = [mkKey "shop" "payments"] ∧
  nsToVnets after (mkNamespace (new_meta "" "web" ∅)) = [].
Proof. vm_compute. split_and!; reflexivity. Qed.
