(* ===== verification/Isolation.v ===== *)
(** * End to end: what the operator's policies let through

    With the policies of the reconcilers in force in a namespace, the default-deny
    baseline and the membership policies of every vnet, a pod accepts a connection
    exactly from the pods it shares a vnet with, in the right directions. *)

From S2P Require Import Prelude GoStrings Types Effects Direction Names ApiServer Permits Apply.
From S2P Require Import Stamps Baseline Semantics Generator Members VnetController VnetControllerSpec.

(** ** Policies in force *)

(** The policies stored in a namespace are those of [want], as applied. *)
Definition in_force (m : gmap ObjectKey NetworkPolicy) (ns : string) (want : list NetworkPolicy) : Prop :=
  (∀ p, p ∈ want → obj_ns p = ns → ∃ live, m !! ObjectKeyFromObject p = Some live ∧ applied p live) ∧
  (∀ k live, m !! k = Some live → obj_ns live = ns → ∃ p, p ∈ want ∧ applied p live).

(** The stored policies, as the network plugin sees them. *)
Definition network_policies (m : gmap ObjectKey NetworkPolicy) : list NetworkPolicy := map snd (map_to_list m).

(** A pod resolution has been through. *)
Definition resolved (p : Pod) : Prop := get_or "" (obj_annotations p) AnnotationResolvedGeneration ≠ "".

(** Resolution has been through, or has left it no stamp. *)
Definition trusted (p : Pod) : Prop := resolved p ∨ ResolutionStamps p = ∅.

(** ** Facts *)

Lemma sysKey_stamp p vnet : ResolutionStamps p !! sysKey vnet = obj_labels p !! sysKey vnet.
Proof.
  rewrite ResolutionStamps_lookup. assert (IsResolutionManagedLabel (sysKey vnet) = true) as ->; [|done].
  unfold sysKey, SystemLabelKey. case_match; apply orb_true_iff; left; apply HasPrefix_iff; by eexists.
Qed.
Lemma stampless_sysKey p vnet : ResolutionStamps p = ∅ → obj_labels p !! sysKey vnet = None.
Proof. intros Hs. by rewrite <-sysKey_stamp, Hs, lookup_empty. Qed.

Lemma elem_of_network_policies m p : p ∈ network_policies m ↔ ∃ k, m !! k = Some p.
Proof.
  unfold network_policies. rewrite list_elem_of_fmap. split.
  - intros ([k q] & -> & Hq%elem_of_map_to_list). by exists k.
  - intros [k Hk%elem_of_map_to_list]. by exists (k, p).
Qed.

Section semantics.
Context `{K8sLaws}.

Lemma applied_ns p live : applied p live → obj_ns live = obj_ns p.
Proof. intros [Hk _]. by apply (f_equal key_ns) in Hk. Qed.

(** Only the namespace and the spec of a policy matter. *)
Lemma applied_isolates p live dst : applied p live → isolates live dst = isolates p dst.
Proof. intros Ha. unfold isolates. rewrite (applied_ns _ _ Ha). by destruct Ha as (_ & -> & _). Qed.

Lemma applied_allows p live src dst proto port :
  applied p live → policy_allows live src dst proto port = policy_allows p src dst proto port.
Proof.
  intros Ha. unfold policy_allows. rewrite (applied_isolates _ _ _ Ha), (applied_ns _ _ Ha). by destruct Ha as (_ & -> & _).
Qed.

Lemma isolates_ns p dst : isolates p dst = true → obj_ns p = obj_ns dst.
Proof. unfold isolates. intros Hi. by kv_bools. Qed.

(** With its baseline in force, a pod accepts what some policy in force allows. *)
Lemma in_force_allowed m want src dst proto port :
  in_force m (obj_ns dst) want → (∃ b, b ∈ want ∧ isolates b dst = true) →
  connection_allowed (network_policies m) src dst proto port = true ↔
  existsb (λ p, policy_allows p src dst proto port) want = true.
Proof.
  intros [H1 H2] (b & Hb & Hi). unfold connection_allowed.
  assert (existsb (λ p, isolates p dst) (network_policies m) = true) as ->.
  { destruct (H1 b Hb (isolates_ns _ _ Hi)) as (live & Hl & Ha). apply existsb_exists. exists live.
    split; [apply list_elem_of_In, elem_of_network_policies; eauto|]. by rewrite (applied_isolates _ _ _ Ha). }
  simpl. rewrite !existsb_exists. setoid_rewrite <-list_elem_of_In. split.
  - intros (live & [k Hk]%elem_of_network_policies & Hp).
    assert (obj_ns live = obj_ns dst) as Hns by (apply isolates_ns; by apply andb_true_iff in Hp as []).
    destruct (H2 _ _ Hk Hns) as (p & Hw & Ha). exists p. split; [done|].
    by rewrite <-(applied_allows _ _ _ _ _ _ Ha).
  - intros (p & Hw & Hp).
    assert (obj_ns p = obj_ns dst) as Hns by (apply isolates_ns; by apply andb_true_iff in Hp as []).
    destruct (H1 p Hw Hns) as (live & Hl & Ha). exists live.
    split; [apply elem_of_network_policies; eauto|]. by rewrite (applied_allows _ _ _ _ _ _ Ha).
Qed.

Lemma baseline_isolates dst : isolates (DesiredBaseline (obj_ns dst)) dst = true.
Proof.
  unfold isolates. simpl. rewrite selector_matches_all.
  change (obj_ns (DesiredBaseline (obj_ns dst))) with (obj_ns dst). by rewrite bool_decide_eq_true_2.
Qed.

Lemma baseline_allows src dst proto port : policy_allows (DesiredBaseline (obj_ns dst)) src dst proto port = false.
Proof. unfold policy_allows. simpl. apply andb_false_r. Qed.
End semantics.

Section members.
Context `{K8sLib} (NSFilter : NamespaceFilter) (rd : Reader) (pods : list Pod).
Context (Hpods : list_pods rd ListAll = Ok pods).

(** The pod is a member with one of the directions. *)
Definition member_in (values : list string) (vnet : VirtualNetwork) (p : Pod) : Prop :=
  ∃ dir, dir ∈ values ∧ is_member NSFilter rd vnet dir p.

(** For a trusted pod, the stamp in a namespace with the role is membership. *)
Lemma member_role values vnet members invalid p :
  (∀ d, d ∈ values → ParseBareDirection d = Some d ∧ d ≠ DirectionNone) →
  discoverMembers NSFilter rd vnet = Ok (members, invalid) →
  p ∈ pods → trusted p →
  has_role values members (obj_ns p) ∧ stamp_in values (sysKey vnet) p ↔ member_in values vnet p.
Proof.
  intros Hvals Hd Hp [Hres|Hno].
  2: { apply (stampless_sysKey _ vnet) in Hno. split.
    - intros [_ (v & Hv & _)]. congruence.
    - intros (dir & _ & _ & Hl & _). congruence. }
  apply discoverMembers_spec in Hd as (pods' & Hl & Hm & _).
  rewrite Hpods in Hl. injection Hl as <-. rewrite has_role_pods. split.
  - intros [(d & Hd & Hne) (v & Hv & Hin)]. exists v. split; [done|].
    destruct (pods_of (members_in members (obj_ns p)) d) as [|name names] eqn:E; [done|].
    destruct (proj1 (Hm (obj_ns p) d name)) as (q & _ & Hns & _ & _ & _ & He); [rewrite E; by left|].
    rewrite Hns in He. split_and!; [|done..]. unfold isStampedMember, get_or.
    rewrite bool_decide_eq_false_2 by exact Hres. rewrite Hv. simpl. destruct (Hvals v Hin) as [-> Hn].
    by rewrite bool_decide_eq_false_2.
  - intros (dir & Hin & Hmem). pose proof Hmem as (_ & Hlab & _). split; [|by exists dir].
    exists dir. split; [done|]. intros Hnil. assert (obj_name p ∈ pods_of (members_in members (obj_ns p)) dir) as Hx
      by (apply Hm; eauto). rewrite Hnil in Hx. by apply not_elem_of_nil in Hx.
Qed.
End members.

Lemma receiver_values d : d ∈ selfValuesReceiver → ParseBareDirection d = Some d ∧ d ≠ DirectionNone.
Proof. intros [->|[->|[]%not_elem_of_nil]%elem_of_cons]%elem_of_cons; by split. Qed.
Lemma initiator_values d : d ∈ peerInitiatorValues → ParseBareDirection d = Some d ∧ d ≠ DirectionNone.
Proof. intros [->|[->|[]%not_elem_of_nil]%elem_of_cons]%elem_of_cons; by split. Qed.

(** The membership policies of vnets whose members were just read. *)
Definition memberships (found : list (VirtualNetwork * Members)) : list NetworkPolicy :=
  flat_map (λ vm, Generate (mkGenInput vm.1 vm.2)) found.

(** What policies in force let through. *)
Lemma in_force_connects `{K8sLaws} NSFilter rd pods found extra m src dst proto port
    (Hpods : list_pods rd ListAll = Ok pods)
    (Hfound : ∀ vm, vm ∈ found → ∃ invalid, discoverMembers NSFilter rd vm.1 = Ok (vm.2, invalid))
    (Hm : in_force m (obj_ns dst) (DesiredBaseline (obj_ns dst) :: memberships found ++ extra))
    (Hsrc : src_pod src ∈ pods ∧ trusted (src_pod src))
    (Hdst : dst ∈ pods ∧ trusted dst)
    (Hname : src_nsLabels src !! NamespaceMetadataNameLabel = Some (obj_ns (src_pod src))) :
  connection_allowed (network_policies m) src dst proto port = true ↔
  (∃ vnet members, (vnet, members) ∈ found ∧
     member_in NSFilter rd selfValuesReceiver vnet dst ∧
     member_in NSFilter rd peerInitiatorValues vnet (src_pod src)) ∨
  existsb (λ p, policy_allows p src dst proto port) extra = true.
Proof.
  rewrite (in_force_allowed _ _ _ _ _ _ Hm) by (eexists; split; [by left|apply baseline_isolates]).
  cbn [existsb]. rewrite baseline_allows, orb_false_l, existsb_app, orb_true_iff.
  assert (existsb (λ p, policy_allows p src dst proto port) (memberships found) = true ↔
    ∃ vnet members, (vnet, members) ∈ found ∧ member_in NSFilter rd selfValuesReceiver vnet dst ∧
      member_in NSFilter rd peerInitiatorValues vnet (src_pod src)) as ->; [|done].
  assert (∀ vnet members, (vnet, members) ∈ found →
    existsb (λ p, policy_allows p src dst proto port) (Generate (mkGenInput vnet members)) = true ↔
    member_in NSFilter rd selfValuesReceiver vnet dst ∧ member_in NSFilter rd peerInitiatorValues vnet (src_pod src))
    as Hv.
  { intros vnet members Hin. destruct (Hfound _ Hin) as [invalid Hd]. destruct Hsrc, Hdst.
    rewrite <-(member_role NSFilter rd pods Hpods selfValuesReceiver vnet members invalid dst) by (auto using receiver_values).
    rewrite <-(member_role NSFilter rd pods Hpods peerInitiatorValues vnet members invalid (src_pod src))
      by (auto using initiator_values).
    rewrite Generate_allows, Hname. unfold key_of, sysKey. simpl. naive_solver. }
  rewrite existsb_exists. setoid_rewrite <-list_elem_of_In. unfold memberships. split.
  - intros (p & ([vnet members] & Hin & Hp)%elem_of_flat_map & Ha). exists vnet, members. split; [done|].
    apply (Hv vnet members Hin). apply existsb_exists. exists p. split; [by apply list_elem_of_In|done].
  - intros (vnet & members & Hin & Hmem). apply (Hv _ _ Hin), existsb_exists in Hmem as (p & Hp & Ha).
    exists p. split; [|done]. apply elem_of_flat_map. exists (vnet, members). split; [done|by apply list_elem_of_In].
Qed.

(** ** Properties *)

(** [C3] Isolation, end to end. In a namespace where the baseline, the membership policies
    of all vnets and any further policies [extra] are in force, a resolved pod accepts
    a connection exactly when it and the sending pod are members of a common vnet, the
    receiver with a receiving direction and the sender with an initiating one, or
    when one of the further policies allows it: the default is deny, vnets do not
    leak into each other, and membership is what the current cluster grants, not
    what a stamp claims. *)
Theorem vnet_isolation `{K8sLaws} NSFilter rd pods found extra m src dst proto port
    (Hpods : list_pods rd ListAll = Ok pods)
    (Hfound : ∀ vm, vm ∈ found → ∃ invalid, discoverMembers NSFilter rd vm.1 = Ok (vm.2, invalid))
    (Hm : in_force m (obj_ns dst) (DesiredBaseline (obj_ns dst) :: memberships found ++ extra))
    (Hsrc : src_pod src ∈ pods ∧ resolved (src_pod src))
    (Hdst : dst ∈ pods ∧ resolved dst)
    (Hname : src_nsLabels src !! NamespaceMetadataNameLabel = Some (obj_ns (src_pod src))) :
  connection_allowed (network_policies m) src dst proto port = true ↔
  (∃ vnet members, (vnet, members) ∈ found ∧
     member_in NSFilter rd selfValuesReceiver vnet dst ∧
     member_in NSFilter rd peerInitiatorValues vnet (src_pod src)) ∨
  existsb (λ p, policy_allows p src dst proto port) extra = true.
Proof. destruct Hsrc, Hdst. eapply in_force_connects; try done; by split; [|left]. Qed.

(** ** A cluster brought to order by the reconcilers *)

Import Model.

#[local] Instance applied_dec p live : Decision (applied p live).
Proof. unfold applied. apply _. Defined.

(** [in_force], as a computation. *)
Definition in_force_check (m : gmap ObjectKey NetworkPolicy) (ns : string) (want : list NetworkPolicy) : bool :=
  forallb (λ p, negb (obj_ns p =?? ns) ||
    match m !! ObjectKeyFromObject p with Some live => bool_decide (applied p live) | None => false end) want &&
  forallb (λ kp, negb (obj_ns kp.2 =?? ns) || existsb (λ p, bool_decide (applied p kp.2)) want) (map_to_list m).

Lemma in_force_check_ok m ns want : in_force_check m ns want = true → in_force m ns want.
Proof.
  unfold in_force_check. intros [H1 H2]%andb_true_iff. rewrite forallb_forall in H1, H2. split.
  - intros p Hp%list_elem_of_In%H1 Hns. rewrite bool_decide_eq_true_2 in Hp by done. simpl in Hp.
    destruct (m !! _) as [live|]; [|done]. exists live. by apply bool_decide_eq_true in Hp.
  - intros k live Hk%elem_of_map_to_list%list_elem_of_In%H2 Hns. simpl in Hk.
    rewrite bool_decide_eq_true_2 in Hk by done. simpl in Hk.
    apply existsb_exists in Hk as (p & Hp%list_elem_of_In & Ha%bool_decide_eq_true). by exists p.
Qed.

(** The stored policies after the namespace and the vnet reconcile. *)
Definition isolation_policies : gmap ObjectKey NetworkPolicy :=
  stored (VnetReconcile false true vnet_filter vnet_key
    (NamespaceReconcile vnet_filter true "shop" (initial vnet_cluster)).2).2.
Definition isolation_db : Pod := member_pod "shop" "db-0" "ingress" ∅.
Definition isolation_source (ns name dir : string) : PodSource :=
  mkPodSource (member_pod ns name dir ∅) {[NamespaceMetadataNameLabel := ns]}.

(** [front-0] of the admitted namespace reaches the database; the pod with a stale stamp
    in another namespace does not. *)
Lemma vnet_isolation_witness :
  (connection_allowed (network_policies isolation_policies) (isolation_source "web" "front-0" "egress")
     isolation_db "TCP" 5432 = true ∧
   member_in vnet_filter (cluster_reader vnet_cluster) peerInitiatorValues permits_vnet
     (member_pod "web" "front-0" "egress" ∅)) ∧
  connection_allowed (network_policies isolation_policies) (isolation_source "dev" "stale" "both")
    isolation_db "TCP" 5432 = false ∧
  ¬ member_in vnet_filter (cluster_reader vnet_cluster) peerInitiatorValues permits_vnet
      (member_pod "dev" "stale" "both" ∅).
Proof.
  set (pods := objects (cl_pods vnet_cluster)).
  assert (list_pods (cluster_reader vnet_cluster) ListAll = Ok pods) as Hl by (vm_compute; reflexivity).
  assert (in_force isolation_policies "shop"
    (DesiredBaseline "shop" :: memberships [(permits_vnet, vnet_members)] ++ [])) as Hm
    by (apply in_force_check_ok; vm_compute; reflexivity).
  assert (∀ p, p ∈ [member_pod "web" "front-0" "egress" ∅; member_pod "dev" "stale" "both" ∅; isolation_db] →
    p ∈ pods ∧ resolved p) as Hp.
  { apply Forall_forall. unfold resolved. kv_decide. }
  assert (∀ vm : VirtualNetwork * Members, vm ∈ [(permits_vnet, vnet_members)] →
    ∃ invalid, discoverMembers vnet_filter (cluster_reader vnet_cluster) vm.1 = Ok (vm.2, invalid)) as Hf.
  { intros vm ->%list_elem_of_singleton. exists vnet_invalid. vm_compute. reflexivity. }
  pose proof (λ src Hs Hn, vnet_isolation vnet_filter (cluster_reader vnet_cluster) pods [(permits_vnet, vnet_members)] []
    isolation_policies src isolation_db "TCP" 5432 Hl Hf Hm Hs (Hp isolation_db ltac:(by do 2 right; left)) Hn) as Hiso.
  assert (connection_allowed (network_policies isolation_policies) (isolation_source "web" "front-0" "egress")
    isolation_db "TCP" 5432 = true) as Hyes by (vm_compute; reflexivity).
  assert (connection_allowed (network_policies isolation_policies) (isolation_source "dev" "stale" "both")
    isolation_db "TCP" 5432 = false) as Hno by (vm_compute; reflexivity).
  refine (conj (conj Hyes _) (conj Hno _)).
  - apply Hiso in Hyes; [|apply Hp; by left|reflexivity].
    destruct Hyes as [(vnet & members & Hin & _ & Hmem)|Hc]; [|discriminate Hc].
    apply list_elem_of_singleton in Hin. injection Hin as -> _. exact Hmem.
  - intros Hmem. apply not_true_iff_false in Hno. apply Hno. apply Hiso; [apply Hp; by right; left|reflexivity|].
    left. exists permits_vnet, vnet_members. split; [by left|]. split; [|exact Hmem].
    exists "ingress". split; [by right; left|].
    split; [reflexivity|]. split; [reflexivity|]. split; vm_compute; reflexivity.
Defined.
