(* ===== verification/Durations.v ===== *)
(** * Go's durations (time.ParseDuration, time.Duration.String)

    The part of the standard library that reads the network wait's annotation and
    writes the argument of the container that waits. A duration is a number of
    nanoseconds, an int64. *)

From Stdlib Require Import Ascii.
From S2P Require Import Prelude GoStrings.

#[local] Open Scope Z_scope.

Definition Nanosecond : Z := 1.
Definition Microsecond : Z := 1000.
Definition Millisecond : Z := 1000 * Microsecond.
Definition Second : Z := 1000 * Millisecond.
Definition Minute : Z := 60 * Second.
Definition Hour : Z := 60 * Minute.

Definition max_int64 : Z := 2 ^ 63 - 1.

Definition is_digit (c : ascii) : bool := (48 <=? N_of_ascii c)%N && (N_of_ascii c <=? 57)%N.
Definition digit_value (c : ascii) : Z := Z.of_N (N_of_ascii c) - 48.

(** The longest prefix of characters that satisfy [f], and the rest. *)
Fixpoint span (f : ascii → bool) (s : string) : string * string :=
  match s with
  | "" => ("", "")
  | String c s' => if f c then (String c (span f s').1, (span f s').2) else ("", s)
  end.

Fixpoint digits_value (acc : Z) (s : string) : Z :=
  match s with
  | "" => acc
  | String c s' => digits_value (10 * acc + digit_value c) s'
  end.

(** The micro sign, in either of its two code points, and an "s". *)
Definition micro_us : string := String "194"%char (String "181"%char "s").
Definition mu_us : string := String "206"%char (String "188"%char "s").

Definition unit_of (u : string) : option Z :=
  if u =?? "ns" then Some Nanosecond
  else if (u =?? "us") || (u =?? micro_us) || (u =?? mu_us) then Some Microsecond
  else if u =?? "ms" then Some Millisecond
  else if u =?? "s" then Some Second
  else if u =?? "m" then Some Minute
  else if u =?? "h" then Some Hour
  else None.

(** One [<number><unit>] group: its nanoseconds and the rest. The fraction is
    rounded down; the code computes it in a float64, which may be one nanosecond off. *)
Definition parse_group (s : string) : option (Z * string) :=
  let '(whole, s1) := span is_digit s in
  let '(frac, s2) := match s1 with
                     | String "." s' => span is_digit s'
                     | _ => ("", s1)
                     end in
  if (whole =?? "") && (frac =?? "") then None
  else
    let '(u, rest) := span (λ c, negb (is_digit c || (c =?? "."%char))) s2 in
    unit ← unit_of u;
    let v := digits_value 0 whole in
    if 2 ^ 63 <? v then None
    else if 2 ^ 63 / unit <? v then None
    else
      let total := v * unit + digits_value 0 frac * unit / 10 ^ Z.of_nat (String.length frac) in
      if 2 ^ 63 <? total then None else Some (total, rest).

(** The loop over the groups; every group consumes at least two characters, so the
    length of the string is fuel enough. *)
Fixpoint parse_groups (fuel : nat) (d : Z) (s : string) : option Z :=
  match fuel, s with
  | _, "" => Some d
  | O, _ => None
  | S fuel, _ =>
      '(v, rest) ← parse_group s;
      if 2 ^ 63 <? d + v then None else parse_groups fuel (d + v) rest
  end.

Definition parse_magnitude (s : string) : option Z :=
  if s =?? "0" then Some 0
  else if s =?? "" then None
  else parse_groups (String.length s) 0 s.

(** [time.ParseDuration]; [None] is its error. *)
Definition ParseDuration (s : string) : option Z :=
  match s with
  | String "-" s' => d ← parse_magnitude s'; Some (- d)
  | String "+" s' => d ← parse_magnitude s'; if max_int64 <? d then None else Some d
  | _ => d ← parse_magnitude s; if max_int64 <? d then None else Some d
  end.

(** ** Formatting *)

(** The last [n] decimal digits of a number. *)
Fixpoint low_digits (n : nat) (v : Z) : string :=
  match n with
  | O => ""
  | S n => low_digits n (v / 10) +:+ pretty (v mod 10)
  end.

(** A string without the zeros at its end. *)
Fixpoint trim_zeros (s : string) : string :=
  match s with
  | "" => ""
  | String c s' => let t := trim_zeros s' in if (c =?? "0"%char) && (t =?? "") then "" else String c t
  end.

(** [fmtFrac]: a number with [prec] decimals, without trailing zeros. *)
Definition fixed_point (v : Z) (prec : nat) : string :=
  let frac := trim_zeros (low_digits prec v) in
  pretty (v / 10 ^ Z.of_nat prec) +:+ (if frac =?? "" then "" else "." +:+ frac).

(** [Duration.String], for durations that are not negative. *)
Definition Duration_String (d : Z) : string :=
  if d =?? 0 then "0s"
  else if d <? Microsecond then pretty d +:+ "ns"
  else if d <? Millisecond then fixed_point d 3 +:+ micro_us
  else if d <? Second then fixed_point d 6 +:+ "ms"
  else
    let secs := fixed_point (d mod Minute) 9 +:+ "s" in
    let m := d / Minute in
    if m =?? 0 then secs
    else
      let mins := pretty (m mod 60) +:+ "m" +:+ secs in
      let h := m / 60 in
      if h =?? 0 then mins else pretty h +:+ "h" +:+ mins.

Example parse_30s : ParseDuration "30s" = Some (30 * Second).
Proof. vm_compute. reflexivity. Qed.
Example parse_mixed : ParseDuration "-1h2m1.5s" = Some (- (Hour + 2 * Minute + 1500 * Millisecond)).
Proof. vm_compute. reflexivity. Qed.
Example parse_bad :
  map ParseDuration [""; "3"; "-"; "s"; "."; "1.s"; "3000000h"; "1d"; "-0"; "0"] =
  [None; None; None; None; None; Some Second; None; None; Some 0; Some 0].
Proof. vm_compute. reflexivity. Qed.
Example print_mixed : map Duration_String [0; 7; 1500; 30 * Second; Hour; 61500000000] =
  ["0s"; "7ns"; "1.5" +:+ micro_us; "30s"; "1h0m0s"; "1m1.5s"].
Proof. vm_compute. reflexivity. Qed.
