(* ===== verification/DurationsSpec.v ===== *)
(** * A formatted duration parses to itself (time.Duration.String, time.ParseDuration)

    The webhook writes a duration that the wait container parses. *)

From Stdlib Require Import Ascii.
From S2P Require Import Prelude GoStrings Durations.

#[local] Open Scope Z_scope.

(** ** Digits *)

Fixpoint all_chars (f : ascii → bool) (s : string) : bool :=
  match s with "" => true | String c s' => f c && all_chars f s' end.

(** The string is empty or starts with a character that does not satisfy [f]. *)
Definition stops (f : ascii → bool) (s : string) : Prop :=
  match s with "" => True | String c _ => f c = false end.

Lemma all_chars_app f a b : all_chars f (a +:+ b) = all_chars f a && all_chars f b.
Proof. induction a as [|c a IH]; simpl; [done|]. rewrite IH. apply andb_assoc. Qed.

Lemma span_app f a b : all_chars f a = true → stops f b → span f (a +:+ b) = (a, b).
Proof.
  intros Ha Hb. induction a as [|c a IH]; simpl in *.
  - destruct b as [|c b]; [done|]. simpl in *. by rewrite Hb.
  - apply andb_true_iff in Ha as [-> Ha]. by rewrite IH.
Qed.

Lemma digits_value_app acc a b : digits_value acc (a +:+ b) = digits_value (digits_value acc a) b.
Proof. revert acc. induction a as [|c a IH]; intros acc; simpl; [done|apply IH]. Qed.

Lemma digit_char (x : N) : (x < 10)%N →
  is_digit (pretty_N_char x) = true ∧ digit_value (pretty_N_char x) = Z.of_N x.
Proof.
  intros Hx. assert (x = 0 ∨ x = 1 ∨ x = 2 ∨ x = 3 ∨ x = 4 ∨ x = 5 ∨ x = 6 ∨ x = 7 ∨ x = 8 ∨ x = 9)%N as Hc by lia.
  by repeat destruct Hc as [-> |Hc]; subst.
Qed.

Lemma pretty_N_go_digits x s : all_chars is_digit s = true →
  all_chars is_digit (pretty_N_go x s) = true ∧
  digits_value 0 (pretty_N_go x s) = digits_value (Z.of_N x) s.
Proof.
  revert s. induction (N.lt_wf_0 x) as [x _ IH]. intros s Hs.
  destruct (decide (x = 0)%N) as [->|Hx]; [by rewrite pretty_N_go_0|].
  rewrite pretty_N_go_step by lia. destruct (digit_char (x `mod` 10)) as [H1 H2]; [by apply N.mod_lt|].
  destruct (IH (x `div` 10)%N) with (s := String (pretty_N_char (x `mod` 10)) s) as [H3 H4].
  - apply N.div_lt; lia.
  - simpl. by rewrite H1.
  - split; [done|]. rewrite H4. simpl. rewrite H2. f_equal.
    pose proof (N.div_mod x 10). lia.
Qed.

Lemma pretty_digits (z : Z) : 0 ≤ z →
  all_chars is_digit (pretty z) = true ∧ digits_value 0 (pretty z) = z ∧ pretty z ≠ "".
Proof.
  intros Hz. destruct (decide (z = 0)) as [->|Hne]; [done|].
  assert (pretty z = pretty_N_go (Z.to_N z) "") as E.
  { destruct z as [|p|p]; [done| |done]. change (pretty (Z.pos p)) with (pretty (N.pos p)).
    unfold pretty, pretty_N. by rewrite decide_False. }
  destruct (pretty_N_go_digits (Z.to_N z) "" eq_refl) as [H1 H2].
  split_and!; [by rewrite E|rewrite E, H2; simpl; lia|apply pretty_Z_nonempty].
Qed.

Lemma stops_pretty f z s : 0 ≤ z → (∀ c, is_digit c = true → f c = false) → stops f (pretty z +:+ s).
Proof.
  intros Hz Hf. destruct (pretty_digits z Hz) as (Hd & _ & Hne). destruct (pretty z) as [|c p]; [done|].
  simpl in *. apply andb_true_iff in Hd as [Hd _]. by apply Hf.
Qed.

(** ** One group: a number and a unit *)

Lemma low_digits_spec n v : 0 ≤ v →
  all_chars is_digit (low_digits n v) = true ∧ String.length (low_digits n v) = n ∧
  digits_value 0 (low_digits n v) = v mod 10 ^ Z.of_nat n.
Proof.
  revert v. induction n as [|n IH]; intros v Hv; simpl low_digits.
  { split_and!; [done..|]. simpl. by rewrite Z.mod_1_r. }
  assert (0 ≤ v / 10) as Hd by (apply Z.div_pos; lia). destruct (IH _ Hd) as (H1 & H2 & H3).
  assert (0 ≤ v mod 10 < 10) as Hm by (apply Z.mod_pos_bound; lia).
  destruct (pretty_digits (v mod 10)) as (P1 & P2 & _); [lia|].
  assert (pretty (v mod 10) = String (pretty_N_char (Z.to_N (v mod 10))) "") as Ep.
  { assert (∀ x, 0 ≤ x < 10 → pretty x = String (pretty_N_char (Z.to_N x)) "") as Hx; [|by apply Hx].
    intros x Hx. assert (x = 0 ∨ x = 1 ∨ x = 2 ∨ x = 3 ∨ x = 4 ∨ x = 5 ∨ x = 6 ∨ x = 7 ∨ x = 8 ∨ x = 9) as Hc by lia.
    by repeat destruct Hc as [-> |Hc]; subst. }
  split_and!.
  - by rewrite all_chars_app, H1, P1.
  - rewrite length_app_str, H2, Ep. simpl. lia.
  - rewrite digits_value_app, H3. rewrite Ep in P2 |- *. simpl in *.
    replace (Z.of_nat (S n)) with (Z.of_nat n + 1) by lia. rewrite Z.pow_add_r by lia. change (10 ^ 1) with 10.
    rewrite (Z.mul_comm (10 ^ Z.of_nat n)), Z.rem_mul_r by lia. lia.
Qed.

Lemma trim_zeros_spec s : all_chars is_digit s = true →
  all_chars is_digit (trim_zeros s) = true ∧ (String.length (trim_zeros s) ≤ String.length s)%nat ∧
  ∀ acc, digits_value acc s =
    digits_value acc (trim_zeros s) * 10 ^ Z.of_nat (String.length s - String.length (trim_zeros s)).
Proof.
  induction s as [|c s IH]; intros Hs; [split_and!; [done..|]; intros acc; simpl; lia|].
  simpl in Hs. apply andb_true_iff in Hs as [Hc Hs]. destruct (IH Hs) as (H1 & H2 & H3).
  simpl trim_zeros. destruct ((c =?? "0"%char) && _) eqn:E.
  - apply andb_true_iff in E as [->%bool_decide_eq_true Et%bool_decide_eq_true].
    split_and!; [done|simpl; lia|]. intros acc. simpl. rewrite H3, Et. simpl.
    replace (digit_value "0") with 0 by reflexivity. rewrite Nat.sub_0_r.
    replace (Z.of_nat (S (String.length s))) with (1 + Z.of_nat (String.length s)) by lia.
    rewrite Z.pow_add_r by lia. lia.
  - split_and!; [simpl; by rewrite Hc|simpl; lia|]. intros acc. simpl. apply H3.
Qed.

(** The printed number with [prec] decimals and its unit of [10 ^ prec] parse to the value. *)
Lemma parse_fixed_point v prec u rest unit :
  0 ≤ v ≤ max_int64 → unit = 10 ^ Z.of_nat prec → unit_of u = Some unit →
  all_chars (λ c, negb (is_digit c || (c =?? "."%char))) u = true → stops (λ c, negb (is_digit c || (c =?? "."%char))) rest →
  u ≠ "" →
  parse_group (fixed_point v prec +:+ u +:+ rest) = Some (v, rest).
Proof.
  intros Hv Hunit Hu Hall Hrest Hne. unfold fixed_point. set (frac := trim_zeros (low_digits prec v)).
  destruct (low_digits_spec prec v) as (L1 & L2 & L3); [lia|].
  destruct (trim_zeros_spec _ L1) as (T1 & T2 & T3). fold frac in T1, T2, T3.
  assert (0 < unit) as Hpos by (subst unit; apply Z.pow_pos_nonneg; lia).
  assert (0 ≤ v / unit) as Hdiv by (apply Z.div_pos; lia).
  destruct (pretty_digits (v / unit) Hdiv) as (P1 & P2 & P3). rewrite <-Hunit.
  assert (stops is_digit (u +:+ rest)) as Hstop.
  { destruct u as [|c u]; [done|]. simpl in *. apply andb_true_iff in Hall as [Hc _]. by destruct (is_digit c). }
  assert (digits_value 0 frac * unit / 10 ^ Z.of_nat (String.length frac) = v mod unit) as Hfrac.
  { subst unit. rewrite <-L3, (T3 0). set (k := String.length frac).
    replace (Z.of_nat prec) with (Z.of_nat (prec - k) + Z.of_nat k) by (subst k; lia).
    rewrite L2, Z.pow_add_r, Z.mul_assoc by lia. apply Z.div_mul. apply Z.pow_nonzero; lia. }
  assert (∀ whole fr, whole = pretty (v / unit) → fr = frac →
    (if (whole =?? "") && (fr =?? "") then None
     else let '(u', rest') := span (λ c, negb (is_digit c || (c =?? "."%char))) (u +:+ rest) in
       unit' ← unit_of u';
       let v' := digits_value 0 whole in
       if 2 ^ 63 <? v' then None
       else if 2 ^ 63 / unit' <? v' then None
       else let total := v' * unit' + digits_value 0 fr * unit' / 10 ^ Z.of_nat (String.length fr) in
         if 2 ^ 63 <? total then None else Some (total, rest')) = Some (v, rest)) as Hend.
  { intros whole fr -> ->. rewrite (bool_decide_eq_false_2 (pretty _ = "")) by done. simpl andb. cbv iota.
    rewrite span_app by done. rewrite Hu. simpl mbind. cbv zeta. rewrite P2, Hfrac.
    assert (v / unit * unit + v mod unit = v) as Hval by (pose proof (Z.div_mod v unit); lia).
    assert (v / unit ≤ v) by (apply Z.div_le_upper_bound; nia).
    assert (v / unit ≤ 2 ^ 63 / unit) by (apply Z.div_le_mono; unfold max_int64 in *; lia).
    unfold max_int64 in *.
    destruct (Z.ltb_spec (2 ^ 63) (v / unit)); [lia|]. destruct (Z.ltb_spec (2 ^ 63 / unit) (v / unit)); [lia|].
    rewrite Hval. destruct (Z.ltb_spec (2 ^ 63) v); [lia|]. done. }
  unfold parse_group. case_bool_decide as Ef.
  - rewrite app_nil_r_str, span_app by done.
    assert (match u +:+ rest with String "." s' => span is_digit s' | _ => ("", u +:+ rest) end = ("", u +:+ rest)) as ->.
    { destruct u as [|c u]; [done|]. simpl in *. apply andb_true_iff in Hall as [Hc _].
      destruct c as [[] [] [] [] [] [] [] []]; done. }
    apply Hend; [done|by rewrite Ef].
  - rewrite (app_assoc_str (pretty _)). rewrite span_app by done. simpl.
    rewrite span_app by done. apply Hend; [done|done].
Qed.

Definition unit_char (c : ascii) : bool := negb (is_digit c || (c =?? "."%char)).

(** A whole number and its unit. *)
Lemma parse_whole v u rest unit :
  0 ≤ v → 0 < unit → v * unit ≤ max_int64 → unit_of u = Some unit →
  all_chars unit_char u = true → stops unit_char rest → u ≠ "" →
  parse_group (pretty v +:+ u +:+ rest) = Some (v * unit, rest).
Proof.
  intros Hv Hpos Hmax Hu Hall Hrest Hne. destruct (pretty_digits v Hv) as (P1 & P2 & P3).
  assert (stops is_digit (u +:+ rest)) as Hstop.
  { destruct u as [|c u]; [done|]. unfold unit_char in *. simpl in *.
    apply andb_true_iff in Hall as [Hc _]. by destruct (is_digit c). }
  unfold parse_group. rewrite span_app by done.
  assert (match u +:+ rest with String "." s' => span is_digit s' | _ => ("", u +:+ rest) end = ("", u +:+ rest)) as ->.
  { destruct u as [|c u]; [done|]. simpl in *. apply andb_true_iff in Hall as [Hc _].
    destruct c as [[] [] [] [] [] [] [] []]; done. }
  rewrite (bool_decide_eq_false_2 (pretty _ = "")) by done. simpl andb. cbv iota.
  fold unit_char. rewrite span_app by done. rewrite Hu. simpl mbind. cbv zeta. rewrite P2. simpl.
  rewrite Z.div_1_r, Z.add_0_r. unfold max_int64 in *.
  assert (v ≤ 2 ^ 63 / unit) by (apply Z.div_le_lower_bound; lia).
  destruct (Z.ltb_spec (2 ^ 63) v); [nia|]. destruct (Z.ltb_spec (2 ^ 63 / unit) v); [lia|].
  by destruct (Z.ltb_spec (2 ^ 63) (v * unit)); [lia|].
Qed.

Lemma parse_groups_step f d s v rest :
  s ≠ "" → parse_group s = Some (v, rest) → d + v ≤ 2 ^ 63 →
  parse_groups (S f) d s = parse_groups f (d + v) rest.
Proof.
  intros Hs Hg Hd. destruct s as [|c s]; [done|]. unfold parse_groups at 1. fold parse_groups. rewrite Hg. simpl mbind. cbv iota.
  by destruct (Z.ltb_spec (2 ^ 63) (d + v)); [lia|].
Qed.

Lemma parse_groups_mono f f' d s r : (f ≤ f')%nat → parse_groups f d s = Some r → parse_groups f' d s = Some r.
Proof.
  revert f' d s. induction f as [|f IH]; intros f' d s Hf; destruct s as [|c s]; simpl; [by destruct f'|done|by destruct f'|].
  destruct f' as [|f']; [lia|]. simpl. destruct (parse_group _) as [[v rest]|]; [|done]. simpl.
  destruct (2 ^ 63 <? d + v); [done|]. apply IH. lia.
Qed.

(** A string of groups that starts with a digit. *)
Lemma ParseDuration_groups s d k :
  stops unit_char s → s ≠ "0" → s ≠ "" → (k ≤ String.length s)%nat →
  parse_groups k 0 s = Some d → d ≤ max_int64 → ParseDuration s = Some d.
Proof.
  intros Hs H0 Hne Hk Hp Hd.
  assert (parse_magnitude s = Some d) as Hm.
  { unfold parse_magnitude. rewrite !bool_decide_eq_false_2 by done. by eapply parse_groups_mono. }
  assert (ParseDuration s = (d' ← parse_magnitude s; if max_int64 <? d' then None else Some d')) as ->.
  { destruct s as [|c s]; [done|]. unfold unit_char in Hs. simpl in Hs.
    destruct c as [[] [] [] [] [] [] [] []]; done. }
  rewrite Hm. simpl. by destruct (Z.ltb_spec max_int64 d); [lia|].
Qed.

Lemma fixed_point_shape v prec : 0 ≤ v → ∃ c s, fixed_point v prec = String c s ∧ is_digit c = true.
Proof.
  intros Hv. unfold fixed_point. assert (0 ≤ v / 10 ^ Z.of_nat prec) as Hd.
  { apply Z.div_pos; [done|]. apply Z.pow_pos_nonneg; lia. }
  destruct (pretty_digits _ Hd) as (P1 & _ & P3). destruct (pretty _) as [|c s]; [done|].
  simpl in *. apply andb_true_iff in P1 as [Hc _]. by eexists _, _.
Qed.

Lemma digit_not_unit c : is_digit c = true → unit_char c = false.
Proof. unfold unit_char. by intros ->. Qed.

(** [s] is [k] groups that add up to [d]. *)
Definition printed (k : nat) (d : Z) (s : string) : Prop :=
  stops unit_char s ∧ (k < String.length s)%nat ∧
  ∀ d0, 0 ≤ d0 → d0 + d ≤ 2 ^ 63 → parse_groups k d0 s = Some (d0 + d).

Lemma printed_parses k d s : printed k d s → (1 ≤ k)%nat → 0 ≤ d ≤ max_int64 → ParseDuration s = Some d.
Proof.
  intros (H1 & H2 & H3) Hk Hd. apply (ParseDuration_groups s d k); [done|..|lia|by apply H3; unfold max_int64 in *; lia|lia].
  - intros ->. simpl in H2. lia.
  - intros ->. simpl in H2. lia.
Qed.

Lemma printed_last v prec u unit :
  0 ≤ v ≤ max_int64 → unit = 10 ^ Z.of_nat prec → unit_of u = Some unit →
  all_chars unit_char u = true → u ≠ "" → printed 1 v (fixed_point v prec +:+ u).
Proof.
  intros Hv Hunit Hu Hall Hne. destruct (fixed_point_shape v prec) as (c & s & E & Hc); [lia|]. split_and!.
  - rewrite E. simpl. by apply digit_not_unit.
  - rewrite E. simpl. rewrite length_app_str. destruct u; [done|]. simpl. lia.
  - intros d0 H0 Hd0. rewrite (parse_groups_step 0 d0 _ v ""); [done|by rewrite E| |lia].
    rewrite <-(app_nil_r_str u). by apply (parse_fixed_point v prec u "" unit).
Qed.

Lemma printed_whole k d m u unit rest :
  printed k d rest → 0 ≤ d → 0 ≤ m → 0 < unit → m * unit ≤ max_int64 → unit_of u = Some unit →
  all_chars unit_char u = true → u ≠ "" → printed (S k) (m * unit + d) (pretty m +:+ u +:+ rest).
Proof.
  intros (H1 & H2 & H3) Hd Hm Hpos Hmax Hu Hall Hne. destruct (pretty_digits m Hm) as (P1 & _ & P3). split_and!.
  - by apply stops_pretty, digit_not_unit.
  - rewrite !length_app_str. destruct (pretty m); [done|]. simpl. lia.
  - intros d0 H0 Hd0. rewrite (parse_groups_step k d0 _ (m * unit) rest).
    + rewrite H3 by nia. f_equal. lia.
    + by destruct (pretty m).
    + by apply parse_whole.
    + lia.
Qed.

Lemma Duration_String_printed d : 0 < d ≤ max_int64 → ∃ k, (1 ≤ k)%nat ∧ printed k d (Duration_String d).
Proof.
  intros Hd. unfold Duration_String. rewrite bool_decide_eq_false_2 by lia.
  destruct (Z.ltb_spec d Microsecond).
  { exists 1%nat. split; [done|]. assert (pretty d = fixed_point d 0) as ->.
    { unfold fixed_point. simpl. by rewrite Z.div_1_r, app_nil_r_str. }
    apply (printed_last d 0 "ns" 1); [lia|done..]. }
  destruct (Z.ltb_spec d Millisecond).
  { exists 1%nat. split; [done|]. apply (printed_last d 3 micro_us Microsecond); [lia|done..]. }
  destruct (Z.ltb_spec d Second).
  { exists 1%nat. split; [done|]. apply (printed_last d 6 "ms" Millisecond); [lia|done..]. }
  assert (0 < Minute) as Hmin by done. cbv zeta.
  pose proof (Z.mod_pos_bound d Minute Hmin) as Hmod. pose proof (Z.div_mod d Minute) as Hdm.
  assert (0 ≤ d / Minute) as Hq by (apply Z.div_pos; lia).
  assert (printed 1 (d mod Minute) (fixed_point (d mod Minute) 9 +:+ "s")) as Hsec.
  { apply (printed_last (d mod Minute) 9 "s" Second); try done. unfold Minute, Second, Millisecond, Microsecond, max_int64 in *. lia. }
  case_bool_decide as Hm0.
  { exists 1%nat. split; [done|]. replace d with (d mod Minute) at 1 by lia. exact Hsec. }
  set (m := d / Minute) in *. pose proof (Z.mod_pos_bound m 60) as Hmm. pose proof (Z.div_mod m 60) as Hmd.
  assert (0 ≤ m / 60) as Hh by (apply Z.div_pos; lia). assert (Hour = 60 * Minute) as HH by done.
  assert (printed 2 (m mod 60 * Minute + d mod Minute) (pretty (m mod 60) +:+ "m" +:+ fixed_point (d mod Minute) 9 +:+ "s"))
    as Hmins by (apply printed_whole; try done; try lia; nia).
  case_bool_decide as Hh0.
  { exists 2%nat. split; [lia|]. replace d with (m mod 60 * Minute + d mod Minute) at 1 by nia. exact Hmins. }
  exists 3%nat. split; [lia|].
  replace d with (m / 60 * Hour + (m mod 60 * Minute + d mod Minute)) at 1 by nia.
  apply printed_whole; try done; try lia; nia.
Qed.

(** A duration that is not negative is read back as it was printed. *)
Lemma ParseDuration_String d : 0 ≤ d ≤ max_int64 → ParseDuration (Duration_String d) = Some d.
Proof.
  intros Hd. destruct (decide (d = 0)) as [->|]; [done|].
  destruct (Duration_String_printed d) as (k & Hk & Hp); [lia|]. by apply (printed_parses k).
Qed.

(** ** What parses is a duration *)

Lemma span_chars f s : all_chars f (span f s).1 = true.
Proof. induction s as [|c s IH]; simpl; [done|]. destruct (f c) eqn:E; simpl; [by rewrite E|done]. Qed.

Lemma digit_value_pos c : is_digit c = true → 0 ≤ digit_value c.
Proof.
  unfold is_digit, digit_value. intros [H1%N.leb_le H2%N.leb_le]%andb_true_iff. lia.
Qed.

Lemma digits_value_pos s acc : 0 ≤ acc → all_chars is_digit s = true → 0 ≤ digits_value acc s.
Proof.
  revert acc. induction s as [|c s IH]; intros acc Ha Hs; simpl in *; [done|].
  apply andb_true_iff in Hs as [Hc%digit_value_pos Hs]. apply IH; [lia|done].
Qed.

Lemma unit_of_pos u unit : unit_of u = Some unit → 0 < unit.
Proof. unfold unit_of. intros Hu. repeat (case_match; simplify_eq; try done). Qed.

Lemma parse_group_pos s v rest : parse_group s = Some (v, rest) → 0 ≤ v.
Proof.
  unfold parse_group. destruct (span is_digit s) as [whole s1] eqn:E1.
  assert (all_chars is_digit whole = true) as Hw by (by rewrite <-(span_chars is_digit s), E1).
  set (p := match s1 with String "." s' => span is_digit s' | _ => ("", s1) end).
  assert (all_chars is_digit p.1 = true) as Hf.
  { subst p. destruct s1 as [|c s1]; [done|]. destruct c as [[] [] [] [] [] [] [] []]; try done. apply span_chars. }
  destruct p as [frac s2]. simpl in Hf. destruct (_ && _); [done|].
  destruct (span _ s2) as [u r]. destruct (unit_of u) as [unit|] eqn:Eu; [|done]. simpl.
  apply unit_of_pos in Eu. pose proof (digits_value_pos whole 0 ltac:(lia) Hw) as H1.
  pose proof (digits_value_pos frac 0 ltac:(lia) Hf) as H2.
  destruct (2 ^ 63 <? _); [done|]. destruct (2 ^ 63 / unit <? _); [done|]. destruct (2 ^ 63 <? _); [done|].
  intros [= <- _]. assert (0 ≤ digits_value 0 frac * unit / 10 ^ Z.of_nat (String.length frac)); [|nia].
  apply Z.div_pos; [nia|]. apply Z.pow_pos_nonneg; lia.
Qed.

Lemma parse_groups_pos f d s r : 0 ≤ d → parse_groups f d s = Some r → 0 ≤ r.
Proof.
  revert d s. induction f as [|f IH]; intros d s Hd; destruct s as [|c s]; simpl; [by intros [= <-]|done|by intros [= <-]|].
  destruct (parse_group _) as [[v rest]|] eqn:E; [|done]. simpl. apply parse_group_pos in E.
  destruct (2 ^ 63 <? d + v); [done|]. apply IH. lia.
Qed.

Lemma parse_magnitude_pos s d : parse_magnitude s = Some d → 0 ≤ d.
Proof.
  unfold parse_magnitude. repeat case_bool_decide; [by intros [= <-]|done|]. by apply parse_groups_pos.
Qed.

Lemma ParseDuration_max s d : ParseDuration s = Some d → d ≤ max_int64.
Proof.
  assert (∀ s', (d' ← parse_magnitude s'; if max_int64 <? d' then None else Some d') = Some d → d ≤ max_int64) as Hp.
  { intros s'. destruct (parse_magnitude s') as [d'|]; [|done]. simpl.
    destruct (Z.ltb_spec max_int64 d'); [done|]. by intros [= <-]. }
  unfold ParseDuration. destruct s as [|c s]; [apply Hp|].
  destruct c as [[] [] [] [] [] [] [] []]; try apply Hp.
  destruct (parse_magnitude s) as [d'|] eqn:E; [|done]. apply parse_magnitude_pos in E. intros [= <-].
  unfold max_int64. lia.
Qed.
