(* ===== verification/NetworkWait.v ===== *)
(** * The network wait, as the operator sees it (internal/controller/network_wait.go)

    Whether a pod that asks for the network wait gets it, and the warnings when it
    does not. *)

From Stdlib Require Import Ascii.
From S2P Require Import Prelude GoStrings Types Durations.

#[local] Open Scope Z_scope.

Definition AnnotationNetworkMaxWait : string := "kube-vnet/network-max-wait".
Definition NetworkWaitContainerName : string := "kube-vnet-network-wait".
Definition ReasonNetworkWaitSkipped : string := "NetworkWaitSkipped".

Definition note_wait_unmanaged : string :=
  "%s is set, but kube-vnet does not manage this namespace; the pod starts without waiting".
Definition note_wait_disabled : string :=
  "%s is set, but the network wait is not enabled on this cluster (chart value webhook.networkWait.enabled); the pod starts without waiting".
Definition note_wait_value : string :=
  "%s=%q is not a positive duration such as " +:+ dquote +:+ "30s" +:+ dquote +:+ "; the pod starts without waiting".
Definition note_wait_missing : string :=
  "%s is set, but the pod has no %s init container: the admission webhook did not inject it at creation (it was unreachable, or the annotation was added later); the pod started without waiting".

(** The duration is parsed and greater than zero. *)
Definition positive_duration (value : string) : bool :=
  match ParseDuration value with Some d => 0 <? d | None => false end.

Definition NetworkWaitWarning (pod : Pod) (managed enabled : bool) : string :=
  match obj_annotations pod !! AnnotationNetworkMaxWait with
  | None => ""
  | Some value =>
      if ps_hostNetwork (pod_spec pod) then ""
      else if negb managed then Sprintf note_wait_unmanaged [AStr AnnotationNetworkMaxWait]
      else if negb enabled then Sprintf note_wait_disabled [AStr AnnotationNetworkMaxWait]
      else if negb (positive_duration value)
      then Sprintf note_wait_value [AStr AnnotationNetworkMaxWait; AStr value]
      else ""
  end.

Definition networkWaitMissing (pod : Pod) : string :=
  match obj_annotations pod !! AnnotationNetworkMaxWait with
  | None => ""
  | Some _ =>
      if ps_hostNetwork (pod_spec pod) then ""
      else if existsb (λ c, c_name c =?? NetworkWaitContainerName) (ps_initContainers (pod_spec pod)) then ""
      else Sprintf note_wait_missing [AStr AnnotationNetworkMaxWait; AStr NetworkWaitContainerName]
  end.
