(* ===== verification/ResolutionController.v ===== *)
(** * The resolution controller (internal/controller/resolution_controller.go)

    [ResolutionReconcile] stamps a pod with what the shared resolver computes, or
    removes the stamps in a namespace kube-vnet does not manage, and warns about what
    resolution narrowed. *)

From Stdlib Require Import Ascii.
From S2P Require Import Prelude GoStrings Types Effects Direction Names Resolution ApiServer.
From S2P Require Import Permits Apply Stamps HostPort Resolver NetworkWait.

Definition ReasonResolutionConflict : string := "ResolutionConflict".
Definition ReasonOverrideRejected : string := "OverrideRejected".
Definition ReasonNamespaceExcluded : string := "NamespaceExcluded".

Definition note_excluded : string :=
  "namespace %q is not managed by kube-vnet, so the join label %s has no effect: the pod joins no VirtualNetwork and kube-vnet applies no NetworkPolicy here".
Definition note_conflict : string :=
  "VirtualNetwork %s: %s disagree, so the pod gets their intersection, %q%s".
Definition note_rejected : string :=
  "VirtualNetwork %s: %s asks for %q, but %s pins it to %q, which applies. To allow overrides, use a default-* value there.".

Definition notAMember (d : Direction) : string :=
  if Bare d =?? DirectionNone then ": the pod is not a member" else "".

(** The rules of a conflict, as its Event lists them. *)
Definition conflict_parts (c : ResolutionConflict) : list string :=
  sort_strings (map (λ p, rr_source p +:+ "=" +:+ rr_direction p) (rc_participants c)).

(** The user join labels of a pod, sorted. *)
Definition join_keys (pod : Pod) : list string :=
  sort_strings (filter (λ k, HasPrefix k userJoinPrefix = true) (map fst (map_to_list (obj_labels pod)))).

Section reconcile.
Context `{K8sLib} {W : Type} `{Client W} (rec : bool) (NSFilter : NamespaceFilter) (NetworkWaitEnabled : bool).

Definition warnOnce (pod : Pod) (reason note : string) : IO W unit :=
  if negb rec then mret tt
  else
    isFirst ← first pod reason;
    if negb isFirst then mret tt
    else eventf rec (ref_of pod) EventTypeWarning reason "Resolve" "%s" [AStr note].

Definition warnUnmanaged (pod : Pod) : IO W unit :=
  _ ← (match join_keys pod with
       | [] => mret tt
       | join :: _ =>
           warnOnce pod ReasonNamespaceExcluded (Sprintf note_excluded [AStr (obj_ns pod); AStr join])
       end);
  let w := NetworkWaitWarning pod false NetworkWaitEnabled in
  if negb (w =?? "") then warnOnce pod ReasonNetworkWaitSkipped w else mret tt.

Definition warn_conflict (pod : Pod) (c : ResolutionConflict) : IO W unit :=
  eventf rec (ref_of pod) EventTypeWarning ReasonResolutionConflict "Resolve" note_conflict
    [AStr (Display (rc_vnet c)); AStr (Join (conflict_parts c) ", "); AStr (rc_effective c);
     AStr (notAMember (rc_effective c))].

Definition warn_rejected (pod : Pod) (o : OverrideRejected) : IO W unit :=
  eventf rec (ref_of pod) EventTypeWarning ReasonOverrideRejected "Resolve" note_rejected
    [AStr (Display (or_vnet o)); AStr (scope_describe (or_attemptedScope o)); AStr (or_attemptedDir o);
     AStr (scope_describe (or_blockingScope o)); AStr (or_blockingDir o)].

Definition warnNarrowedMembership (pod : Pod) (res : ResolutionResult) : IO W unit :=
  if negb rec then mret tt
  else
    _ ← for_fold (res_conflicts res) tt (λ _ c, warn_conflict pod c);
    for_fold (res_rejected res) tt (λ _ o, warn_rejected pod o).

(** The pod is patched when a stamp differs, or when it is not marked resolved. *)
Definition applyResolution (pod : Pod) (desired : gmap string string) : EIO W unit :=
  let '(patched, labelsChanged) := SyncStamps pod desired owns_all in
  if negb labelsChanged && negb (get_or "" (obj_annotations pod) AnnotationResolvedGeneration =?? "")
  then mret tt
  else write (WPatchPod pod (MarkResolved patched ResolvedByController)).

Definition stripStampedLabels (pod : Pod) : EIO W Outcome :=
  let '(patched, labelsChanged) := SyncStamps pod ∅ owns_all in
  let '(patched, markersChanged) := ClearResolved patched in
  if negb labelsChanged && negb markersChanged then mret Finished
  else _ ← write (WPatchPod pod patched); mret Finished.

(** The steps on a live pod of a managed namespace. *)
Definition resolve_pod (pod : Pod) : EIO W Outcome := λ st,
  (found ← DesiredLabels rec (cl_reader (st_world st)) pod;
   _ ← applyResolution pod found.1;
   _ ← liftIO (warnNarrowedMembership pod found.2);
   let w := NetworkWaitWarning pod true NetworkWaitEnabled in
   let w := if (w =?? "") && NetworkWaitEnabled then networkWaitMissing pod else w in
   _ ← liftIO (if negb (w =?? "") then warnOnce pod ReasonNetworkWaitSkipped w else mret tt);
   mret Finished : EIO W Outcome) st.

Definition ResolutionReconcile (req : ObjectKey) : EIO W Outcome :=
  r ← try (read (λ rd, get_pod rd req));
  match r with
  | Err e => if IsNotFound e then (_ ← liftIO (forget req); mret Finished) else throw e
  | Ok pod =>
      if m_deleting (pod_meta pod) then mret Finished
      else
        r ← try (read (λ rd, get_namespace rd (obj_ns pod)));
        match r with
        | Err e => if IsNotFound e then mret Finished else throw e
        | Ok ns =>
            if negb (IsManaged NSFilter ns) then
              _ ← liftIO (warnUnmanaged pod);
              stripStampedLabels pod
            else resolve_pod pod
        end
  end.
End reconcile.

(** ** Watches *)

(** The loop over the namespaces: [seen] and [out]; a failed List is skipped. *)
Definition pods_of_namespace (rd : Reader) (acc : list ObjectKey) (ns : string) : list ObjectKey :=
  match list_pods rd (if ns =?? "" then ListAll else InNamespace ns) with
  | Err _ => acc
  | Ok pods =>
      foldl (λ acc nn, if bool_decide (nn ∈ acc) then acc else acc ++ [nn]) acc (map ObjectKeyFromObject pods)
  end.

Definition podsIn (rd : Reader) (namespaces : list string) : list ObjectKey :=
  foldl (pods_of_namespace rd) [] namespaces.

Definition namespaceToPods (rd : Reader) (ns : Namespace) : list ObjectKey := podsIn rd [obj_name ns].
Definition clusterBaselineToPods (rd : Reader) : list ObjectKey := podsIn rd [""].
Definition podsInObjectNamespace {A} `{Object A} (rd : Reader) (obj : A) : list ObjectKey :=
  podsIn rd [obj_ns obj].

Definition vnetToAffectedPods `{K8sLib} (rd : Reader) (vnet : option VirtualNetwork) : list ObjectKey :=
  match vnet with
  | None => []
  | Some _ =>
      match NamespacesAdmittedBy rd vnet with
      | Err _ => []
      | Ok admitted => podsIn rd admitted
      end
  end.
