(* ===== verification/ResolutionControllerSpec.v ===== *)
(** * What the resolution controller leaves on a pod
    (internal/controller/resolution_controller.go)

    One patch at most: to the desired stamps and the marker in a managed namespace, to
    none of them elsewhere; and none at all when the pod is in order. Resolving a
    stamped pod gives the same stamps again, as long as no binding selects on stamps. *)

From Stdlib Require Import Ascii.
From S2P Require Import Prelude GoStrings Types Effects Direction Names Resolution ResolutionSpec.
From S2P Require Import ApiServer Permits Apply Stamps HostPort Resolver NetworkWait ResolutionController.

(** ** Specification *)

(** What resolution computes, as a function of the reads. *)
Definition desired_of `{K8sLib} (rd : Reader) (pod : Pod) : result (gmap string string * ResolutionResult) :=
  layers ← tiers rd pod;
  let res := Resolve (filter nonempty_layer layers) in
  Ok (render_stamps pod (res_effective res), res).

(** The pod is marked resolved. *)
Definition marked (pod : Pod) : Prop := get_or "" (obj_annotations pod) AnnotationResolvedGeneration ≠ "".

#[export] Instance marked_dec pod : Decision (marked pod).
Proof. unfold marked. apply _. Defined.

(** The pod carries no marker. *)
Definition unmarked (pod : Pod) : Prop :=
  obj_annotations pod !! AnnotationResolvedGeneration = None ∧
  obj_annotations pod !! AnnotationResolvedBy = None.

(** What a reconcile brings a pod to: the stamps, and the marker where kube-vnet manages
    the namespace. *)
Definition settled_pod (managed : bool) (stamps : gmap string string) (pod : Pod) : Prop :=
  ResolutionStamps pod = stamps ∧ if managed then marked pod else unmarked pod.

(** [pod'] is [pod] with these stamps; the two markers aside, everything else is the same. *)
Definition restamped (stamps : gmap string string) (pod pod' : Pod) : Prop :=
  ResolutionStamps pod' = stamps ∧
  set_pod_labels (obj_labels pod) (set_pod_annotations (obj_annotations pod) pod') = pod ∧
  (∀ k, IsResolutionManagedLabel k = false → obj_labels pod' !! k = obj_labels pod !! k) ∧
  (∀ k, k ≠ AnnotationResolvedGeneration → k ≠ AnnotationResolvedBy →
    obj_annotations pod' !! k = obj_annotations pod !! k).

(** The stamps of a pod of a live namespace. *)
Definition wanted_stamps `{K8sLib} (rd : Reader) (managed : bool) (pod : Pod) : result (gmap string string) :=
  if managed then fst <$> desired_of rd pod else Ok ∅.

(** ** Facts *)

Section keeps.
Context `{K8sLib} {W : Type} (rec enabled : bool).

#[export] Instance writes_warnOnce pod reason note : Keeps write_results (warnOnce (W := W) rec pod reason note).
Proof. unfold warnOnce. apply _. Qed.
#[export] Instance writes_warnUnmanaged pod : Keeps write_results (warnUnmanaged (W := W) rec enabled pod).
Proof. unfold warnUnmanaged. apply keeps_bind; [destruct (join_keys pod)|intros _]; apply _. Qed.
#[export] Instance writes_warnNarrowed pod res : Keeps write_results (warnNarrowedMembership (W := W) rec pod res).
Proof.
  unfold warnNarrowedMembership. apply keeps_if; [apply _|].
  apply keeps_bind; [|intros _]; apply keeps_fold; intros; apply writes_eventf.
Qed.
#[export] Instance writes_DesiredLabels rd pod : KeepsE write_results (DesiredLabels (W := W) rec rd pod).
Proof. apply DesiredLabels_keeps. intros. apply _. Qed.
End keeps.

Section stamps.
Implicit Types (pod : Pod) (desired : gmap string string).

(** Synchronising changes nothing exactly when the stamps are the desired ones. *)
Lemma SyncStamps_unchanged pod desired : stamps_only desired →
  (SyncStamps pod desired owns_all).2 = false ↔ ResolutionStamps pod = desired.
Proof.
  intros Hd. rewrite <-not_true_iff_false, SyncStamps_changed. split.
  - intros Hn. destruct (decide ((SyncStamps pod desired owns_all).1 = pod)) as [E|]; [|done].
    rewrite <-E at 1. by apply SyncStamps_stamps.
  - intros Hs. assert ((SyncStamps pod desired owns_all).1 = pod) as ->; [|auto].
    destruct (SyncStamps_fst pod desired owns_all) as (labels & -> & Hl). simpl.
    rewrite <-(set_pod_labels_id pod) at 2. f_equal. apply map_eq. intros k. rewrite (Hl Hd).
    rewrite andb_true_r. destruct (IsResolutionManagedLabel k) eqn:Ek; [|done].
    rewrite <-Hs. unfold ResolutionStamps. change (m_labels (pod_meta pod)) with (obj_labels pod).
    destruct (obj_labels pod !! k) as [v|] eqn:El.
    + by apply map_lookup_filter_Some_2.
    + apply map_lookup_filter_None_2. by left.
Qed.

Lemma restamped_sync pod desired : stamps_only desired →
  restamped desired pod (SyncStamps pod desired owns_all).1.
Proof.
  intros Hd. split; [by apply SyncStamps_stamps|]. destruct (SyncStamps_fst pod desired owns_all) as (labels & E & _).
  split; [rewrite E; by destruct pod as [[] ?]|]. split.
  - intros k Hk. rewrite SyncStamps_lookup by done. by rewrite Hk.
  - intros k _ _. by rewrite E.
Qed.

Lemma restamped_annotations pod pod' stamps a :
  (∀ k, k ≠ AnnotationResolvedGeneration → k ≠ AnnotationResolvedBy → a !! k = obj_annotations pod' !! k) →
  restamped stamps pod pod' → restamped stamps pod (set_pod_annotations a pod').
Proof.
  intros Hf (H1 & H2 & H3 & H4). split; [done|]. split; [exact H2|]. split; [exact H3|].
  intros k Hg Hb. etrans; [apply Hf; done|by apply H4].
Qed.

Lemma MarkResolved_marked pod by_ : marked (MarkResolved pod by_).
Proof.
  unfold marked. assert (get_or "" (obj_annotations (MarkResolved pod by_)) AnnotationResolvedGeneration =
    pretty (m_generation (pod_meta pod))) as ->; [|apply pretty_Z_nonempty].
  change (obj_annotations (MarkResolved pod by_)) with
    (<[AnnotationResolvedBy := by_]>
      (<[AnnotationResolvedGeneration := pretty (m_generation (pod_meta pod))]> (obj_annotations pod))).
  unfold get_or. by rewrite lookup_insert_ne, lookup_insert_eq.
Qed.

Lemma restamped_marked pod pod' stamps by_ : restamped stamps pod pod' →
  restamped stamps pod (MarkResolved pod' by_) ∧ marked (MarkResolved pod' by_).
Proof.
  intros Hr. split; [|apply MarkResolved_marked].
  apply restamped_annotations; [|done]. intros k ? ?. by rewrite !lookup_insert_ne by done.
Qed.
End stamps.

Section runs.
Context `{K8sLib} {W : Type} `{Client W} (rec enabled : bool).
Implicit Types (st : St W) (pod : Pod).

Lemma applyResolution_inv pod desired st : stamps_only desired →
  let run := applyResolution pod desired st in
  (settled_pod true desired pod ∧ run = (Ok tt, st)) ∨
  (¬ settled_pod true desired pod ∧ ∃ pod' res, restamped desired pod pod' ∧ marked pod' ∧
     run.1 = res ∧ write_results run.2 = write_results st ++ [(WPatchPod pod pod', res)]).
Proof.
  intros Hd. unfold applyResolution. pose proof (SyncStamps_unchanged pod desired Hd) as Hs.
  pose proof (restamped_sync pod desired Hd) as Hr. destruct (SyncStamps pod desired owns_all) as [patched changed].
  cbn [fst snd] in *. cbv zeta. destruct (negb changed && _) eqn:E.
  - left. kv_bools. split; [split; [by apply Hs|]|]; done.
  - right. split.
    { intros [H1 H2]. apply Hs in H1 as ->. apply andb_false_iff in E as [E|E]; [done|].
      apply negb_false_iff, bool_decide_eq_true in E. by apply H2. }
    destruct (restamped_marked pod patched desired ResolvedByController Hr) as [Hp Hm].
    destruct (write_results_write (WPatchPod pod (MarkResolved patched ResolvedByController)) st) as (res & E1 & E2).
    exists (MarkResolved patched ResolvedByController), res. split_and!; [done|done| |done]. by rewrite E1.
Qed.

(** One patch at most, and none to a pod in order. *)
Definition patched_once (managed : bool) (stamps : gmap string string) (pod : Pod) st
    (run : result Outcome * St W) : Prop :=
  (settled_pod managed stamps pod ∧ run.1 = Ok Finished ∧ write_results run.2 = write_results st) ∨
  (¬ settled_pod managed stamps pod ∧
   ∃ pod' res, restamped stamps pod pod' ∧ settled_pod managed stamps pod' ∧ run.1 = (λ _, Finished) <$> res ∧
     write_results run.2 = write_results st ++ [(WPatchPod pod pod', res)]).

Lemma resolve_pod_inv pod st :
  let run := resolve_pod rec enabled pod st in
  match desired_of (cl_reader (st_world st)) pod with
  | Err e => run.1 = Err e ∧ write_results run.2 = write_results st
  | Ok found => patched_once true found.1 pod st run
  end.
Proof.
  cbv zeta. unfold resolve_pod.
  pose proof (DesiredLabels_result rec (cl_reader (st_world st)) pod st :
    _ = desired_of (cl_reader (st_world st)) pod) as Hd.
  pose proof (keepsE (f := write_results) (m := DesiredLabels rec (cl_reader (st_world st)) pod) st) as Hk.
  destruct (DesiredLabels rec (cl_reader (st_world st)) pod st) as [r1 st1] eqn:E1. cbn [fst snd] in Hd, Hk.
  rewrite <-Hd. destruct r1 as [found|e]; [|by rewrite (bind_run_Err _ _ _ _ _ E1)].
  assert (stamps_only found.1) as Hso.
  { unfold desired_of in Hd. destruct (tiers _ pod) as [layers|]; [|done]. simpl in Hd. injection Hd as ->.
    apply render_stamps_only. }
  rewrite (bind_run_Ok _ _ _ _ _ E1). clear E1 Hd.
  set (w := if _ && enabled then networkWaitMissing pod else _).
  destruct (applyResolution_inv pod found.1 st1 Hso) as [(H1 & E)|(Hn & pod' & res & H1 & H2 & H3 & H4)].
  - left. split; [done|]. rewrite (bind_run_Ok _ _ _ _ _ E), !bind_liftIO. cbn [fst snd mret EIO_ret]. split; [done|].
    rewrite <-Hk. etrans; [apply keeps|]. apply keeps.
  - right. split; [done|]. exists pod', res. split; [done|]. split; [split; [apply H1|done]|].
    destruct (applyResolution pod found.1 st1) as [[[]|e] st2] eqn:Ea; cbn [fst snd] in *; subst res;
      [|rewrite (bind_run_Err _ _ _ _ _ Ea); cbn [fst snd]; by rewrite H4, Hk].
    rewrite (bind_run_Ok _ _ _ _ _ Ea), !bind_liftIO. cbn [fst snd mret EIO_ret]. split; [done|].
    rewrite <-Hk, <-H4. etrans; [apply keeps|]. apply keeps.
Qed.

Lemma stripStampedLabels_inv pod st : patched_once false ∅ pod st (stripStampedLabels pod st).
Proof.
  unfold stripStampedLabels, patched_once, settled_pod.
  assert (stamps_only ∅) as Hd by (intros k [? Hk]; by rewrite lookup_empty in Hk).
  pose proof (SyncStamps_unchanged pod ∅ Hd) as Hs. pose proof (restamped_sync pod ∅ Hd) as Hr.
  destruct (SyncStamps_fst pod ∅ owns_all) as (labels & E & _). rewrite E in Hs, Hr |- *.
  set (patched := set_pod_labels labels pod) in *. cbn [fst snd] in *. unfold ClearResolved.
  change (obj_annotations patched) with (obj_annotations pod).
  set (cleared := set_pod_annotations _ patched).
  assert (restamped ∅ pod cleared) as Hc.
  { apply restamped_annotations; [|done]. intros k ? ?. by rewrite !lookup_delete_ne by done. }
  assert (unmarked cleared) as Hm.
  { split; change (obj_annotations cleared) with
      (delete AnnotationResolvedBy (delete AnnotationResolvedGeneration (obj_annotations pod))).
    - by rewrite lookup_delete_ne, lookup_delete_eq.
    - by rewrite lookup_delete_eq. }
  destruct (negb _ && negb _) eqn:Eb.
  - left. apply andb_true_iff in Eb as [E1 E2]. apply negb_true_iff, Hs in E1.
    apply negb_true_iff, orb_false_iff in E2 as [E2 E3]. apply bool_decide_eq_false in E2, E3.
    rewrite <-eq_None_not_Some in E2, E3. done.
  - right. split.
    + intros (H1 & H2 & H3). apply Hs in H1. rewrite H1 in Eb. rewrite H2, H3 in Eb. done.
    + destruct (write_results_write (WPatchPod pod cleared) st) as (res & E1 & E2).
      exists cleared, res. split; [done|]. split; [split; [apply Hc|done]|].
      destruct res as [[]|e];
        [by rewrite (bind_run_Ok _ _ _ _ _ E1)|by rewrite (bind_run_Err _ _ _ _ _ E1)].
Qed.
End runs.

(** ** Resolving a stamped pod again *)

Lemma result_filterM_perm {A} (f : A → result bool) l l' a : l ≡ₚ l' → result_filterM f l = Ok a →
  ∃ b, result_filterM f l' = Ok b ∧ a ≡ₚ b.
Proof.
  intros Hp. revert a. induction Hp as [|x l l' _ IH|x y l|l1 l2 l3 _ IH1 _ IH2]; intros a; simpl.
  - eauto.
  - intros (b & Hb & (c & Hc & [= <-])%result_bind_Ok)%result_bind_Ok. destruct (IH _ Hc) as (d & Hd & Hcd).
    rewrite Hb. simpl. rewrite Hd. simpl. eexists. split; [done|]. by destruct b; rewrite ?Hcd.
  - intros (b & Hb & (c & (b' & Hb' & (d & Hd & [= <-])%result_bind_Ok)%result_bind_Ok & [= <-])%result_bind_Ok)%result_bind_Ok.
    rewrite Hb'. simpl. rewrite Hb. simpl. rewrite Hd. simpl. eexists. split; [done|].
    destruct b, b'; try done. apply Permutation_swap.
  - intros (b & Hb & Hab)%IH1. destruct (IH2 _ Hb) as (c & Hc & Hbc). exists c. split; [done|]. by rewrite Hab.
Qed.

Lemma flat_map_filter {A B} (P : A → Prop) `{!∀ x, Decision (P x)} (g : A → list B) l :
  (∀ x, ¬ P x → g x = []) → flat_map g l = flat_map g (filter P l).
Proof.
  intros Hg. induction l as [|x l IH]; simpl; [done|]. rewrite filter_cons.
  case_decide as Hx; simpl; rewrite IH; [done|]. by rewrite (Hg x Hx).
Qed.

Lemma flat_map_ext_elem {A B} (f g : A → list B) l : (∀ x, x ∈ l → f x = g x) → flat_map f l = flat_map g l.
Proof.
  intros Hfg. rewrite !flat_map_concat_map. f_equal. apply map_ext_in. intros x Hx%list_elem_of_In. auto.
Qed.

(** The selector reads no operator label. *)
Definition stamp_blind `{K8sLib} (s : LabelSelector) : Prop :=
  ∀ f, LabelSelectorAsSelector s = Ok f → ∀ l l' : gmap string string,
    (∀ k, IsResolutionManagedLabel k = false → l !! k = l' !! k) → f l = f l'.

(** Two readers give resolution the same inputs for the pods of a namespace. *)
Definition rule_inputs `{K8sLib} (rd rd' : Reader) (ns : string) : Prop :=
  get_cluster_baseline rd' "default" = get_cluster_baseline rd "default" ∧
  get_baseline rd' (mkKey ns "default") = get_baseline rd (mkKey ns "default") ∧
  same_list (list_vnbs rd (InNamespace ns)) (list_vnbs rd' (InNamespace ns)) ∧
  ∀ key, Permits rd' key ns = Permits rd key ns.

Section again.
Context `{K8sLib} (rd rd' : Reader) (pod pod' : Pod).
Context (Hkey : ObjectKeyFromObject pod' = ObjectKeyFromObject pod).
Context (Hports : desiredHostPortStamps pod' = desiredHostPortStamps pod).
Context (Hlab : ∀ k, IsResolutionManagedLabel k = false → obj_labels pod' !! k = obj_labels pod !! k).
Context (Hin : rule_inputs rd rd' (obj_ns pod)).
Context (Hrule : ∀ bs b, list_vnbs rd (InNamespace (obj_ns pod)) = Ok bs → b ∈ bs →
  binding_rule pod' b = binding_rule pod b).

Lemma again_ns : obj_ns pod' = obj_ns pod.
Proof. by apply (f_equal key_ns) in Hkey. Qed.
Lemma again_ref : ref_of pod' = ref_of pod.
Proof. unfold ref_of. by rewrite Hkey. Qed.

Lemma user_key_unmanaged k : HasPrefix k userJoinPrefix = true → IsResolutionManagedLabel k = false.
Proof. intros (s & ->)%HasPrefix_iff. done. Qed.

Lemma label_rules_again : label_rules pod ≡ₚ label_rules pod'.
Proof.
  unfold label_rules. set (P := λ kv : string * string, HasPrefix kv.1 userJoinPrefix = true).
  assert (∀ p kv, ¬ P kv → label_rule p kv = []) as Hno.
  { intros p kv Hn. unfold label_rule, P, HasPrefix in *. by destruct (CutPrefix kv.1 userJoinPrefix). }
  rewrite (flat_map_filter P (label_rule pod)), (flat_map_filter P (label_rule pod')) by auto.
  assert (filter P (map_to_list (obj_labels pod)) ≡ₚ filter P (map_to_list (obj_labels pod'))) as ->.
  { apply NoDup_Permutation; [apply NoDup_filter, NoDup_map_to_list..|]. intros [k v].
    rewrite !list_elem_of_filter, !elem_of_map_to_list. unfold P. simpl.
    split; intros [Hk Hv]; (split; [done|]); [rewrite Hlab|rewrite <-Hlab]; auto using user_key_unmanaged. }
  apply Permutation_refl', flat_map_ext. intros kv. unfold label_rule. by rewrite again_ns, again_ref.
Qed.

Lemma candidates_again scope rules : candidates rd pod scope = Ok rules →
  ∃ rules', candidates rd' pod' scope = Ok rules' ∧ rules ≡ₚ rules'.
Proof.
  destruct Hin as (Hc & Hn & Hb & _). destruct scope; simpl.
  - unfold clusterBaselineRules. rewrite again_ns, again_ref, Hc. eauto.
  - unfold namespaceBaselineRules. rewrite again_ns, Hn. eauto.
  - intros (bs & Hbs & [= <-])%result_bind_Ok. unfold bindingRules in *. rewrite again_ns.
    apply result_bind_Ok in Hbs as (vnbs & Hl & [= <-]). specialize (Hrule vnbs). rewrite Hl in Hb.
    destruct (list_vnbs rd' _) as [vnbs'|]; [|done].
    eexists. split; [reflexivity|].
    apply Permutation_app; [|apply label_rules_again]. etrans; [|by apply Permutation_flat_map].
    apply Permutation_refl'. apply flat_map_ext_elem. intros b Hbin. by rewrite Hrule.
Qed.

Lemma tiers_again layers : tiers rd pod = Ok layers →
  ∃ layers', tiers rd' pod' = Ok layers' ∧ Forall2 same_rules layers layers'.
Proof.
  unfold tiers. rewrite result_mapM_Ok. setoid_rewrite result_mapM_Ok.
  induction 1 as [|scope layer scopes layers Hl _ (layers' & H1 & H2)]; [exists []; by split; constructor|].
  unfold tier in Hl. apply result_bind_Ok in Hl as (rules & Hr & Hl).
  apply result_fmap_Ok in Hl as (rs & Hp & ->). unfold permitted in Hp.
  apply result_fmap_Ok in Hp as (rs0 & Hf & ->). destruct (candidates_again _ _ Hr) as (rules' & Hr' & Hrr).
  destruct (result_filterM_perm _ _ _ _ Hrr Hf) as (rs1 & Hf' & Hrs).
  exists (mkLayer scope (map stamped_rule rs1) :: layers'). split; constructor; [|done| |done].
  - unfold tier, permitted. rewrite Hr', again_ns. simpl.
    erewrite result_filterM_ext; [by rewrite Hf'|]. intros r _. apply Hin.
  - split; [done|]. simpl. by apply fmap_Permutation.
Qed.

Lemma nonempty_same layers layers' : Forall2 same_rules layers layers' →
  Forall2 same_rules (filter nonempty_layer layers) (filter nonempty_layer layers').
Proof.
  induction 1 as [|l l' ls ls' [Hs Hr] _ IH]; [constructor|]. rewrite !filter_cons.
  assert (nonempty_layer l ↔ nonempty_layer l') as Hn.
  { unfold nonempty_layer. split; intros Hl E; apply Hl; rewrite E in Hr;
      [by apply Permutation_nil_r in Hr|by apply Permutation_nil_l in Hr]. }
  case_decide as H1; case_decide as H2; [by constructor|by destruct H2; apply Hn|by destruct H1; apply Hn|done].
Qed.

(** The stamps are the same again. *)
Lemma desired_again found : desired_of rd pod = Ok found →
  ∃ found', desired_of rd' pod' = Ok found' ∧ found'.1 = found.1.
Proof.
  unfold desired_of. intros (layers & Ht & [= <-])%result_bind_Ok.
  destruct (tiers_again _ Ht) as (layers' & Ht' & Hs). rewrite Ht'.
  eexists. split; [reflexivity|]. cbn [fst].
  pose proof (layers_valid_filter _ (tiers_valid _ _ _ Ht)) as Hv.
  pose proof (layers_valid_filter _ (tiers_valid _ _ _ Ht')) as Hv'.
  assert (res_effective (Resolve (filter nonempty_layer layers')) =
          res_effective (Resolve (filter nonempty_layer layers))) as ->.
  { apply map_eq. intros v. apply option_eq. intros d. rewrite !Resolve_lookup by done.
    by rewrite (spec_grant_same_rules v _ _ (nonempty_same _ _ Hs)). }
  unfold render_stamps. by rewrite Hports.
Qed.
End again.

(** Two readers agree on what resolution reads. *)
Definition same_inputs (rd rd' : Reader) : Prop :=
  get_namespace rd' = get_namespace rd ∧ get_vnet rd' = get_vnet rd ∧
  get_cluster_baseline rd' = get_cluster_baseline rd ∧ get_baseline rd' = get_baseline rd ∧
  list_vnbs rd' = list_vnbs rd.

(** The pods differ in nothing resolution reads of them but stamps. *)
Definition resolves_alike (pod pod' : Pod) : Prop :=
  ObjectKeyFromObject pod' = ObjectKeyFromObject pod ∧
  m_deleting (pod_meta pod') = m_deleting (pod_meta pod) ∧
  desiredHostPortStamps pod' = desiredHostPortStamps pod ∧
  (∀ k, IsResolutionManagedLabel k = false → obj_labels pod' !! k = obj_labels pod !! k).

(** The bindings of the namespace select on no stamp. *)
Definition bindings_blind `{K8sLib} (rd : Reader) (ns : string) : Prop :=
  ∀ bs b, list_vnbs rd (InNamespace ns) = Ok bs → b ∈ bs → stamp_blind (bs_podSelector (vnb_spec b)).

Lemma same_inputs_refl rd : same_inputs rd rd.
Proof. by repeat split. Qed.

Lemma same_inputs_rules `{K8sLib} rd rd' ns : same_inputs rd rd' → rule_inputs rd rd' ns.
Proof.
  destruct rd, rd'. unfold same_inputs, rule_inputs. simpl. intros (-> & -> & -> & -> & ->).
  split_and!; [done..|apply same_list_refl|done].
Qed.

(** A binding that selects on no stamp gives pods that are alike the same rules. *)
Lemma blind_rule `{K8sLib} pod pod' b : stamp_blind (bs_podSelector (vnb_spec b)) → resolves_alike pod pod' →
  binding_rule pod' b = binding_rule pod b.
Proof.
  intros Hb (Hk & _ & _ & Hl). unfold binding_rule. destruct (LabelSelectorAsSelector _) as [f|] eqn:Ef; [|done].
  rewrite (Hb f Ef (obj_labels pod') (obj_labels pod)) by done. by rewrite (again_ns pod pod' Hk).
Qed.

(** The stamps a pod gets are those a pod that is alike gets, on the same inputs. *)
Lemma desired_alike `{K8sLib} rd rd' pod pod' found : same_inputs rd rd' → bindings_blind rd (obj_ns pod) →
  resolves_alike pod pod' → desired_of rd pod = Ok found →
  ∃ found', desired_of rd' pod' = Ok found' ∧ found'.1 = found.1.
Proof.
  intros Hrd Hb Ha. pose proof Ha as (Hk & _ & Hp & Hl). apply desired_again; [done..|by apply same_inputs_rules|].
  intros bs b Hbs Hin. apply blind_rule; [|done]. by eapply Hb.
Qed.

Lemma restamped_alike stamps pod pod' : restamped stamps pod pod' → resolves_alike pod pod'.
Proof.
  intros (_ & E & Hl & _). unfold resolves_alike. split_and!; [..|done].
  - by rewrite <-E.
  - by rewrite <-E.
  - by rewrite <-E.
Qed.

(** A selector of [matchLabels] on other keys is blind to stamps. *)
Lemma matchLabels_blind `{K8sLib, !K8sLaws} m :
  (∀ k, is_Some (m !! k) → IsResolutionManagedLabel k = false) → stamp_blind (mkSel m []).
Proof.
  intros Hm f Hf l l' Hl. destruct (selector_matchLabels m) as (f' & Hf' & Hs). rewrite Hf in Hf'.
  injection Hf' as <-. apply eq_true_iff_eq. rewrite !Hs, !map_subseteq_spec.
  split; intros Hi k v Hk; [rewrite <-Hl|rewrite Hl]; eauto.
Qed.

Lemma ResolutionReconcile_at `{K8sLib} {W} `{Client W} rec NSFilter enabled req (st : St W) :
  let run := ResolutionReconcile rec NSFilter enabled req st in
  let rd := cl_reader (st_world st) in
  let stops r := run.1 = r ∧ write_results run.2 = write_results st in
  match get_pod rd req with
  | Err e => stops (if IsNotFound e then Ok Finished else Err e)
  | Ok pod =>
      if m_deleting (pod_meta pod) then stops (Ok Finished)
      else match get_namespace rd (obj_ns pod) with
      | Err e => stops (if IsNotFound e then Ok Finished else Err e)
      | Ok ns =>
          match wanted_stamps rd (IsManaged NSFilter ns) pod with
          | Err e => stops (Err e)
          | Ok stamps => patched_once (IsManaged NSFilter ns) stamps pod st run
          end
      end
  end.
Proof.
  cbv zeta. unfold ResolutionReconcile. rewrite bind_try. unfold read. cbn [fst snd].
  destruct (get_pod _ req) as [pod|e]; [|by destruct (IsNotFound e)].
  destruct (m_deleting _); [done|]. rewrite bind_try. cbn [fst snd].
  destruct (get_namespace _ _) as [ns|e]; [|by destruct (IsNotFound e)].
  destruct (IsManaged NSFilter ns); cbn [negb wanted_stamps].
  - pose proof (resolve_pod_inv rec enabled pod st) as Hi. cbv zeta in Hi.
    by destruct (desired_of _ pod) as [found|e].
  - rewrite bind_liftIO. pose proof (keeps (f := write_results) (m := warnUnmanaged rec enabled pod) st) as Hk.
    pose proof (stripStampedLabels_inv pod (warnUnmanaged rec enabled pod st).2) as Hi.
    unfold patched_once in *. by rewrite Hk in Hi.
Qed.

Lemma settled_quiet `{K8sLib} {W} `{Client W} rec NSFilter enabled req rd ns pod pod' found (st : St W)
    (Hns : get_namespace rd (obj_ns pod) = Ok ns) (Hm : IsManaged NSFilter ns = true)
    (Hd : desired_of rd pod = Ok found) (Hb : bindings_blind rd (obj_ns pod))
    (Hrd : same_inputs rd (cl_reader (st_world st)))
    (Hget : get_pod (cl_reader (st_world st)) req = Ok pod')
    (Halike : resolves_alike pod pod') (Hs : settled_pod true found.1 pod') :
  let run := ResolutionReconcile rec NSFilter enabled req st in
  run.1 = Ok Finished ∧ write_results run.2 = write_results st.
Proof.
  pose proof (ResolutionReconcile_at rec NSFilter enabled req st) as Hc. cbv zeta in *.
  rewrite Hget in Hc. pose proof Halike as (Hk & _). destruct (m_deleting _); [done|].
  assert (obj_ns pod' = obj_ns pod) as Hnse by (by apply (f_equal key_ns) in Hk).
  rewrite Hnse, (proj1 Hrd), Hns, Hm in Hc. unfold wanted_stamps in Hc.
  destruct (desired_alike _ _ _ _ _ Hrd Hb Halike Hd) as (found' & Hd' & E).
  rewrite Hd' in Hc. simpl in Hc. rewrite E in Hc.
  destruct Hc as [(_ & ? & ?)|(Hn & _)]; done.
Qed.

(** ** Properties *)

(** [C12] A reconcile of the resolution controller, on every branch. A pod that is gone,
    being deleted, or whose namespace is gone, and every failed read or resolution, writes
    nothing. Otherwise the pod is brought to the stamps resolution computes and the marker
    in a managed namespace, to no stamp and no marker in another: by one patch that
    changes nothing else, whose error is the reconcile's, or by none when the pod already
    is in that state. Events and the network wait's warnings write nothing. *)
Theorem ResolutionReconcile_converges `{K8sLib} {W} `{Client W} rec NSFilter enabled req (st : St W) :
  let run := ResolutionReconcile rec NSFilter enabled req st in
  let rd := cl_reader (st_world st) in
  let stops r := run.1 = r ∧ write_results run.2 = write_results st in
  match get_pod rd req with
  | Err e => stops (if IsNotFound e then Ok Finished else Err e)
  | Ok pod =>
      if m_deleting (pod_meta pod) then stops (Ok Finished)
      else match get_namespace rd (obj_ns pod) with
      | Err e => stops (if IsNotFound e then Ok Finished else Err e)
      | Ok ns =>
          match wanted_stamps rd (IsManaged NSFilter ns) pod with
          | Err e => stops (Err e)
          | Ok stamps => patched_once (IsManaged NSFilter ns) stamps pod st run
          end
      end
  end.
Proof. apply ResolutionReconcile_at. Qed.

(** [C20] Resolution settles (ADR 0034): a pod that carries its stamps and the marker,
    whether the controller or the webhook put them there, is left alone by the next
    reconcile, though the reconcile resolves it again from the stamped pod. This needs
    that no binding of the namespace selects on stamps. *)
Theorem resolution_settles `{K8sLib} {W} `{Client W} rec NSFilter enabled req rd ns pod pod' found (st : St W)
    (Hns : get_namespace rd (obj_ns pod) = Ok ns) (Hm : IsManaged NSFilter ns = true)
    (Hd : desired_of rd pod = Ok found) (Hb : bindings_blind rd (obj_ns pod))
    (Hrd : same_inputs rd (cl_reader (st_world st)))
    (Hget : get_pod (cl_reader (st_world st)) req = Ok pod')
    (Halike : resolves_alike pod pod') (Hs : settled_pod true found.1 pod') :
  let run := ResolutionReconcile rec NSFilter enabled req st in
  run.1 = Ok Finished ∧ write_results run.2 = write_results st.
Proof. cbv zeta. by eapply (settled_quiet rec NSFilter enabled req rd ns pod pod'). Qed.

Import Model.

#[local] Instance restamped_markers_dec managed stamps pod : Decision (settled_pod managed stamps pod).
Proof. unfold settled_pod, unmarked. destruct managed; apply _. Defined.

Definition join_filter : NamespaceFilter := NewNamespaceFilter [].
Definition join_key : ObjectKey := mkKey "web" "front-0".
(** The pod after its first reconcile, and the state it runs in. *)
Definition join_settled : St Cluster := (ResolutionReconcile true join_filter false join_key (initial join_cluster)).2.
Definition joined_pod : Pod := default join_pod (cl_pods (st_world join_settled) !! join_key).

Lemma join_binding_blind : bindings_blind (cluster_reader join_cluster) "web".
Proof.
  intros bs b Hbs Hb. assert (list_vnbs (cluster_reader join_cluster) (InNamespace "web") = Ok [join_binding]) as E
    by (vm_compute; reflexivity).
  rewrite E in Hbs. assert (bs = [join_binding]) as -> by congruence. clear E Hbs.
  apply list_elem_of_singleton in Hb as ->.
  apply matchLabels_blind. intros k [v [<- <-]%lookup_singleton_Some]. reflexivity.
Qed.

Lemma resolution_settles_witness :
  map fst (write_results join_settled) = [WPatchPod join_pod joined_pod] ∧
  let run := ResolutionReconcile true join_filter false join_key join_settled in
  run.1 = Ok Finished ∧ write_results run.2 = write_results join_settled.
Proof.
  split; [vm_compute; reflexivity|].
  destruct join_run as [st' Hrun].
  assert (desired_of (cluster_reader join_cluster) join_pod = Ok (join_stamps, join_resolution)) as Hd.
  { rewrite <-(DesiredLabels_result true _ _ (initial join_cluster) :
      _ = desired_of (cluster_reader join_cluster) join_pod), Hrun. reflexivity. }
  refine (resolution_settles true join_filter false join_key (cluster_reader join_cluster) 
    (mkNamespace (new_meta "" "web" ∅)) join_pod joined_pod _ join_settled _ _ Hd join_binding_blind _ _ _ _).
  - vm_compute. reflexivity.
  - vm_compute. reflexivity.
  - split_and!; reflexivity.
  - vm_compute. reflexivity.
  - split_and!; [vm_compute; reflexivity..|]. intros k Hk.
    destruct (decide (k = "kube-vnet.system/net.shop.payments")) as [->|]; [discriminate Hk|].
    destruct (decide (k = "kube-vnet.system/host-port.8080.tcp")) as [->|]; [discriminate Hk|].
    assert (obj_labels joined_pod = <["kube-vnet.system/host-port.8080.tcp" := "true"]>
      (<["kube-vnet.system/net.shop.payments" := "egress"]> (obj_labels join_pod))) as -> by kv_decide.
    by rewrite !lookup_insert_ne by done.
  - kv_decide.
Defined.

(** ** A binding that selects on stamps

    Nothing forbids such a selector. With one that takes away the membership it selects
    on, every reconcile undoes the one before: the stamps never settle, against ADR 0034. *)

Definition flip_binding : VirtualNetworkBinding :=
  mkBinding (new_meta "web" "flip" ∅)
    (mkBindingSpec (mkVnetRef "payments" "shop") "none"
      (mkSel {["kube-vnet.system/net.shop.payments" := "both"]} []))
    (mkBindingStatus [] [] 0).
Definition flip_pod : Pod :=
  mkPod (new_meta "web" "front-0" {["kube-vnet/net.shop.payments" := "both"]}) (mkPodSpec [] [] false).
Definition flip_cluster : Cluster :=
  set_vnbs {[mkKey "web" "flip" := flip_binding]} (set_pods {[join_key := flip_pod]} join_cluster).

(** The stamps after each of [n] reconciles. *)
Fixpoint reconciled_stamps (n : nat) (st : St Cluster) : list (gmap string string) :=
  match n with
  | O => []
  | S n =>
      let st' := (ResolutionReconcile true join_filter false join_key st).2 in
      default ∅ (ResolutionStamps <$> cl_pods (st_world st') !! join_key) :: reconciled_stamps n st'
  end.

Example resolution_oscillates :
  let stamped := {["kube-vnet.system/net.shop.payments" := "both"]} in
  reconciled_stamps 5 (initial flip_cluster) = [stamped; ∅; stamped; ∅; stamped].
Proof. kv_decide. Qed.
