(* ===== verification/ResolutionWatches.v ===== *)
(** * The watches of the resolution controller miss nothing
    (internal/controller/resolution_controller.go: SetupWithManager and its maps)

    Resolution reads baselines, bindings, vnets and namespaces. An event on one of them
    enqueues every pod whose stamps it can change (ADR 0044). *)

From Stdlib Require Import Ascii.
From S2P Require Import Prelude GoStrings Types Effects Direction Names ApiServer Permits Apply.
From S2P Require Import Stamps HostPort Resolver ResolutionController ResolutionControllerSpec.

(** An object a watch delivers, and what it enqueues. An update delivers the old and the
    new object. *)
Inductive ResolutionEvent :=
  | OnClusterBaseline
  | OnBaseline (b : VirtualNetworkBaseline)
  | OnBinding (b : VirtualNetworkBinding)
  | OnNamespace (ns : Namespace)
  | OnVnet (v : VirtualNetwork).

Definition resolution_requests `{K8sLib} (rd : Reader) (e : ResolutionEvent) : list ObjectKey :=
  match e with
  | OnClusterBaseline => clusterBaselineToPods rd
  | OnBaseline b => podsInObjectNamespace rd b
  | OnBinding b => podsInObjectNamespace rd b
  | OnNamespace ns => namespaceToPods rd ns
  | OnVnet v => vnetToAffectedPods rd (Some v)
  end.

(** ** Specification *)

(** The predicates of the watches drop the update of a namespace that keeps its labels and
    annotations, and the update of a vnet that keeps its spec. *)
Definition namespaces_alike (r r' : result Namespace) : Prop :=
  match r, r' with
  | Ok n, Ok n' => obj_name n' = obj_name n ∧ obj_labels n' = obj_labels n ∧ obj_annotations n' = obj_annotations n
  | Err e, Err e' => e = e'
  | _, _ => False
  end.

Definition vnet_same_spec (v v' : VirtualNetwork) : Prop :=
  obj_ns v' = obj_ns v ∧ vnet_spec v' = vnet_spec v.

Definition vnets_alike (r r' : result VirtualNetwork) : Prop :=
  match r, r' with
  | Ok v, Ok v' => vnet_same_spec v v'
  | Err e, Err e' => e = e'
  | _, _ => False
  end.

(** A watch delivered the vnet that was read, but for changes its predicate drops. *)
Definition reported (events : list ResolutionEvent) (r : result VirtualNetwork) : Prop :=
  match r with
  | Ok v => ∃ v', OnVnet v' ∈ events ∧ vnet_same_spec v v'
  | Err e => IsNotFound e = true
  end.

(** What changed from one reader to the other was delivered: of a vnet, the old object and
    the new one. *)
Definition delivered (events : list ResolutionEvent) (rd rd' : Reader) : Prop :=
  (OnClusterBaseline ∉ events → get_cluster_baseline rd' "default" = get_cluster_baseline rd "default") ∧
  (∀ ns, (∀ b, OnBaseline b ∈ events → obj_ns b ≠ ns) →
    get_baseline rd' (mkKey ns "default") = get_baseline rd (mkKey ns "default")) ∧
  (∀ ns, (∀ b, OnBinding b ∈ events → obj_ns b ≠ ns) →
    same_list (list_vnbs rd (InNamespace ns)) (list_vnbs rd' (InNamespace ns))) ∧
  (∀ n, (∀ ns, OnNamespace ns ∈ events → obj_name ns ≠ n) →
    namespaces_alike (get_namespace rd n) (get_namespace rd' n)) ∧
  (∀ k, vnets_alike (get_vnet rd k) (get_vnet rd' k) ∨
        (reported events (get_vnet rd k) ∧ reported events (get_vnet rd' k))).

(** The cache lists the pod, and it can be read under its key. *)
Definition listed (rd : Reader) (req : ObjectKey) (pod : Pod) : Prop :=
  get_pod rd req = Ok pod ∧ ObjectKeyFromObject pod = req ∧
  ∀ o, o = ListAll ∨ o = InNamespace (obj_ns pod) → ∃ pods, list_pods rd o = Ok pods ∧ pod ∈ pods.

(** The namespaces can be listed and read. *)
Definition namespaces_read (rd : Reader) : Prop :=
  (∃ l, list_namespaces rd = Ok l ∧ ∀ n ns, get_namespace rd n = Ok ns → n ∈ map obj_name l) ∧
  ∀ n e, get_namespace rd n = Err e → IsNotFound e = true.

(** ** Facts *)

#[local] Arguments PermitsForVnet : simpl never.

Lemma elem_of_pods_of_namespace rd acc ns k :
  k ∈ pods_of_namespace rd acc ns ↔
  k ∈ acc ∨ ∃ pods, list_pods rd (if ns =?? "" then ListAll else InNamespace ns) = Ok pods ∧
                    k ∈ map ObjectKeyFromObject pods.
Proof.
  unfold pods_of_namespace. destruct (list_pods rd _) as [pods|e]; [|naive_solver].
  transitivity (k ∈ acc ∨ k ∈ map ObjectKeyFromObject pods); [|naive_solver].
  generalize (map ObjectKeyFromObject pods). intros l. revert acc.
  induction l as [|x l IH]; intros acc; simpl; [rewrite elem_of_nil; naive_solver|].
  rewrite IH, elem_of_cons. case_bool_decide; rewrite ?elem_of_app, ?list_elem_of_singleton; naive_solver.
Qed.

Lemma elem_of_podsIn rd nss k :
  k ∈ podsIn rd nss ↔ ∃ ns pods, ns ∈ nss ∧
    list_pods rd (if ns =?? "" then ListAll else InNamespace ns) = Ok pods ∧ k ∈ map ObjectKeyFromObject pods.
Proof.
  unfold podsIn. transitivity (k ∈ @nil ObjectKey ∨ ∃ ns pods, ns ∈ nss ∧
    list_pods rd (if ns =?? "" then ListAll else InNamespace ns) = Ok pods ∧ k ∈ map ObjectKeyFromObject pods);
    [|rewrite elem_of_nil; naive_solver].
  generalize (@nil ObjectKey). induction nss as [|ns nss IH]; intros acc; simpl; [set_solver|].
  rewrite IH, elem_of_pods_of_namespace. setoid_rewrite elem_of_cons. naive_solver.
Qed.

Section facts.
Context `{K8sLib} (rd : Reader) (req : ObjectKey) (pod : Pod) (Hl : listed rd req pod).

(** A listed pod is among the pods of its namespace, and among all of them. *)
Lemma listed_podsIn nss : obj_ns pod ∈ nss ∨ "" ∈ nss → req ∈ podsIn rd nss.
Proof.
  destruct Hl as (_ & <- & Hlist). intros Hn. apply elem_of_podsIn.
  assert (∃ ns, ns ∈ nss ∧ (ns = "" ∨ ns = obj_ns pod)) as (ns & Hin & Hns) by naive_solver.
  destruct (Hlist (if ns =?? "" then ListAll else InNamespace ns)) as (pods & Hp & Hpod).
  { case_bool_decide; naive_solver. }
  exists ns, pods. split_and!; [done..|]. by apply list_elem_of_fmap_2.
Qed.

(** A vnet that admits the pod's namespace enqueues the pod. *)
Lemma affected_enqueued v ns (Hr : namespaces_read rd) (Hns : get_namespace rd (obj_ns pod) = Ok ns) :
  PermitsForVnet rd (Some v) (obj_ns pod) = Ok true → req ∈ vnetToAffectedPods rd (Some v).
Proof.
  destruct Hr as [(l & Hll & Hin) Herr]. intros Hp. unfold vnetToAffectedPods, NamespacesAdmittedBy.
  rewrite Hll. simpl. destruct (result_filterM _ _) as [admitted|e] eqn:E.
  - apply listed_podsIn. left. apply (result_filterM_Ok _ _ _ E). split; [by eapply Hin|done].
  - exfalso. revert E. generalize (map obj_name l). intros names. revert e.
    induction names as [|n names IH]; intros e; simpl; [done|].
    destruct (PermitsForVnet rd (Some v) n) as [b|e'] eqn:En; simpl.
    + destruct (result_filterM _ names) as [|e']; [done|]. intros _. by apply (IH e').
    + apply PermitsForVnet_err in En as [En Hnf]. by rewrite (Herr _ _ En) in Hnf.
Qed.

Lemma permits_read v ns : namespaces_read rd → ∃ b, PermitsForVnet rd v ns = Ok b.
Proof.
  intros [_ Herr]. destruct (PermitsForVnet rd v ns) as [b|e] eqn:E; [by exists b|].
  apply PermitsForVnet_err in E as [E Hn]. by rewrite (Herr _ _ E) in Hn.
Qed.
End facts.

Lemma vnet_same_spec_refl v : vnet_same_spec v v.
Proof. done. Qed.

Lemma namespaces_alike_refl r : namespaces_alike r r.
Proof. unfold namespaces_alike. by destruct r. Qed.

Lemma vnets_alike_refl r : vnets_alike r r.
Proof. unfold vnets_alike. by destruct r. Qed.

Lemma PermitsForVnet_alike `{K8sLib} rd rd' v v' n :
  namespaces_alike (get_namespace rd n) (get_namespace rd' n) → vnet_same_spec v v' →
  PermitsForVnet rd' (Some v') n = PermitsForVnet rd (Some v) n.
Proof.
  intros Hn [Hk Hs]. unfold PermitsForVnet, matchesAllowedNamespaces. rewrite Hk, Hs.
  destruct (get_namespace rd n), (get_namespace rd' n); simpl in Hn; [|done|done|by subst].
  by destruct Hn as (_ & -> & _).
Qed.

Section watches.
Context `{K8sLib} (events : list ResolutionEvent) (rd rd' : Reader) (req : ObjectKey) (pod : Pod) (ns : Namespace).
Context (Hl : listed rd' req pod) (Hr : namespaces_read rd') (Hns : get_namespace rd' (obj_ns pod) = Ok ns).
Context (Hd : delivered events rd rd') (Hmiss : ∀ e, e ∈ events → req ∉ resolution_requests rd' e).

(** A vnet an event reports without enqueuing the pod does not admit its namespace. *)
Lemma reported_refuses rd0 r : namespaces_alike (get_namespace rd' (obj_ns pod)) (get_namespace rd0 (obj_ns pod)) →
  reported events r →
  match r with
  | Err e => if IsNotFound e then Ok false else Err e
  | Ok v => PermitsForVnet rd0 (Some v) (obj_ns pod)
  end = Ok false.
Proof.
  intros Ha. destruct r as [v|e]; simpl; [|by intros ->]. intros (v' & Hin & Hk & Hs).
  rewrite (PermitsForVnet_alike rd' rd0 v' v) by done.
  destruct (permits_read rd' (Some v') (obj_ns pod) Hr) as [[] E]; [|done].
  destruct (Hmiss _ Hin). by eapply affected_enqueued.
Qed.

Lemma namespace_unchanged : namespaces_alike (get_namespace rd (obj_ns pod)) (get_namespace rd' (obj_ns pod)).
Proof.
  apply Hd. intros n Hin Hn. apply (Hmiss _ Hin). eapply listed_podsIn; [done|]. left. rewrite Hn. by left.
Qed.

Lemma Permits_unchanged key : Permits rd' key (obj_ns pod) = Permits rd key (obj_ns pod).
Proof.
  pose proof namespace_unchanged as Hn. unfold Permits. destruct (splitVnetKey key) as [[homeNS name]|]; [|done].
  destruct (_ && _); [done|]. destruct Hd as (_ & _ & _ & _ & Hv).
  destruct (Hv (mkKey homeNS name)) as [Ha|[Ho Hw]].
  - destruct (get_vnet rd _), (get_vnet rd' _); simpl in Ha; [|done|done|by subst].
    by apply PermitsForVnet_alike.
  - etrans; [apply (reported_refuses rd'); [apply namespaces_alike_refl|done]|]. symmetry.
    apply (reported_refuses rd); [|done]. clear -Hn.
    destruct (get_namespace rd _), (get_namespace rd' _); simpl in *; [|done|done|by subst].
    destruct Hn as (? & ? & ?). by split_and!.
Qed.

(** Nothing resolution reads for the pod has changed. *)
Lemma inputs_unchanged : rule_inputs rd rd' (obj_ns pod).
Proof.
  destruct Hd as (Hc & Hb & Hv & _ & _). split_and!; [..|apply Permits_unchanged].
  - apply Hc. intros Hin. apply (Hmiss _ Hin). eapply listed_podsIn; [done|]. right. by left.
  - apply Hb. intros b Hin Hn. apply (Hmiss _ Hin). eapply listed_podsIn; [done|]. left. rewrite <-Hn. by left.
  - apply Hv. intros b Hin Hn. apply (Hmiss _ Hin). eapply listed_podsIn; [done|]. left. rewrite <-Hn. by left.
Qed.
End watches.

(** ** Properties *)

(** [C33] The watches miss nothing. Take a pod that is settled on the cluster as it was: it
    carries the stamps and the marker it should have. If whatever changed since was
    delivered, old and new, and none of it enqueued the pod, then the pod is settled on the
    cluster as it is: a reconcile would succeed and write nothing. So a change of a
    baseline, a binding, a vnet or a namespace that calls for other stamps always
    enqueues the pod. *)
Theorem resolution_watch_complete `{K8sLib} {W} `{Client W} rec NSFilter enabled events req rd pod ns stamps
    (st : St W)
    (Hns : get_namespace rd (obj_ns pod) = Ok ns)
    (Hw : wanted_stamps rd (IsManaged NSFilter ns) pod = Ok stamps)
    (Hs : settled_pod (IsManaged NSFilter ns) stamps pod)
    (Hl : listed (cl_reader (st_world st)) req pod) (Hr : namespaces_read (cl_reader (st_world st)))
    (Hd : delivered events rd (cl_reader (st_world st)))
    (Hmiss : ∀ e, e ∈ events → req ∉ resolution_requests (cl_reader (st_world st)) e) :
  let run := ResolutionReconcile rec NSFilter enabled req st in
  run.1 = Ok Finished ∧ write_results run.2 = write_results st.
Proof.
  pose proof (ResolutionReconcile_at rec NSFilter enabled req st) as Hc.
  pose proof (namespace_unchanged _ _ _ _ _ Hl Hd Hmiss) as Hn. cbv zeta in *. rewrite Hns in Hn.
  rewrite (proj1 Hl) in Hc. destruct (m_deleting _); [done|].
  destruct (get_namespace (cl_reader (st_world st)) (obj_ns pod)) as [ns'|] eqn:Hns'; [|done].
  unfold namespaces_alike in Hn. destruct Hn as (Hname & _ & Hann).
  assert (IsManaged NSFilter ns' = IsManaged NSFilter ns) as Hm by (unfold IsManaged; by rewrite Hname, Hann).
  rewrite Hm in Hc. unfold wanted_stamps in *. destruct (IsManaged NSFilter ns).
  - apply result_fmap_Ok in Hw as (found & Hf & ->).
    destruct (desired_again rd (cl_reader (st_world st)) pod pod) with (found := found) as (found' & Hf' & E);
      [done|done|done|by eapply inputs_unchanged|done|done|].
    rewrite Hf' in Hc. simpl in Hc. rewrite E in Hc. by destruct Hc as [(_ & ? & ?)|(Hno & _)].
  - injection Hw as <-. by destruct Hc as [(_ & ? & ?)|(Hno & _)].
Qed.

Import Model.

Lemma cluster_listed c k p :
  cl_pods c !! k = Some p → ObjectKeyFromObject p = k → listed (cluster_reader c) k p.
Proof.
  intros Hm Hp. assert (keyed (cl_pods c) !! k = Some p) as Hk by by apply keyed_lookup.
  split; [simpl; unfold get_of; by rewrite Hk|]. split; [done|]. intros o Ho.
  eexists. split; [reflexivity|]. apply list_elem_of_In, filter_In. rewrite <-list_elem_of_In.
  split; [apply elem_of_objects; by exists k|].
  assert (selected_by ListAll p = true ∧ selected_by (InNamespace (obj_ns p)) p = true) as [??].
  { unfold selected_by. simpl. rewrite (bool_decide_eq_true_2 (∅ ⊆ _)) by apply map_empty_subseteq.
    by rewrite bool_decide_eq_true_2. }
  by destruct Ho as [-> | ->].
Qed.

Lemma cluster_namespaces_read c : namespaces_read (cluster_reader c).
Proof.
  split.
  - eexists. split; [reflexivity|]. intros n ns Hg. simpl in Hg. unfold get_of in Hg.
    destruct (named (cl_namespaces c) !! n) as [ns'|] eqn:E; [|done]. injection Hg as <-.
    apply list_elem_of_fmap. exists ns'. split; [|apply elem_of_objects; by exists n].
    unfold named in E. by apply map_lookup_filter_Some in E as [].
  - intros n e. simpl. unfold get_of. destruct (named (cl_namespaces c) !! n); [done|]. by intros [= <-].
Qed.

(** Someone creates a vnet for the pods of [dev] alone. *)
Definition dev_vnet : VirtualNetwork := mkVnet (new_meta "dev" "internal" ∅) (mkVnetSpec "" None) empty_vnet_status.
Definition dev_state : St Cluster :=
  let c := st_world join_settled in
  initial (set_vnets (<[mkKey "dev" "internal" := dev_vnet]> (cl_vnets c)) c).
Definition joined_stamps : gmap string string :=
  match wanted_stamps (cluster_reader (st_world join_settled)) true joined_pod with Ok s => s | Err _ => ∅ end.

Lemma dev_delivered : delivered [OnVnet dev_vnet] (cluster_reader (st_world join_settled)) (cl_reader (st_world dev_state)).
Proof.
  split; [reflexivity|]. split; [reflexivity|]. split; [intros ns _; apply same_list_refl|].
  split; [intros n _; apply namespaces_alike_refl|]. intros k.
  change (get_vnet (cl_reader (st_world dev_state)) k) with
    (get_of (keyed (<[ObjectKeyFromObject dev_vnet := dev_vnet]> (cl_vnets (st_world join_settled)))) k).
  change (get_vnet (cluster_reader (st_world join_settled)) k) with (get_of (keyed (cl_vnets (st_world join_settled))) k).
  rewrite keyed_insert. unfold get_of. destruct (decide (k = ObjectKeyFromObject dev_vnet)) as [->|Hk].
  - right. rewrite lookup_insert_eq. split; [vm_compute; reflexivity|]. exists dev_vnet. split; [by left|done].
  - left. rewrite lookup_insert_ne by done. apply vnets_alike_refl.
Qed.

Lemma resolution_watch_complete_witness :
  joined_stamps ≠ ∅ ∧
  let run := ResolutionReconcile true join_filter false join_key dev_state in
  run.1 = Ok Finished ∧ write_results run.2 = [].
Proof.
  split; [kv_decide|].
  refine (resolution_watch_complete true join_filter false [OnVnet dev_vnet] join_key
    (cluster_reader (st_world join_settled)) joined_pod (mkNamespace (new_meta "" "web" ∅)) joined_stamps dev_state
    _ _ _ _ _ dev_delivered _).
  - vm_compute. reflexivity.
  - vm_compute. reflexivity.
  - kv_decide.
  - apply cluster_listed; vm_compute; reflexivity.
  - apply cluster_namespaces_read.
  - intros e ->%list_elem_of_singleton. vm_compute. intros Hin. by apply not_elem_of_nil in Hin.
Defined.
