(* ===== verification/Binding.v ===== *)
(** * The binding controller (internal/controller/virtualnetworkbinding_controller.go)

    A binding joins pods to a vnet through resolution, which reads it; this reconciler
    only reports on it: a Ready condition and the pods attached. The watches enqueue a
    binding for an event on anything its reconcile reads. *)

From Stdlib Require Import Ascii.
From S2P Require Import Prelude GoStrings Types Effects Direction Names ApiServer Permits Apply.
From S2P Require Import Stamps ServicePolicies Generator Members Resolver VnetController.

Definition ReasonBindingPodsAttached : string := "PodsAttached".
Definition ReasonBindingNoPodsMatch : string := "NoPodsMatch".
Definition ReasonBindingVNetNotJoinable : string := ReasonVirtualNetworkNotJoinable.
Definition ReasonBindingNamespaceExcluded : string := "NamespaceExcluded".
Definition ReasonBindingInvalidDirection : string := ReasonInvalidDirection.
Definition ReasonBindingInvalidSelector : string := "InvalidSelector".
Definition ReasonBindingNoPodsAttached : string := "NoPodsAttached".
Definition ReasonBindingHomeNamespaceExcluded : string := "HomeNamespaceExcluded".
Definition ReasonBindingVNetTerminating : string := "VirtualNetworkTerminating".

Definition bindingTarget (b : VirtualNetworkBinding) (operatorNS : string) : ObjectKey :=
  let ref := bs_virtualNetworkRef (vnb_spec b) in
  mkKey (if ref_namespace ref =?? "" then
           if ref_name ref =?? SystemVnetCluster then operatorNS else obj_ns b
         else ref_namespace ref) (ref_name ref).

Definition set_binding_status (f : VirtualNetworkBindingStatus → VirtualNetworkBindingStatus)
    (b : VirtualNetworkBinding) : VirtualNetworkBinding :=
  mkBinding (vnb_meta b) (vnb_spec b) (f (vnb_status b)).

(** The binding with the status a write carries. *)
Definition with_attached (attachedPods : list string) (b : VirtualNetworkBinding) : VirtualNetworkBinding :=
  set_binding_status (λ s, mkBindingStatus (bst_conditions s) attachedPods (m_generation (vnb_meta b))) b.

Section reconcile.
Context `{K8sLib} {W : Type} `{Client W} (NSFilter : NamespaceFilter) (OperatorNamespace : string).

Definition setBindingReady (b : VirtualNetworkBinding) (status reason msg : string) : VirtualNetworkBinding :=
  set_binding_status (λ s, mkBindingStatus (SetStatusCondition (bst_conditions s) (mkCond "Ready" status reason msg))
    (bst_attachedPods s) (bst_observedGeneration s)) b.

Definition writeStatus (b : VirtualNetworkBinding) (stored : VirtualNetworkBindingStatus)
    (attachedPods : list string) : EIO W unit :=
  let b' := with_attached attachedPods b in
  if DeepEqual stored (vnb_status b') then mret tt else write (WUpdateBindingStatus b').

(** The closure of the refusals; its message is formatted. *)
Definition notReady (b : VirtualNetworkBinding) (reason msg : string) : EIO W Outcome :=
  _ ← writeStatus (setBindingReady b ConditionFalse reason msg) (vnb_status b) [];
  mret Finished.

(** The pods of the list that resolution made members. *)
Definition attached_names (stampKey : string) (pods : list Pod) : list string :=
  sort_strings (map obj_name (List.filter (λ p, isStampedMember p stampKey) pods)).

(** The switch over what was selected and attached. *)
Definition report_attached (b : VirtualNetworkBinding) (vnet : VirtualNetwork) (stampKey : string)
    (selected attached : nat) : VirtualNetworkBinding :=
  let num n := AInt (Z.of_nat n) in
  if selected =?? 0 then
    setBindingReady b ConditionTrue ReasonBindingNoPodsMatch
      "binding accepted; no pods currently match the selector"
  else if attached =?? 0 then
    setBindingReady b ConditionTrue ReasonBindingNoPodsAttached
      (Sprintf "%d pod(s) match the selector, but none is a member of %s/%s; see the pods' events and %s label"
         [num selected; AStr (obj_ns vnet); AStr (obj_name vnet); AStr stampKey])
  else if (attached <? selected)%nat then
    setBindingReady b ConditionTrue ReasonBindingPodsAttached
      (Sprintf "%d of %d selected pod(s) are members of %s/%s; see the other pods' events and %s label"
         [num attached; num selected; AStr (obj_ns vnet); AStr (obj_name vnet); AStr stampKey])
  else
    setBindingReady b ConditionTrue ReasonBindingPodsAttached
      (Sprintf "%d pod(s) attached to %s/%s" [num attached; AStr (obj_ns vnet); AStr (obj_name vnet)]).

(** From the selector on: the pods, and the report. *)
Definition attach_pods (b : VirtualNetworkBinding) (vnet : VirtualNetwork) : EIO W Outcome :=
  match LabelSelectorAsSelector (bs_podSelector (vnb_spec b)) with
  | Err e => notReady b ReasonBindingInvalidSelector (Sprintf "%s" [AStr (error_string e)])
  | Ok sel =>
      pods ← read (λ rd, list_pods rd (mkList (Some (obj_ns b)) ∅ (Some sel)));
      let stampKey := SystemLabelKey (obj_ns vnet) (obj_name vnet) in
      let names := attached_names stampKey pods in
      _ ← writeStatus (report_attached b vnet stampKey (length pods) (length names)) (vnb_status b) names;
      mret Finished
  end.

(** From the vnet on: whether it is served, and whether it admits the namespace. *)
Definition check_vnet (b : VirtualNetworkBinding) (vnet : VirtualNetwork) : EIO W Outcome :=
  let args := [AStr (obj_ns vnet); AStr (obj_name vnet)] in
  if m_deleting (vnet_meta vnet) then
    notReady b ReasonBindingVNetTerminating (Sprintf "VirtualNetwork %s/%s is being deleted" args)
  else
    homeManaged ← (if negb (operatorManaged vnet) && negb (obj_ns vnet =?? obj_ns b)
                   then read (λ rd, Manages NSFilter rd (obj_ns vnet)) else mret true);
    if negb homeManaged then
      notReady b ReasonBindingHomeNamespaceExcluded
        (Sprintf "VirtualNetwork %s/%s is not served: its home namespace %q is excluded by the operator"
           (args ++ [AStr (obj_ns vnet)]))
    else
      allowed ← read (λ rd, PermitsForVnet rd (Some vnet) (obj_ns b));
      if negb allowed then
        notReady b ReasonBindingVNetNotJoinable
          (Sprintf "VirtualNetwork %s/%s does not permit namespace %q; its owner can add it to spec.allowedNamespaces"
             (args ++ [AStr (obj_ns b)]))
      else attach_pods b vnet.

Definition reconcile_binding (b : VirtualNetworkBinding) : EIO W Outcome :=
  managed ← read (λ rd, Manages NSFilter rd (obj_ns b));
  if negb managed then
    notReady b ReasonBindingNamespaceExcluded
      (Sprintf "namespace %q is excluded by the operator" [AStr (obj_ns b)])
  else
    let dirVal := if bs_direction (vnb_spec b) =?? "" then DirectionBoth else bs_direction (vnb_spec b) in
    match ParseBareDirection dirVal with
    | None =>
        notReady b ReasonBindingInvalidDirection
          (Sprintf "spec.direction %q is not one of both, ingress, egress, none" [AStr dirVal])
    | Some _ =>
        let vnetKey := bindingTarget b OperatorNamespace in
        r ← try (read (λ rd, get_vnet rd vnetKey));
        match r with
        | Err e =>
            if IsNotFound e then
              notReady b ReasonBindingVNetNotJoinable
                (Sprintf "VirtualNetwork %s/%s does not exist" [AStr (key_ns vnetKey); AStr (key_name vnetKey)])
            else throw e
        | Ok vnet => check_vnet b vnet
        end
    end.

Definition BindingReconcile (req : ObjectKey) : EIO W Outcome :=
  r ← try (read (λ rd, get_vnb rd req));
  match r with
  | Err e => if IsNotFound e then mret Finished else throw e
  | Ok b => if m_deleting (vnb_meta b) then mret Finished else reconcile_binding b
  end.
End reconcile.

(** ** Watches *)

(** [keep] of a caller that passes nil is [keep_all]; a failed List enqueues nothing. *)
Definition keep_all : VirtualNetworkBinding → bool := λ _, true.

Definition bindingRequests (rd : Reader) (keep : VirtualNetworkBinding → bool) (opts : ListOptions) :
    list ObjectKey :=
  match list_vnbs rd opts with
  | Err _ => []
  | Ok bindings => map ObjectKeyFromObject (List.filter keep bindings)
  end.

Definition bindingsInNamespaceOf {A} `{Object A} (rd : Reader) (obj : A) : list ObjectKey :=
  bindingRequests rd keep_all (InNamespace (obj_ns obj)).

Definition nsToBindings (OperatorNamespace : string) (rd : Reader) (ns : Namespace) : list ObjectKey :=
  bindingRequests rd (λ b, (obj_ns b =?? obj_name ns) ||
    (key_ns (bindingTarget b OperatorNamespace) =?? obj_name ns)) ListAll.

Definition vnetToBindings (OperatorNamespace : string) (rd : Reader) (vnet : VirtualNetwork) : list ObjectKey :=
  bindingRequests rd (λ b, bindingTarget b OperatorNamespace =?? ObjectKeyFromObject vnet) ListAll.
