(* ===== verification/BindingSpec.v ===== *)
(** * What the binding controller reports
    (internal/controller/virtualnetworkbinding_controller.go)

    A binding is Ready exactly when its pods can be members of its vnet, its attached
    pods are the members of the vnet among the pods it selects, and the watches enqueue
    it for every event its report depends on. *)

From Stdlib Require Import Ascii.
From S2P Require Import Prelude GoStrings Types Effects Direction Names ApiServer Permits Apply.
From S2P Require Import Stamps ServicePolicies Generator Members Resolver VnetController Binding.

(** ** Specification *)

Definition direction_of (b : VirtualNetworkBinding) : string :=
  if bs_direction (vnb_spec b) =?? "" then DirectionBoth else bs_direction (vnb_spec b).

Section spec.
Context `{K8sLib} (NSFilter : NamespaceFilter) (op : string) (rd : Reader) (b : VirtualNetworkBinding).

(** The pods [sel] selects in the binding's namespace can be members of [vnet]. *)
Definition joinable (vnet : VirtualNetwork) (sel : gmap string string → bool) : Prop :=
  Manages NSFilter rd (obj_ns b) = Ok true ∧
  bare_direction (direction_of b) ∧
  get_vnet rd (bindingTarget b op) = Ok vnet ∧ m_deleting (vnet_meta vnet) = false ∧
  (operatorManaged vnet = true ∨ obj_ns vnet = obj_ns b ∨ Manages NSFilter rd (obj_ns vnet) = Ok true) ∧
  admitted rd vnet (obj_ns b) ∧
  LabelSelectorAsSelector (bs_podSelector (vnb_spec b)) = Ok sel.

(** A selected pod that resolution made a member. *)
Definition attached_pod (p : Pod) : Prop :=
  ∃ vnet sel pods, joinable vnet sel ∧ list_pods rd (mkList (Some (obj_ns b)) ∅ (Some sel)) = Ok pods ∧
    p ∈ pods ∧ isStampedMember p (sysKey vnet) = true.

(** [b'] is [b] with a status that says this; other conditions are kept. *)
Definition reports (b' : VirtualNetworkBinding) : Prop :=
  vnb_meta b' = vnb_meta b ∧ vnb_spec b' = vnb_spec b ∧
  bst_observedGeneration (vnb_status b') = m_generation (vnb_meta b) ∧
  (∀ t, t ≠ "Ready" → FindStatusCondition (bst_conditions (vnb_status b')) t =
                      FindStatusCondition (bst_conditions (vnb_status b)) t) ∧
  (∃ c, FindStatusCondition (bst_conditions (vnb_status b')) "Ready" = Some c ∧
    (cond_status c = ConditionTrue ∨ cond_status c = ConditionFalse) ∧
    (cond_status c = ConditionTrue ↔ ∃ vnet sel, joinable vnet sel)) ∧
  StronglySorted String.le (bst_attachedPods (vnb_status b')) ∧
  (∀ name, name ∈ bst_attachedPods (vnb_status b') ↔ ∃ p, attached_pod p ∧ obj_name p = name).
End spec.

(** ** The report as a function of the reads

    [None]: the binding is gone or going, and nothing is reported. *)

Section verdict.
Context `{K8sLib} (NSFilter : NamespaceFilter) (op : string) (rd : Reader).
Implicit Types (b : VirtualNetworkBinding) (vnet : VirtualNetwork).

Definition refuse b (reason msg : string) : result VirtualNetworkBinding :=
  Ok (with_attached [] (setBindingReady b ConditionFalse reason msg)).

Definition attach_verdict b vnet : result VirtualNetworkBinding :=
  match LabelSelectorAsSelector (bs_podSelector (vnb_spec b)) with
  | Err e => refuse b ReasonBindingInvalidSelector (Sprintf "%s" [AStr (error_string e)])
  | Ok sel =>
      pods ← list_pods rd (mkList (Some (obj_ns b)) ∅ (Some sel));
      let names := attached_names (sysKey vnet) pods in
      Ok (with_attached names (report_attached b vnet (sysKey vnet) (length pods) (length names)))
  end.

Definition vnet_verdict b vnet : result VirtualNetworkBinding :=
  let args := [AStr (obj_ns vnet); AStr (obj_name vnet)] in
  if m_deleting (vnet_meta vnet) then
    refuse b ReasonBindingVNetTerminating (Sprintf "VirtualNetwork %s/%s is being deleted" args)
  else
    homeManaged ← (if negb (operatorManaged vnet) && negb (obj_ns vnet =?? obj_ns b)
                   then Manages NSFilter rd (obj_ns vnet) else Ok true);
    if negb homeManaged then
      refuse b ReasonBindingHomeNamespaceExcluded
        (Sprintf "VirtualNetwork %s/%s is not served: its home namespace %q is excluded by the operator"
           (args ++ [AStr (obj_ns vnet)]))
    else
      allowed ← PermitsForVnet rd (Some vnet) (obj_ns b);
      if negb allowed then
        refuse b ReasonBindingVNetNotJoinable
          (Sprintf "VirtualNetwork %s/%s does not permit namespace %q; its owner can add it to spec.allowedNamespaces"
             (args ++ [AStr (obj_ns b)]))
      else attach_verdict b vnet.

Definition verdict b : result VirtualNetworkBinding :=
  managed ← Manages NSFilter rd (obj_ns b);
  if negb managed then
    refuse b ReasonBindingNamespaceExcluded (Sprintf "namespace %q is excluded by the operator" [AStr (obj_ns b)])
  else
    match ParseBareDirection (direction_of b) with
    | None =>
        refuse b ReasonBindingInvalidDirection
          (Sprintf "spec.direction %q is not one of both, ingress, egress, none" [AStr (direction_of b)])
    | Some _ =>
        let k := bindingTarget b op in
        match get_vnet rd k with
        | Err e =>
            if IsNotFound e then
              refuse b ReasonBindingVNetNotJoinable
                (Sprintf "VirtualNetwork %s/%s does not exist" [AStr (key_ns k); AStr (key_name k)])
            else Err e
        | Ok vnet => vnet_verdict b vnet
        end
    end.

Definition binding_verdict (req : ObjectKey) : result (option (VirtualNetworkBinding * VirtualNetworkBinding)) :=
  match get_vnb rd req with
  | Err e => if IsNotFound e then Ok None else Err e
  | Ok b => if m_deleting (vnb_meta b) then Ok None else b' ← verdict b; Ok (Some (b, b'))
  end.
End verdict.

Section runs.
Context `{K8sLib} {W : Type} `{Client W} (NSFilter : NamespaceFilter) (op : string).
Implicit Types (st : St W) (b : VirtualNetworkBinding).

(** Write the status unless it is the stored one. *)
Definition publish (r : result VirtualNetworkBinding) b : EIO W Outcome :=
  match r with
  | Err e => throw e
  | Ok b' =>
      _ ← (if DeepEqual (vnb_status b) (vnb_status b') then mret tt else write (WUpdateBindingStatus b'));
      mret Finished
  end.

Lemma notReady_publish b reason msg st : notReady b reason msg st = publish (refuse b reason msg) b st.
Proof. done. Qed.

Lemma attach_pods_publish b vnet st :
  attach_pods b vnet st = publish (attach_verdict (cl_reader (st_world st)) b vnet) b st.
Proof.
  unfold attach_pods, attach_verdict. destruct (LabelSelectorAsSelector _) as [sel|e]; [|done].
  rewrite bind_read. by destruct (list_pods _ _).
Qed.

Lemma check_vnet_publish b vnet st :
  check_vnet NSFilter b vnet st = publish (vnet_verdict NSFilter (cl_reader (st_world st)) b vnet) b st.
Proof.
  unfold check_vnet, vnet_verdict. destruct (m_deleting _); [done|].
  destruct (negb (operatorManaged vnet) && _).
  - rewrite bind_read. destruct (Manages _ _ (obj_ns vnet)) as [[]|e]; [|done|done]. cbn [negb mbind result_bind].
    rewrite bind_read. destruct (PermitsForVnet _ _ _) as [[]|e]; [apply attach_pods_publish|done|done].
  - cbn [negb mbind result_bind]. change ((mret true : EIO W bool) ≫= ?f) with (f true). cbn [negb].
    rewrite bind_read. destruct (PermitsForVnet _ _ _) as [[]|e]; [apply attach_pods_publish|done|done].
Qed.

Lemma reconcile_binding_publish b st :
  reconcile_binding NSFilter op b st = publish (verdict NSFilter op (cl_reader (st_world st)) b) b st.
Proof.
  unfold reconcile_binding, verdict, direction_of. rewrite bind_read.
  destruct (Manages _ _ (obj_ns b)) as [[]|e]; [|done|done]. cbn [negb mbind result_bind].
  destruct (ParseBareDirection _); [|done]. rewrite bind_try. unfold read. cbn [fst snd].
  destruct (get_vnet _ _) as [vnet|e]; [apply check_vnet_publish|by destruct (IsNotFound e)].
Qed.

Lemma BindingReconcile_publish req st :
  BindingReconcile NSFilter op req st =
    match binding_verdict NSFilter op (cl_reader (st_world st)) req with
    | Err e => (Err e, st)
    | Ok None => (Ok Finished, st)
    | Ok (Some (b, b')) => publish (Ok b') b st
    end.
Proof.
  unfold BindingReconcile, binding_verdict. rewrite bind_try. unfold read. cbn [fst snd].
  destruct (get_vnb _ req) as [b|e]; [|by destruct (IsNotFound e)].
  destruct (m_deleting _); [done|]. rewrite reconcile_binding_publish. by destruct (verdict _ _ _ b).
Qed.
End runs.

(** ** What a report says *)

#[local] Arguments PermitsForVnet : simpl never.
#[local] Arguments Manages : simpl never.

Section reports.
Context `{K8sLib, !K8sLaws} (NSFilter : NamespaceFilter) (op : string) (rd : Reader) (b : VirtualNetworkBinding).
Implicit Types (vnet : VirtualNetwork).

Lemma joinable_det v1 s1 v2 s2 :
  joinable NSFilter op rd b v1 s1 → joinable NSFilter op rd b v2 s2 → v1 = v2 ∧ s1 = s2.
Proof. intros (_ & _ & Hv1 & _ & _ & _ & Hs1) (_ & _ & Hv2 & _ & _ & _ & Hs2). split; congruence. Qed.

(** A status made of one condition and the attached pods. *)
Lemma reports_condition status reason msg names :
  (status = ConditionTrue ∨ status = ConditionFalse) →
  (status = ConditionTrue ↔ ∃ vnet sel, joinable NSFilter op rd b vnet sel) →
  StronglySorted String.le names →
  (∀ name, name ∈ names ↔ ∃ p, attached_pod NSFilter op rd b p ∧ obj_name p = name) →
  reports NSFilter op rd b (with_attached names (setBindingReady b status reason msg)).
Proof.
  intros Hd Hj Hs Hn. unfold reports, with_attached, setBindingReady, set_binding_status. simpl.
  split_and!; [done..| | |done|done].
  - intros t Ht. by apply find_set_condition_ne.
  - exists (mkCond "Ready" status reason msg). split; [apply (find_set_condition _ (mkCond "Ready" _ _ _))|]. by split.
Qed.

Lemma refuse_reports reason msg b' :
  (¬ ∃ vnet sel, joinable NSFilter op rd b vnet sel) → refuse b reason msg = Ok b' → reports NSFilter op rd b b'.
Proof.
  intros Hn [= <-]. apply reports_condition; [by right|by split|constructor|].
  intros name. split; [intros Hx; by apply not_elem_of_nil in Hx|].
  intros (p & (vnet & sel & pods & Hj & _) & _). by destruct Hn; exists vnet, sel.
Qed.

Lemma elem_of_attached_names key pods name :
  name ∈ attached_names key pods ↔ ∃ p, p ∈ pods ∧ isStampedMember p key = true ∧ obj_name p = name.
Proof.
  unfold attached_names. rewrite elem_of_sort_strings, list_elem_of_fmap.
  split; [intros (p & -> & [? ?]%list_elem_of_In%filter_In)|intros (p & ? & ? & <-)]; exists p.
  - by rewrite list_elem_of_In.
  - split; [done|]. apply list_elem_of_In, filter_In. by rewrite <-list_elem_of_In.
Qed.

Lemma attach_reports vnet sel b' :
  joinable NSFilter op rd b vnet sel → attach_verdict rd b vnet = Ok b' → reports NSFilter op rd b b'.
Proof.
  intros Hj. pose proof Hj as (_ & _ & _ & _ & _ & _ & Hs). unfold attach_verdict. rewrite Hs.
  intros (pods & Hp & [= <-])%result_bind_Ok. unfold report_attached.
  assert (∀ reason msg, reports NSFilter op rd b
    (with_attached (attached_names (sysKey vnet) pods) (setBindingReady b ConditionTrue reason msg))) as Hr.
  { intros reason msg. apply reports_condition; [by left| |apply stable_sort_sorted; apply _|].
    - split; [intros _; by exists vnet, sel|done].
    - intros name. rewrite elem_of_attached_names. split.
      + intros (p & ? & ? & ?). exists p. split; [|done]. by exists vnet, sel, pods.
      + intros (p & (v' & s' & pods' & Hj' & Hp' & Hin & Hst) & <-). exists p.
        destruct (joinable_det _ _ _ _ Hj Hj') as [<- <-]. rewrite Hp in Hp'. by simplify_eq. }
  destruct (_ =?? 0); [apply Hr|]. destruct (_ =?? 0); [apply Hr|]. destruct (_ <? _)%nat; apply Hr.
Qed.

Lemma verdict_reports b' : verdict NSFilter op rd b = Ok b' → reports NSFilter op rd b b'.
Proof.
  unfold verdict. intros (managed & Hm & Hv)%result_bind_Ok.
  destruct managed; simpl in Hv; [|eapply refuse_reports; [|done]; intros (v & s & Hj & _); congruence].
  destruct (ParseBareDirection (direction_of b)) as [d|] eqn:Ed.
  2:{ eapply refuse_reports; [|done]. intros (v & s & _ & Hd & _). assert (ParseBareDirection (direction_of b) = Some (direction_of b)) by (by apply ParseBareDirection_Some). congruence. }
  destruct (get_vnet rd _) as [vnet|e] eqn:Eg.
  2:{ destruct (IsNotFound e); [|done]. eapply refuse_reports; [|done].
      intros (v & s & _ & _ & Hg & _). congruence. }
  unfold vnet_verdict in Hv. destruct (m_deleting (vnet_meta vnet)) eqn:Edel.
  { eapply refuse_reports; [|done]. intros (v & s & _ & _ & Hg & Hdel & _). congruence. }
  apply result_bind_Ok in Hv as (home & Hh & Hv).
  assert (home = true ↔ operatorManaged vnet = true ∨ obj_ns vnet = obj_ns b ∨
    Manages NSFilter rd (obj_ns vnet) = Ok true) as Hhome.
  { destruct (operatorManaged vnet); simpl in Hh; [injection Hh as <-; tauto|].
    case_bool_decide as Hns; simpl in Hh; [injection Hh as <-; tauto|].
    destruct home; split; [auto|done|done|]. intros [?|[?|?]]; congruence. }
  destruct home; simpl in Hv.
  2:{ eapply refuse_reports; [|done]. intros (v & s & _ & _ & Hg & _ & Hho & _).
      rewrite Eg in Hg. simplify_eq. by apply Hhome in Hho. }
  apply result_bind_Ok in Hv as (allowed & Ha & Hv). destruct allowed; simpl in Hv.
  2:{ eapply refuse_reports; [|done]. intros (v & s & _ & _ & Hg & _ & _ & Had & _).
      rewrite Eg in Hg. simplify_eq. apply PermitsForVnet_true in Had. congruence. }
  apply PermitsForVnet_true in Ha.
  destruct (LabelSelectorAsSelector (bs_podSelector (vnb_spec b))) as [sel|e] eqn:Es.
  - eapply (attach_reports vnet sel); [|done]. split_and!; [done| |done|done|by apply Hhome|done|done].
    by apply ParseBareDirection_Some in Ed as [-> ?].
  - unfold attach_verdict in Hv. rewrite Es in Hv. eapply refuse_reports; [|done].
    intros (v & s & _ & _ & _ & _ & _ & _ & Hs). congruence.
Qed.
End reports.

(** ** The watches *)

(** An event of one of the watches, and what it enqueues. *)
Inductive BindingEvent :=
  | NamespaceEvent (ns : Namespace)
  | VnetEvent (vnet : VirtualNetwork)
  | PodEvent (p : Pod).

Definition binding_requests (op : string) (rd : Reader) (e : BindingEvent) : list ObjectKey :=
  match e with
  | NamespaceEvent ns => nsToBindings op rd ns
  | VnetEvent vnet => vnetToBindings op rd vnet
  | PodEvent p => bindingsInNamespaceOf rd p
  end.

(** The reads agree except on the objects of the events. *)
Definition unchanged_but (events : list BindingEvent) (rd rd' : Reader) : Prop :=
  (∀ n, (∀ ns, NamespaceEvent ns ∈ events → obj_name ns ≠ n) → get_namespace rd' n = get_namespace rd n) ∧
  (∀ k, (∀ v, VnetEvent v ∈ events → ObjectKeyFromObject v ≠ k) → get_vnet rd' k = get_vnet rd k) ∧
  (∀ n o, lo_namespace o = Some n → (∀ p, PodEvent p ∈ events → obj_ns p ≠ n) →
    same_list (list_pods rd o) (list_pods rd' o)).

(** The cache holds the binding under its key. *)
Definition cached (rd : Reader) (req : ObjectKey) (b : VirtualNetworkBinding) : Prop :=
  get_vnb rd req = Ok b ∧ ObjectKeyFromObject b = req ∧
  ∀ o, lo_namespace o = None ∨ lo_namespace o = Some (obj_ns b) → lo_matchLabels o = ∅ → lo_selector o = None →
    ∃ bs, list_vnbs rd o = Ok bs ∧ b ∈ bs.

Lemma Manages_same NSFilter rd rd' n : get_namespace rd' n = get_namespace rd n →
  Manages NSFilter rd' n = Manages NSFilter rd n.
Proof. unfold Manages. by intros ->. Qed.

Lemma PermitsForVnet_same `{K8sLib} rd rd' v n : get_namespace rd' n = get_namespace rd n →
  PermitsForVnet rd' v n = PermitsForVnet rd v n.
Proof. unfold PermitsForVnet, matchesAllowedNamespaces. by intros ->. Qed.

Lemma attached_names_perm key l l' : l ≡ₚ l' → attached_names key l = attached_names key l'.
Proof.
  intros Hp. by apply sort_strings_perm, fmap_Permutation, filter_perm.
Qed.

Section watches.
Context `{K8sLib} (NSFilter : NamespaceFilter) (op : string) (rd rd' : Reader).
Context (req : ObjectKey) (b : VirtualNetworkBinding) (Hb : cached rd' req b).

Lemma requests_kept keep o : lo_namespace o = None ∨ lo_namespace o = Some (obj_ns b) → lo_matchLabels o = ∅ →
  lo_selector o = None → keep b = true → req ∈ bindingRequests rd' keep o.
Proof.
  intros Hn Hl Hs Hk. destruct Hb as (_ & <- & Hlist). destruct (Hlist o Hn Hl Hs) as (bs & E & Hin).
  unfold bindingRequests. rewrite E. apply list_elem_of_fmap. exists b. split; [done|].
  apply list_elem_of_In, filter_In. by rewrite <-list_elem_of_In.
Qed.

(** Every object the report depends on enqueues the binding. *)
Lemma relevant_enqueued :
  (∀ ns, obj_name ns = obj_ns b ∨ obj_name ns = key_ns (bindingTarget b op) →
    req ∈ binding_requests op rd' (NamespaceEvent ns)) ∧
  (∀ v, ObjectKeyFromObject v = bindingTarget b op → req ∈ binding_requests op rd' (VnetEvent v)) ∧
  (∀ p, obj_ns p = obj_ns b → req ∈ binding_requests op rd' (PodEvent p)).
Proof.
  split_and!.
  - intros ns Hn. apply requests_kept; [by left|done|done|]. apply orb_true_iff.
    destruct Hn as [-> | ->]; [left|right]; by apply bool_decide_eq_true.
  - intros v Hv. apply requests_kept; [by left|done|done|]. by apply bool_decide_eq_true.
  - intros p Hp. apply requests_kept; [right; simpl; by rewrite Hp|done|done|done].
Qed.

(** The report depends on nothing else. *)
Lemma verdict_same :
  (∀ k v, get_vnet rd k = Ok v → obj_ns v = key_ns k) →
  get_namespace rd' (obj_ns b) = get_namespace rd (obj_ns b) →
  get_namespace rd' (key_ns (bindingTarget b op)) = get_namespace rd (key_ns (bindingTarget b op)) →
  get_vnet rd' (bindingTarget b op) = get_vnet rd (bindingTarget b op) →
  (∀ o, lo_namespace o = Some (obj_ns b) → same_list (list_pods rd o) (list_pods rd' o)) →
  verdict NSFilter op rd' b = verdict NSFilter op rd b.
Proof.
  intros Hkey Hns Hhome Hv Hp. unfold verdict. rewrite (Manages_same _ _ _ _ Hns), Hv.
  destruct (Manages NSFilter rd (obj_ns b)) as [[]|]; [|done|done]. simpl.
  destruct (ParseBareDirection _); [|done]. destruct (get_vnet rd _) as [vnet|e] eqn:Eg; [|done].
  unfold vnet_verdict, attach_verdict. rewrite (PermitsForVnet_same _ _ _ _ Hns).
  rewrite (Manages_same NSFilter rd rd' (obj_ns vnet)) by (by rewrite (Hkey _ _ Eg)).
  destruct (LabelSelectorAsSelector _) as [sel|]; [|done].
  specialize (Hp (mkList (Some (obj_ns b)) ∅ (Some sel)) eq_refl).
  destruct (list_pods rd _) as [l|e], (list_pods rd' _) as [l'|e']; simpl in Hp; [|done|done|by rewrite Hp].
  cbn [mbind result_bind]. by rewrite (attached_names_perm _ _ _ Hp), (Permutation_length Hp).
Qed.
End watches.

(** A status decides the writes, in whatever state. *)
Lemma publish_writes `{K8sLib} {W} `{Client W} b' b (st st' : St W) :
  ∃ ws, writes_of (st_log (publish (Ok b') b st).2) = writes_of (st_log st) ++ ws ∧
        writes_of (st_log (publish (Ok b') b st').2) = writes_of (st_log st') ++ ws ∧
        (ws = [] → (publish (Ok b') b st').1 = (publish (Ok b') b st).1).
Proof.
  unfold publish. destruct (DeepEqual _ _); [by exists []; rewrite !app_nil_r|].
  exists [WUpdateBindingStatus b'].
  assert (∀ st1 : St W, writes_of (st_log ((_ ← write (WUpdateBindingStatus b'); mret Finished : EIO W Outcome) st1).2) =
    writes_of (st_log st1) ++ [WUpdateBindingStatus b']) as Hw; [|by rewrite !Hw].
  intros st1. unfold mbind, EIO_bind, write. destruct (cl_write _ _) as [[] w]; simpl; by rewrite writes_of_app.
Qed.

(** A stamped member has the stamp. *)
Lemma isStampedMember_label p key : isStampedMember p key = true → ∃ dir, obj_labels p !! key = Some dir.
Proof.
  unfold isStampedMember, get_or. destruct (_ =?? ""); [done|].
  destruct (obj_labels p !! key) as [dir|]; [by exists dir|done].
Qed.

(** What a reconcile of a live binding writes. *)
Lemma BindingReconcile_at `{K8sLib, !K8sLaws} {W} `{Client W} NSFilter op req b (st : St W) :
  get_vnb (cl_reader (st_world st)) req = Ok b → m_deleting (vnb_meta b) = false →
  let run := BindingReconcile NSFilter op req st in
  match verdict NSFilter op (cl_reader (st_world st)) b with
  | Err e => run = (Err e, st)
  | Ok b' =>
      (vnb_status b' = vnb_status b ∧ run = (Ok Finished, st)) ∨
      (vnb_status b' ≠ vnb_status b ∧ ∃ res, run.1 = (λ _, Finished) <$> res ∧
         write_results run.2 = write_results st ++ [(WUpdateBindingStatus b', res)])
  end.
Proof.
  intros Hg Hdel. cbv zeta. rewrite BindingReconcile_publish. unfold binding_verdict. rewrite Hg, Hdel.
  destruct (verdict _ _ _ b) as [b'|e]; [|done]. simpl. destruct (DeepEqual _ _) eqn:E.
  - left. by apply (proj1 (DeepEqual_spec _ _)) in E.
  - right. split; [intros Hs; apply not_true_iff_false in E; by apply E, DeepEqual_spec|].
    destruct (write_results_write (WUpdateBindingStatus b') st) as (res & E1 & E2). exists res.
    destruct res as [[]|e]; [by rewrite (bind_run_Ok _ _ _ _ _ E1)|by rewrite (bind_run_Err _ _ _ _ _ E1)].
Qed.

(** ** Properties *)


(** [C27] The attached pods a binding reports are members of its vnet: of the pods the
    binding selects, exactly those the vnet's own reconcile counts, in whatever direction.
    The two reconcilers decide it by separate code ("the test mirrors discoverMembers"). *)
Theorem binding_attached_members `{K8sLib, !K8sLaws} {W} `{Client W} NSFilter op req b b' vnet sel
    members invalid all pods res (st : St W)
    (Hg : get_vnb (cl_reader (st_world st)) req = Ok b) (Hlive : m_deleting (vnb_meta b) = false)
    (Hj : joinable NSFilter op (cl_reader (st_world st)) b vnet sel)
    (Hd : discoverMembers NSFilter (cl_reader (st_world st)) vnet = Ok (members, invalid))
    (Hall : list_pods (cl_reader (st_world st)) ListAll = Ok all)
    (Hsel : list_pods (cl_reader (st_world st)) (mkList (Some (obj_ns b)) ∅ (Some sel)) = Ok pods)
    (Hpods : ∀ p, p ∈ pods ↔ p ∈ all ∧ obj_ns p = obj_ns b ∧ sel (obj_labels p) = true)
    (Huniq : ∀ p q, p ∈ all → q ∈ all → ObjectKeyFromObject p = ObjectKeyFromObject q → p = q)
    (Hw : write_results (BindingReconcile NSFilter op req st).2 =
          write_results st ++ [(WUpdateBindingStatus b', res)]) name :
  name ∈ bst_attachedPods (vnb_status b') ↔
    (∃ p, p ∈ pods ∧ obj_name p = name) ∧
    ∃ dir, name ∈ pods_of (members_in members (obj_ns b)) dir.
Proof.
  pose proof (BindingReconcile_at NSFilter op req b st Hg Hlive) as Hr. cbv zeta in Hr.
  destruct (verdict _ _ _ b) as [b1|e] eqn:E; [|rewrite Hr in Hw; by apply app_nil_end_inv in Hw].
  destruct Hr as [[_ Hr]|(_ & res1 & _ & Hr)]; [rewrite Hr in Hw; by apply app_nil_end_inv in Hw|].
  rewrite Hr in Hw. apply app_inv_head in Hw. injection Hw as -> _.
  apply verdict_reports in E as (_ & _ & _ & _ & _ & _ & ->).
  apply discoverMembers_spec in Hd as (all' & Hall' & Hm & _). rewrite Hall in Hall'. injection Hall' as <-.
  pose proof Hj as (Hmng & _ & _ & _ & _ & Had & _). apply PermitsForVnet_true in Had. split.
  - intros (p & (v & s & pods' & Hj' & Hsel' & Hp & Hst) & <-).
    destruct (joinable_det _ _ _ _ _ _ _ _ Hj Hj') as [<- <-]. rewrite Hsel in Hsel'. injection Hsel' as <-.
    split; [by exists p|]. apply Hpods in Hp as (Hp & Hns & _).
    destruct (isStampedMember_label _ _ Hst) as [dir Hdir]. exists dir. apply Hm. exists p.
    split_and!; [done..|]. split_and!; [done|done|]. rewrite Hns. by split.
  - intros [(p & Hp & <-) (dir & (q & Hq & Hns & Hname & Hst & _)%Hm)].
    exists p. split; [|done]. exists vnet, sel, pods. split_and!; [done..|].
    apply Hpods in Hp as (Hp & Hnsp & _). rewrite (Huniq p q Hp Hq); [done|].
    unfold ObjectKeyFromObject, meta_key. f_equal; [|done]. etrans; [exact Hnsp|done].
Qed.

(** [C34] The watches miss nothing. When a binding is unchanged and none of the events
    enqueues it, its next reconcile decides what it decided before: an error, or the same
    status. So an event on a namespace, a vnet or a pod that a report depends on always
    enqueues the binding. *)
Theorem binding_watch_complete `{K8sLib} {W} `{Client W} NSFilter op events req b (st st' : St W)
    (Hold : get_vnb (cl_reader (st_world st)) req = Ok b) (Hnew : cached (cl_reader (st_world st')) req b)
    (Hkeys : ∀ k v, get_vnet (cl_reader (st_world st)) k = Ok v → ObjectKeyFromObject v = k)
    (Hsame : unchanged_but events (cl_reader (st_world st)) (cl_reader (st_world st')))
    (Hmiss : ∀ e, e ∈ events → req ∉ binding_requests op (cl_reader (st_world st')) e) :
  let run := BindingReconcile NSFilter op req st in
  let run' := BindingReconcile NSFilter op req st' in
  ∃ ws, writes_of (st_log run.2) = writes_of (st_log st) ++ ws ∧
        writes_of (st_log run'.2) = writes_of (st_log st') ++ ws ∧ (ws = [] → run'.1 = run.1).
Proof.
  cbv zeta. rewrite !BindingReconcile_publish.
  assert (binding_verdict NSFilter op (cl_reader (st_world st')) req =
          binding_verdict NSFilter op (cl_reader (st_world st)) req) as ->.
  { unfold binding_verdict. rewrite Hold, (proj1 Hnew). destruct (m_deleting _); [done|].
    destruct (relevant_enqueued op _ _ _ Hnew) as (Hn & Hv & Hp). destruct Hsame as (Sn & Sv & Sp).
    rewrite (verdict_same NSFilter op (cl_reader (st_world st)) (cl_reader (st_world st'))); [done|..].
    - intros k v Hk%Hkeys. by rewrite <-Hk.
    - apply Sn. intros ns Hin Hns. eapply Hmiss; [exact Hin|]. apply Hn. by left.
    - apply Sn. intros ns Hin Hns. eapply Hmiss; [exact Hin|]. apply Hn. by right.
    - apply Sv. intros v Hin Hkv. eapply Hmiss; [exact Hin|]. by apply Hv.
    - intros o Ho. eapply Sp; [done|]. intros p Hin Hns. eapply Hmiss; [exact Hin|]. by apply Hp. }
  destruct (binding_verdict _ _ _ _) as [[[b0 b']|]|e]; [apply publish_writes|by exists []; rewrite !app_nil_r..].
Qed.

Import Model.

(** A binding of [web] to [shop/payments] that selects one member and one pod that is none. *)
Definition attach_binding : VirtualNetworkBinding :=
  mkBinding (new_meta "web" "front" ∅)
    (mkBindingSpec (mkVnetRef "payments" "shop") "egress" (mkSel {["app" := "front"]} []))
    (mkBindingStatus [] ["gone-0"] 0).
Definition attach_key : ObjectKey := mkKey "web" "front".
Definition attach_member : Pod := member_pod "web" "front-0" "egress" {["app" := "front"]}.
Definition attach_other : Pod := member_pod "web" "front-1" "none" {["app" := "front"]}.
Definition attach_cluster : Cluster :=
  set_vnbs {[attach_key := attach_binding]}
    (set_pods {[mkKey "web" "front-0" := attach_member; mkKey "web" "front-1" := attach_other]} members_cluster).
Definition attach_filter : NamespaceFilter := NewNamespaceFilter [].
Definition attach_rd : Reader := cluster_reader attach_cluster.
Definition attach_run : result Outcome * St Cluster :=
  BindingReconcile attach_filter "kube-vnet" attach_key (initial attach_cluster).
Definition attach_sel (l : gmap string string) : bool := bool_decide ({["app" := "front"]} ⊆ l) && true.
Definition attach_result : VirtualNetworkBinding :=
  default attach_binding (cl_vnbs (st_world attach_run.2) !! attach_key).

Lemma attach_joinable : joinable attach_filter "kube-vnet" attach_rd attach_binding permits_vnet attach_sel.
Proof.
  split; [vm_compute; reflexivity|]. split; [kv_decide|]. split; [vm_compute; reflexivity|].
  split; [reflexivity|]. split; [right; right; vm_compute; reflexivity|].
  split; [apply PermitsForVnet_true; vm_compute; reflexivity|]. reflexivity.
Qed.


Definition attach_members : Members := {["web" := {["egress" := ["front-0"]]}]}.

Lemma binding_attached_members_witness :
  "front-0" ∈ bst_attachedPods (vnb_status attach_result) ∧
  ("front-0" ∈ bst_attachedPods (vnb_status attach_result) ↔
   (∃ p, p ∈ [attach_other; attach_member] ∧ obj_name p = "front-0") ∧
   ∃ dir, "front-0" ∈ pods_of (members_in attach_members "web") dir).
Proof.
  split; [kv_decide|].
  assert (list_pods attach_rd ListAll = Ok [attach_other; attach_member]) as Hall by (vm_compute; reflexivity).
  assert (discoverMembers attach_filter attach_rd permits_vnet = Ok (attach_members, [])) as Hd
    by (vm_compute; reflexivity).
  assert (list_pods attach_rd (mkList (Some "web") ∅ (Some attach_sel)) = Ok [attach_other; attach_member]) as Hsel
    by (vm_compute; reflexivity).
  assert (write_results attach_run.2 =
    write_results (initial attach_cluster) ++ [(WUpdateBindingStatus attach_result, Ok tt)]) as Hw
    by (vm_compute; reflexivity).
  refine (binding_attached_members attach_filter "kube-vnet" attach_key attach_binding attach_result permits_vnet
    attach_sel attach_members [] _ _ _ (initial attach_cluster) eq_refl eq_refl attach_joinable Hd Hall Hsel _ _ Hw
    "front-0").
  - intros p. split; [|by intros [? _]]. intros Hp. split; [exact Hp|].
    apply elem_of_cons in Hp as [-> |Hp%list_elem_of_singleton]; [|subst p]; split; vm_compute; reflexivity.
  - intros p q [-> | ->%list_elem_of_singleton]%elem_of_cons [-> | ->%list_elem_of_singleton]%elem_of_cons;
      [reflexivity|discriminate|discriminate|reflexivity].
Defined.

(** A new object the options do not select changes no List. *)
Lemma list_of_insert_other (m : gmap ObjectKey Pod) k p o :
  m !! k = None → selected_by o p = false → same_list (list_of m o) (list_of (<[k:=p]> m) o).
Proof.
  intros Hk Hs. unfold list_of, same_list, objects.
  rewrite (filter_perm _ (map snd (map_to_list (<[k:=p]> m))) (p :: map snd (map_to_list m))).
  - simpl. by rewrite Hs.
  - change (p :: map snd (map_to_list m)) with (map snd ((k, p) :: map_to_list m)).
    apply fmap_Permutation. by apply map_to_list_insert.
Qed.

Lemma cluster_cached c k b :
  cl_vnbs c !! k = Some b → ObjectKeyFromObject b = k → cached (cluster_reader c) k b.
Proof.
  intros Hm Hb. assert (keyed (cl_vnbs c) !! k = Some b) as Hk by by apply keyed_lookup.
  split; [simpl; unfold get_of; by rewrite Hk|]. split; [done|]. intros o Hn Hl Hs.
  eexists. split; [reflexivity|]. apply list_elem_of_In, filter_In. rewrite <-list_elem_of_In.
  split; [apply elem_of_objects; by exists k|]. unfold selected_by. rewrite Hl, Hs.
  rewrite (bool_decide_eq_true_2 (∅ ⊆ _)) by apply map_empty_subseteq.
  destruct Hn as [-> | ->]; simpl; [done|]. by rewrite bool_decide_eq_true_2.
Qed.

(** A pod appears in a namespace the binding has nothing to do with. *)
Definition distant_pod : Pod := member_pod "dev" "other" "both" {["app" := "front"]}.
Definition later_cluster : Cluster :=
  set_pods (<[mkKey "dev" "other" := distant_pod]> (cl_pods attach_cluster)) attach_cluster.

Lemma binding_watch_complete_witness :
  let run := BindingReconcile attach_filter "kube-vnet" attach_key (initial attach_cluster) in
  let run' := BindingReconcile attach_filter "kube-vnet" attach_key (initial later_cluster) in
  ∃ ws, writes_of (st_log run.2) = [] ++ ws ∧ writes_of (st_log run'.2) = [] ++ ws ∧ (ws = [] → run'.1 = run.1).
Proof.
  refine (binding_watch_complete attach_filter "kube-vnet" [PodEvent distant_pod] attach_key attach_binding
    (initial attach_cluster) (initial later_cluster) eq_refl _ _ _ _).
  - apply cluster_cached; reflexivity.
  - intros k v Hk. change (get_of (keyed (cl_vnets attach_cluster)) k = Ok v) in Hk.
    unfold get_of in Hk. destruct (_ !! k) as [v'|] eqn:E; [|discriminate].
    apply keyed_lookup in E as [_ <-]. injection Hk as <-. reflexivity.
  - split; [intros n _; reflexivity|]. split; [intros k _; reflexivity|]. intros n o Ho Hn.
    change (list_pods (cl_reader (st_world (initial later_cluster))) o) with
      (list_of (keyed (<[ObjectKeyFromObject distant_pod := distant_pod]> (cl_pods attach_cluster))) o).
    rewrite keyed_insert. apply list_of_insert_other; [reflexivity|]. unfold selected_by. rewrite Ho. simpl.
    rewrite bool_decide_eq_false_2; [reflexivity|]. apply (Hn distant_pod). by left.
  - intros e ->%list_elem_of_singleton. vm_compute. intros Hin. by apply not_elem_of_nil in Hin.
Defined.
