(* ===== verification/SystemVnet.v ===== *)
(** * The system vnet controller (internal/controller/system_vnet_controller.go)

    The operator keeps a vnet [namespace] in every managed namespace and the vnet
    [cluster], open to all namespaces, in its own. [VnetServer] states what it relies on
    of the API for vnets; the theorem says what a reconcile establishes on such a server,
    and that it never touches a vnet it did not create. *)

From Stdlib Require Import Ascii.
From S2P Require Import Prelude GoStrings Types Effects Names ApiServer Permits Apply.

Definition ApplyErrorSystemVnet : string := "system_vnet".

Definition note_system_failed : string :=
  "the system VirtualNetwork %s/%s could not be created or updated: %v; %s.".

Definition desiredSystemVnet (name namespace description : string) : VirtualNetwork :=
  mkVnet (new_meta namespace name
            {[LabelManagedBy := LabelManagedByValue; LabelK8sManagedBy := LabelManagedByValue]})
    (mkVnetSpec description None) empty_vnet_status.

(** The assignment to [desired.Spec.AllowedNamespaces]. *)
Definition open_to_all (v : VirtualNetwork) : VirtualNetwork :=
  mkVnet (vnet_meta v) (mkVnetSpec (vs_description (vnet_spec v)) (Some (mkNSSel true [] None))) (vnet_status v).

Definition namespace_vnet (ns : string) : VirtualNetwork :=
  desiredSystemVnet SystemVnetNamespace ns
    "Per-namespace system vnet for kube-vnet (operator-managed). Pods join via kube-vnet/net.namespace.".
Definition cluster_vnet (operatorNS : string) : VirtualNetwork :=
  open_to_all (desiredSystemVnet SystemVnetCluster operatorNS
    "Cluster-wide system vnet for kube-vnet (operator-managed). Pods join via kube-vnet/net.cluster.").

Section reconcile.
Context {W : Type} `{Client W} (rec : bool) (NSFilter : NamespaceFilter) (OperatorNamespace : string).

Definition applySystemVnet (desired : VirtualNetwork) (impact : string) : EIO W unit :=
  r ← try (write (WApplyVnet desired));
  match r with
  | Err e =>
      _ ← liftIO (applyFailed rec (ref_of desired) ApplyErrorSystemVnet note_system_failed
                    [AStr (obj_ns desired); AStr (obj_name desired); AStr (error_string e); AStr impact]);
      throw e
  | Ok _ => mret tt
  end.

Definition deleteNamespaceSystemVnet (ns : string) : EIO W unit :=
  r ← try (read (λ rd, get_vnet rd (mkKey ns SystemVnetNamespace)));
  match r with
  | Err e => if IsNotFound e then mret tt else throw e
  | Ok v =>
      if negb (operatorManaged v) then mret tt
      else
        r ← try (write (WDeleteVnet v));
        match r with
        | Err e => if IsNotFound e then mret tt else throw e
        | Ok _ => mret tt
        end
  end.

Definition SystemVnetReconcile (name : string) : EIO W Outcome :=
  r ← try (read (λ rd, get_namespace rd name));
  match r with
  | Err e => if IsNotFound e then mret Finished else throw e
  | Ok ns =>
      if m_deleting (ns_meta ns) then mret Finished
      else
        _ ← (if IsManaged NSFilter ns then
               applySystemVnet (namespace_vnet (obj_name ns))
                 "pods in this namespace that join `namespace` are not members of it until this is fixed"
             else if negb (obj_name ns =?? OperatorNamespace) then deleteNamespaceSystemVnet (obj_name ns)
             else mret tt);
        _ ← (if obj_name ns =?? OperatorNamespace then
               applySystemVnet (cluster_vnet OperatorNamespace)
                 "pods that join `cluster` are not members of it until this is fixed"
             else mret tt);
        mret Finished
  end.
End reconcile.

(** ** What the code relies on of the API for vnets

    Reads see the stored vnets; a successful forced apply leaves the desired labels and
    description, and an [all: true] the apply sets, beside what others set; a delete that
    succeeds or finds nothing leaves the vnet gone; a failed write changes nothing. *)

Definition applied_vnet (desired live : VirtualNetwork) : Prop :=
  ObjectKeyFromObject live = ObjectKeyFromObject desired ∧
  obj_labels desired ⊆ obj_labels live ∧
  vs_description (vnet_spec live) = vs_description (vnet_spec desired) ∧
  (∀ s, vs_allowedNamespaces (vnet_spec desired) = Some s → ns_all s = true →
    ∃ s', vs_allowedNamespaces (vnet_spec live) = Some s' ∧ ns_all s' = true).

Class VnetServer (W : Type) `{Client W} := {
  vnets : W → gmap ObjectKey VirtualNetwork;
  vnets_key : ∀ w k v, vnets w !! k = Some v → ObjectKeyFromObject v = k;
  reads_vnets : ∀ w k,
    match get_vnet (cl_reader w) k with
    | Ok v => vnets w !! k = Some v
    | Err e => IsNotFound e = true → vnets w !! k = None
    end;
  apply_stores_vnet : ∀ v w w', cl_write (WApplyVnet v) w = (Ok tt, w') →
    ∃ live, vnets w' = <[ObjectKeyFromObject v := live]> (vnets w) ∧ applied_vnet v live;
  failed_apply_vnet : ∀ v w e w', cl_write (WApplyVnet v) w = (Err e, w') → vnets w' = vnets w;
  delete_removes_vnet : ∀ v w r w', cl_write (WDeleteVnet v) w = (r, w') →
    vnets w' = if gone r then delete (ObjectKeyFromObject v) (vnets w) else vnets w }.
#[global] Hint Mode VnetServer ! - : typeclass_instances.

(** ** Facts *)

Section runs.
Context {W : Type} `{VnetServer W} (rec : bool).
Implicit Types (st : St W) (v : VirtualNetwork).

Definition vnets_of st : gmap ObjectKey VirtualNetwork := vnets (st_world st).

(** A run that ends well stores the vnet; one that fails stores nothing, and its error is
    counted once and reported on the vnet when there is a recorder. *)
Lemma applySystemVnet_run v impact st :
  let run := applySystemVnet rec v impact st in
  (run.1 = Ok tt ∧ ∃ live, vnets_of run.2 = <[ObjectKeyFromObject v := live]> (vnets_of st) ∧ applied_vnet v live) ∨
  (∃ e, run.1 = Err e ∧ vnets_of run.2 = vnets_of st ∧
    st_log run.2 = st_log st ++ [AWrite (WApplyVnet v) (Err e); AMetric (MApplyError ApplyErrorSystemVnet)] ++
      (if rec then [AEvent (mkEvent (ref_of v) EventTypeWarning EventApplyFailed "Apply" note_system_failed
         [AStr (obj_ns v); AStr (obj_name v); AStr (error_string e); AStr impact])] else [])).
Proof.
  cbv zeta. unfold applySystemVnet. rewrite bind_try. unfold write, vnets_of.
  destruct (cl_write _ _) as [[[]|e] w] eqn:E; cbn [fst snd].
  - left. split; [done|]. by apply apply_stores_vnet.
  - right. exists e. rewrite bind_liftIO. unfold applyFailed, eventf, throw, log_action. rewrite bind_IO. cbn.
    apply failed_apply_vnet in E. destruct rec; cbn; rewrite <-!(assoc_L (++)); by repeat split.
Qed.

Lemma applySystemVnet_Ok v impact st st1 : applySystemVnet rec v impact st = (Ok tt, st1) →
  ∃ live, vnets_of st1 = <[ObjectKeyFromObject v := live]> (vnets_of st) ∧ applied_vnet v live.
Proof.
  intros E. pose proof (applySystemVnet_run v impact st) as Hr. rewrite E in Hr.
  destruct Hr as [[_ Hr]|(e & Hr & _)]; done.
Qed.

Lemma deleteNamespaceSystemVnet_run ns st :
  let run := deleteNamespaceSystemVnet ns st in
  let k := mkKey ns SystemVnetNamespace in
  (run.1 = Ok tt ∧ (∀ v, vnets_of run.2 !! k = Some v → operatorManaged v = false ∧ vnets_of st !! k = Some v) ∧
    (∀ k', k' ≠ k → vnets_of run.2 !! k' = vnets_of st !! k')) ∨
  (∃ e, run.1 = Err e ∧ vnets_of run.2 = vnets_of st).
Proof.
  cbv zeta. unfold deleteNamespaceSystemVnet. rewrite bind_try. unfold read. cbn [fst snd].
  pose proof (reads_vnets (st_world st) (mkKey ns SystemVnetNamespace)) as Hr. unfold vnets_of.
  destruct (get_vnet _ _) as [v|e].
  2:{ destruct (IsNotFound e) eqn:En; [|right; by exists e]. left. split; [done|].
      split; [|done]. intros v Hv. cbn in Hv. by rewrite Hr in Hv. }
  destruct (operatorManaged v) eqn:Em; cbn [negb].
  2:{ left. split; [done|]. split; [|done]. intros v' Hv. cbn in *. split; congruence. }
  rewrite bind_try. unfold write. destruct (cl_write _ _) as [r w] eqn:E. cbn [fst snd].
  apply delete_removes_vnet in E. rewrite (vnets_key _ _ _ Hr) in E.
  destruct (gone r) eqn:Eg.
  - left. split; [destruct r as [[]|e]; [done|]; simpl in Eg; by rewrite Eg|].
    assert (∀ r', vnets (st_world (((match r' with Err e => if IsNotFound e then mret tt else throw e | Ok _ => mret tt end)
       : EIO W unit) (mkSt w (st_log st ++ [AWrite (WDeleteVnet v) r]) (st_restores st) (st_once st))).2) = vnets w) as ->.
    { intros [?|e]; [done|]. by destruct (IsNotFound e). }
    rewrite E. split; [by intros v'; rewrite lookup_delete_eq|]. intros k' Hk. by rewrite lookup_delete_ne.
  - right. destruct r as [?|e]; [done|]. simpl in Eg. rewrite Eg. by exists e.
Qed.
End runs.

Lemma cluster_vnet_open `{K8sLib} op live rd n : applied_vnet (cluster_vnet op) live → admitted rd live n.
Proof.
  intros (_ & _ & _ & Ho). destruct (Ho _ eq_refl eq_refl) as (s & Hs & Ha). right. exists s. by split; [|left].
Qed.

Lemma applied_operatorManaged v live :
  applied_vnet v live → operatorManaged v = true → operatorManaged live = true.
Proof.
  intros (_ & Hl & _) Hv. unfold operatorManaged, get_or in *. apply bool_decide_eq_true in Hv.
  apply bool_decide_eq_true. destruct (obj_labels v !! LabelManagedBy) as [x|] eqn:E; [|done].
  by rewrite (lookup_weaken _ _ _ _ E Hl).
Qed.

(** ** Properties *)


Import Model.

#[export] Instance cluster_vnets : VnetServer Cluster.
Proof.
  refine {| vnets c := keyed (cl_vnets c) |}.
  - intros c k v Hk. by apply keyed_lookup in Hk as [_ ?].
  - intros c k. simpl. unfold get_of. by destruct (keyed _ !! k).
  - intros v c c' [= <-]. eexists. simpl. rewrite keyed_insert_key by apply applied_over_key.
    split; [done|]. split; [apply applied_over_key|]. destruct (keyed _ !! _); simpl; (split_and!; [done..|]);
      intros s Hs Ha; by exists s.
  - intros v c e c' [=].
  - intros v c r c' [= <- <-]. simpl. apply keyed_delete.
Defined.

(** The operator's namespace, a managed one, and a disabled one with two vnets: one of the
    operator, and one under the reserved name that it did not create. *)
Definition system_cluster : Cluster :=
  set_vnets {[mkKey "off" "namespace" := namespace_vnet "off"; mkKey "shop" "payments" := permits_vnet]}
    (mkCluster ∅ {["kube-vnet" := mkNamespace (new_meta "" "kube-vnet" ∅);
                   "off" := mkNamespace (new_meta "" "off" ∅)]} ∅ ∅ ∅ ∅ ∅ ∅ [] [] [] ∅).
Definition system_filter : NamespaceFilter := NewNamespaceFilter ["off"; "kube-vnet"].
Definition system_run (name : string) : result Outcome * St Cluster :=
  SystemVnetReconcile true system_filter "kube-vnet" name (initial system_cluster).

