(* ===== verification/Webhook.v ===== *)
(** * The admission webhooks (internal/webhook/podresolution: handlers.go, mutator.go,
    validator.go, networkwait.go)

    The mutator stamps a pod as it is created or updated, the validator rejects a stamp
    that resolution does not give. The decoder, [json.Marshal] and the JSON patch are
    library code: the raw objects are a type [Raw], decoding and encoding are parameters. *)

From Stdlib Require Import Ascii.
From S2P Require Import Prelude GoStrings Types Effects Direction Names Resolution ApiServer.
From S2P Require Import Permits Apply Stamps HostPort Resolver Durations NetworkWait.

#[local] Open Scope Z_scope.

Inductive Operation := Create | Update.

#[export] Instance Operation_eq_dec : EqDecision Operation.
Proof. solve_decision. Defined.

(** [admission.Request]: [OldObject.Raw] is empty on a create. *)
Record Request (Raw : Type) := mkRequest {
  rq_username : string;
  rq_namespace : string;
  rq_operation : Operation;
  rq_object : Raw;
  rq_oldObject : option Raw }.
Arguments mkRequest {_} _ _ _ _ _.
Arguments rq_username {_} _.
Arguments rq_namespace {_} _.
Arguments rq_operation {_} _.
Arguments rq_object {_} _.
Arguments rq_oldObject {_} _.

(** [admission.Response]: [admission.Allowed], [Denied], [Errored] and
    [PatchResponseFromRaw], the patch from one raw object to another. *)
Inductive Response (Raw : Type) :=
  | Allowed (message : string) (warnings : list string)
  | Denied (message : string)
  | Errored (code : Z) (e : error)
  | Patched (from to : Raw) (warnings : list string).
Arguments Allowed {_} _ _.
Arguments Denied {_} _.
Arguments Errored {_} _ _.
Arguments Patched {_} _ _ _.

Definition StatusBadRequest : Z := 400.
Definition StatusInternalServerError : Z := 500.

(** ** networkwait.go *)

Record NetworkWaitConfig := mkWaitConfig { wc_image : string; wc_beacons : string }.

Definition wait_container (cfg : NetworkWaitConfig) (maxWait : Z) : Container :=
  mkContainer NetworkWaitContainerName (wc_image cfg) "IfNotPresent"
    ["network-wait"; "--beacons=" +:+ wc_beacons cfg; "--max-wait=" +:+ Duration_String maxWait]
    [] None {["cpu" := "10m"; "memory" := "16Mi"]} {["cpu" := "100m"; "memory" := "32Mi"]}
    (Some (mkSecurity (Some true) (Some false) (Some true) ["ALL"] "RuntimeDefault")).

(** The container and the warning. *)
Definition networkWait (pod : Pod) (cfg : option NetworkWaitConfig) : option Container * string :=
  match obj_annotations pod !! AnnotationNetworkMaxWait with
  | None => (None, "")
  | Some value =>
      if ps_hostNetwork (pod_spec pod) then (None, "")
      else
        let w := NetworkWaitWarning pod true (bool_decide (is_Some cfg)) in
        if negb (w =?? "") then (None, w)
        else if existsb (λ c, c_name c =?? NetworkWaitContainerName) (ps_initContainers (pod_spec pod)) then
          (None, "")
        else match cfg with
             | Some cfg => (Some (wait_container cfg (default 0 (ParseDuration value))), "")
             | None => (None, "")
             end
  end.

Definition prepend_init (c : Container) (pod : Pod) : Pod :=
  mkPod (pod_meta pod)
    (mkPodSpec (ps_containers (pod_spec pod)) (c :: ps_initContainers (pod_spec pod)) (ps_hostNetwork (pod_spec pod))).

(** ** handlers.go *)

(** A decoded request. *)
Record podRequest := mkPodRequest {
  pr_pod : Pod;
  pr_stamps : gmap string string;
  pr_oldStamps : gmap string string }.

Definition untouched (r : podRequest) (k : string) : bool :=
  (bool_decide (is_Some (pr_stamps r !! k)) =?? bool_decide (is_Some (pr_oldStamps r !! k))) &&
  (get_or "" (pr_stamps r) k =?? get_or "" (pr_oldStamps r) k).

(** One [case] of the validator's switch; [None] when the stamp is right. *)
Definition bad_stamp (stamps desired : gmap string string) (k : string) : option string :=
  match stamps !! k, desired !! k with
  | Some val, None => Some (Sprintf "%s=%s (pod resolves to no such membership)" [AStr k; AStr val])
  | Some val, Some want =>
      if negb (want =?? val) then Some (Sprintf "%s=%s (resolves to %q)" [AStr k; AStr val; AStr want]) else None
  | None, Some want => Some (Sprintf "%s removed (still resolves to %q)" [AStr k; AStr want])
  | None, None => None
  end.

(** The stamps the request set or removed; Go visits the maps in no particular order, and
    what the validator says of them is sorted. *)
Definition touched (r : podRequest) : list string :=
  List.filter (λ k, negb (untouched r k)) (map fst (map_to_list (pr_stamps r))) ++
  List.filter (λ k, bool_decide (pr_stamps r !! k = None)) (map fst (map_to_list (pr_oldStamps r))).

Definition note_denied : string :=
  "labels under kube-vnet.system/ are managed by the kube-vnet operator and must match the resolved membership for this pod: %s. To declare pod membership in a virtual network, use a label under kube-vnet/ instead (e.g. kube-vnet/net.<vnet>=<direction>).".

Section handlers.
Context {Raw : Type} (Decode : Raw → result Pod) (Marshal : Pod → result Raw).
Context `{K8sLib} {W : Type} `{Client W}.
Context (NSFilter : NamespaceFilter) (OperatorUsername : string) (NetworkWait : option NetworkWaitConfig).
Implicit Types (req : Request Raw).

Definition isOperator req : bool :=
  negb (OperatorUsername =?? "") && (rq_username req =?? OperatorUsername).

Definition decode req : result podRequest :=
  pod ← Decode (rq_object req);
  match rq_oldObject req with
  | None => Ok (mkPodRequest pod (ResolutionStamps pod) ∅)
  | Some raw => old ← Decode raw; Ok (mkPodRequest pod (ResolutionStamps pod) (ResolutionStamps old))
  end.

Definition namespaceManaged (rd : Reader) (name : string) : result bool :=
  if name =?? "" then Ok false
  else match Manages NSFilter rd name with
       | Ok managed => Ok managed
       | Err e => Err (ErrWrap ("read namespace " +:+ Quote name +:+ ": ") e)
       end.

(** The resolver of the webhook has no recorder. *)
Definition resolve (pod : Pod) : EIO W (gmap string string * ResolutionResult) := λ st,
  DesiredLabels false (cl_reader (st_world st)) pod st.

(** ** mutator.go *)

(** The pod the mutator asks for, and a warning. Only stamps the request left alone are
    written; init containers can only be set at creation. *)
Definition mutated (op : Operation) (r : podRequest) (desired : gmap string string) : Pod * string :=
  let out := (SyncStamps (pr_pod r) desired (untouched r)).1 in
  let out := MarkResolved out ResolvedByAdmission in
  match op with
  | Create =>
      match networkWait out NetworkWait with
      | (Some wait, w) => (prepend_init wait out, w)
      | (None, w) => (out, w)
      end
  | Update => (out, "")
  end.

Definition mutate (req : Request Raw) (r : podRequest) (desired : gmap string string) : Response Raw :=
  let '(out, warning) := mutated (rq_operation req) r desired in
  match Marshal out with
  | Err e => Errored StatusInternalServerError e
  | Ok marshaled => Patched (rq_object req) marshaled (if negb (warning =?? "") then [warning] else [])
  end.

Definition Mutator_Handle req : IO W (Response Raw) :=
  if isOperator req then mret (Allowed "operator ServiceAccount" [])
  else match decode req with
  | Err e => mret (Errored StatusBadRequest e)
  | Ok r =>
      managed ← attempt (read (λ rd, namespaceManaged rd (rq_namespace req)));
      match managed with
      | Err e => mret (Errored StatusInternalServerError e)
      | Ok false =>
          let w := if rq_operation req =?? Create then NetworkWaitWarning (pr_pod r) false false else "" in
          mret (Allowed "namespace is not managed by kube-vnet" (if negb (w =?? "") then [w] else []))
      | Ok true =>
          found ← attempt (resolve (pr_pod r));
          match found with
          | Err e => mret (Errored StatusInternalServerError e)
          | Ok found => mret (mutate req r found.1)
          end
      end
  end.

(** ** validator.go *)

(** From the resolved stamps on. *)
Definition judge (r : podRequest) (desired : gmap string string) : Response Raw :=
  let bad := omap (bad_stamp (pr_stamps r) desired) (touched r) in
  if (0 <? length bad)%nat
  then Denied (Sprintf note_denied [AStr (Join (sort_strings bad) "; ")])
  else Allowed "kube-vnet.system labels match resolved membership" [].

Definition Validator_Handle req : IO W (Response Raw) :=
  if isOperator req then mret (Allowed "operator ServiceAccount" [])
  else match decode req with
  | Err e => mret (Errored StatusBadRequest e)
  | Ok r =>
      if (length (touched r) =? 0)%nat then mret (Allowed "no change to kube-vnet.system labels" [])
      else
        managed ← attempt (read (λ rd, namespaceManaged rd (rq_namespace req)));
        match managed with
        | Err e => mret (Errored StatusInternalServerError e)
        | Ok false => mret (judge r ∅)
        | Ok true =>
            found ← attempt (resolve (pr_pod r));
            match found with
            | Err e => mret (Errored StatusInternalServerError e)
            | Ok found => mret (judge r found.1)
            end
        end
  end.
End handlers.
