(* ===== verification/WebhookSpec.v ===== *)
(** * What the admission webhooks guarantee (internal/webhook/podresolution)

    The validator lets a stamp be set or removed only to what resolution gives, and fails
    closed. Through both webhooks a pod of a managed namespace is stored with exactly its
    resolved stamps and the marker, so that the reconciler has nothing left to write. *)

From Stdlib Require Import Ascii.
From S2P Require Import Prelude GoStrings Types Effects Direction Names Resolution ResolutionSpec.
From S2P Require Import ApiServer Permits Apply Stamps HostPort Resolver Durations NetworkWait.
From S2P Require Import ResolutionController ResolutionControllerSpec Webhook DurationsSpec.

#[local] Open Scope Z_scope.

(** The request is admitted. *)
Definition allows {Raw} (resp : Response Raw) : bool :=
  match resp with Allowed _ _ | Patched _ _ _ => true | Denied _ | Errored _ _ => false end.

(** Every stamp the request set or removed is the resolved one. *)
Definition stamps_right (r : podRequest) (desired : gmap string string) : Prop :=
  ∀ k, pr_stamps r !! k = pr_oldStamps r !! k ∨ pr_stamps r !! k = desired !! k.

(** ** Facts *)

Lemma untouched_iff r k : untouched r k = true ↔ pr_stamps r !! k = pr_oldStamps r !! k.
Proof.
  unfold untouched, get_or. rewrite andb_true_iff, !bool_decide_eq_true.
  destruct (pr_stamps r !! k) as [v|], (pr_oldStamps r !! k) as [v'|]; simpl; split; try naive_solver.
Qed.

Lemma elem_of_map_fst {V} (m : gmap string V) k : k ∈ map fst (map_to_list m) ↔ is_Some (m !! k).
Proof.
  rewrite list_elem_of_fmap. split.
  - intros ([k' v] & -> & Hk%elem_of_map_to_list). by exists v.
  - intros [v Hv%elem_of_map_to_list]. by exists (k, v).
Qed.

Lemma elem_of_touched r k : k ∈ touched r ↔ pr_stamps r !! k ≠ pr_oldStamps r !! k.
Proof.
  unfold touched. rewrite elem_of_app, !list_elem_of_In, !filter_In, <-!list_elem_of_In, !elem_of_map_fst.
  rewrite negb_true_iff, bool_decide_eq_true, <-not_true_iff_false, untouched_iff.
  destruct (pr_stamps r !! k), (pr_oldStamps r !! k); split; try naive_solver; intros _; right; by split.
Qed.

Lemma bad_stamp_None stamps desired k : bad_stamp stamps desired k = None ↔ stamps !! k = desired !! k.
Proof.
  unfold bad_stamp. destruct (stamps !! k) as [v|], (desired !! k) as [w|]; [|done..].
  case_bool_decide; subst; simpl; split; naive_solver.
Qed.

Lemma judge_allows {Raw} r desired : allows (judge (Raw := Raw) r desired) = true ↔ stamps_right r desired.
Proof.
  unfold judge, stamps_right. destruct (omap _ (touched r)) as [|b bad] eqn:E; simpl.
  - split; [|done]. intros _ k. destruct (decide (pr_stamps r !! k = pr_oldStamps r !! k)) as [|Hk]; [by left|right].
    apply elem_of_touched in Hk. apply bad_stamp_None. destruct (bad_stamp _ _ k) as [s|] eqn:Eb; [|done].
    assert (s ∈ omap (bad_stamp (pr_stamps r) desired) (touched r)) as Hs
      by (apply list_elem_of_omap; by exists k).
    rewrite E in Hs. by apply not_elem_of_nil in Hs.
  - split; [done|]. intros Hr. assert (b ∈ omap (bad_stamp (pr_stamps r) desired) (touched r)) as Hb
      by (rewrite E; by left).
    apply list_elem_of_omap in Hb as (k & Hk%elem_of_touched & Eb). destruct (Hr k) as [?|Hd]; [done|].
    apply bad_stamp_None in Hd. congruence.
Qed.

Lemma untouched_none r : touched r = [] ↔ ∀ k, pr_stamps r !! k = pr_oldStamps r !! k.
Proof.
  split.
  - intros E k. destruct (decide (pr_stamps r !! k = pr_oldStamps r !! k)) as [|Hk]; [done|].
    apply elem_of_touched in Hk. rewrite E in Hk. by apply not_elem_of_nil in Hk.
  - intros Hall. destruct (touched r) as [|k l] eqn:E; [done|].
    assert (k ∈ touched r) as Hk%elem_of_touched by (rewrite E; by left). by rewrite Hall in Hk.
Qed.

Section handlers.
Context {Raw : Type} (Decode : Raw → result Pod) (Marshal : Pod → result Raw).
Context `{K8sLib} {W : Type} `{Client W}.
Context (NSFilter : NamespaceFilter) (OperatorUsername : string) (NetworkWait : option NetworkWaitConfig).
Implicit Types (req : Request Raw) (st : St W).

Lemma resolve_run pod st : resolve pod st = (desired_of (cl_reader (st_world st)) pod, st).
Proof.
  unfold resolve. rewrite (surjective_pairing (DesiredLabels _ _ _ _)). f_equal.
  - apply DesiredLabels_result.
  - apply (DesiredLabels_keeps id false (cl_reader (st_world st))).
Qed.

(** The stamps a handler compares with. *)
Definition request_stamps (rd : Reader) (ns : string) (pod : Pod) : result (gmap string string) :=
  managed ← namespaceManaged NSFilter rd ns; wanted_stamps rd managed pod.

Lemma Validator_run req st : Validator_Handle Decode NSFilter OperatorUsername req st =
  (if isOperator OperatorUsername req then Allowed "operator ServiceAccount" []
   else match decode Decode req with
   | Err e => Errored StatusBadRequest e
   | Ok r =>
       if (length (touched r) =? 0)%nat then Allowed "no change to kube-vnet.system labels" []
       else match request_stamps (cl_reader (st_world st)) (rq_namespace req) (pr_pod r) with
            | Err e => Errored StatusInternalServerError e
            | Ok desired => judge r desired
            end
   end, st).
Proof.
  unfold Validator_Handle, request_stamps. destruct (isOperator _ _); [done|].
  destruct (decode _ _) as [r|e]; [|done]. destruct (_ =? 0)%nat; [done|].
  rewrite bind_IO. unfold attempt, read. cbn [fst snd].
  destruct (namespaceManaged _ _ _) as [[]|e]; [|done|done].
  rewrite bind_IO, resolve_run. cbn [fst snd mbind result_bind wanted_stamps].
  by destruct (desired_of _ _) as [found|e].
Qed.

Lemma Validator_allows_iff req st :
  let run := Validator_Handle Decode NSFilter OperatorUsername req st in
  allows run.1 = true ↔
    isOperator OperatorUsername req = true ∨
    ∃ r, decode Decode req = Ok r ∧
      ((∀ k, pr_stamps r !! k = pr_oldStamps r !! k) ∨
       ∃ desired, request_stamps (cl_reader (st_world st)) (rq_namespace req) (pr_pod r) = Ok desired ∧
         stamps_right r desired).
Proof.
  cbv zeta. rewrite Validator_run. cbn [fst]. destruct (isOperator _ _); [split; auto|].
  destruct (decode _ _) as [r|e]; [|split; [done|by intros [?|(r & ? & _)]]].
  setoid_rewrite <-untouched_none. destruct (touched r) as [|k l] eqn:E; simpl.
  - split; [intros _; right; exists r; auto|done].
  - destruct (request_stamps _ _ _) as [desired|e] eqn:Eq.
    + rewrite judge_allows. split; [intros Hr; right; exists r; split; [done|]; right; by exists desired|].
      intros [?|(r' & [= <-] & [?|(d & Hd & Hr)])]; [done|congruence|]. by rewrite Eq in Hd; simplify_eq.
    + split; [done|]. intros [?|(r' & [= <-] & [?|(d & ? & _)])]; [done|congruence|congruence].
Qed.

Lemma Mutator_run req st : Mutator_Handle Decode Marshal NSFilter OperatorUsername NetworkWait req st =
  (if isOperator OperatorUsername req then Allowed "operator ServiceAccount" []
   else match decode Decode req with
   | Err e => Errored StatusBadRequest e
   | Ok r =>
       match namespaceManaged NSFilter (cl_reader (st_world st)) (rq_namespace req) with
       | Err e => Errored StatusInternalServerError e
       | Ok false =>
           let w := if rq_operation req =?? Create then NetworkWaitWarning (pr_pod r) false false else "" in
           Allowed "namespace is not managed by kube-vnet" (if negb (w =?? "") then [w] else [])
       | Ok true =>
           match desired_of (cl_reader (st_world st)) (pr_pod r) with
           | Err e => Errored StatusInternalServerError e
           | Ok found => mutate Marshal NetworkWait req r found.1
           end
       end
   end, st).
Proof.
  unfold Mutator_Handle. destruct (isOperator _ _); [done|]. destruct (decode _ _) as [r|e]; [|done].
  rewrite bind_IO. unfold attempt, read. cbn [fst snd].
  destruct (namespaceManaged _ _ _) as [[]|e]; [|done|done].
  rewrite bind_IO, resolve_run. cbn [fst snd]. by destruct (desired_of _ _) as [found|e].
Qed.

(** The stamps, the marker and the rest of a mutated pod. *)
Lemma mutated_facts op r desired : stamps_only desired → pr_stamps r = ResolutionStamps (pr_pod r) →
  let pod' := (mutated NetworkWait op r desired).1 in
  resolves_alike (pr_pod r) pod' ∧ marked pod' ∧
  (∀ k, ResolutionStamps pod' !! k = if untouched r k then desired !! k else pr_stamps r !! k).
Proof.
  intros Hd Hs. cbv zeta. set (synced := (SyncStamps (pr_pod r) desired (untouched r)).1).
  set (out := MarkResolved synced ResolvedByAdmission).
  assert (∃ pod', (mutated NetworkWait op r desired).1 = pod' ∧ pod_meta pod' = pod_meta out ∧
    ps_containers (pod_spec pod') = ps_containers (pod_spec out) ∧
    ps_hostNetwork (pod_spec pod') = ps_hostNetwork (pod_spec out)) as (pod' & -> & Em & Ec & Eh).
  { unfold mutated. fold synced out. destruct op; [|by exists out].
    destruct (networkWait out NetworkWait) as [[c|] w]; eexists; split; done. }
  pose proof (SyncStamps_lookup (pr_pod r) desired (untouched r)) as Hl. fold synced in Hl.
  destruct (SyncStamps_fst (pr_pod r) desired (untouched r)) as (labels & E & _).
  assert (synced = set_pod_labels labels (pr_pod r)) as Hsync by (subst synced; by rewrite E).
  assert (obj_labels pod' = obj_labels synced) as El.
  { change (m_labels (pod_meta pod') = obj_labels synced). by rewrite Em. }
  split; [split_and!|split].
  - change (meta_key (pod_meta pod') = meta_key (pod_meta (pr_pod r))). rewrite Em. subst out. by rewrite Hsync.
  - rewrite Em. subst out. by rewrite Hsync.
  - unfold desiredHostPortStamps, desiredHostPortKeys. simpl. rewrite Ec, Eh. subst out. by rewrite Hsync.
  - intros k Hk. rewrite El, (Hl k Hd). by rewrite Hk.
  - assert (marked out) as Hm.
    { apply MarkResolved_marked. }
    unfold marked, obj_annotations in *. simpl in *. by rewrite Em.
  - intros k. rewrite ResolutionStamps_lookup, El, (Hl k Hd), Hs, ResolutionStamps_lookup.
    destruct (IsResolutionManagedLabel k) eqn:Ek; simpl; [done|].
    destruct (untouched r k); [|done]. symmetry. apply eq_None_not_Some. intros Hx%Hd. congruence.
Qed.
End handlers.

(** The stamps of a resolution are stamps. *)
Lemma desired_of_stamps `{K8sLib} rd pod found : desired_of rd pod = Ok found → stamps_only found.1.
Proof. unfold desired_of. intros (layers & _ & [= <-])%result_bind_Ok. apply render_stamps_only. Qed.

Definition with_object {Raw} (raw : Raw) (req : Request Raw) : Request Raw :=
  mkRequest (rq_username req) (rq_namespace req) (rq_operation req) raw (rq_oldObject req).

Lemma decode_stamps {Raw} (Decode : Raw → result Pod) req r :
  decode Decode req = Ok r → pr_stamps r = ResolutionStamps (pr_pod r).
Proof.
  unfold decode. intros (pod & _ & Hr)%result_bind_Ok. destruct (rq_oldObject req); simpl in Hr.
  - apply result_bind_Ok in Hr as (old & _ & [= <-]). done.
  - by injection Hr as <-.
Qed.

(** The old stamps do not depend on the new object. *)
Lemma decode_with_object {Raw} (Decode : Raw → result Pod) req r raw pod' :
  decode Decode req = Ok r → Decode raw = Ok pod' →
  decode Decode (with_object raw req) = Ok (mkPodRequest pod' (ResolutionStamps pod') (pr_oldStamps r)).
Proof.
  unfold decode. intros (pod & _ & Hr)%result_bind_Ok Hd. simpl. rewrite Hd. simpl.
  destruct (rq_oldObject req); simpl in *.
  - apply result_bind_Ok in Hr as (old & -> & [= <-]). done.
  - by injection Hr as <-.
Qed.

Lemma namespaceManaged_true NSFilter rd ns : namespaceManaged NSFilter rd ns = Ok true →
  ∃ nsObj, get_namespace rd ns = Ok nsObj ∧ IsManaged NSFilter nsObj = true.
Proof.
  unfold namespaceManaged. case_bool_decide; [done|]. destruct (Manages NSFilter rd ns) as [b|] eqn:E; [|done].
  intros [= ->]. by apply Manages_true.
Qed.

(** ** The network wait *)

Definition wait_asked (pod : Pod) (d : Z) : Prop :=
  ∃ value, obj_annotations pod !! AnnotationNetworkMaxWait = Some value ∧
    ps_hostNetwork (pod_spec pod) = false ∧ ParseDuration value = Some d ∧ 0 < d.

Definition wait_injected (pod : Pod) : bool :=
  existsb (λ c, c_name c =?? NetworkWaitContainerName) (ps_initContainers (pod_spec pod)).

(** The warning of a pod that asks in a managed namespace. *)
Lemma wait_warning pod enabled value :
  obj_annotations pod !! AnnotationNetworkMaxWait = Some value → ps_hostNetwork (pod_spec pod) = false →
  NetworkWaitWarning pod true enabled = "" ↔ enabled = true ∧ ∃ d, ParseDuration value = Some d ∧ 0 < d.
Proof.
  intros Ha Hh. unfold NetworkWaitWarning, positive_duration. rewrite Ha, Hh. cbn [negb].
  destruct enabled; cbn [negb]; [|split; [done|by intros []]].
  destruct (ParseDuration value) as [d|]; simpl.
  - destruct (Z.ltb_spec 0 d); simpl; split; try done; [eauto|].
    intros (_ & d' & [= <-] & ?). lia.
  - split; [done|]. by intros (_ & d & ? & _).
Qed.

Lemma networkWait_Some pod cfg c : (networkWait pod cfg).1 = Some c ↔
  ∃ d cf, wait_asked pod d ∧ cfg = Some cf ∧ wait_injected pod = false ∧ c = wait_container cf d.
Proof.
  unfold networkWait, wait_asked. fold (wait_injected pod).
  destruct (obj_annotations pod !! AnnotationNetworkMaxWait) as [value|] eqn:Ea;
    [|split; [done|by intros (? & ? & (? & ? & _) & _)]].
  destruct (ps_hostNetwork (pod_spec pod)) eqn:Eh; [split; [done|by intros (? & ? & (? & _ & ? & _) & _)]|].
  pose proof (wait_warning pod (bool_decide (is_Some cfg)) value Ea Eh) as Hw.
  destruct (NetworkWaitWarning pod true (bool_decide (is_Some cfg)) =?? "") eqn:Ew;
    [apply bool_decide_eq_true in Ew|apply bool_decide_eq_false in Ew]; cbn [negb].
  - destruct (proj1 Hw Ew) as (Hc & d & Hp & Hd). rewrite bool_decide_eq_true in Hc. destruct Hc as [cf ->].
    destruct (wait_injected pod); simpl; [split; [done|by intros (? & ? & _ & _ & ? & _)]|]. rewrite Hp. simpl. split.
    + intros [= <-]. exists d, cf. split_and!; [|done..]. by exists value.
    + intros (d' & cf' & (v & [= <-] & _ & Hp' & _) & [= <-] & _ & ->). by simplify_eq.
  - split; [done|]. intros (d & cf & (v & [= <-] & _ & Hp & Hd) & -> & _). destruct Ew. apply Hw.
    rewrite bool_decide_eq_true_2 by done. eauto.
Qed.

Lemma networkWait_again pod cf d :
  wait_asked pod d → networkWait (prepend_init (wait_container cf d) pod) (Some cf) = (None, "").
Proof.
  intros (value & Ha & Hh & Hp & Hd). unfold networkWait.
  change (obj_annotations (prepend_init (wait_container cf d) pod)) with (obj_annotations pod).
  change (ps_hostNetwork (pod_spec (prepend_init (wait_container cf d) pod))) with (ps_hostNetwork (pod_spec pod)).
  rewrite Ha, Hh. rewrite (proj2 (wait_warning (prepend_init (wait_container cf d) pod) _ value Ha Hh)); [done|].
  rewrite bool_decide_eq_true_2 by done. eauto.
Qed.

Lemma networkWait_warns pod cfg : (networkWait pod cfg).2 ≠ "" ↔
  is_Some (obj_annotations pod !! AnnotationNetworkMaxWait) ∧ ps_hostNetwork (pod_spec pod) = false ∧
  ¬ ((∃ d, wait_asked pod d) ∧ is_Some cfg).
Proof.
  unfold networkWait, wait_asked.
  destruct (obj_annotations pod !! AnnotationNetworkMaxWait) as [value|] eqn:Ea;
    [|split; [done|by intros [[? ?] _]]].
  destruct (ps_hostNetwork (pod_spec pod)) eqn:Eh; [split; [done|by intros (_ & ? & _)]|].
  pose proof (wait_warning pod (bool_decide (is_Some cfg)) value Ea Eh) as Hw. rewrite bool_decide_eq_true in Hw.
  destruct (NetworkWaitWarning pod true (bool_decide (is_Some cfg)) =?? "") eqn:Ew;
    [apply bool_decide_eq_true in Ew|apply bool_decide_eq_false in Ew]; cbn [negb].
  - destruct (proj1 Hw Ew) as ([cf ->] & d & Hp & Hd). destruct (existsb _ _); simpl;
      (split; [done|]; intros (_ & _ & Hn); destruct Hn; split; [|done]; by exists d, value).
  - simpl. split; [|done]. intros _. split; [done|]. split; [done|]. intros [(d & v & [= <-] & _ & Hp & Hd) Hc].
    apply Ew, Hw. eauto.
Qed.

(** ** Properties *)

(** [C14] The validator admits a pod exactly when the operator asks, or the request left
    every stamp as it was, or every stamp it set or removed is the one resolution gives -
    none at all in a namespace that is not managed. It fails closed: a request that cannot
    be decoded, and a touched stamp while the namespace or the resolution cannot be read,
    are not admitted. It changes nothing. *)
Theorem Validator_allows_exactly {Raw} (Decode : Raw → result Pod) `{K8sLib} {W} `{Client W}
    NSFilter OperatorUsername (req : Request Raw) (st : St W) :
  let run := Validator_Handle Decode NSFilter OperatorUsername req st in
  (allows run.1 = true ↔
    isOperator OperatorUsername req = true ∨
    ∃ r, decode Decode req = Ok r ∧
      ((∀ k, pr_stamps r !! k = pr_oldStamps r !! k) ∨
       ∃ desired, request_stamps NSFilter (cl_reader (st_world st)) (rq_namespace req) (pr_pod r) = Ok desired ∧
         stamps_right r desired)) ∧
  run.2 = st.
Proof. split; [apply Validator_allows_iff|by rewrite Validator_run]. Qed.


(** [C31] The network wait is all or nothing, and says so. A pod gets the wait container
    exactly when it carries the annotation with a positive duration, is not on the host's
    network, the wait is enabled, and it has no such container yet; the container is then
    told to wait for that very duration, which it parses back, and a second call adds no
    other. A pod that asks and is refused gets a warning, and only such a pod does. *)
Theorem networkWait_spec pod cfg :
  let asked d := ∃ value, obj_annotations pod !! AnnotationNetworkMaxWait = Some value ∧
    ps_hostNetwork (pod_spec pod) = false ∧ ParseDuration value = Some d ∧ 0 < d in
  let injected := existsb (λ c, c_name c =?? NetworkWaitContainerName) (ps_initContainers (pod_spec pod)) in
  (∀ c, (networkWait pod cfg).1 = Some c ↔
    ∃ d cf, asked d ∧ cfg = Some cf ∧ injected = false ∧ c = wait_container cf d) ∧
  (∀ c, (networkWait pod cfg).1 = Some c →
    networkWait (prepend_init c pod) cfg = (None, "") ∧
    ∃ d t, asked d ∧ c_args c = ["network-wait"; "--beacons=" +:+ default "" (wc_beacons <$> cfg); "--max-wait=" +:+ t] ∧
      ParseDuration t = Some d) ∧
  ((networkWait pod cfg).2 ≠ "" ↔
    is_Some (obj_annotations pod !! AnnotationNetworkMaxWait) ∧ ps_hostNetwork (pod_spec pod) = false ∧
    ¬ ((∃ d, asked d) ∧ is_Some cfg)).
Proof.
  cbv zeta. split; [|split].
  - intros c. rewrite networkWait_Some. done.
  - intros c Hc. pose proof Hc as (d & cf & (value & Ha & Hh & Hp & Hpos) & -> & Hi & ->)%networkWait_Some. split.
    + apply networkWait_again. by exists value.
    + exists d, (Duration_String d). split; [by exists value|]. split; [done|].
      apply ParseDuration_String. split; [lia|by eapply ParseDuration_max].
  - apply networkWait_warns.
Qed.

Import Model.

(** A user creates the pod of [join_cluster], with the network wait. *)
Definition admit_pod : Pod := set_pod_annotations {[AnnotationNetworkMaxWait := "30s"]} join_pod.
Definition admit_request : Request Pod := mkRequest "alice" "web" Create admit_pod None.
Definition admit_wait : option NetworkWaitConfig := Some (mkWaitConfig "kube-vnet:1" "beacons:9444").
Definition admit_state : St Cluster := initial (set_pods ∅ join_cluster).
Definition admitted_pod : Pod :=
  match (Mutator_Handle Ok Ok join_filter "operator" admit_wait admit_request admit_state).1 with
  | Patched _ to _ => to
  | _ => admit_pod
  end.

