(* ===== verification/Wait.v ===== *)
(** * Waiting for the beacons (internal/networkwait/networkwait.go)

    [Wait] resolves the beacons' Service, dials the ones that have not accepted yet, each
    in a goroutine, and sleeps, until all have accepted or its context ends. The network
    is outside the program: a run is a sequence of steps, and a step that hears from the
    network may hear anything, at any time its context leaves it. *)

From Stdlib Require Import Ascii.
From S2P Require Import Prelude GoStrings Effects Durations.

#[local] Open Scope Z_scope.

Record Config := mkConfig {
  cfg_MaxWait : Z;
  cfg_Interval : Z;
  cfg_DialTimeout : Z }.

(** The fields the code defaults beside [Resolve] and [Dial], which are parameters here. *)
Definition withDefaults (cfg : Config) : Config :=
  mkConfig (cfg_MaxWait cfg)
    (if cfg_Interval cfg =?? 0 then 150 * Millisecond else cfg_Interval cfg)
    (if cfg_DialTimeout cfg =?? 0 then 500 * Millisecond else cfg_DialTimeout cfg).

Record Result := mkWaitResult {
  res_Released : bool;
  res_Elapsed : Z;
  res_Accepted : gmap string Z;
  res_Pending : list string }.

Definition notIn (addrs : list string) (accepted : gmap string Z) : list string :=
  sort_strings (List.filter (λ a, bool_decide (accepted !! a = None)) addrs).

Definition only (addrs : list string) (accepted : gmap string Z) : gmap string Z :=
  foldl (λ out a, match accepted !! a with Some d => <[a := d]> out | None => out end) ∅ addrs.

(** Where the loop stands: at the top of a round, waiting for the dials that still run
    (started at a time, one goroutine per entry), in the select (entered at a time), or
    returned. Times are since the start of the wait. *)
Inductive Phase :=
  | Resolving
  | Dialing (started : Z) (running : list string)
  | Selecting (entered : Z) (pending : list string)
  | Returned (r : Result).

Record WaitState := mkWait {
  ws_phase : Phase;
  ws_now : Z;
  ws_current : list string;
  ws_accepted : gmap string Z }.

Definition wait_start : WaitState := mkWait Resolving 0 [] ∅.

(** After [wg.Wait]: return, or go on to the select. *)
Definition after_dials (now : Z) (current : list string) (accepted : gmap string Z) : Phase :=
  let pending := notIn current accepted in
  if (0 <? length current)%nat && (length pending =? 0)%nat
  then Returned (mkWaitResult true now (only current accepted) [])
  else Selecting now pending.

(** What the program hears: the answer of a lookup, a dial that ended, the end of the
    context, the timer. *)
Inductive WaitLabel :=
  | LResolved (addrs : result (list string))
  | LDialed (ip : string) (ok : bool)
  | LJoined
  | LDone
  | LTick.

Section steps.
Context (cfg : Config).

(** When the context of the wait ends, and that of a dial. *)
Definition deadline (now : Z) : Z := Z.max now (cfg_MaxWait cfg).
Definition dial_deadline (started : Z) : Z := Z.min (deadline started) (started + cfg_DialTimeout cfg).

(** A lookup and a dial end when their context does, at the latest. The select takes
    whichever of the context's end and the timer comes first, either when they come
    together. *)
Inductive wait_step : WaitState → WaitLabel → WaitState → Prop :=
  | step_resolved now current accepted addrs t :
      now ≤ t ≤ deadline now →
      let current' := match addrs with Ok l => l | Err _ => current end in
      wait_step (mkWait Resolving now current accepted) (LResolved addrs)
                (mkWait (Dialing t (notIn current' accepted)) t current' accepted)
  | step_dialed now current accepted started pre ip post ok t :
      now ≤ t ≤ dial_deadline started →
      wait_step (mkWait (Dialing started (pre ++ ip :: post)) now current accepted) (LDialed ip ok)
                (mkWait (Dialing started (pre ++ post)) t current
                   (if ok then <[ip := t]> accepted else accepted))
  | step_joined now current accepted started :
      wait_step (mkWait (Dialing started []) now current accepted) LJoined
                (mkWait (after_dials now current accepted) now current accepted)
  | step_done now current accepted entered pending :
      deadline entered ≤ entered + cfg_Interval cfg →
      wait_step (mkWait (Selecting entered pending) now current accepted) LDone
                (mkWait (Returned (mkWaitResult false (deadline entered) (only current accepted) pending))
                   (deadline entered) current accepted)
  | step_tick now current accepted entered pending :
      entered + cfg_Interval cfg ≤ deadline entered →
      wait_step (mkWait (Selecting entered pending) now current accepted) LTick
                (mkWait Resolving (entered + cfg_Interval cfg) current accepted).

(** A run from the start, with what it heard. *)
Inductive wait_run : list WaitLabel → WaitState → Prop :=
  | run_start : wait_run [] wait_start
  | run_step tr s l s' : wait_run tr s → wait_step s l s' → wait_run (tr ++ [l]) s'.
End steps.

(** ** The beacon's side: [serve] *)

(** What [Accept] gives: a connection, or an error, with whether the context is done or
    the listener closed, and whether the context ends during the pause that follows. *)
Inductive AcceptEvent :=
  | AcceptConn
  | AcceptError (stopped : bool) (stopsMeanwhile : bool).

Definition next_backoff (backoff : Z) : Z := Z.min (Z.max (2 * backoff) (5 * Millisecond)) Second.

(** The pauses of the loop, until it returns or the events end. *)
Fixpoint serve (backoff : Z) (events : list AcceptEvent) : list Z :=
  match events with
  | [] => []
  | AcceptConn :: events => serve 0 events
  | AcceptError true _ :: _ => []
  | AcceptError false stops :: events =>
      let backoff := next_backoff backoff in
      backoff :: if stops then [] else serve backoff events
  end.
