(* ===== verification/WaitSpec.v ===== *)
(** * What a wait guarantees (internal/networkwait/networkwait.go)

    It releases the pod only when every published beacon has accepted, it always returns
    within its maximum, and healthy beacons release it in the first round. *)

From Stdlib Require Import Ascii Wellfounded Relation_Operators.
From S2P Require Import Prelude GoStrings Effects Durations Wait.

#[local] Open Scope Z_scope.

(** ** What a run has heard *)

(** The addresses of the last lookup that answered. *)
Definition heard_addrs (cur : list string) (l : WaitLabel) : list string :=
  match l with LResolved (Ok addrs) => addrs | _ => cur end.
Definition published (tr : list WaitLabel) : list string := foldl heard_addrs [] tr.

(** The beacon has accepted a connection in the run. *)
Definition has_accepted (tr : list WaitLabel) (a : string) : Prop := LDialed a true ∈ tr.

(** The result says what was heard. *)
Definition honest (tr : list WaitLabel) (r : Result) : Prop :=
  (res_Released r = true ↔ published tr ≠ [] ∧ ∀ a, a ∈ published tr → has_accepted tr a) ∧
  (∀ a, is_Some (res_Accepted r !! a) ↔ a ∈ published tr ∧ has_accepted tr a) ∧
  (∀ a, a ∈ res_Pending r ↔ a ∈ published tr ∧ ¬ has_accepted tr a) ∧
  StronglySorted String.le (res_Pending r).

(** ** Facts *)

Lemma elem_of_notIn addrs accepted a : a ∈ notIn addrs accepted ↔ a ∈ addrs ∧ accepted !! a = None.
Proof.
  unfold notIn. rewrite elem_of_sort_strings, list_elem_of_In, filter_In, <-list_elem_of_In.
  by rewrite bool_decide_eq_true.
Qed.

Lemma only_lookup addrs accepted a :
  only addrs accepted !! a = if bool_decide (a ∈ addrs) then accepted !! a else None.
Proof.
  unfold only. induction addrs as [|b addrs IH] using rev_ind; [done|]. rewrite foldl_app. simpl.
  destruct (accepted !! b) as [d|] eqn:E.
  - destruct (decide (b = a)) as [<-|Hb].
    + rewrite lookup_insert_eq, bool_decide_eq_true_2 by set_solver. done.
    + rewrite lookup_insert_ne, IH by done. by rewrite (bool_decide_ext (a ∈ addrs ++ [b]) (a ∈ addrs)) by set_solver.
  - rewrite IH. destruct (decide (b = a)) as [<-|Hb].
    + rewrite E. by destruct (bool_decide _), (bool_decide _).
    + by rewrite (bool_decide_ext (a ∈ addrs ++ [b]) (a ∈ addrs)) by set_solver.
Qed.

Section runs.
Context (cfg : Config).

(** What the state remembers of the run. *)
Definition remembers (tr : list WaitLabel) (s : WaitState) : Prop :=
  ws_current s = published tr ∧
  (∀ a, is_Some (ws_accepted s !! a) ↔ has_accepted tr a) ∧
  match ws_phase s with
  | Selecting _ pending =>
      pending = notIn (ws_current s) (ws_accepted s) ∧ (ws_current s = [] ∨ pending ≠ [])
  | Returned r => honest tr r
  | _ => True
  end.

Lemma published_snoc tr l : published (tr ++ [l]) = heard_addrs (published tr) l.
Proof. unfold published. by rewrite foldl_app. Qed.

Lemma has_accepted_snoc tr l a : has_accepted (tr ++ [l]) a ↔ has_accepted tr a ∨ l = LDialed a true.
Proof. unfold has_accepted. rewrite elem_of_app, list_elem_of_singleton. naive_solver. Qed.

(** The two ways to return, from what is remembered. *)
Lemma honest_result tr cur accepted (released : bool) t :
  cur = published tr → (∀ a, is_Some (accepted !! a) ↔ has_accepted tr a) →
  (released = true ↔ cur ≠ [] ∧ notIn cur accepted = []) →
  honest tr (mkWaitResult released t (only cur accepted) (notIn cur accepted)).
Proof.
  intros -> Ha Hr.
  assert (∀ a, a ∈ notIn (published tr) accepted ↔ a ∈ published tr ∧ ¬ has_accepted tr a) as Hp.
  { intros a. by rewrite elem_of_notIn, eq_None_not_Some, Ha. }
  split_and!; simpl.
  - rewrite Hr. apply and_iff_compat_l. split.
    + intros Hn a Hin. apply Ha. destruct (accepted !! a) eqn:E; [done|].
      assert (a ∈ notIn (published tr) accepted) as Hx by (by apply elem_of_notIn).
      rewrite Hn in Hx. by apply not_elem_of_nil in Hx.
    + intros Hall. destruct (notIn _ _) as [|a l] eqn:E; [done|].
      destruct (proj1 (Hp a)) as [Hin Hna]; [by rewrite ?E; left|].
      by destruct Hna; apply Hall.
  - intros a. rewrite only_lookup. case_bool_decide as Hin; [rewrite Ha; naive_solver|].
    split; [by intros [? ?]|naive_solver].
  - exact Hp.
  - apply stable_sort_sorted; apply _.
Qed.

Lemma after_dials_remembers tr now cur accepted :
  cur = published tr → (∀ a, is_Some (accepted !! a) ↔ has_accepted tr a) →
  remembers tr (mkWait (after_dials now cur accepted) now cur accepted).
Proof.
  intros Hc Ha. unfold remembers, after_dials. simpl. split; [done|]. split; [done|].
  destruct (notIn cur accepted) as [|p l] eqn:En; destruct cur as [|c cur']; simpl; auto.
  rewrite <-En. apply honest_result; [done..|]. by split.
Qed.

Lemma wait_remembers tr s : wait_run cfg tr s → remembers tr s.
Proof.
  induction 1 as [|tr s l s' _ (Hc & Ha & Hp) Hstep]; [by split_and!; [|split; [by intros [? ?]|intros Hx; by apply not_elem_of_nil in Hx]|]|].
  destruct Hstep as [now cur acc addrs t Ht|now cur acc started pre ip post ok t Ht|now cur acc started
    |now cur acc entered pending Hd|now cur acc entered pending Hd]; simpl in *.
  - split_and!; simpl; [rewrite published_snoc, <-Hc; by destruct addrs| |done].
    intros a. rewrite Ha, has_accepted_snoc. naive_solver.
  - split_and!; simpl; [by rewrite published_snoc| |done].
    intros a. rewrite has_accepted_snoc, <-Ha. destruct ok; [|naive_solver].
    destruct (decide (ip = a)) as [<-|]; [rewrite lookup_insert_eq; naive_solver|].
    rewrite lookup_insert_ne by done. naive_solver.
  - apply after_dials_remembers; [by rewrite published_snoc|].
    intros a. rewrite Ha, has_accepted_snoc. naive_solver.
  - destruct Hp as [-> Hp]. assert (∀ a, is_Some (acc !! a) ↔ has_accepted (tr ++ [LDone]) a) as Ha'.
    { intros a. rewrite Ha, has_accepted_snoc. naive_solver. }
    split_and!; simpl; [by rewrite published_snoc|done|]. apply honest_result; [by rewrite published_snoc|done|].
    split; [done|]. intros [? ?]. destruct Hp; congruence.
  - split_and!; simpl; [by rewrite published_snoc| |done].
    intros a. rewrite Ha, has_accepted_snoc. naive_solver.
Qed.
End runs.

(** ** Time *)

Section time.
Context (cfg : Config) (Hmax : 0 ≤ cfg_MaxWait cfg) (Hint : 0 < cfg_Interval cfg) (Hdial : 0 ≤ cfg_DialTimeout cfg).

Definition in_time (s : WaitState) : Prop :=
  0 ≤ ws_now s ≤ cfg_MaxWait cfg ∧
  match ws_phase s with
  | Resolving => True
  | Dialing started _ => 0 ≤ started ≤ cfg_MaxWait cfg ∧ ws_now s ≤ dial_deadline cfg started
  | Selecting entered _ => entered = ws_now s
  | Returned r => res_Elapsed r = ws_now s
  end.

Lemma step_in_time s l s' : wait_step cfg s l s' → in_time s → in_time s'.
Proof.
  unfold in_time. destruct 1; unfold dial_deadline, deadline, after_dials in *; simpl in *; intros [Ht Hp];
    try (destruct (_ && _)); simpl; split; lia.
Qed.

Lemma run_in_time tr s : wait_run cfg tr s → in_time s.
Proof. induction 1; [split; simpl; lia|]. by eapply step_in_time. Qed.

(** A run that has not returned goes on. *)
Lemma wait_progress s : in_time s → (∃ r, ws_phase s = Returned r) ∨ ∃ l s', wait_step cfg s l s'.
Proof.
  destruct s as [[|started running|entered pending|r] now cur acc]; intros [Ht Hp]; simpl in *; [right..|left; eauto].
  - eexists (LResolved (Ok [])), _. apply (step_resolved cfg now cur acc (Ok []) now). unfold deadline. lia.
  - destruct running as [|ip running].
    + eexists _, _. apply step_joined.
    + eexists _, _. apply (step_dialed cfg now cur acc started [] ip running true now). lia.
  - destruct (decide (entered + cfg_Interval cfg ≤ deadline cfg entered)).
    + eexists _, _. by apply step_tick.
    + eexists _, _. apply step_done. lia.
Qed.

(** The measure of a state: the time left, where the round is, and the dials that run. *)
Definition clock (s : WaitState) : Z := match ws_phase s with Selecting entered _ => entered | _ => ws_now s end.
Definition rank (s : WaitState) : nat :=
  match ws_phase s with Resolving => 3 | Dialing _ _ => 2 | Selecting _ _ => 1 | Returned _ => 0 end.
Definition dials (s : WaitState) : nat := match ws_phase s with Dialing _ running => length running | _ => 0 end.
Definition time_left (s : WaitState) : nat := Z.to_nat (cfg_MaxWait cfg - clock s).

Definition smaller (s' s : WaitState) : Prop :=
  (time_left s' < time_left s)%nat ∨
  ((time_left s' ≤ time_left s)%nat ∧
   ((rank s' < rank s)%nat ∨ (rank s' ≤ rank s ∧ dials s' < dials s)%nat)).

Lemma smaller_wf : well_founded smaller.
Proof.
  assert (∀ t k d s, (time_left s ≤ t)%nat → (rank s ≤ k)%nat → (dials s ≤ d)%nat → Acc smaller s) as Hacc;
    [|intros s; by apply (Hacc (time_left s) (rank s) (dials s))].
  induction t as [t IHt] using lt_wf_ind. induction k as [k IHk] using lt_wf_ind. induction d as [d IHd] using lt_wf_ind.
  intros s Ht Hk Hd. constructor. intros s' [Hs|[Hs [Hr|[Hr Hds]]]].
  - eapply (IHt (time_left s')); eauto. lia.
  - eapply (IHk (rank s')); eauto; lia.
  - eapply (IHd (dials s')); eauto; lia.
Qed.

Lemma step_smaller s l s' : wait_step cfg s l s' → smaller s' s.
Proof.
  unfold smaller, time_left, clock, rank, dials.
  destruct 1; unfold dial_deadline, deadline, after_dials in *; simpl in *.
  - right. split; [lia|]. left. lia.
  - right. split; [lia|]. right. split; [lia|]. rewrite !length_app. simpl. lia.
  - right. destruct (_ && _); simpl; (split; [lia|left; lia]).
  - right. split; [lia|left; lia].
  - left. lia.
Qed.
End time.

(** ** Healthy beacons *)

Section healthy.
Context (cfg : Config) (addrs : list string).

(** Every lookup gives the addresses, and every dial succeeds. *)
Definition healthy (tr : list WaitLabel) : Prop :=
  (∀ o, LResolved o ∈ tr → o = Ok addrs) ∧ (∀ ip ok, LDialed ip ok ∈ tr → ok = true).

Definition first_round (s : WaitState) : Prop :=
  match ws_phase s with
  | Resolving => True
  | Dialing _ running => ws_current s = addrs ∧ ∀ a, a ∈ addrs → ws_accepted s !! a = None → a ∈ running
  | Selecting _ _ => False
  | Returned r => res_Released r = true
  end.

Lemma healthy_first_round tr s : addrs ≠ [] → wait_run cfg tr s → healthy tr → first_round s.
Proof.
  intros Hne. induction 1 as [|tr s l s' _ IH Hstep]; [done|]. intros [Hl Hd].
  assert (first_round s) as Hs.
  { apply IH. split; [intros o Ho; apply Hl|intros ip ok Ho; apply (Hd ip)]; apply elem_of_app; by left. }
  assert (l ∈ tr ++ [l]) as Hin by set_solver. unfold first_round in *.
  destruct Hstep as [now cur acc o t Ht|now cur acc started pre ip post ok t Ht|now cur acc started
    |now cur acc entered pending He|now cur acc entered pending He]; simpl in *; try done.
  - pose proof (Hl _ Hin) as E. subst o current'. split; [done|]. intros a Ha Hn. by apply elem_of_notIn.
  - pose proof (Hd _ _ Hin) as ->. destruct Hs as [-> Hs]. split; [done|]. intros a Ha Hn.
    destruct (decide (ip = a)) as [->|Hia]; [by rewrite lookup_insert_eq in Hn|].
    rewrite lookup_insert_ne in Hn by done. specialize (Hs a Ha Hn). set_solver.
  - destruct Hs as [-> Hs]. unfold after_dials. destruct (notIn addrs acc) as [|a l'] eqn:E.
    + destruct addrs; [done|]. done.
    + assert (a ∈ notIn addrs acc) as [Ha Hn]%elem_of_notIn by (rewrite E; by left).
      specialize (Hs a Ha Hn). by apply not_elem_of_nil in Hs.
Qed.
End healthy.

(** ** Properties *)

(** [C28] The wait is honest, however the lookups fail and the dials interleave. When it
    returns, it reports a release exactly when the last lookup that answered published at
    least one beacon and every published one has accepted a connection during the wait;
    the accepted beacons it lists are those of the published ones, and the pending ones,
    sorted, are the others. A beacon that is no longer published counts for nothing. *)
Theorem wait_result_honest cfg tr s r (Hrun : wait_run cfg tr s) (Hr : ws_phase s = Returned r) : honest tr r.
Proof. destruct (wait_remembers cfg tr s Hrun) as (_ & _ & Hp). by rewrite Hr in Hp. Qed.

(** [C29] The wait never holds a pod longer than its maximum, and it always ends. From
    every state it reaches there is no infinite run, one that has not returned can go on,
    and it returns within [MaxWait]. This takes lookups and dials that end with their
    context; nothing is assumed of what they answer. *)
Theorem wait_always_returns cfg tr s
    (Hmax : 0 ≤ cfg_MaxWait cfg) (Hint : 0 ≤ cfg_Interval cfg) (Hdial : 0 ≤ cfg_DialTimeout cfg)
    (Hrun : wait_run (withDefaults cfg) tr s) :
  Acc (λ s2 s1, ∃ l, wait_step (withDefaults cfg) s1 l s2) s ∧
  ((∃ r, ws_phase s = Returned r ∧ res_Elapsed r ≤ cfg_MaxWait cfg) ∨
   ∃ l s', wait_step (withDefaults cfg) s l s').
Proof.
  assert (0 < cfg_Interval (withDefaults cfg) ∧ 0 ≤ cfg_DialTimeout (withDefaults cfg)) as [Hi Hd].
  { unfold withDefaults, Millisecond, Microsecond. simpl. split; case_bool_decide; lia. }
  pose proof (run_in_time (withDefaults cfg) Hmax Hi Hd tr s Hrun) as Ht. split.
  - clear Hrun Ht. induction (smaller_wf (withDefaults cfg) s) as [s _ IH]. constructor.
    intros s' [l Hs]. by eapply IH, step_smaller.
  - destruct (wait_progress (withDefaults cfg) s Ht) as [[r Hr]|Hs]; [left|by right].
    exists r. split; [done|]. destruct Ht as [Hn Hp]. rewrite Hr in Hp. simpl in *. lia.
Qed.

(** [C30] Healthy beacons release the pod at once. If the Service publishes beacons and all
    accept, no run ever sleeps or runs out of time: it ends its first round with a release. *)
Theorem wait_healthy_releases cfg addrs tr s
    (Hne : addrs ≠ []) (Hrun : wait_run cfg tr s) (Hok : healthy addrs tr) :
  (LTick ∉ tr) ∧ (LDone ∉ tr) ∧ ∀ r, ws_phase s = Returned r → res_Released r = true.
Proof.
  assert (∀ tr s, wait_run cfg tr s → healthy addrs tr → (LTick ∉ tr) ∧ (LDone ∉ tr)) as Hno.
  { clear tr s Hrun Hok. induction 1 as [|tr s l s' Hrun IH Hstep]; [by split; apply not_elem_of_nil|]. intros [Hl Hd].
    assert (healthy addrs tr) as Hh.
    { split; [intros o Ho; apply Hl|intros ip ok Ho; apply (Hd ip)]; apply elem_of_app; by left. }
    pose proof (healthy_first_round cfg addrs tr s Hne Hrun Hh) as Hf. destruct (IH Hh) as [H1 H2].
    rewrite !not_elem_of_app, !list_elem_of_singleton. by destruct Hstep. }
  destruct (Hno _ _ Hrun Hok) as [H1 H2]. split; [done|]. split; [done|]. intros r Hr.
  pose proof (healthy_first_round cfg addrs tr s Hne Hrun Hok) as Hf. unfold first_round in Hf. by rewrite Hr in Hf.
Qed.

(** A wait of 8 in which one of two beacons answers, and one in which both do. *)
Definition wait_cfg : Config := mkConfig 8 10 5.
Definition wait_labels (b : bool) : list WaitLabel :=
  [LResolved (Ok ["b"; "a"]); LDialed "a" true; LDialed "b" b; LJoined].
Definition a_accepted : gmap string Z := <["a" := 2]> ∅.
Definition both_accepted : WaitState :=
  mkWait (Returned (mkWaitResult true 3 (<["a" := 2]> (<["b" := 3]> ∅)) [])) 3 ["b"; "a"] (<["b" := 3]> a_accepted).
Definition timed_out : WaitState :=
  mkWait (Returned (mkWaitResult false 8 a_accepted ["b"])) 8 ["b"; "a"] a_accepted.

Lemma wait_first_round b :
  wait_run wait_cfg (wait_labels b)
    (mkWait (after_dials 3 ["b"; "a"] (if b then <["b" := 3]> a_accepted else a_accepted)) 3 ["b"; "a"]
       (if b then <["b" := 3]> a_accepted else a_accepted)).
Proof.
  change (wait_labels b) with (((([] ++ [LResolved (Ok ["b"; "a"])]) ++ [LDialed "a" true]) ++ [LDialed "b" b]) ++ [LJoined]).
  eapply run_step; [eapply run_step; [eapply run_step; [eapply run_step; [apply run_start|]|]|]|].
  - apply (step_resolved wait_cfg 0 [] ∅ (Ok ["b"; "a"]) 1). unfold deadline. simpl. lia.
  - change (notIn _ ∅) with (["a"] ++ ["b"])%list.
    apply (step_dialed wait_cfg 1 ["b"; "a"] ∅ 1 [] "a" ["b"] true 2). unfold dial_deadline, deadline. simpl. lia.
  - apply (step_dialed wait_cfg 2 ["b"; "a"] a_accepted 1 [] "b" [] b 3). unfold dial_deadline, deadline. simpl. lia.
  - apply step_joined.
Qed.

Lemma wait_timed_out : wait_run wait_cfg (wait_labels false ++ [LDone]) timed_out.
Proof.
  eapply run_step; [apply (wait_first_round false)|].
  apply (step_done wait_cfg 3 ["b"; "a"] a_accepted 3 ["b"]). unfold deadline. simpl. lia.
Qed.

Lemma wait_result_honest_witness :
  let r := mkWaitResult false 8 a_accepted ["b"] in
  wait_run wait_cfg (wait_labels false ++ [LDone]) timed_out ∧ honest (wait_labels false ++ [LDone]) r.
Proof.
  split; [exact wait_timed_out|].
  exact (wait_result_honest wait_cfg _ timed_out (mkWaitResult false 8 a_accepted ["b"]) wait_timed_out eq_refl).
Defined.

Lemma wait_always_returns_witness :
  Acc (λ s2 s1, ∃ l, wait_step (withDefaults wait_cfg) s1 l s2) timed_out ∧
  ((∃ r, ws_phase timed_out = Returned r ∧ res_Elapsed r ≤ 8) ∨
   ∃ l s', wait_step (withDefaults wait_cfg) timed_out l s').
Proof.
  apply (wait_always_returns wait_cfg (wait_labels false ++ [LDone])); [vm_compute; discriminate..|].
  exact wait_timed_out.
Defined.

Lemma wait_healthy_releases_witness :
  ws_phase both_accepted = Returned (mkWaitResult true 3 (<["a" := 2]> (<["b" := 3]> ∅)) []) ∧
  (LTick ∉ wait_labels true) ∧ (LDone ∉ wait_labels true) ∧
  ∀ r, ws_phase both_accepted = Returned r → res_Released r = true.
Proof.
  split; [reflexivity|].
  apply (wait_healthy_releases wait_cfg ["b"; "a"] (wait_labels true) both_accepted);
    [discriminate|exact (wait_first_round true)|].
  split; [intros o Ho|intros ip ok Ho]; unfold wait_labels in Ho; rewrite !elem_of_cons, elem_of_nil in Ho;
    destruct Ho as [E|[E|[E|[E|[]]]]]; congruence.
Defined.

(** The beacon's listener pauses between 5ms and a second after an error, whatever happens. *)
Lemma serve_pauses backoff events d : 0 ≤ backoff → d ∈ serve backoff events → 5 * Millisecond ≤ d ≤ Second.
Proof.
  assert (∀ b, 0 ≤ b → 5 * Millisecond ≤ next_backoff b ≤ Second) as Hn.
  { intros b Hb. unfold next_backoff, Second, Millisecond, Microsecond in *. lia. }
  revert backoff. induction events as [|[|[] []] events IH]; intros backoff Hb Hd; simpl in *;
    rewrite ?elem_of_cons, ?elem_of_nil in Hd; try done.
  - by apply (IH 0).
  - destruct Hd as [->|[]]. by apply Hn.
  - destruct Hd as [->|Hd]; [by apply Hn|]. eapply IH; [|exact Hd]. specialize (Hn backoff Hb). unfold Millisecond, Microsecond in Hn. lia.
Qed.
