(* ===== verification/Main.v ===== *)
(** * The command (cmd/main.go, cmd/networkwait.go)

    What the operator's binary decides before it hands over to the manager: the namespaces
    it never touches, whether it starts, and the subcommands of the network wait. Flags,
    [net.SplitHostPort] and [net.ParseCIDR] are library code, and parameters. *)

From Stdlib Require Import Ascii.
From S2P Require Import Prelude GoStrings Types Effects Permits Resolver Durations Webhook Wait.

#[local] Open Scope Z_scope.

(** ** main.go *)

Definition splitAndTrim (s : string) : list string :=
  filter (λ p, p ≠ "") (map TrimSpace (Split "," s)).

(** The namespaces of [--disabled-namespaces] and the operator's own. *)
Definition disabled_namespaces (disabledNamespaces operatorNS : string) : list string :=
  let disabled := splitAndTrim disabledNamespaces in
  if negb (operatorNS =?? "") then disabled ++ [operatorNS] else disabled.

Definition nsFilter (disabledNamespaces operatorNS : string) : NamespaceFilter :=
  NewNamespaceFilter (disabled_namespaces disabledNamespaces operatorNS).

(** The flags the start-up checks read. *)
Record Flags := mkFlags {
  fl_apiserverSourceCIDR : string;
  fl_webhookEnabled : bool;
  fl_serviceAccountName : string;
  fl_networkWaitImage : string;
  fl_networkWaitBeacons : string }.

(** What [main] sets up: the wait of the webhook, whether the resolution reconciler takes
    it for enabled, and the username the webhooks exempt when they are served. *)
Record Setup := mkSetup {
  su_networkWait : option NetworkWaitConfig;
  su_networkWaitEnabled : bool;
  su_operatorUsername : option string }.

Section startup.
Context (SplitHostPort : string → result (string * string)) (ParseCIDR : string → result unit).

(** [None]: the process exits with code 1 and touches nothing. *)
Definition startup (fl : Flags) (operatorNS : string) : option Setup :=
  match ParseCIDR (fl_apiserverSourceCIDR fl) with
  | Err _ => None
  | Ok _ =>
      let bad_wait := match SplitHostPort (fl_networkWaitBeacons fl) with
                      | Err _ => true
                      | Ok _ => fl_networkWaitImage fl =?? ""
                      end in
      if negb (fl_networkWaitBeacons fl =?? "") && bad_wait then None
      else
        let wait := if negb (fl_networkWaitBeacons fl =?? "")
                    then Some (mkWaitConfig (fl_networkWaitImage fl) (fl_networkWaitBeacons fl)) else None in
        if fl_webhookEnabled fl && (operatorNS =?? "") then None
        else Some (mkSetup wait (fl_webhookEnabled fl && bool_decide (is_Some wait))
               (if fl_webhookEnabled fl then Some (ServiceAccountUsername operatorNS (fl_serviceAccountName fl))
                else None))
  end.

(** [probeRegistrar]: a check is registered under a name, or refused. *)
Inductive Probe := Healthz (name : string) | Readyz (name : string).

Section probes.
Context (Add : Probe → result unit).

(** The probes registered, and the error that stopped it. *)
Definition add_checks : list Probe → list Probe * result unit :=
  fix add (l : list Probe) : list Probe * result unit :=
    match l with
    | [] => ([], Ok tt)
    | p :: l =>
        match Add p with
        | Err e => ([], Err e)
        | Ok _ => let '(done, r) := add l in (p :: done, r)
        end
    end.

(** [webhookStarted]: whether it is not nil. Both pings are [healthz.Ping]. *)
Definition addProbes (webhookStarted : bool) : list Probe * result unit :=
  add_checks ([Healthz "healthz"; Readyz "readyz"] ++ (if webhookStarted then [Readyz "webhook"] else [])).
End probes.

(** ** networkwait.go *)

Inductive Subcommand := SubNetworkWait (args : list string) | SubNetworkBeacon (args : list string).

Definition subcommand (args : list string) : option Subcommand :=
  match args with
  | [] => None
  | cmd :: args =>
      if cmd =?? "network-wait" then Some (SubNetworkWait args)
      else if cmd =?? "network-beacon" then Some (SubNetworkBeacon args)
      else None
  end.

(** [time.Duration.Round] to a positive multiple, for durations that are not negative. *)
Definition Duration_Round (d m : Z) : Z :=
  let r := d mod m in if r + r <? m then d - r else Z.min (d + m - r) max_int64.

(** [fmt]'s rendering of a slice of strings. *)
Definition show_strings (l : list string) : string := "[" +:+ Join l " " +:+ "]".

Definition waitOutcome (res : Result) (host : string) (maxWait : Z) : string :=
  if res_Released res then
    Sprintf "network-wait: all %d beacons accepted after %v; starting"
      [AInt (Z.of_nat (size (res_Accepted res))); AStr (Duration_String (Duration_Round (res_Elapsed res) Millisecond))]
  else if (length (res_Pending res) =? 0)%nat then
    Sprintf "network-wait: max wait %v reached; starting anyway. The beacon Service %s never resolved to any beacon"
      [AStr (Duration_String maxWait); AStr host]
  else
    Sprintf "network-wait: max wait %v reached; starting anyway. Beacons that never accepted: %v"
      [AStr (Duration_String maxWait); AStr (show_strings (res_Pending res))].

(** [fs.Parse]: the two flags as far as they are set, and whether it failed; [Wait] is the
    wait's result for a host, a port and a maximum. The result is the exit code and what is
    printed to standard output. *)
Definition runNetworkWait (Parse : list string → (string * Z) * option error)
    (run_wait : string → string → Z → Result) (args : list string) : Z * list string :=
  let '((beacons, maxWait), parseErr) := Parse args in
  match parseErr, SplitHostPort beacons with
  | None, Ok (host, port) =>
      if maxWait <=? 0 then (0, [])
      else
        let res := run_wait host port maxWait in
        (0, map (λ ip, Sprintf "network-wait: beacon %s accepted after %v"
                   [AStr ip; AStr (Duration_String (Duration_Round (default 0 (res_Accepted res !! ip)) Millisecond))])
              (sort_strings (map fst (map_to_list (res_Accepted res)))) ++
            [waitOutcome res host maxWait])
  | _, _ => (0, [])
  end.
End startup.

(** ** Facts *)

(** The operator manages a namespace exactly when neither the flag, its own namespace nor
    the namespace's annotation excludes it. *)
Theorem nsFilter_managed disabledNamespaces operatorNS ns (Hn : obj_name ns ≠ "") :
  IsManaged (nsFilter disabledNamespaces operatorNS) ns = true ↔
  (obj_name ns ∉ splitAndTrim disabledNamespaces) ∧ obj_name ns ≠ operatorNS ∧
  obj_annotations ns !! AnnotationDisabled ≠ Some "true".
Proof.
  unfold IsManaged, nsFilter. rewrite andb_true_iff, bool_decide_eq_true, negb_true_iff, bool_decide_eq_false.
  rewrite elem_of_Excluded. unfold disabled_namespaces, get_or.
  assert (default "" (obj_annotations ns !! AnnotationDisabled) ≠ "true" ↔
    obj_annotations ns !! AnnotationDisabled ≠ Some "true") as ->.
  { destruct (obj_annotations ns !! AnnotationDisabled); simpl; naive_solver. }
  case_bool_decide as Ho; simpl; [subst; naive_solver|]. rewrite elem_of_app, list_elem_of_singleton. naive_solver.
Qed.

(** A process that starts exempts only a real ServiceAccount, and the reconciler takes the
    wait for enabled exactly when the webhook is served and can inject it. *)
Theorem startup_sound SplitHostPort ParseCIDR fl operatorNS su
    (Hs : startup SplitHostPort ParseCIDR fl operatorNS = Some su) :
  (∀ u, su_operatorUsername su = Some u → operatorNS ≠ "" ∧
    u = ServiceAccountUsername operatorNS (fl_serviceAccountName fl)) ∧
  (su_networkWaitEnabled su = true ↔ is_Some (su_operatorUsername su) ∧ is_Some (su_networkWait su)) ∧
  (∀ cfg, su_networkWait su = Some cfg → wc_image cfg ≠ "" ∧ ∃ hp, SplitHostPort (wc_beacons cfg) = Ok hp).
Proof.
  unfold startup in Hs. destruct (ParseCIDR _); [|done].
  destruct (negb _ && _) eqn:Ew; [done|]. destruct (fl_webhookEnabled fl && _) eqn:Eo; [done|].
  injection Hs as <-. simpl. split_and!.
  - intros u. destruct (fl_webhookEnabled fl); [|done]. intros [= <-]. simpl in Eo.
    by apply bool_decide_eq_false in Eo.
  - rewrite andb_true_iff, bool_decide_eq_true. apply and_iff_compat_r.
    destruct (fl_webhookEnabled fl); split; intros Hx; done.
  - intros cfg. destruct (fl_networkWaitBeacons fl =?? "") eqn:Eb; simpl in *; [done|]. intros [= <-]. simpl.
    destruct (SplitHostPort _) as [hp|]; [|done]. split; [by apply bool_decide_eq_false in Ew|by exists hp].
Qed.

(** When the probes are in place, readiness asks for the webhook exactly when it is served,
    and liveness never does. *)
Theorem addProbes_complete Add webhookStarted probes (Hp : addProbes Add webhookStarted = (probes, Ok tt)) :
  (Readyz "webhook" ∈ probes ↔ webhookStarted = true) ∧ (Healthz "webhook" ∉ probes) ∧
  Healthz "healthz" ∈ probes ∧ Readyz "readyz" ∈ probes.
Proof.
  assert (∀ l done, add_checks Add l = (done, Ok tt) → done = l) as Hall.
  { induction l as [|p l IH]; intros done; simpl; [by intros [= <-]|]. destruct (Add p); [|done].
    destruct (add_checks Add l) as [d r] eqn:E. intros [= <- ->]. f_equal. by apply IH. }
  apply Hall in Hp as ->. destruct webhookStarted; simpl; set_solver.
Qed.

(** The wait container never fails: it exits with code 0 whatever it is given. *)
Theorem runNetworkWait_exit SplitHostPort Parse run_wait args :
  (runNetworkWait SplitHostPort Parse run_wait args).1 = 0.
Proof.
  unfold runNetworkWait. destruct (Parse args) as [[beacons maxWait] [e|]]; [done|].
  destruct (SplitHostPort beacons) as [[host port]|]; [|done]. by destruct (maxWait <=? 0).
Qed.
