(* ===== verification/Metrics.v ===== *)
(** * The metrics collector (internal/controller/metrics.go)

    Two cluster-wide gauges, set at start and on every tick. *)

From Stdlib Require Import Ascii.
From S2P Require Import Prelude GoStrings Types Effects Names ApiServer Apply.

Section collector.
Context {W : Type} `{Client W}.

(** The lists fail independently; a failed one leaves its gauge as it was. *)
Definition collect : IO W unit :=
  vnets ← attempt (read list_vnets);
  _ ← (match vnets with
       | Err _ => mret tt
       | Ok vnets => log_action (AMetric (MSetNetworks (length vnets)))
       end);
  policies ← attempt (read (λ rd, list_netpols rd (mkList None {[LabelManagedBy := LabelManagedByValue]} None)));
  match policies with
  | Err _ => mret tt
  | Ok policies => log_action (AMetric (MSetPolicies (length policies)))
  end.

(** [Start] up to the end of its context, [ticks] ticks later. *)
Fixpoint on_ticks (ticks : nat) : IO W unit :=
  match ticks with
  | O => mret tt
  | S ticks => _ ← collect; on_ticks ticks
  end.

Definition Start (ticks : nat) : IO W unit := _ ← collect; on_ticks ticks.

(** It only reads. *)
#[export] Instance silent_collect : Silent collect.
Proof. intros st. unfold collect, attempt, read. rewrite !bind_IO. cbn [fst snd]. by repeat case_match. Qed.

Lemma Start_silent ticks st : st_world (Start ticks st).2 = st_world st.
Proof.
  unfold Start. rewrite bind_IO. assert (∀ st1, st_world (on_ticks ticks st1).2 = st_world st1) as Ht.
  { induction ticks as [|ticks IH]; intros st1; simpl; [done|]. rewrite bind_IO, IH. apply silent_collect. }
  rewrite Ht. apply silent_collect.
Qed.
End collector.
