(* ===== verification/Operator.v ===== *)
(** * The operator as a whole (cmd/main.go and the [SetupWithManager] methods)

    [main] builds eight reconcilers over one client; the manager delivers the events of
    their watches and runs their reconciles, one at a time each, in whatever order. Here a
    run of the operator is a sequence of reconciles between which anyone may change the
    cluster. What controller-runtime does with events is library code: [RuntimeLib] has the
    handlers and predicates the code uses, [RuntimeLaws] their documented behaviour. *)

From Stdlib Require Import Ascii.
From S2P Require Import Prelude GoStrings Types Effects Names ApiServer Permits Apply Baseline.
From S2P Require Import ServicePolicies ApiserverReachable HostPort Resolver VnetController NetworkWait.
From S2P Require Import ResolutionController Binding SystemVnet Webhook Main.

(** ** The reconcilers of [main] *)

Inductive Controller :=
  | VirtualNetworks
  | Namespaces
  | Bindings
  | Resolution
  | SystemVnets
  | ExternalAllow
  | ApiserverReachable
  | HostPorts.

#[export] Instance Controller_eq_dec : EqDecision Controller.
Proof. solve_decision. Defined.

Definition controllers : list Controller :=
  [Resolution; Namespaces; SystemVnets; VirtualNetworks; Bindings; ExternalAllow; ApiserverReachable; HostPorts].

(** What [main] hands to the reconcilers. *)
Record Options := mkOptions {
  opt_nsFilter : NamespaceFilter;
  opt_operatorNS : string;
  opt_networkWaitEnabled : bool;
  opt_sourceCIDR : string }.

Definition options (fl : Flags) (disabledNamespaces operatorNS : string) (su : Setup) : Options :=
  mkOptions (nsFilter disabledNamespaces operatorNS) operatorNS (su_networkWaitEnabled su)
    (fl_apiserverSourceCIDR fl).

(** ** Running a reconciler

    Every reconciler has its own memory (its [policyTracker] and [onceSet]); they share
    the cluster. The log keeps who did what, and for which request. *)

Record Memory := mkMemory {
  mem_restores : gset ObjectKey;
  mem_once : gmap ObjectKey (gmap string string) }.

Record OperatorState (W : Type) := mkOperator {
  os_world : W;
  os_log : list (Controller * ObjectKey * Action);
  os_memory : Controller → Memory }.
Arguments mkOperator {_} _ _ _.
Arguments os_world {_} _.
Arguments os_log {_} _.
Arguments os_memory {_} _ _.

Definition no_memory : Controller → Memory := λ _, mkMemory ∅ ∅.
Definition started {W} (w : W) : OperatorState W := mkOperator w [] no_memory.

Section run.
Context `{K8sLib} {W : Type} `{Client W} (o : Options).
(** The order in which the host-port reconciler visits a map. *)
Context (order : gset hostPortKey → list hostPortKey).

(** [Reconcile] of a controller; all of them but the binding's have a recorder. *)
Definition reconcile (c : Controller) (req : ObjectKey) : EIO W Outcome :=
  let filter := opt_nsFilter o in
  match c with
  | VirtualNetworks => VnetReconcile true true filter req
  | Namespaces => NamespaceReconcile filter true (key_name req)
  | Bindings => BindingReconcile filter (opt_operatorNS o) req
  | Resolution => ResolutionReconcile true filter (opt_networkWaitEnabled o) req
  | SystemVnets => SystemVnetReconcile true filter (opt_operatorNS o) (key_name req)
  | ExternalAllow => ExternalAllowReconcile filter true req
  | ApiserverReachable => ApiserverReachableReconcile (opt_sourceCIDR o) filter true req
  | HostPorts => HostPortReconcile filter true order (key_name req)
  end.

Definition set_memory (c : Controller) (m : Memory) (f : Controller → Memory) : Controller → Memory :=
  λ c', if decide (c' = c) then m else f c'.

(** The state a controller starts a reconcile in; the log is its own. *)
Definition enter (c : Controller) (s : OperatorState W) : St W :=
  mkSt (os_world s) [] (mem_restores (os_memory s c)) (mem_once (os_memory s c)).

Definition leave (c : Controller) (req : ObjectKey) (s : OperatorState W) (st : St W) : OperatorState W :=
  mkOperator (st_world st) (os_log s ++ map (pair (c, req)) (st_log st))
    (set_memory c (mkMemory (st_restores st) (st_once st)) (os_memory s)).

Definition run (c : Controller) (req : ObjectKey) (s : OperatorState W) : result Outcome * OperatorState W :=
  let '(r, st) := reconcile c req (enter c s) in (r, leave c req s st).

(** A step of the system: a controller reconciles a request, or anyone else changes the
    cluster. Reconciles of different controllers interleave at their writes in reality;
    each sees the cluster through a cache that may be behind, which is the reader's. *)
Inductive op_step : OperatorState W → OperatorState W → Prop :=
  | op_reconcile c req s : op_step s (run c req s).2
  | op_others w' s : op_step s (mkOperator w' (os_log s) (os_memory s)).

Inductive op_run : OperatorState W → Prop :=
  | op_start w : op_run (started w)
  | op_more s s' : op_run s → op_step s s' → op_run s'.

(** A sequence of reconciles. *)
Fixpoint run_all (reqs : list (Controller * ObjectKey)) (s : OperatorState W) :
    list (result Outcome) * OperatorState W :=
  match reqs with
  | [] => ([], s)
  | (c, req) :: reqs =>
      let '(r, s) := run c req s in
      let '(rs, s) := run_all reqs s in
      (r :: rs, s)
  end.
End run.

(** ** The watches *)

(** The objects the watches are about. *)
Inductive WatchObject :=
  | WPod (p : Pod)
  | WNamespace (ns : Namespace)
  | WService (svc : Service)
  | WPolicy (p : NetworkPolicy)
  | WVnet (v : VirtualNetwork)
  | WBinding (b : VirtualNetworkBinding)
  | WClusterBaseline (b : ClusterVirtualNetworkBaseline)
  | WBaseline (b : VirtualNetworkBaseline)
  | WDiscovery (d : DiscoveryObject).

Inductive WatchEvent :=
  | EvCreate (obj : WatchObject)
  | EvUpdate (old new : WatchObject)
  | EvDelete (obj : WatchObject).

(** The objects of an event, and the one filters look at. *)
Definition event_objects (e : WatchEvent) : list WatchObject :=
  match e with EvCreate x | EvDelete x => [x] | EvUpdate old new => [old; new] end.
Definition event_object (e : WatchEvent) : WatchObject :=
  match e with EvCreate x | EvDelete x => x | EvUpdate _ new => new end.

(** controller-runtime's handlers and predicates. *)
Class RuntimeLib := {
  EnqueueRequestForObject : WatchEvent → list ObjectKey;
  EnqueueRequestsFromMapFunc : (WatchObject → list ObjectKey) → WatchEvent → list ObjectKey;
  EnqueueRequestForOwner : string → WatchEvent → list ObjectKey;  (* OnlyControllerOwner, of a kind *)
  NewPredicateFuncs : (WatchObject → bool) → WatchEvent → bool;
  LabelChangedPredicate : WatchEvent → bool;
  AnnotationChangedPredicate : WatchEvent → bool;
  GenerationChangedPredicate : WatchEvent → bool }.

Definition discovery_meta (d : DiscoveryObject) : ObjectMeta :=
  match d with
  | DValidatingWebhook o | DMutatingWebhook o => wc_meta o
  | DAPIService o => as_meta o
  | DCRD o => crd_meta o
  end.

Definition watch_meta (x : WatchObject) : ObjectMeta :=
  match x with
  | WPod p => obj_meta p
  | WNamespace ns => obj_meta ns
  | WService svc => obj_meta svc
  | WPolicy p => obj_meta p
  | WVnet v => obj_meta v
  | WBinding b => obj_meta b
  | WBaseline b => obj_meta b
  | WClusterBaseline b => obj_meta b
  | WDiscovery d => discovery_meta d
  end.

(** A predicate on updates that change a part of the metadata. *)
Definition changed {A} `{EqDecision A} (f : ObjectMeta → A) (e : WatchEvent) : bool :=
  match e with EvUpdate old new => negb (f (watch_meta old) =?? f (watch_meta new)) | _ => true end.

(** What the documentation says of them, as far as it is used. *)
Class RuntimeLaws `{RuntimeLib} := {
  for_object : ∀ e, meta_key (watch_meta (event_object e)) ∈ EnqueueRequestForObject e;
  from_map_func : ∀ f e k, k ∈ EnqueueRequestsFromMapFunc f e ↔ ∃ x, x ∈ event_objects e ∧ k ∈ f x;
  for_owner : ∀ e p ref, event_object e = WPolicy p → ref ∈ m_ownerReferences (np_meta p) →
    or_controller ref = Some true →
    (∀ ref', ref' ∈ m_ownerReferences (np_meta p) → or_controller ref' = Some true → ref' = ref) →
    mkKey (obj_ns p) (or_name ref) ∈ EnqueueRequestForOwner (or_kind ref) e;
  predicate_funcs : ∀ f e, NewPredicateFuncs f e = f (event_object e);
  label_changed : ∀ e, LabelChangedPredicate e = changed m_labels e;
  annotation_changed : ∀ e, AnnotationChangedPredicate e = changed m_annotations e;
  generation_changed : ∀ e, GenerationChangedPredicate e = changed m_generation e }.

(** The kind of a watched object. *)
Inductive WatchKind :=
  | KPod | KNamespace | KService | KPolicy | KVnet | KBinding | KClusterBaseline | KBaseline
  | KValidatingWebhook | KMutatingWebhook | KAPIService | KCRD.

#[export] Instance WatchKind_eq_dec : EqDecision WatchKind.
Proof. solve_decision. Defined.

Definition kind_of (x : WatchObject) : WatchKind :=
  match x with
  | WPod _ => KPod | WNamespace _ => KNamespace | WService _ => KService | WPolicy _ => KPolicy
  | WVnet _ => KVnet | WBinding _ => KBinding | WClusterBaseline _ => KClusterBaseline
  | WBaseline _ => KBaseline
  | WDiscovery (DValidatingWebhook _) => KValidatingWebhook
  | WDiscovery (DMutatingWebhook _) => KMutatingWebhook
  | WDiscovery (DAPIService _) => KAPIService
  | WDiscovery (DCRD _) => KCRD
  end.

(** One [For] or [Watches] of a builder: what its handler enqueues for an event that is of
    its kind and passes its predicates. *)
Record Watch := mkWatch {
  w_kind : WatchKind;
  w_predicate : WatchEvent → bool;
  w_handler : WatchEvent → list ObjectKey }.

Definition no_predicate : WatchEvent → bool := λ _, true.

Definition fires (w : Watch) (e : WatchEvent) : list ObjectKey :=
  if (kind_of (event_object e) =?? w_kind w) && w_predicate w e then w_handler w e else [].

(** A pod event, as the handlers and predicates written for pods take it. *)
Definition pod_event (e : WatchEvent) : option PodEvent :=
  match e with
  | EvCreate (WPod p) => Some (PodCreated p)
  | EvUpdate (WPod old) (WPod new) => Some (PodUpdated old new)
  | EvDelete (WPod p) => Some (PodDeleted p)
  | _ => None
  end.

Definition on_pod {A} (none : A) (f : PodEvent → A) (e : WatchEvent) : A :=
  match pod_event e with Some e => f e | None => none end.

Definition JoinLabelChangedPredicate (e : PodEvent) : bool :=
  match e with
  | PodCreated p | PodDeleted p => HasJoinLabel (Some p)
  | PodUpdated old new => join_labels_updated (Some old) (Some new)
  end.

(** The labels of a policy; none of another object. *)
Definition policy_filter (f : gmap string string → bool) (x : WatchObject) : bool :=
  match x with WPolicy p => f (obj_labels p) | _ => false end.

(** The map functions on objects of one type. *)
Definition of_pod (f : Pod → list ObjectKey) (x : WatchObject) : list ObjectKey :=
  match x with WPod p => f p | _ => [] end.
Definition of_namespace (f : Namespace → list ObjectKey) (x : WatchObject) : list ObjectKey :=
  match x with WNamespace ns => f ns | _ => [] end.
Definition of_policy (f : NetworkPolicy → list ObjectKey) (x : WatchObject) : list ObjectKey :=
  match x with WPolicy p => f p | _ => [] end.
Definition of_vnet (f : VirtualNetwork → list ObjectKey) (x : WatchObject) : list ObjectKey :=
  match x with WVnet v => f v | _ => [] end.

Section watches.
Context `{K8sLib, RuntimeLib} (o : Options) (rd : Reader).

Definition For (k : WatchKind) : Watch := mkWatch k no_predicate EnqueueRequestForObject.
Definition Watches (k : WatchKind) (pred : WatchEvent → bool) (f : WatchObject → list ObjectKey) : Watch :=
  mkWatch k pred (EnqueueRequestsFromMapFunc f).

(** [watchInputs] of the two reconcilers of Service-owned policies. *)
Definition watchInputs (s : serviceSource) : list Watch :=
  [mkWatch KPolicy (NewPredicateFuncs (policy_filter (externalAllowPolicyPredicate (src_kind s))))
     (EnqueueRequestForOwner "Service");
   Watches KNamespace no_predicate (of_namespace (namespaceToServices rd));
   mkWatch KPod no_predicate (on_pod [] (podToSelectingServices rd))].

Definition discovery_map (x : WatchObject) : list ObjectKey :=
  match x with WDiscovery d => discoveryToServices d | _ => [] end.

(** [SetupWithManager] of every reconciler: its watches, the primary one first. *)
Definition vnetWatches : list Watch :=
  [For KVnet;
   Watches KPod (on_pod false JoinLabelChangedPredicate) (of_pod (podToVnets (opt_operatorNS o)));
   Watches KPolicy (NewPredicateFuncs (λ x, match x with WPolicy p => operatorManaged p | _ => false end))
     (of_policy policyToVNet);
   Watches KNamespace no_predicate (of_namespace (nsToVnets rd))].

Definition namespaceWatches : list Watch :=
  [For KNamespace;
   Watches KPolicy (NewPredicateFuncs (policy_filter baselinePredicate)) (of_policy objectNamespace)].

Definition bindingWatches : list Watch :=
  [For KBinding;
   Watches KVnet no_predicate (of_vnet (vnetToBindings (opt_operatorNS o) rd));
   Watches KPod no_predicate (of_pod (bindingsInNamespaceOf rd));
   Watches KNamespace no_predicate (of_namespace (nsToBindings (opt_operatorNS o) rd))].

Definition podPredicate (e : WatchEvent) : bool :=
  LabelChangedPredicate e || AnnotationChangedPredicate e || GenerationChangedPredicate e.

Definition resolutionWatches : list Watch :=
  [mkWatch KPod podPredicate EnqueueRequestForObject;
   Watches KClusterBaseline no_predicate (λ _, clusterBaselineToPods rd);
   Watches KBaseline no_predicate
     (λ x, match x with WBaseline b => podsInObjectNamespace rd b | _ => [] end);
   Watches KBinding no_predicate
     (λ x, match x with WBinding b => podsInObjectNamespace rd b | _ => [] end);
   Watches KNamespace (λ e, AnnotationChangedPredicate e || LabelChangedPredicate e)
     (of_namespace (namespaceToPods rd));
   Watches KVnet GenerationChangedPredicate (of_vnet (λ v, vnetToAffectedPods rd (Some v)))].

Definition systemVnetWatches : list Watch :=
  [For KNamespace;
   Watches KVnet (NewPredicateFuncs (λ x, match x with WVnet v => operatorManaged v | _ => false end))
     (of_vnet objectNamespace)].

Definition externalAllowWatches : list Watch := For KService :: watchInputs svcSourcePolicies.

Definition apiserverReachableWatches : list Watch :=
  For KService :: watchInputs apiserverPolicies ++
  map (λ k, Watches k no_predicate discovery_map) [KValidatingWebhook; KMutatingWebhook; KAPIService; KCRD].

Definition hostPortWatches : list Watch :=
  [For KNamespace;
   Watches KPod (on_pod false HostPortChangedPredicate) (of_pod objectNamespace);
   Watches KPolicy (NewPredicateFuncs (policy_filter (externalAllowPolicyPredicate LabelSourceKindHost)))
     (of_policy objectNamespace)].

Definition setup (c : Controller) : list Watch :=
  match c with
  | VirtualNetworks => vnetWatches
  | Namespaces => namespaceWatches
  | Bindings => bindingWatches
  | Resolution => resolutionWatches
  | SystemVnets => systemVnetWatches
  | ExternalAllow => externalAllowWatches
  | ApiserverReachable => apiserverReachableWatches
  | HostPorts => hostPortWatches
  end.

(** The requests of a controller an event gives. *)
Definition requests (c : Controller) (e : WatchEvent) : list ObjectKey := flat_map (λ w, fires w e) (setup c).
End watches.
