(* ===== verification/Objects.v ===== *)
(** * The objects a cluster stores, and how they change

    [Objects] is what the API server holds of the kinds the isolation depends on,
    [change] a change of one object with the watch events it gives, and [ObjectStore] what
    the operator relies on of the API server and its caches when they are current: reads
    show the objects, and a write changes at most the object it names, in the way its verb
    says. [Cluster] provides it. *)

From Stdlib Require Import Ascii.
From S2P Require Import Prelude GoStrings Types Effects Names ApiServer Permits Operator.

(** ** Data *)

#[export] Instance VirtualNetwork_eq_dec : EqDecision VirtualNetwork.
Proof. solve_decision. Defined.
#[export] Instance VirtualNetworkBindingSpec_eq_dec : EqDecision VirtualNetworkBindingSpec.
Proof. solve_decision. Defined.
#[export] Instance VirtualNetworkBinding_eq_dec : EqDecision VirtualNetworkBinding.
Proof. solve_decision. Defined.

Record Objects := mkObjects {
  ob_pods : gmap ObjectKey Pod;
  ob_namespaces : gmap string Namespace;
  ob_vnets : gmap ObjectKey VirtualNetwork;
  ob_vnbs : gmap ObjectKey VirtualNetworkBinding;
  ob_cluster_baselines : gmap string ClusterVirtualNetworkBaseline;
  ob_baselines : gmap ObjectKey VirtualNetworkBaseline;
  ob_policies : gmap ObjectKey NetworkPolicy }.

Definition with_pods (m : gmap ObjectKey Pod) (ob : Objects) : Objects :=
  mkObjects m (ob_namespaces ob) (ob_vnets ob) (ob_vnbs ob) (ob_cluster_baselines ob) (ob_baselines ob) (ob_policies ob).
Definition with_vnets (m : gmap ObjectKey VirtualNetwork) (ob : Objects) : Objects :=
  mkObjects (ob_pods ob) (ob_namespaces ob) m (ob_vnbs ob) (ob_cluster_baselines ob) (ob_baselines ob) (ob_policies ob).
Definition with_vnbs (m : gmap ObjectKey VirtualNetworkBinding) (ob : Objects) : Objects :=
  mkObjects (ob_pods ob) (ob_namespaces ob) (ob_vnets ob) m (ob_cluster_baselines ob) (ob_baselines ob) (ob_policies ob).
Definition with_cluster_baselines (m : gmap string ClusterVirtualNetworkBaseline) (ob : Objects) : Objects :=
  mkObjects (ob_pods ob) (ob_namespaces ob) (ob_vnets ob) (ob_vnbs ob) m (ob_baselines ob) (ob_policies ob).
Definition with_baselines (m : gmap ObjectKey VirtualNetworkBaseline) (ob : Objects) : Objects :=
  mkObjects (ob_pods ob) (ob_namespaces ob) (ob_vnets ob) (ob_vnbs ob) (ob_cluster_baselines ob) m (ob_policies ob).
Definition with_policies (m : gmap ObjectKey NetworkPolicy) (ob : Objects) : Objects :=
  mkObjects (ob_pods ob) (ob_namespaces ob) (ob_vnets ob) (ob_vnbs ob) (ob_cluster_baselines ob) (ob_baselines ob) m.

(** ** Changes *)

(** The watch event of an object that was [old] and is [new]. *)
Definition event_of {A} (wrap : A → WatchObject) (old new : option A) : list WatchEvent :=
  match old, new with
  | None, None => []
  | None, Some y => [EvCreate (wrap y)]
  | Some x, None => [EvDelete (wrap x)]
  | Some x, Some y => [EvUpdate (wrap x) (wrap y)]
  end.

Definition put {K A} `{Countable K} (k : K) (new : option A) (m : gmap K A) : gmap K A :=
  partial_alter (λ _, new) k m.

Lemma put_eq {K A} `{Countable K} (k : K) (new : option A) m : put k new m !! k = new.
Proof. apply lookup_partial_alter_eq. Qed.
Lemma put_ne {K A} `{Countable K} (k k' : K) (new : option A) m : k ≠ k' → put k new m !! k' = m !! k'.
Proof. apply lookup_partial_alter_ne. Qed.

(** What no update changes: a pod's ports and host-network, a deletion that has begun, a
    vnet's spec unless its generation counts the change. *)
Definition pod_update (p p' : Pod) : Prop :=
  pod_spec p' = pod_spec p ∧ (m_deleting (pod_meta p) = true → m_deleting (pod_meta p') = true).
Definition vnet_update (v v' : VirtualNetwork) : Prop :=
  m_generation (vnet_meta v') = m_generation (vnet_meta v) → vnet_spec v' = vnet_spec v.

(** The labels by which the operator knows its policies. *)
Definition owner_labels : list string := [LabelManagedBy; LabelRole; LabelNetwork].
Definition same_owner (p p' : NetworkPolicy) : Prop :=
  ∀ k, k ∈ owner_labels → obj_labels p' !! k = obj_labels p !! k.

(** One object that is there or not becomes there or not, with the events of it. Namespaces
    do not change. *)
Inductive change (ob : Objects) : Objects → list WatchEvent → Prop :=
  | change_nothing : change ob ob []
  | change_pod k new :
      (∀ p, new = Some p → ObjectKeyFromObject p = k) →
      (∀ p p', ob_pods ob !! k = Some p → new = Some p' → pod_update p p') →
      change ob (with_pods (put k new (ob_pods ob)) ob) (event_of WPod (ob_pods ob !! k) new)
  | change_vnet k new :
      (∀ v, new = Some v → ObjectKeyFromObject v = k) →
      (∀ v v', ob_vnets ob !! k = Some v → new = Some v' → vnet_update v v') →
      change ob (with_vnets (put k new (ob_vnets ob)) ob) (event_of WVnet (ob_vnets ob !! k) new)
  | change_binding k new :
      (∀ b, new = Some b → ObjectKeyFromObject b = k) →
      change ob (with_vnbs (put k new (ob_vnbs ob)) ob) (event_of WBinding (ob_vnbs ob !! k) new)
  | change_cluster_baseline k new :
      change ob (with_cluster_baselines (put k new (ob_cluster_baselines ob)) ob)
        (event_of WClusterBaseline (ob_cluster_baselines ob !! k) new)
  | change_baseline k new :
      (∀ b, new = Some b → ObjectKeyFromObject b = k) →
      change ob (with_baselines (put k new (ob_baselines ob)) ob) (event_of WBaseline (ob_baselines ob !! k) new)
  | change_policy k new :
      (∀ p, new = Some p → ObjectKeyFromObject p = k) →
      change ob (with_policies (put k new (ob_policies ob)) ob) (event_of WPolicy (ob_policies ob !! k) new).

(** ** What a current cache shows *)

(** A Get: the object, or the server's NotFound for that kind and key. *)
Definition found {A} (e : error) (x : option A) : result A :=
  match x with Some a => Ok a | None => Err e end.
Definition values {K A} `{Countable K} (m : gmap K A) : list A := map snd (map_to_list m).
Definition lists {A} (r : result (list A)) (l : list A) : Prop := ∃ l', r = Ok l' ∧ l' ≡ₚ l.

(** The server's NotFound errors. *)
Class Missing := {
  missing : WatchKind → ObjectKey → error;
  missing_not_found : ∀ kind k, IsNotFound (missing kind k) = true }.

Record shows `{Missing} (rd : Reader) (ob : Objects) : Prop := {
  shows_pod : ∀ k, get_pod rd k = found (missing KPod k) (ob_pods ob !! k);
  shows_namespace : ∀ n, get_namespace rd n = found (missing KNamespace (mkKey "" n)) (ob_namespaces ob !! n);
  shows_vnet : ∀ k, get_vnet rd k = found (missing KVnet k) (ob_vnets ob !! k);
  shows_cluster_baseline : ∀ n,
    get_cluster_baseline rd n = found (missing KClusterBaseline (mkKey "" n)) (ob_cluster_baselines ob !! n);
  shows_baseline : ∀ k, get_baseline rd k = found (missing KBaseline k) (ob_baselines ob !! k);
  shows_policy : ∀ k, get_netpol rd k = found (missing KPolicy k) (ob_policies ob !! k);
  shows_pods : ∀ o, lists (list_pods rd o) (List.filter (selected_by o) (values (ob_pods ob)));
  shows_namespaces : lists (list_namespaces rd) (values (ob_namespaces ob));
  shows_vnets : lists (list_vnets rd) (values (ob_vnets ob));
  shows_vnbs : ∀ o, lists (list_vnbs rd o) (List.filter (selected_by o) (values (ob_vnbs ob))) }.

(** Every object is stored under its own key. *)
Record keyed_objects (ob : Objects) : Prop := {
  keyed_pods : ∀ k p, ob_pods ob !! k = Some p → ObjectKeyFromObject p = k;
  keyed_namespaces : ∀ n ns, ob_namespaces ob !! n = Some ns → obj_name ns = n;
  keyed_vnets : ∀ k v, ob_vnets ob !! k = Some v → ObjectKeyFromObject v = k;
  keyed_vnbs : ∀ k b, ob_vnbs ob !! k = Some b → ObjectKeyFromObject b = k;
  keyed_baselines : ∀ k b, ob_baselines ob !! k = Some b → ObjectKeyFromObject b = k;
  keyed_policies : ∀ k p, ob_policies ob !! k = Some p → ObjectKeyFromObject p = k }.

(** ** What writes do *)

(** The labels, the annotations and nothing else of a pod change. *)
Definition relabelled (p p' : Pod) : Prop :=
  set_pod_labels (obj_labels p) (set_pod_annotations (obj_annotations p) p') = p.

Definition wrote (q : Write) (r : result unit) (ob ob' : Objects) : Prop :=
  match q with
  | WApplyPolicy p =>
      ob' = ob ∨ ∃ live, applied p live ∧ ob' = with_policies (<[ObjectKeyFromObject p := live]> (ob_policies ob)) ob
  | WDeletePolicy p =>
      ob' = ob ∨ ob' = with_policies (delete (ObjectKeyFromObject p) (ob_policies ob)) ob
  | WPatchPod from to =>
      (ob' = ob ∨ ∃ live live', ob_pods ob !! ObjectKeyFromObject to = Some live ∧ relabelled live live' ∧
        ob' = with_pods (<[ObjectKeyFromObject to := live']> (ob_pods ob)) ob) ∧
      (r = Ok tt → relabelled from to → ob_pods ob !! ObjectKeyFromObject to = Some from →
        ob_pods ob' !! ObjectKeyFromObject to = Some to)
  | WApplyVnet v =>
      ob' = ob ∨ ∃ live, ObjectKeyFromObject live = ObjectKeyFromObject v ∧
        (∀ old, ob_vnets ob !! ObjectKeyFromObject v = Some old → vnet_update old live) ∧
        ob' = with_vnets (<[ObjectKeyFromObject v := live]> (ob_vnets ob)) ob
  | WDeleteVnet v =>
      ob' = ob ∨ ob' = with_vnets (delete (ObjectKeyFromObject v) (ob_vnets ob)) ob
  | WUpdateVnetStatus v =>
      ob' = ob ∨ ∃ live live', ob_vnets ob !! ObjectKeyFromObject v = Some live ∧
        vnet_meta live' = vnet_meta live ∧ vnet_spec live' = vnet_spec live ∧
        ob' = with_vnets (<[ObjectKeyFromObject v := live']> (ob_vnets ob)) ob
  | WUpdateBindingStatus b =>
      ob' = ob ∨ ∃ live', ObjectKeyFromObject live' = ObjectKeyFromObject b ∧
        ob' = with_vnbs (<[ObjectKeyFromObject b := live']> (ob_vnbs ob)) ob
  end.

Class ObjectStore (W : Type) `{PolicyServer W, Missing} := {
  objects_of : W → Objects;
  objects_policies : ∀ w, ob_policies (objects_of w) = policies w;
  objects_keyed : ∀ w, keyed_objects (objects_of w);
  objects_shown : ∀ w, shows (cl_reader w) (objects_of w);
  objects_wrote : ∀ q w r w', cl_write q w = (r, w') → wrote q r (objects_of w) (objects_of w') }.
#[global] Hint Mode ObjectStore ! - - - : typeclass_instances.

(** ** The in-memory server *)

Import Model.

Definition cluster_objects_of (c : Cluster) : Objects :=
  mkObjects (keyed (cl_pods c)) (named (cl_namespaces c)) (keyed (cl_vnets c)) (keyed (cl_vnbs c))
    (cl_cluster_baselines c) (keyed (cl_baselines c)) (well_keyed (cl_netpols c)).

#[export] Instance cluster_missing : Missing.
Proof. refine {| missing _ _ := ErrNotFound "not found" |}. done. Defined.

Lemma patched_map_same m to : patched_map m to m = to.
Proof.
  unfold patched_map. apply map_eq. intros k. apply option_eq. intros v.
  rewrite lookup_union_Some_raw, !map_lookup_filter_None, !map_lookup_filter_Some. simpl.
  destruct (decide (m !! k = to !! k)) as [E|E]; [rewrite E|]; naive_solver.
Qed.

Lemma relabelled_patched from to live : relabelled live (patched_pod from to live).
Proof. by destruct live as [[] ?]. Qed.

Lemma patched_pod_same from to : relabelled from to → patched_pod from to from = to.
Proof.
  unfold relabelled, patched_pod. rewrite !patched_map_same. destruct from as [[] ?], to as [[] ?]. by intros [= -> -> -> -> -> -> ->].
Qed.

Lemma wrote_keyed {V} `{Object V} (m : gmap ObjectKey V) (x y : V) : ObjectKeyFromObject y = ObjectKeyFromObject x →
  keyed (<[ObjectKeyFromObject x := y]> m) = <[ObjectKeyFromObject x := y]> (keyed m).
Proof. apply keyed_insert_key. Qed.

#[export] Instance cluster_store : ObjectStore Cluster.
Proof.
  refine {| objects_of := cluster_objects_of |}.
  - done.
  - intros c. split; simpl; intros k x Hx; try by apply keyed_lookup in Hx as [_ ?].
    + by apply map_lookup_filter_Some in Hx as [_ ?].
    + by apply well_keyed_lookup in Hx as (_ & ? & _).
  - intros c. split; simpl; intros; try done; by eexists.
  - intros q c r c' E. destruct q as [p|p|from to|v|v|v|b]; simpl in *.
    + do 2 (case_bool_decide; [injection E as <- <-; by left|]). injection E as <- <-. right. exists p.
      split; [by repeat split|]. unfold cluster_objects_of, with_policies. simpl. by rewrite well_keyed_insert.
    + destruct (_ !! _); injection E as <- <-; [right|by left].
      unfold cluster_objects_of, with_policies. simpl. by rewrite well_keyed_delete.
    + destruct (keyed (cl_pods c) !! _) as [live|] eqn:El; injection E as <- <-; [|by split; [left|]]. split.
      * right. exists live, (patched_pod from to live). split; [done|]. split; [apply relabelled_patched|].
        unfold cluster_objects_of, with_pods. simpl. rewrite keyed_insert_key; [done|].
        apply keyed_lookup in El as [_ El]. by destruct live as [[] ?].
      * intros _ Hr [= ->]. simpl. apply keyed_lookup in El as [_ El]. rewrite patched_pod_same by done.
        by rewrite keyed_insert, lookup_insert_eq.
    + injection E as <- <-. right. exists (applied_over v (keyed (cl_vnets c) !! ObjectKeyFromObject v)).
      split; [apply applied_over_key|]. split.
      * intros old Ho. rewrite Ho. unfold vnet_update. simpl. case_bool_decide as Hs; simpl; [done|lia].
      * unfold cluster_objects_of, with_vnets. simpl. by rewrite keyed_insert_key by apply applied_over_key.
    + injection E as <- <-. right. unfold cluster_objects_of, with_vnets. simpl. by rewrite keyed_delete.
    + destruct (keyed (cl_vnets c) !! _) as [live|] eqn:El; injection E as <- <-; [|by left].
      right. eexists live, _. split; [done|]. split; [|split]; [..|unfold cluster_objects_of, with_vnets; simpl;
        rewrite keyed_insert_key; [reflexivity|]]; [done..|].
      by apply keyed_lookup in El as [_ El].
    + destruct (keyed (cl_vnbs c) !! _) as [live|] eqn:El; injection E as <- <-; [|by left].
      right. eexists. split; [|unfold cluster_objects_of, with_vnbs; simpl; rewrite keyed_insert_key; [reflexivity|]];
      by apply keyed_lookup in El as [_ El].
Defined.
