(* ===== verification/Authority.v ===== *)
(** * What the operator may write

    Whatever the cluster holds and whoever else changes it, every write of every
    reconciler stays within an authority that depends on the request alone: policies of its
    own role, labelled as the operator's and ingress-only, in namespaces that are not
    excluded; deletes of policies that carry its labels; pods whose stamps and markers are
    all that changes; its own vnets and statuses. The proof follows the programs with a
    small logic of what they write. *)

From Stdlib Require Import Ascii.
From S2P Require Import Prelude GoStrings Types Effects Direction Names ApiServer Permits Apply Baseline Stamps.
From S2P Require Import ServicePolicies ApiserverReachable HostPort Resolver Semantics Generator Members.
From S2P Require Import VnetController VnetControllerSpec ResolutionController ResolutionControllerSpec.
From S2P Require Import Binding SystemVnet Operator.

(** ** What a program writes *)

(** A sequence of writes, with their results, takes one world to another. *)
Inductive writes_to `{Client W} : list (Write * result unit) → W → W → Prop :=
  | writes_nil w : writes_to [] w w
  | writes_cons q r ws w w1 w2 : cl_write q w = (r, w1) → writes_to ws w1 w2 → writes_to ((q, r) :: ws) w w2.

Lemma writes_app `{Client W} ws1 ws2 (w w1 w2 : W) :
  writes_to ws1 w w1 → writes_to ws2 w1 w2 → writes_to (ws1 ++ ws2) w w2.
Proof. induction 1 as [|q r ws w w1' w2' Hq _ IH]; intros H2; [done|]. simpl. econstructor; [done|by apply IH]. Qed.

(** The programs that write only what [P] allows, and change the world by these writes
    alone; and what a program can return. *)
Definition emits `{Client W} {A} (P : Write → Prop) (m : St W → A * St W) : Prop :=
  ∀ st, ∃ ws, write_results (m st).2 = write_results st ++ ws ∧ Forall (λ qr, P qr.1) ws ∧
    writes_to ws (st_world st) (st_world (m st).2).

Definition returns {W A} (m : St W → A * St W) (a : A) : Prop := ∃ st, (m st).1 = a.

Section emits.
Context {W : Type} `{Client W} (P : Write → Prop).

Lemma emits_nothing {A} (m : St W → A * St W) :
  (∀ st, write_results (m st).2 = write_results st ∧ st_world (m st).2 = st_world st) → emits P m.
Proof.
  intros Hm st. destruct (Hm st) as [Hw Hs]. exists []. rewrite app_nil_r, Hs. split_and!; [done|constructor..].
Qed.

Lemma emits_then (st st1 st2 : St W) ws1 :
  write_results st1 = write_results st ++ ws1 → Forall (λ qr, P qr.1) ws1 → writes_to ws1 (st_world st) (st_world st1) →
  (∃ ws, write_results st2 = write_results st1 ++ ws ∧ Forall (λ qr, P qr.1) ws ∧ writes_to ws (st_world st1) (st_world st2)) →
  ∃ ws, write_results st2 = write_results st ++ ws ∧ Forall (λ qr, P qr.1) ws ∧ writes_to ws (st_world st) (st_world st2).
Proof.
  intros H1 H2 H3 (ws & H4 & H5 & H6). exists (ws1 ++ ws). rewrite H4, H1, <-(assoc_L (++)).
  split_and!; [done|by apply Forall_app|by eapply writes_app].
Qed.

Lemma emits_ret {A} (a : A) : emits P (mret a : IO W A).
Proof. by apply emits_nothing. Qed.
Lemma emitsE_ret {A} (a : A) : emits P (mret a : EIO W A).
Proof. by apply emits_nothing. Qed.
Lemma emits_lift {A} (r : result A) : emits P (lift r : EIO W A).
Proof. by apply emits_nothing. Qed.
Lemma emits_throw {A} e : emits P (throw e : EIO W A).
Proof. by apply emits_nothing. Qed.
Lemma emits_try {A} (m : EIO W A) : emits P m → emits P (try m).
Proof. intros Hm st. specialize (Hm st). unfold try. by destruct (m st). Qed.
Lemma emits_attempt {A} (m : EIO W A) : emits P m → emits P (attempt m).
Proof. intros Hm. exact Hm. Qed.
Lemma emits_liftIO {A} (m : IO W A) : emits P m → emits P (liftIO m).
Proof. intros Hm st. specialize (Hm st). unfold liftIO. by destruct (m st). Qed.

Lemma emits_bind {A B} (m : IO W A) (k : A → IO W B) :
  emits P m → (∀ a, returns m a → emits P (k a)) → emits P (m ≫= k).
Proof.
  intros Hm Hk st. rewrite bind_IO. destruct (Hm st) as (ws & ? & ? & ?).
  eapply emits_then; [done..|]. apply Hk. by exists st.
Qed.

Lemma emitsE_bind {A B} (m : EIO W A) (k : A → EIO W B) :
  emits P m → (∀ a, returns m (Ok a) → emits P (k a)) → emits P (m ≫= k).
Proof.
  intros Hm Hk st. unfold mbind, EIO_bind. specialize (Hm st). destruct (m st) as [[a|e] st1] eqn:E; [|done].
  destruct Hm as (ws & ? & ? & ?). eapply emits_then; [done..|]. apply Hk. exists st. by rewrite E.
Qed.

Lemma emits_fold {A B} (l : list A) (acc : B) (body : B → A → IO W B) :
  (∀ acc x, x ∈ l → emits P (body acc x)) → emits P (for_fold l acc body).
Proof.
  revert acc. induction l as [|x l IH]; intros acc Hb; simpl; [apply emits_ret|].
  apply emits_bind; [apply Hb; by left|]. intros a _. apply IH. intros. apply Hb. by right.
Qed.

Lemma emits_for_each {A} (l : list A) (body : A → EIO W unit) :
  (∀ x, x ∈ l → emits P (body x)) → emits P (for_each l body).
Proof.
  induction l as [|x l IH]; intros Hb; simpl; [apply emitsE_ret|].
  apply emitsE_bind; [apply Hb; by left|]. intros _ _. apply IH. intros. apply Hb. by right.
Qed.

Lemma writes_of_results (st : St W) : writes_of (st_log st) = map fst (write_results st).
Proof. unfold writes_of, write_results. induction (st_log st) as [|[w r|ev|mt] l IH]; cbn; [done|f_equal; apply IH|apply IH..]. Qed.

(** What keeps the world and the writes of the log. *)
Lemma emits_keeps {A} (m : IO W A) : Keeps write_results m → Silent m → emits P m.
Proof. intros Hm Hs. apply emits_nothing. intros st. by rewrite (Hm st). Qed.
Lemma emits_keepsE {A} (m : EIO W A) : KeepsE write_results m → SilentE m → emits P m.
Proof. intros Hm Hs. apply emits_nothing. intros st. by rewrite (Hm st). Qed.

Lemma emits_log (a : Action) : (∀ w r, a ≠ AWrite w r) → emits P (log_action a : IO W unit).
Proof.
  intros Ha. apply emits_nothing. intros st. unfold log_action, write_results. simpl. rewrite omap_app. split; [|done].
  destruct a as [w r|ev|mt]; [by destruct (Ha w r)|..]; by rewrite app_nil_r.
Qed.

Lemma emits_eventf rec obj t r a n args : emits P (eventf rec obj t r a n args : IO W unit).
Proof. apply emits_keeps; apply _. Qed.
Lemma emits_applyFailed rec obj k n args : emits P (applyFailed rec obj k n args : IO W unit).
Proof. apply emits_bind; [by apply emits_log|]. intros. apply emits_eventf. Qed.
Lemma emits_policyRestored rec obj n args : emits P (policyRestored rec obj n args : IO W unit).
Proof. apply emits_eventf. Qed.
Lemma emits_first {A} `{Object A} (o : A) r : emits P (first o r : IO W bool).
Proof. apply emits_keeps; apply _. Qed.
Lemma emits_clear {A} `{Object A} (o : A) r : emits P (clear o r : IO W unit).
Proof. by apply emits_nothing. Qed.
Lemma emits_forget nn : emits P (forget nn : IO W unit).
Proof. by apply emits_nothing. Qed.
Lemma emits_restores_applied k c : emits P (restores_applied k c : IO W bool).
Proof. by apply emits_nothing. Qed.
Lemma emits_restores_forget k : emits P (restores_forget k : IO W unit).
Proof. by apply emits_nothing. Qed.
Lemma emits_restores_forgetNamespace ns keep : emits P (restores_forgetNamespace ns keep : IO W unit).
Proof. by apply emits_nothing. Qed.

Lemma emits_read {A} (f : Reader → result A) : emits P (read f : EIO W A).
Proof. by apply emits_nothing. Qed.
Lemma emits_write w : P w → emits P (write w : EIO W unit).
Proof.
  intros Hw st. unfold write, write_results. destruct (cl_write w _) as [r w'] eqn:E. simpl. rewrite omap_app.
  exists [(w, r)]. split_and!; [done|by constructor|]. simpl. by econstructor; [|constructor].
Qed.

(** What a read can return. *)
Lemma returns_read {A} (f : Reader → result A) a :
  returns (read f : EIO W A) (Ok a) → ∃ w : W, f (cl_reader w) = Ok a.
Proof. intros [st Hst]. by exists (st_world st). Qed.
Lemma returns_try {A} (m : EIO W A) a : returns (try m) (Ok (Ok a)) → returns m (Ok a).
Proof. intros [st Hst]. exists st. unfold try in Hst. destruct (m st) as [r st1]. simpl in *. congruence. Qed.

Context `{K8sLib}.

Lemma emits_applyPolicy rd p : P (WApplyPolicy p) → emits P (applyPolicy (W := W) rd p).
Proof.
  intros Hp st. unfold applyPolicy.
  assert (∀ b, emits P (_ ← write (WApplyPolicy p); mret b : EIO W bool)) as Hb
    by (intros b; apply emitsE_bind; [by apply emits_write|intros; apply emitsE_ret]).
  destruct (get_netpol _ _); case_match; try apply Hb; [apply (emitsE_ret false)|apply (emits_throw (A := bool))].
Qed.

Lemma emits_sweep `{!CoherentClient W} o keep skip :
  (∀ p, selected_by o p = true → skip p = false → P (WDeletePolicy p)) →
  emits P (sweepStalePolicies (W := W) o keep skip).
Proof.
  intros Hp. apply emitsE_bind; [apply emits_read|]. intros l [w Hl]%returns_read.
  apply emits_for_each. intros p Hin. unfold sweep_one. destruct (bool_decide _ || skip p) eqn:Es; [apply emitsE_ret|]. kv_bools.
  apply emitsE_bind; [apply emits_try, emits_write, Hp; [by apply (lists_selected w o l)|done]|].
  intros [a|e] _; [apply emitsE_ret|]. destruct (IsNotFound e); [apply emitsE_ret|apply emits_throw].
Qed.
End emits.

(** Follow a program; what it writes remains, with what the reads before returned. *)
Ltac emits_step :=
  match goal with
  | |- emits _ (if ?b then _ else _) => destruct b eqn:?
  | |- emits _ (match ?r with _ => _ end) => destruct r eqn:?
  | |- emits _ (mbind _ _) => first [apply emitsE_bind | apply emits_bind]; [|intros ? ?]
  | |- emits _ (mret _) => first [apply emitsE_ret | apply emits_ret]
  | |- emits _ (throw _) => apply emits_throw
  | |- emits _ (lift _) => apply emits_lift
  | |- emits _ (read _) => apply emits_read
  | |- emits _ (try _) => apply emits_try
  | |- emits _ (attempt _) => apply emits_attempt
  | |- emits _ (liftIO _) => apply emits_liftIO
  | |- emits _ (eventf _ _ _ _ _ _ _) => apply emits_eventf
  | |- emits _ (applyFailed _ _ _ _ _) => apply emits_applyFailed
  | |- emits _ (policyRestored _ _ _ _) => apply emits_policyRestored
  | |- emits _ (first _ _) => apply emits_first
  | |- emits _ (clear _ _) => apply emits_clear
  | |- emits _ (forget _) => apply emits_forget
  | |- emits _ (restores_applied _ _) => apply emits_restores_applied
  | |- emits _ (restores_forget _) => apply emits_restores_forget
  | |- emits _ (restores_forgetNamespace _ _) => apply emits_restores_forgetNamespace
  | |- emits _ (clearMembers _ _) => unfold clearMembers
  | |- emits _ (setMembers _ _ _) => unfold setMembers
  | |- emits _ (log_action _) => apply emits_log; discriminate
  | |- emits _ (for_fold _ _ _) => apply emits_fold; intros ? ? ?
  | |- emits _ (applyPolicy _ _) => apply emits_applyPolicy
  | |- emits _ (sweepStalePolicies _ _ _) => apply emits_sweep; [exact _|intros ? ? ?]
  | |- emits _ (write _) => apply emits_write
  end.
Ltac emits := repeat emits_step.

(** ** The authority of each reconciler *)

(** The policy carries the operator's label and those of [l]. *)
Definition has_labels (l : gmap string string) (p : NetworkPolicy) : Prop :=
  {[LabelManagedBy := LabelManagedByValue]} ∪ l ⊆ obj_labels p.

Section authority.
Context `{K8sLib} (o : Options).

Definition excluded (ns : string) : Prop := ns ∈ Excluded (opt_nsFilter o).

(** The kind of Service-owned policies a controller is about. *)
Definition source_of (c : Controller) : option serviceSource :=
  match c with
  | ExternalAllow => Some svcSourcePolicies
  | ApiserverReachable => Some apiserverPolicies
  | _ => None
  end.

(** The name of the policy of a Service. *)
Definition source_name (s : serviceSource) (svc : Service) : string :=
  servicePolicyName (src_kind s) (obj_ns svc) (obj_name svc).

(** The policies a controller may apply for a request. *)
Definition may_apply (c : Controller) (req : ObjectKey) (p : NetworkPolicy) : Prop :=
  nps_policyTypes (np_spec p) = [PolicyTypeIngress] ∧ ¬ excluded (obj_ns p) ∧
  match c with
  | VirtualNetworks =>
      obj_name p = PolicyName (key_name req) (key_ns req) ∧
      has_labels {[LabelRole := LabelRoleMembership; LabelNetwork := dotted (key_ns req) (key_name req)]} p
  | Namespaces => p = DesiredBaseline (key_name req)
  | ExternalAllow | ApiserverReachable =>
      ∃ s svc cidr ports, source_of c = Some s ∧ ObjectKeyFromObject svc = req ∧
        SetControllerReference svc (source_policy s svc (source_name s svc) cidr ports) = Ok p
  | HostPorts => ∃ key, p = buildHostPortPolicy (key_name req) key
  | _ => False
  end.

(** The policies it may delete: its own, by their labels. *)
Definition may_delete (c : Controller) (req : ObjectKey) (p : NetworkPolicy) : Prop :=
  match c with
  | VirtualNetworks => has_labels {[LabelNetwork := dotted (key_ns req) (key_name req)]} p
  | Namespaces => obj_ns p = key_name req ∧ has_labels {[LabelRole := LabelRoleBaseline]} p
  | ExternalAllow => obj_ns p = key_ns req ∧ has_labels {[LabelRole := LabelRoleExternalAllow]} p ∧
      claimedByOtherSourceKind p = false
  | ApiserverReachable => obj_ns p = key_ns req ∧
      has_labels {[LabelRole := LabelRoleExternalAllow; LabelSourceKind := LabelSourceKindApiserver]} p
  | HostPorts => obj_ns p = key_name req ∧
      has_labels {[LabelRole := LabelRoleExternalAllow; LabelSourceKind := LabelSourceKindHost]} p
  | _ => False
  end.

Definition may_write (c : Controller) (req : ObjectKey) (w : Write) : Prop :=
  match w with
  | WApplyPolicy p => may_apply c req p
  | WDeletePolicy p => may_delete c req p
  | WPatchPod from to => c = Resolution ∧ ObjectKeyFromObject from = req ∧
      restamped (ResolutionStamps to) from to ∧ (excluded (obj_ns from) → ResolutionStamps to = ∅)
  | WApplyVnet v => c = SystemVnets ∧
      (v = namespace_vnet (key_name req) ∧ ¬ excluded (key_name req) ∨
       v = cluster_vnet (opt_operatorNS o) ∧ key_name req = opt_operatorNS o)
  | WDeleteVnet v => c = SystemVnets ∧
      ObjectKeyFromObject v = mkKey (key_name req) SystemVnetNamespace ∧ operatorManaged v = true
  | WUpdateVnetStatus v => c = VirtualNetworks ∧ ObjectKeyFromObject v = req
  | WUpdateBindingStatus b => c = Bindings ∧ ObjectKeyFromObject b = req
  end.
End authority.

(** ** Every reconciler stays within its authority *)

Section reconciles.
Context `{K8sLaws} {W : Type} `{CoherentClient W} (o : Options) (order : gset hostPortKey → list hostPortKey).

Lemma managed_not_excluded ns : IsManaged (opt_nsFilter o) ns = true → ¬ excluded o (obj_name ns).
Proof. unfold IsManaged, excluded. intros Hm. by kv_bools. Qed.

(** A policy the options of a sweep select. *)
Lemma selected_labels o' (p : NetworkPolicy) : selected_by o' p = true → lo_matchLabels o' ⊆ obj_labels p.
Proof. unfold selected_by. intros Hs. by kv_bools. Qed.

Lemma in_namespace_selected ns l (p : NetworkPolicy) : selected_by (inNamespacePolicyLabels ns l) p = true →
  l !! LabelManagedBy = None → obj_ns p = ns ∧ has_labels l p.
Proof.
  intros Hs Hl. pose proof (selected_labels _ _ Hs) as Hlab. unfold selected_by in Hs. cbn in Hs, Hlab. kv_bools.
  split; [done|]. unfold has_labels. rewrite map_union_comm; [done|].
  by apply map_disjoint_singleton_l.
Qed.

(** The namespace a read returned is the one asked for. *)
Lemma read_namespace (n : string) ns :
  returns (try (read (λ rd, get_namespace rd n)) : EIO W _) (Ok (Ok ns)) → obj_name ns = n.
Proof. intros [w Hw]%returns_try%returns_read. by apply (gets_namespace w). Qed.

Lemma namespaces_emit req : emits (may_write o Namespaces req) (reconcile (W := W) o order Namespaces req).
Proof.
  unfold reconcile, NamespaceReconcile, reconcile_managed. emits; subst;
    match goal with Hr : returns (try (read _)) (Ok (Ok _)) |- _ => apply read_namespace in Hr as Hn end; rewrite Hn in *.
  - by apply in_namespace_selected.
  - split; [done|]. split; [|done]. rewrite <-Hn. apply managed_not_excluded. by kv_bools.
  - by apply in_namespace_selected.
Qed.

Lemma host_ports_emit req : emits (may_write o HostPorts req) (reconcile (W := W) o order HostPorts req).
Proof.
  unfold reconcile, HostPortReconcile, reconcile_host_ports, host_port_one. emits; subst;
    match goal with Hr : returns (try (read (λ rd, get_namespace rd _))) (Ok (Ok _)) |- _ =>
      apply read_namespace in Hr as Hn end; rewrite Hn in *.
  - by apply in_namespace_selected.
  - split; [done|]. split; [|by eexists]. cbn. rewrite <-Hn. apply managed_not_excluded. by kv_bools.
  - by apply in_namespace_selected.
Qed.

Lemma system_vnets_emit req : emits (may_write o SystemVnets req) (reconcile (W := W) o order SystemVnets req).
Proof.
  unfold reconcile, SystemVnetReconcile, applySystemVnet, deleteNamespaceSystemVnet. emits; subst;
    match goal with Hr : returns (try (read (λ rd, get_namespace rd _))) (Ok (Ok _)) |- _ =>
      apply read_namespace in Hr as Hn end; rewrite Hn in *; kv_bools; subst.
  - split; [done|]. left. split; [done|]. rewrite <-Hn. by apply managed_not_excluded.
  - split; [done|]. split; [|done].
    match goal with Hr : returns (try (read (λ rd, get_vnet rd _))) _ |- _ =>
      apply returns_try, returns_read in Hr as [w Hw] end. by apply (gets_vnet w).
  - split; [done|]. by right.
Qed.

Lemma bindings_emit req : emits (may_write o Bindings req) (reconcile (W := W) o order Bindings req).
Proof.
  unfold reconcile, BindingReconcile, reconcile_binding, check_vnet, attach_pods, notReady, writeStatus. emits; subst;
    match goal with Hr : returns (try (read (λ rd, get_vnb rd _))) (Ok (Ok _)) |- _ =>
      apply returns_try, returns_read in Hr as [w Hw] end; apply (gets_vnb w) in Hw; split; try done.
  unfold report_attached. by repeat case_match.
Qed.

(** *** Pods *)

(** The stamps of a patch and the markers are all it changes. *)
Lemma may_restamp req (from to : Pod) stamps :
  ObjectKeyFromObject from = req → restamped stamps from to → (excluded o (obj_ns from) → stamps = ∅) →
  may_write o Resolution req (WPatchPod from to).
Proof.
  intros Hk Hr He. pose proof Hr as (Hs & _). rewrite <-Hs in Hr, He. by split_and!.
Qed.

Lemma warnOnce_emits P pod reason note : emits P (warnOnce true pod reason note : IO W unit).
Proof. unfold warnOnce. emits. Qed.

Lemma resolve_pod_emits req pod : ObjectKeyFromObject pod = req → ¬ excluded o (obj_ns pod) →
  emits (W := W) (may_write o Resolution req) (resolve_pod true (opt_networkWaitEnabled o) pod).
Proof.
  intros Hk He st. unfold resolve_pod.
  match goal with |- context [write_results (?m st).2] => assert (emits (may_write o Resolution req) m) as Hm; [|by apply Hm] end.
  generalize (cl_reader (st_world st)). intros rd. unfold applyResolution, warnNarrowedMembership.
  apply emitsE_bind; [apply emits_keepsE; [apply _|apply DesiredLabels_keeps; intros; apply _]|]. intros found [st1 Hf].
  assert (stamps_only found.1) as Hs.
  { destruct (DesiredLabels true rd pod st1) as [r st2] eqn:E. simpl in Hf. subst r. destruct found as [desired res].
    apply DesiredLabels_Ok in E as (layers & _ & _ & ->). apply render_stamps_only. }
  emits; try by (apply warnOnce_emits || apply emits_eventf).
  apply (may_restamp _ _ _ found.1); [done| |done]. apply restamped_marked.
  match goal with E : SyncStamps _ _ _ = _ |- _ => pose proof (restamped_sync pod found.1 Hs) as Hr; by rewrite E in Hr end.
Qed.

Lemma cleared_restamped (pod patched : Pod) stamps : restamped stamps pod patched →
  restamped stamps pod (ClearResolved patched).1.
Proof. apply restamped_annotations. intros k ? ?. by rewrite !lookup_delete_ne by done. Qed.

Lemma resolution_emits req : emits (may_write o Resolution req) (reconcile (W := W) o order Resolution req).
Proof.
  unfold reconcile, ResolutionReconcile, stripStampedLabels, warnUnmanaged. emits; subst; try apply warnOnce_emits.
  all: repeat match goal with Hr : returns (try (read _)) (Ok (Ok _)) |- _ =>
    apply returns_try, returns_read in Hr as [? Hr] end.
  all: match goal with Hp : get_pod _ _ = Ok _, Hn : get_namespace _ _ = Ok _ |- _ =>
    apply gets_pod in Hp; apply gets_namespace in Hn; rename Hn into Hns end.
  - match goal with E : SyncStamps ?p _ _ = _, E' : ClearResolved _ = _ |- _ => rename E into Es, E' into Ec, p into pod end.
    apply (may_restamp _ _ _ ∅); [done| |done].
    pose proof (cleared_restamped _ _ _ (restamped_sync pod ∅ ltac:(intros k [? Hk]; by rewrite lookup_empty in Hk))) as Hr.
    rewrite Es in Hr. cbn [fst] in Hr. by rewrite Ec in Hr.
  - apply resolve_pod_emits; [done|]. rewrite <-Hns. apply managed_not_excluded. by kv_bools.
Qed.

(** *** The policies of a Service *)

(** The policy of a source kind, with its owner, in a namespace that is not excluded. *)
Lemma source_applied c s svc ns cidr ports p :
  source_of c = Some s → obj_name ns = obj_ns svc → IsManaged (opt_nsFilter o) ns = true →
  SetControllerReference svc (source_policy s svc (source_name s svc) cidr ports) = Ok p →
  may_apply o c (ObjectKeyFromObject svc) p.
Proof.
  intros Hs Hns Hm Hp. pose proof Hp as Hp'. rewrite SetControllerReference_new in Hp' by done. injection Hp' as Hp'.
  split; [by rewrite <-Hp'|]. split.
  { rewrite <-Hp'. change (¬ excluded o (obj_ns svc)). rewrite <-Hns. by apply managed_not_excluded. }
  destruct c; try discriminate Hs; by exists s, svc, cidr, ports.
Qed.

Lemma has_labels_weaken l l' p : l ⊆ l' → has_labels l' p → has_labels l p.
Proof.
  unfold has_labels. intros Hl Hp. etrans; [|exact Hp]. by apply map_union_mono_l.
Qed.

(** What a sweep of a source kind deletes. *)
Lemma source_deleted c s svc p : source_of c = Some s →
  selected_by (sweep_options s (obj_ns svc)) p = true → sweep_skip s svc p = false →
  may_delete c (ObjectKeyFromObject svc) p.
Proof.
  intros Hs Hp Hk. unfold sweep_skip in Hk. destruct c; try discriminate Hs; injection Hs as <-;
    apply in_namespace_selected in Hp as [Hns Hl]; try done.
  cbn [src_skip svcSourcePolicies] in Hk. kv_bools. by split_and!.
Qed.

Lemma source_key_deleted c s req p : source_of c = Some s →
  selected_by (source_options s (key_ns req) (key_name req)) p = true → may_delete c req p.
Proof.
  intros Hs Hp. destruct c; try discriminate Hs; injection Hs as <-;
    apply in_namespace_selected in Hp as [Hns Hl]; try done.
  - split_and!; [done| |].
    + refine (has_labels_weaken _ _ _ _ Hl). apply insert_mono, map_empty_subseteq.
    + unfold claimedByOtherSourceKind.
      assert (obj_labels p !! LabelSourceKind = Some LabelSourceKindService) as ->; [|done].
      eapply lookup_weaken; [|exact Hl]. done.
  - split; [done|]. refine (has_labels_weaken _ _ _ _ Hl). do 2 apply insert_mono. apply map_empty_subseteq.
Qed.

Lemma source_emits c s desired req : source_of c = Some s →
  (∀ svc policy, returns (desired svc) (Ok (Some policy)) → ∃ cidr ports, policy = source_policy s svc (source_name s svc) cidr ports) →
  (∀ svc, emits (may_write o c req) (desired svc)) →
  emits (may_write o c req) (source_reconcile (W := W) s (opt_nsFilter o) true desired req).
Proof.
  intros Hs Hd Hdw. unfold source_reconcile, reconcile_service, apply_wanted, source_sweep, deleteByServiceKey, forget_request.
  emits; subst; try apply Hdw; try by eapply source_key_deleted.
  all: repeat match goal with Hr : returns (try (read _)) (Ok (Ok _)) |- _ =>
    apply returns_try, returns_read in Hr as [? Hr] end.
  all: match goal with Hp : get_service _ _ = Ok _ |- _ => apply gets_service in Hp; rename Hp into Hsvc end.
  all: match goal with Hn : get_namespace _ _ = Ok _ |- _ => apply gets_namespace in Hn; rename Hn into Hns end.
  all: subst req; try by eapply source_deleted.
  match goal with Hr : returns (try (desired _)) _, Hl : returns (lift (SetControllerReference _ _)) _ |- _ =>
    apply returns_try, Hd in Hr as (cidr & ports & ->); destruct Hl as [st5 Hset] end.
  eapply source_applied; [done|exact Hns| |exact Hset]. by kv_bools.
Qed.

Lemma external_allow_emits req : emits (may_write o ExternalAllow req) (reconcile (W := W) o order ExternalAllow req).
Proof.
  apply source_emits; [done| |]; unfold external_desired; [|intros svc; emits].
  intros svc policy [st Hp]. rewrite bind_read in Hp. destruct (list_pods _ _) as [pods|]; [|done].
  rewrite bind_liftIO in Hp. simpl in Hp. unfold buildExternalAllowPolicy in Hp.
  destruct (_ || _); [done|]. apply result_bind_Ok in Hp as (ports & _ & [= <-]). by eexists _, _.
Qed.

Lemma apiserver_reachable_emits req :
  emits (may_write o ApiserverReachable req) (reconcile (W := W) o order ApiserverReachable req).
Proof.
  apply source_emits; [done| |]; unfold apiserver_desired; [|intros svc; emits].
  intros svc policy [w Hp]%returns_read. unfold apiserver_policy in Hp.
  destruct (_ || _); [done|]. apply result_bind_Ok in Hp as (ports & _ & Hp). case_bool_decide; [done|].
  apply result_bind_Ok in Hp as (pods & _ & (p & Hb & [= ->])%result_fmap_Ok). unfold buildApiserverReachablePolicy in Hb.
  apply result_bind_Ok in Hb as (pps & _ & [= <-]). by eexists _, _.
Qed.

(** *** Vnets *)

Lemma membership_selected (req : ObjectKey) p :
  selected_by (membership_options (key_ns req) (key_name req)) p = true → may_delete VirtualNetworks req p.
Proof. by intros Hs%selected_labels. Qed.

(** A generated policy has the name and the labels of its vnet. *)
Lemma Generate_labelled in_ p : p ∈ Generate in_ →
  obj_name p = PolicyName (obj_name (gi_vnet in_)) (obj_ns (gi_vnet in_)) ∧
  has_labels {[LabelRole := LabelRoleMembership;
               LabelNetwork := dotted (obj_ns (gi_vnet in_)) (obj_name (gi_vnet in_))]} p.
Proof.
  intros (ns & _ & ->)%elem_of_Generate. generalize (peers_of in_) (gi_vnet in_). intros peers vnet.
  split; [unfold membership_policy; cbv zeta; by destruct (ns =?? _)|].
  unfold has_labels. assert (obj_labels (membership_policy vnet peers ns) =
    {[LabelManagedBy := LabelManagedByValue; LabelK8sManagedBy := LabelManagedByValue;
      LabelNetwork := dotted (obj_ns vnet) (obj_name vnet); LabelRole := LabelRoleMembership]}) as ->
    by (unfold membership_policy; cbv zeta; by destruct (ns =?? _)).
  apply map_union_least; apply map_subseteq_spec; intros k v Hk.
  - by apply lookup_singleton_Some in Hk as [<- <-].
  - apply lookup_insert_Some in Hk as [[<- <-]|[_ [<- <-]%lookup_singleton_Some]]; done.
Qed.

(** It is in a namespace whose pods count. *)
Lemma membership_applied (w : W) vnet members invalid p :
  discoverMembers (opt_nsFilter o) (cl_reader w) vnet = Ok (members, invalid) →
  p ∈ Generate (mkGenInput vnet members) → may_apply o VirtualNetworks (ObjectKeyFromObject vnet) p.
Proof.
  intros Hd Hp. pose proof (Generate_labelled _ _ Hp) as Hl. apply elem_of_Generate in Hp as (ns & Hr & ->).
  cbn [gi_vnet gi_membersByNS] in *. generalize (peers_of (mkGenInput vnet members)) Hl. intros peers Hl'.
  assert (obj_ns (membership_policy vnet peers ns) = ns) as Hns
    by (unfold membership_policy; cbv zeta; by destruct (ns =?? _)).
  split; [done|]. rewrite Hns. split; [|exact Hl'].
  apply discoverMembers_spec in Hd as (pods & _ & Hm & _).
  apply has_role_pods in Hr as (d & _ & Hne). destruct (pods_of _ d) as [|name names] eqn:E; [done|].
  destruct (proj1 (Hm ns d name)) as (p & _ & <- & _ & _ & _ & [He _]); [rewrite E; by left|].
  unfold Manages in He. destruct (get_namespace _ _) as [n|] eqn:En; [|by case_match].
  apply gets_namespace in En. rewrite <-En. apply managed_not_excluded. by injection He.
Qed.

Lemma status_key members refs v : ObjectKeyFromObject (with_status members refs v) = ObjectKeyFromObject v.
Proof. done. Qed.
Lemma outcome_key errs policies namespaces v :
  ObjectKeyFromObject (set_outcome errs policies namespaces v) = ObjectKeyFromObject v.
Proof. unfold set_outcome. by repeat case_match. Qed.
Lemma joiners_key invalid v : ObjectKeyFromObject (set_joiners invalid v) = ObjectKeyFromObject v.
Proof. unfold set_joiners. by case_match. Qed.

Lemma vnets_emit req : emits (may_write o VirtualNetworks req) (reconcile (W := W) o order VirtualNetworks req).
Proof.
  unfold reconcile, VnetReconcile, observed, reconcile_vnet, reconcile_members, report_members, report_not_served,
    apply_one, updateStatus, emitTransitionEvents, emit_transition, deleteMembershipPolicies.
  emits; subst; try by apply membership_selected.
  all: repeat match goal with Hr : returns (try (read (λ rd, get_vnet rd _))) (Ok (Ok _)) |- _ =>
    apply returns_try, returns_read in Hr as [? Hr]; apply gets_vnet in Hr; subst req end.
  all: try by apply (membership_selected (ObjectKeyFromObject _)).
  all: try by split; [|rewrite status_key, ?outcome_key, ?joiners_key].
  match goal with Hr : returns (read _) _ |- _ => apply returns_read in Hr as [w Hd] end.
  by eapply membership_applied.
Qed.

(** A vnet that cannot be read gets no policies. *)
Lemma absent_emits req e (st : St W) : get_vnet (cl_reader (st_world st)) req = Err e →
  ∃ ws, write_results (reconcile o order VirtualNetworks req st).2 = write_results st ++ ws ∧
    Forall (λ qr, ∀ p, qr.1 ≠ WApplyPolicy p) ws.
Proof.
  intros He. set (withdraw := observed (
    if IsNotFound e then
      _ ← liftIO (clearMembers (key_ns req) (key_name req));
      _ ← deleteMembershipPolicies (key_ns req) (key_name req) ∅ ∅;
      mret Finished
    else throw e) : EIO W Outcome).
  assert (reconcile o order VirtualNetworks req st = withdraw st) as ->.
  { unfold reconcile, VnetReconcile, withdraw, observed. rewrite !bind_try. unfold read. cbn [fst snd]. by rewrite He. }
  assert (emits (λ q, ∀ p, q ≠ WApplyPolicy p) withdraw) as Hw by (unfold withdraw, observed, deleteMembershipPolicies; by emits).
  destruct (Hw st) as (ws & ? & ? & _). eauto.
Qed.

(** A namespace that cannot be read gets no system vnets. *)
Lemma absent_namespace req e (st : St W) : get_namespace (cl_reader (st_world st)) (key_name req) = Err e →
  write_results (reconcile o order SystemVnets req st).2 = write_results st.
Proof. intros He. unfold reconcile, SystemVnetReconcile. rewrite !bind_try. unfold read. cbn [fst snd]. rewrite He. by destruct (IsNotFound e). Qed.

(** Every reconcile stays within its authority. *)
Lemma reconcile_emits c req : emits (may_write o c req) (reconcile (W := W) o order c req).
Proof.
  destruct c; [apply vnets_emit|apply namespaces_emit|apply bindings_emit|apply resolution_emits|
    apply system_vnets_emit|apply external_allow_emits|apply apiserver_reachable_emits|apply host_ports_emit].
Qed.
End reconciles.

(** What a reconcile writes from a state: within its authority, a policy of a vnet only if
    there is the vnet, and a system vnet only if there is its namespace; and these writes
    are what changes the world. *)
Definition entitled {W} `{K8sLib} `{Client W} (o : Options) (w : W) (c : Controller) (req : ObjectKey) (q : Write) : Prop :=
  may_write o c req q ∧
  (∀ p, c = VirtualNetworks → q = WApplyPolicy p → ∃ v, get_vnet (cl_reader w) req = Ok v) ∧
  (∀ v, q = WApplyVnet v → ∃ ns, get_namespace (cl_reader w) (key_name req) = Ok ns).

Lemma reconcile_writes `{K8sLaws} {W} `{CoherentClient W} o order c req (s : OperatorState W) :
  let st := (reconcile o order c req (enter c s)).2 in
  Forall (λ qr, entitled o (os_world s) c req qr.1) (write_results st) ∧
  writes_to (write_results st) (os_world s) (st_world st).
Proof.
  destruct (reconcile_emits o order c req (enter c s)) as (ws & Hws & Hp & Hto). cbv zeta. simpl in *.
  rewrite Hws. split; [|done]. apply Forall_forall. intros [q r] Hq. rewrite Forall_forall in Hp. cbn [fst].
  assert (may_write o c req q) as Hmay by exact (Hp _ Hq). split_and!; [done|..].
  - intros p -> ->. destruct (get_vnet _ _) as [v|e] eqn:E; [by exists v|]. exfalso.
    destruct (absent_emits o order req e (enter VirtualNetworks s) E) as (ws' & Hws' & Hno).
    rewrite Forall_forall in Hno. refine (Hno (WApplyPolicy p, r) _ p eq_refl).
    pose proof (eq_trans (eq_sym Hws') Hws) as E'. simpl in E'. by rewrite E'.
  - intros v ->. destruct Hmay as [-> _]. destruct (get_namespace _ _) as [ns|e] eqn:E; [by exists ns|]. exfalso.
    pose proof (eq_trans (eq_sym (absent_namespace o order req e (enter SystemVnets s) E)) Hws) as E'.
    simpl in E'. rewrite <-E' in Hq. by apply not_elem_of_nil in Hq.
Qed.

(** ** Properties *)

Section run.
Context `{K8sLaws} {W : Type} `{CoherentClient W} (o : Options) (order : gset hostPortKey → list hostPortKey).

(** The log of a run: every write is within the authority of who made it. *)
Definition confined_log (log : list (Controller * ObjectKey * Action)) : Prop :=
  ∀ c req w r, (c, req, AWrite w r) ∈ log → may_write o c req w.

Lemma confined_reconcile c req (s : OperatorState W) :
  confined_log (os_log s) → confined_log (os_log (run o order c req s).2).
Proof.
  intros Hs c' req' w r. unfold run.
  destruct (reconcile_emits o order c req (enter c s)) as (ws & Hws & He & _).
  destruct (reconcile o order c req (enter c s)) as [res st]. cbn [snd leave os_log] in *.
  rewrite elem_of_app, list_elem_of_fmap. intros [Hl|(a & [= -> -> <-] & Ha)]; [by eapply Hs|].
  rewrite Forall_forall in He. refine (He (w, r) _). simpl in Hws. rewrite <-Hws. apply list_elem_of_omap. by exists (AWrite w r).
Qed.

Lemma confined_run (s : OperatorState W) : op_run o order s → confined_log (os_log s).
Proof.
  induction 1 as [w|s s' _ IH Hstep]; [intros c req w' r Hin; by apply not_elem_of_nil in Hin|].
  destruct Hstep as [c req s|w s]; [by apply confined_reconcile|done].
Qed.

(** [C15] Least authority. In every run of the operator, with its controllers interleaved
    in any order and anyone changing the cluster between their reconciles, every write a
    controller attempts stays within what its request entitles it to: it applies only
    ingress policies of its own role, labelled as the operator's, in a namespace that is
    not excluded, and for its own vnet, namespace or Service; it deletes only policies
    that carry the operator's label and those of its own role; of a pod it changes only
    the stamps and the markers, and leaves no stamp in an excluded namespace; it applies
    and deletes only its own vnets, and of other objects writes only the status of the
    one requested. No controller ever touches a policy, vnet or label of a user. *)
Theorem operator_confined (s : OperatorState W) (Hs : op_run o order s) :
  ∀ c req w r, (c, req, AWrite w r) ∈ os_log s → may_write o c req w.
Proof. by apply confined_run. Qed.
End run.

(** ** The operator on a cluster *)

Import Model.

(** The baseline and the vnet reconcile of [vnet_cluster], then the resolution of a pod. *)
Definition shop_options : Options := mkOptions (NewNamespaceFilter ["kube-vnet"]) "kube-vnet" false "".
Definition in_order : gset hostPortKey → list hostPortKey := elements.
Definition shop_reqs : list (Controller * ObjectKey) :=
  [(Namespaces, mkKey "" "shop"); (VirtualNetworks, vnet_key); (Resolution, mkKey "dev" "stale")].
Definition shop_run : OperatorState Cluster := (run_all shop_options in_order shop_reqs (started vnet_cluster)).2.

Lemma run_all_run `{K8sLib} {W} `{Client W} o order reqs (s : OperatorState W) :
  op_run o order s → op_run o order (run_all o order reqs s).2.
Proof.
  revert s. induction reqs as [|[c req] reqs IH]; intros s Hs; [done|]. simpl.
  assert (op_run o order (run o order c req s).2) as H1 by (eapply op_more; [done|constructor]).
  destruct (run o order c req s) as [r s1]. specialize (IH s1 H1). by destruct (run_all o order reqs s1).
Qed.

(** The writes of the run: who, and on what. *)
Definition write_key (w : Write) : ObjectKey :=
  match w with
  | WApplyPolicy p | WDeletePolicy p => ObjectKeyFromObject p
  | WPatchPod p _ => ObjectKeyFromObject p
  | WApplyVnet v | WDeleteVnet v | WUpdateVnetStatus v => ObjectKeyFromObject v
  | WUpdateBindingStatus b => ObjectKeyFromObject b
  end.
Definition written (s : OperatorState Cluster) : list (Controller * ObjectKey * Write) :=
  omap (λ '(c, req, a), match a with AWrite w _ => Some (c, req, w) | _ => None end) (os_log s).

Lemma operator_confined_witness :
  map (λ '(c, _, w), (c, write_key w)) (written shop_run) =
    [(Namespaces, mkKey "shop" "kube-vnet.base");
     (VirtualNetworks, mkKey "shop" "kube-vnet.mem.shop.payments-a2f603ca");
     (VirtualNetworks, mkKey "dev" "kube-vnet.mem.shop.payments-a2f603ca");
     (VirtualNetworks, mkKey "shop" "payments"); (Resolution, mkKey "dev" "stale")] ∧
  ∀ c req w r, (c, req, AWrite w r) ∈ os_log shop_run → may_write shop_options c req w.
Proof.
  split; [vm_compute; reflexivity|].
  refine (operator_confined shop_options in_order shop_run _). apply run_all_run, op_start.
Defined.
