(* ===== verification/Drift.v ===== *)
(** * Drift is noticed

    Whoever changes what the operator wrote makes it look again: an event on a policy, a
    system vnet or a pod's labels that a reconcile wrote enqueues the request that wrote
    it, in every run of the operator, through the watches the reconcilers set up. What is
    missed is stated too: an update that takes the operator's label off a policy. *)

From Stdlib Require Import Ascii.
From S2P Require Import Prelude GoStrings Types Effects Direction Names ApiServer Permits Apply Baseline Stamps.
From S2P Require Import ServicePolicies ApiserverReachable HostPort Generator VnetController VnetControllerSpec.
From S2P Require Import ResolutionController ResolutionControllerSpec Binding SystemVnet Operator Authority.

(** ** Specification *)

(** The request as its watch makes it: the namespace controllers' have no namespace, and a
    namespace's name is a DNS label. *)
Definition well_formed (c : Controller) (req : ObjectKey) : Prop :=
  match c with
  | Namespaces | SystemVnets | HostPorts => key_ns req = ""
  | _ => Contains "." (key_ns req) = false
  end.

(** The event is on what the write wrote: on a policy or vnet that still carries the labels
    the operator put on it and, of a policy, its owner; on a pod whose labels change. *)
Definition drifts (w : Write) (e : WatchEvent) : Prop :=
  match w with
  | WApplyPolicy p => ∃ live, event_object e = WPolicy live ∧
      ObjectKeyFromObject live = ObjectKeyFromObject p ∧ obj_labels p ⊆ obj_labels live ∧
      m_ownerReferences (np_meta p) ⊆ m_ownerReferences (np_meta live) ∧
      ∀ ref, ref ∈ m_ownerReferences (np_meta live) → or_controller ref = Some true →
        ref ∈ m_ownerReferences (np_meta p)
  | WApplyVnet v => ∃ live, event_object e = WVnet live ∧
      ObjectKeyFromObject live = ObjectKeyFromObject v ∧ obj_labels v ⊆ obj_labels live
  | WPatchPod _ to => ∃ old new, e = EvUpdate (WPod old) (WPod new) ∧
      ObjectKeyFromObject new = ObjectKeyFromObject to ∧ obj_labels new ≠ obj_labels old
  | _ => False
  end.

(** ** Facts *)

Lemma elem_of_requests `{K8sLib, RuntimeLib} o rd c e k :
  k ∈ requests o rd c e ↔ ∃ w, w ∈ setup o rd c ∧ k ∈ fires w e.
Proof. unfold requests. apply elem_of_flat_map. Qed.

Section watches.
Context `{K8sLib} `{RuntimeLaws} (o : Options) (rd : Reader).

Lemma fires_watch w e k :
  kind_of (event_object e) = w_kind w → w_predicate w e = true → k ∈ w_handler w e → k ∈ fires w e.
Proof. intros Hk Hp. unfold fires. by rewrite bool_decide_eq_true_2, Hp. Qed.

(** A map watch whose function maps the event's object. *)
Lemma Watches_fire kind pred f e k :
  kind_of (event_object e) = kind → pred e = true → k ∈ f (event_object e) → k ∈ fires (Watches kind pred f) e.
Proof.
  intros Hk Hp Hf. apply fires_watch; [done..|]. apply from_map_func. exists (event_object e). split; [|done].
  destruct e; simpl; [by left|by right; left|by left].
Qed.

Lemma get_or_subset (l l' : gmap string string) k v : l ⊆ l' → l !! k = Some v → get_or "" l' k = v.
Proof. intros Hs Hk. unfold get_or. by rewrite (lookup_weaken _ _ _ _ Hk Hs). Qed.

Lemma key_fields {A B} `{Object A, Object B} (x : A) (y : B) :
  ObjectKeyFromObject x = ObjectKeyFromObject y → obj_ns x = obj_ns y ∧ obj_name x = obj_name y.
Proof. intros E. by injection E. Qed.

(** The watch on policies of each controller. *)
Lemma policy_watch f (live : NetworkPolicy) e g k :
  event_object e = WPolicy live → f (obj_labels live) = true → k ∈ g live →
  k ∈ fires (Watches KPolicy (NewPredicateFuncs (policy_filter f)) (of_policy g)) e.
Proof.
  intros He Hf Hk. apply Watches_fire; rewrite ?predicate_funcs, He; done.
Qed.

Lemma key_of_namespace req ns : key_ns req = "" → key_name req = ns → req = mkKey "" ns.
Proof. destruct req. simpl. by intros -> ->. Qed.
End watches.

Section drift.
Context `{K8sLaws} `{RuntimeLaws} (o : Options) (rd : Reader).
Implicit Types (p live : NetworkPolicy) (e : WatchEvent).

(** A policy with the labels of a baseline leads to its namespace. *)
Lemma baseline_event live e : event_object e = WPolicy live →
  has_labels {[LabelRole := LabelRoleBaseline]} live → mkKey "" (obj_ns live) ∈ requests o rd Namespaces e.
Proof.
  intros He Hl. apply elem_of_requests. eexists. split; [by right; left|]. apply (policy_watch _ live); [done| |by left].
  unfold baselinePredicate. rewrite (get_or_subset _ _ LabelManagedBy LabelManagedByValue Hl eq_refl).
  by rewrite (get_or_subset _ _ LabelRole LabelRoleBaseline Hl eq_refl).
Qed.

Lemma baseline_drift req p e : may_apply o Namespaces req p → key_ns req = "" →
  drifts (WApplyPolicy p) e → req ∈ requests o rd Namespaces e.
Proof.
  intros (_ & _ & ->) Hk (live & He & [Hns _]%key_fields & Hl & _).
  rewrite (key_of_namespace req (obj_ns live)) by (by rewrite ?Hns). apply baseline_event; [done|].
  unfold has_labels. etrans; [|exact Hl]. apply map_subseteq_spec. intros k v Hkv.
  apply lookup_union_Some_raw in Hkv as [[<- <-]%lookup_singleton_Some|[_ [<- <-]%lookup_singleton_Some]]; done.
Qed.

Lemma external_predicate kind (p live : NetworkPolicy) :
  obj_labels p ⊆ obj_labels live → obj_labels p !! LabelManagedBy = Some LabelManagedByValue →
  obj_labels p !! LabelRole = Some LabelRoleExternalAllow → obj_labels p !! LabelSourceKind = Some kind →
  externalAllowPolicyPredicate kind (obj_labels live) = true.
Proof.
  intros Hl H3 H4 H5. unfold externalAllowPolicyPredicate.
  rewrite (get_or_subset _ _ _ _ Hl H3), (get_or_subset _ _ _ _ Hl H4), (get_or_subset _ _ _ _ Hl H5).
  by rewrite !bool_decide_eq_true_2.
Qed.

Lemma host_port_drift req p e : may_apply o HostPorts req p → key_ns req = "" →
  drifts (WApplyPolicy p) e → req ∈ requests o rd HostPorts e.
Proof.
  intros (_ & _ & [key ->]) Hk (live & He & [Hns _]%key_fields & Hl & _). apply elem_of_requests.
  eexists. split; [by do 2 right; left|]. apply (policy_watch _ live); [done| |].
  - by apply (external_predicate _ (buildHostPortPolicy (key_name req) key)).
  - unfold objectNamespace. rewrite Hns. apply list_elem_of_singleton, key_of_namespace; done.
Qed.

(** A policy with the labels of a vnet leads to it. *)
Lemma network_event req live e : event_object e = WPolicy live → Contains "." (key_ns req) = false →
  has_labels {[LabelNetwork := dotted (key_ns req) (key_name req)]} live → req ∈ requests o rd VirtualNetworks e.
Proof.
  intros He Hk Hl. apply elem_of_requests. unfold has_labels in Hl.
  eexists. split; [by do 2 right; left|]. apply Watches_fire; rewrite ?predicate_funcs, He; [done|..].
  - unfold operatorManaged. by rewrite (get_or_subset _ _ LabelManagedBy LabelManagedByValue Hl eq_refl).
  - simpl. unfold policyToVNet. rewrite (get_or_subset _ _ LabelNetwork (dotted (key_ns req) (key_name req)) Hl eq_refl).
    rewrite Cut_dotted by done. simpl. destruct req. by left.
Qed.

Lemma membership_drift req p e : may_apply o VirtualNetworks req p → Contains "." (key_ns req) = false →
  drifts (WApplyPolicy p) e → req ∈ requests o rd VirtualNetworks e.
Proof.
  intros (_ & _ & _ & Hp) Hk (live & He & _ & Hl & _). apply (network_event _ live); [done..|].
  apply (has_labels_weaken _ {[LabelRole := LabelRoleMembership; LabelNetwork := dotted (key_ns req) (key_name req)]});
    [|unfold has_labels in *; by etrans].
  apply map_subseteq_spec. by intros k v [<- <-]%lookup_singleton_Some.
Qed.

(** A Service-owned policy leads to its owner. *)
Lemma service_drift c s req p e : source_of c = Some s → may_apply o c req p →
  drifts (WApplyPolicy p) e → req ∈ requests o rd c e.
Proof.
  intros Hs (_ & _ & Hp) (live & He & [Hns _]%key_fields & Hl & Hrefs & Hown).
  assert (∃ svc cidr ports, ObjectKeyFromObject svc = req ∧
    SetControllerReference svc (source_policy s svc (source_name s svc) cidr ports) = Ok p) as (svc & cidr & ports & <- & Hset).
  { destruct c; try discriminate Hs; destruct Hp as (s' & svc & cidr & ports & Hs' & ? & ?);
      rewrite Hs in Hs'; injection Hs' as <-; by exists svc, cidr, ports. }
  rewrite SetControllerReference_new in Hset by done. injection Hset as <-.
  cbn [m_ownerReferences np_meta set_ownerReferences] in Hrefs, Hown. set (ref := mkOwnerRef _ _ _ _ _ _) in *.
  assert (ObjectKeyFromObject svc ∈ EnqueueRequestForOwner "Service" e) as Hin.
  { change (ObjectKeyFromObject svc) with (mkKey (obj_ns svc) (or_name ref)).
    change "Service" with (or_kind ref). change (obj_ns live = obj_ns svc) in Hns. rewrite <-Hns.
    apply (for_owner e live); [done|apply Hrefs; by left|done|].
    intros ref' Hr Hc. by apply Hown, list_elem_of_singleton in Hr. }
  apply elem_of_requests. exists (mkWatch KPolicy (NewPredicateFuncs (policy_filter (externalAllowPolicyPredicate (src_kind s))))
     (EnqueueRequestForOwner "Service")).
  split; [destruct c; try discriminate Hs; injection Hs as <-; by right; left|].
  apply fires_watch; [by rewrite He| |done]. cbn [w_predicate]. rewrite predicate_funcs, He.
  by eapply external_predicate; [exact Hl|..].
Qed.

(** A system vnet leads to its namespace, a relabelled pod to itself. *)
Lemma system_vnet_drift req v e : may_write o SystemVnets req (WApplyVnet v) → key_ns req = "" →
  drifts (WApplyVnet v) e → req ∈ requests o rd SystemVnets e.
Proof.
  intros (_ & Hv) Hk (live & He & [Hns _]%key_fields & Hl). apply elem_of_requests.
  assert (obj_ns live = key_name req ∧ operatorManaged live = true) as [Hn Hm].
  { unfold operatorManaged. split.
    - rewrite Hns. by destruct Hv as [[-> _]|[-> ->]].
    - rewrite (get_or_subset _ _ LabelManagedBy LabelManagedByValue Hl); [done|]. by destruct Hv as [[-> _]|[-> _]]. }
  eexists. split; [by right; left|]. apply Watches_fire; rewrite ?predicate_funcs, He; [done..|].
  apply list_elem_of_singleton. rewrite Hn. apply key_of_namespace; done.
Qed.

Lemma pod_drift c req from to e : may_write o c req (WPatchPod from to) →
  drifts (WPatchPod from to) e → req ∈ requests o rd c e.
Proof.
  intros (-> & <- & (_ & Hto & _) & _) (old & new & -> & Hk & Hl). apply elem_of_requests.
  eexists. split; [by left|]. apply fires_watch; [done|..].
  - unfold podPredicate. cbn [w_predicate]. rewrite label_changed. simpl. by rewrite bool_decide_eq_false_2.
  - assert (ObjectKeyFromObject from = meta_key (watch_meta (event_object (EvUpdate (WPod old) (WPod new))))) as ->
      by (rewrite <-Hto; exact (eq_sym Hk)).
    apply for_object.
Qed.

End drift.

(** ** controller-runtime, executable *)

Import Model.

Definition controller_owner (kind : string) (m : ObjectMeta) : list ObjectKey :=
  map (λ ref, mkKey (m_namespace m) (or_name ref))
    (filter (λ ref, or_controller ref = Some true ∧ or_kind ref = kind) (m_ownerReferences m)).

#[export] Instance model_runtime : RuntimeLib := {|
  EnqueueRequestForObject e := map (λ x, meta_key (watch_meta x)) (event_objects e);
  EnqueueRequestsFromMapFunc f e := flat_map f (event_objects e);
  EnqueueRequestForOwner kind e := flat_map (λ x, controller_owner kind (watch_meta x)) (event_objects e);
  NewPredicateFuncs f e := f (event_object e);
  LabelChangedPredicate := changed m_labels;
  AnnotationChangedPredicate := changed m_annotations;
  GenerationChangedPredicate := changed m_generation |}.

Lemma event_object_in e : event_object e ∈ event_objects e.
Proof. destruct e; simpl; [by left|by right; left|by left]. Qed.

#[export] Instance model_runtime_laws : RuntimeLaws.
Proof.
  split; try done.
  - intros e. apply list_elem_of_fmap. exists (event_object e). split; [done|apply event_object_in].
  - intros f e k. apply elem_of_flat_map.
  - intros e p ref He Hr Hc _. apply elem_of_flat_map. exists (event_object e). split; [apply event_object_in|].
    rewrite He. apply list_elem_of_fmap. exists ref. split; [done|by apply list_elem_of_filter].
Qed.

(** Someone deletes the baseline of [shop]. *)
Definition shop_baseline : NetworkPolicy := DesiredBaseline "shop".
Definition baseline_deleted : WatchEvent := EvDelete (WPolicy shop_baseline).


(** The predicates look at the new object of an update only: an update that takes the
    operator's label off the baseline enqueues nothing, for any controller. *)
Definition unlabelled : NetworkPolicy :=
  mkNP (np_apiVersion shop_baseline) (np_kind shop_baseline)
    (set_labels (delete LabelManagedBy (obj_labels shop_baseline)) (np_meta shop_baseline)) (np_spec shop_baseline).

Example relabel_hides_drift :
  Forall (λ c, requests shop_options (cluster_reader vnet_cluster) c
    (EvUpdate (WPolicy shop_baseline) (WPolicy unlabelled)) = [])
    [VirtualNetworks; Namespaces; Bindings; Resolution; SystemVnets; ExternalAllow; ApiserverReachable; HostPorts].
Proof. repeat constructor. Qed.

(** The next reconcile of the namespace restores a baseline that was deleted, and says so. *)
Definition without_baseline (s : OperatorState Cluster) : OperatorState Cluster :=
  mkOperator (cluster_write (WDeletePolicy shop_baseline) (os_world s)).2 (os_log s) (os_memory s).

Example baseline_restored :
  let s := without_baseline shop_run in
  let s' := (run shop_options in_order Namespaces (mkKey "" "shop") s).2 in
  well_keyed (cl_netpols (os_world s)) !! ObjectKeyFromObject shop_baseline = None ∧
  well_keyed (cl_netpols (os_world s')) !! ObjectKeyFromObject shop_baseline = Some shop_baseline ∧
  drop (length (os_log s)) (os_log s') =
    [(Namespaces, mkKey "" "shop", AWrite (WApplyPolicy shop_baseline) (Ok tt));
     (Namespaces, mkKey "" "shop", AEvent (mkEvent (ref_of shop_baseline) EventTypeWarning EventPolicyRestored
        "Restore" note_baseline_restored []))].
Proof. split_and!; vm_compute; reflexivity. Qed.
