(* ===== verification/EndToEnd.v ===== *)
(** * A cluster the operator has settled

    When the requests the operator's own watches make for the objects of a cluster find
    nothing left to do, the cluster is isolated: a pod accepts exactly the connections that
    resolution and the vnets grant, and those of policies that are not the operator's.
    This composes the watches, resolution, the resolution, namespace and vnet reconciles
    and the generated policies. *)

From Stdlib Require Import Ascii.
From S2P Require Import Prelude GoStrings Types Effects Direction Names ApiServer Permits Apply Baseline Stamps.
From S2P Require Import ServicePolicies HostPort Resolver Semantics Generator Members VnetController VnetControllerSpec.
From S2P Require Import ResolutionController ResolutionControllerSpec Binding Isolation Operator Authority Drift.

(** ** Specification *)

(** The object as the readers return it. *)
Definition known (rd : Reader) (x : WatchObject) : Prop :=
  match x with
  | WPod p => get_pod rd (ObjectKeyFromObject p) = Ok p
  | WNamespace ns => get_namespace rd (obj_name ns) = Ok ns
  | WVnet v => get_vnet rd (ObjectKeyFromObject v) = Ok v
  | WPolicy p => get_netpol rd (ObjectKeyFromObject p) = Ok p
  | _ => False
  end.

(** The operator serves the vnet. *)
Definition served (NSFilter : NamespaceFilter) (rd : Reader) (v : VirtualNetwork) : bool :=
  negb (m_deleting (vnet_meta v)) && is_dns_label (obj_name v) &&
  (operatorManaged v || (if Manages NSFilter rd (obj_ns v) is Ok true then true else false)).

(** What resolution grants a pod in a vnet, if the vnet counts its namespace. *)
Definition granted `{K8sLib} (NSFilter : NamespaceFilter) (rd : Reader) (v : VirtualNetwork) (p : Pod)
    (d : Direction) : Prop :=
  eligible NSFilter rd v (obj_ns p) ∧ ∃ found, desired_of rd p = Ok found ∧ found.1 !! sysKey v = Some d.

(** A policy of one of the two roles that make the isolation; the names are those of vnets
    the operator can serve. *)
Definition isolation_policy (p : NetworkPolicy) : Prop :=
  selected_by (baseline_options (obj_ns p)) p = true ∨
  ∃ ns name, Contains "." ns = false ∧ is_dns_label name = true ∧
    selected_by (membership_options ns name) p = true.

(** The caches are complete: a stored policy, a listed pod and a listed vnet can be read. *)
Definition synced `{PolicyServer W} (w : W) (pods : list Pod) : Prop :=
  let rd := cl_reader w in
  (∀ k p, policies w !! k = Some p → get_netpol rd k = Ok p) ∧
  (list_pods rd ListAll = Ok pods ∧ ∀ p, p ∈ pods → get_pod rd (ObjectKeyFromObject p) = Ok p) ∧
  (∃ vnets, list_vnets rd = Ok vnets ∧ ∀ v, v ∈ vnets ↔ get_vnet rd (ObjectKeyFromObject v) = Ok v).

Section settled.
Context `{K8sLib, RuntimeLib} {W : Type} `{Client W} (o : Options) (order : gset hostPortKey → list hostPortKey).

(** A reconcile that succeeds and finds nothing to write. *)
Definition quiet (s : OperatorState W) (c : Controller) (req : ObjectKey) : Prop :=
  let run := reconcile o order c req (enter c s) in
  (∃ out, run.1 = Ok out) ∧ writes_of (st_log run.2) = [].

(** The three controllers that make the isolation. *)
Definition isolation_controllers : list Controller := [Resolution; Namespaces; VirtualNetworks].

(** What a successful reconcile of a request leaves for good: of a pod, the stamps it wants and
    the marker; of a managed namespace, its baseline and no other; of a vnet, the policies
    of its plan and no others under its labels. *)
Definition done_pod (rd : Reader) (req : ObjectKey) : Prop :=
  ∀ p ns, get_pod rd req = Ok p → m_deleting (pod_meta p) = false → get_namespace rd (obj_ns p) = Ok ns →
    ∃ stamps, wanted_stamps rd (IsManaged (opt_nsFilter o) ns) p = Ok stamps ∧
      settled_pod (IsManaged (opt_nsFilter o) ns) stamps p.
Definition done_namespace (rd : Reader) (live : gmap ObjectKey NetworkPolicy) (name : string) : Prop :=
  ∀ ns, get_namespace rd name = Ok ns → m_deleting (ns_meta ns) = false → IsManaged (opt_nsFilter o) ns = true →
    reconciled (baseline_own name) [DesiredBaseline name] live live.
Definition done_vnet (rd : Reader) (live : gmap ObjectKey NetworkPolicy) (req : ObjectKey) : Prop :=
  match vnet_plan (opt_nsFilter o) rd req with
  | Err _ => False
  | Ok None => True
  | Ok (Some plan) => reconciled (vnet_own req plan) (filter (live_namespace rd) plan) live live
  end.
Definition done (rd : Reader) (live : gmap ObjectKey NetworkPolicy) (c : Controller) (req : ObjectKey) : Prop :=
  match c with
  | Resolution => done_pod rd req
  | Namespaces => done_namespace rd live (key_name req)
  | VirtualNetworks => done_vnet rd live req
  | _ => True
  end.

(** Every request that their watches make of the objects of the cluster, as at the start of
    the operator, finds nothing to do. *)
Definition settled (s : OperatorState W) : Prop :=
  let rd := cl_reader (os_world s) in
  ∀ x c req, known rd x → c ∈ isolation_controllers → req ∈ requests o rd c (EvCreate x) → quiet s c req.

(** What the isolation rests on is done: the pods, the namespaces, the vnets that exist,
    and those a stored policy belongs to. *)
Record all_done (rd : Reader) (live : gmap ObjectKey NetworkPolicy) : Prop := {
  pods_done : ∀ p, get_pod rd (ObjectKeyFromObject p) = Ok p → done_pod rd (ObjectKeyFromObject p);
  namespaces_done : ∀ ns, get_namespace rd (obj_name ns) = Ok ns → done_namespace rd live (obj_name ns);
  vnets_done : ∀ v, get_vnet rd (ObjectKeyFromObject v) = Ok v → done_vnet rd live (ObjectKeyFromObject v);
  policies_done : ∀ p ns name, get_netpol rd (ObjectKeyFromObject p) = Ok p →
    Contains "." ns = false → selected_by (membership_options ns name) p = true →
    done_vnet rd live (mkKey ns name) }.
End settled.

(** ** Facts *)

Section quiet.
Context `{K8sLaws} `{RuntimeLib} {W : Type} `{PolicyServer W} `{!CoherentClient W}.
Context (o : Options) (order : gset hostPortKey → list hostPortKey) (s : OperatorState W).

Abbreviation rd := (cl_reader (os_world s)).
Abbreviation live := (policies (os_world s)).

(** A quiet reconcile leaves the world as it is. *)
Lemma quiet_run_world c req r st : quiet o order s c req → reconcile o order c req (enter c s) = (r, st) →
  (∃ out, r = Ok out) ∧ st_world st = os_world s ∧ writes_of (st_log st) = [].
Proof.
  unfold quiet. intros [Hok Hw] E. rewrite E in *. split_and!; [done| |done].
  destruct (reconcile_emits o order c req (enter c s)) as (ws & Hws & _ & Hworld). rewrite E in *.
  rewrite writes_of_results in Hw. apply map_eq_nil in Hw. simpl in *. rewrite Hw in Hws. simpl in Hws. subst ws. by inversion Hworld.
Qed.

Lemma quiet_stored c req r st : quiet o order s c req → reconcile o order c req (enter c s) = (r, st) →
  (∃ out, r = Ok out) ∧ stored st = live.
Proof. intros Hq (Hok & Hw & _)%quiet_run_world; [|done]. split; [done|]. unfold stored. by rewrite Hw. Qed.

Lemma returns_bind {A B} (m : EIO W A) (k : A → EIO W B) b :
  returns (m ≫= k) (Ok b) → ∃ a, returns (k a) (Ok b).
Proof.
  intros [st Hst]. unfold mbind, EIO_bind in Hst. destruct (m st) as [[a|e] st1]; [|done]. by exists a, st1.
Qed.

Lemma namespace_finished nf rec name out : returns (NamespaceReconcile (W := W) nf rec name) (Ok out) → out = Finished.
Proof.
  unfold NamespaceReconcile, reconcile_managed. intros Hr.
  repeat (apply returns_bind in Hr as [? Hr] || case_match); by destruct Hr as [? [= ->]].
Qed.

(** A successful reconcile of a namespace or a vnet, whatever it wrote. *)
Lemma namespace_ran req out st : reconcile o order Namespaces req (enter Namespaces s) = (Ok out, st) →
  ∀ ns, get_namespace rd (key_name req) = Ok ns → m_deleting (ns_meta ns) = false → IsManaged (opt_nsFilter o) ns = true →
    reconciled (baseline_own (key_name req)) [DesiredBaseline (key_name req)] live (stored st).
Proof.
  intros E ns Hg Hd Hm. assert (out = Finished) as -> by (eapply namespace_finished; exists (enter Namespaces s); exact (f_equal fst E)).
  apply NamespaceReconcile_inv in E. change (cl_reader (st_world (enter Namespaces s))) with rd in E.
  rewrite Hg, Hm in E. cbv zeta in E. rewrite Hd in E. apply gets_namespace in Hg. rewrite Hg in E. by apply E.
Qed.

Lemma vnet_ran req out st : reconcile o order VirtualNetworks req (enter VirtualNetworks s) = (Ok out, st) →
  match vnet_plan (opt_nsFilter o) rd req with
  | Err _ => False
  | Ok None => True
  | Ok (Some plan) => reconciled (vnet_own req plan) (filter (live_namespace rd) plan) live (stored st)
  end.
Proof.
  intros E. apply VnetReconcile_plan in E; [|intros vnet; apply gets_vnet].
  change (cl_reader (st_world (enter VirtualNetworks s))) with rd in E.
  destruct (vnet_plan _ _ _) as [[plan|]|e]; [|done|by destruct E]. destruct E as [_ E]. by eapply E.
Qed.

(** A quiet request is done. *)
Lemma quiet_done c req : quiet o order s c req → done o rd live c req.
Proof.
  intros Hq. destruct (reconcile o order c req (enter c s)) as [r st] eqn:E.
  destruct (quiet_stored _ _ _ _ Hq E) as [[out ->] Hst]. unfold done. destruct c; try exact I.
  - unfold done_vnet. pose proof (vnet_ran _ _ _ E) as Hv. by rewrite Hst in Hv.
  - intros ns Hg Hd Hm. pose proof (namespace_ran _ _ _ E ns Hg Hd Hm) as Hr. by rewrite Hst in Hr.
  - intros p ns Hp Hd Hn. destruct Hq as [[out' Hok] Hw].
    pose proof (ResolutionReconcile_at true (opt_nsFilter o) (opt_networkWaitEnabled o) req (enter Resolution s)) as Hr.
    cbv zeta in Hr. change (cl_reader (st_world (enter Resolution s))) with rd in Hr. rewrite Hp, Hd, Hn in Hr.
    unfold reconcile in Hok, Hw. destruct (wanted_stamps _ _ _) as [stamps|e]; [|by destruct Hr; congruence].
    exists stamps. split; [done|]. destruct Hr as [(Hs & _)|(_ & p' & res & _ & _ & _ & Hw')]; [done|].
    rewrite writes_of_results, Hw' in Hw. by destruct (write_results _).
Qed.

Lemma settled_done `{!RuntimeLaws} : settled o order s → all_done o rd live.
Proof.
  intros Hs. assert (∀ x c req, known rd x → c ∈ isolation_controllers → req ∈ requests o rd c (EvCreate x) →
    done o rd live c req) as Hd by (intros; by eapply quiet_done, Hs).
  assert (∀ x c, known rd x → c ∈ isolation_controllers → For (kind_of x) ∈ setup o rd c →
    done o rd live c (meta_key (watch_meta x))) as Hfor.
  { intros x c Hx Hc Hw. apply (Hd x); [done..|]. apply elem_of_requests. eexists. split; [exact Hw|].
    apply fires_watch; [done|done|apply (for_object (EvCreate x))]. }
  split.
  - intros p Hp. apply (Hd (WPod p) Resolution); [done|by left|]. apply elem_of_requests. eexists. split; [by left|].
    apply fires_watch; [done| |apply (for_object (EvCreate (WPod p)))].
    cbn [w_predicate]. unfold podPredicate. by rewrite label_changed.
  - intros ns Hns. by apply (Hfor (WNamespace ns) Namespaces Hns ltac:(by right; left) ltac:(by left)).
  - intros v Hv. by apply (Hfor (WVnet v) VirtualNetworks Hv ltac:(by do 2 right; left) ltac:(by left)).
  - intros p ns name Hp Hdot Hl%selected_labels. apply (Hd (WPolicy p) VirtualNetworks); [done|by do 2 right; left|].
    by apply (network_event o rd (mkKey ns name) p).
Qed.
End quiet.

Section facts.
Context `{K8sLaws} {W : Type} `{PolicyServer W} `{!CoherentClient W}.
Context (o : Options) (w : W) (Hset : all_done o (cl_reader w) (policies w)).

Abbreviation rd := (cl_reader w).
Abbreviation live := (policies w).
Abbreviation filter_ := (opt_nsFilter o).

(** A pod that is not being deleted carries the stamps resolution grants it, marked where
    its namespace is managed. *)
Lemma pod_settled p ns : get_pod rd (ObjectKeyFromObject p) = Ok p → m_deleting (pod_meta p) = false →
  get_namespace rd (obj_ns p) = Ok ns →
  ∃ stamps, wanted_stamps rd (IsManaged filter_ ns) p = Ok stamps ∧ settled_pod (IsManaged filter_ ns) stamps p.
Proof.
  intros Hp Hd Hn. exact (pods_done _ _ _ Hset p Hp p ns Hp Hd Hn).
Qed.

(** *** Namespaces *)

Lemma namespace_settled ns : get_namespace rd (obj_name ns) = Ok ns → m_deleting (ns_meta ns) = false →
  IsManaged filter_ ns = true →
  reconciled (baseline_own (obj_name ns)) [DesiredBaseline (obj_name ns)] live live.
Proof. intros Hg. exact (namespaces_done _ _ _ Hset ns Hg ns Hg). Qed.

(** *** Vnets *)

(** The members of a served vnet could be read, and their policies are in place. *)
Lemma served_plan v : get_vnet rd (ObjectKeyFromObject v) = Ok v → served filter_ rd v = true →
  ∃ members invalid, discoverMembers filter_ rd v = Ok (members, invalid) ∧
    vnet_plan filter_ rd (ObjectKeyFromObject v) = Ok (Some (Generate (mkGenInput v members))).
Proof.
  intros Hv [[Hdel%negb_true_iff Hdns]%andb_true_iff Hm]%andb_true_iff.
  pose proof (vnets_done _ _ _ Hset v Hv) as Hp. unfold done_vnet, vnet_plan in *.
  rewrite Hv, Hdel, Hdns in *. cbn [negb] in *. destruct (Manages _ _ _) as [hm|e]; [|done]. simpl in *.
  assert (negb (operatorManaged v) && negb hm = false) as E by (by destruct (operatorManaged v), hm).
  rewrite E in *. destruct (discoverMembers _ _ _) as [[members invalid]|e]; [|done]. by exists members, invalid.
Qed.

(** A planned policy is one of a served vnet. *)
Lemma plan_served req plan q : vnet_plan filter_ rd req = Ok (Some plan) → q ∈ plan →
  ∃ v members invalid, get_vnet rd req = Ok v ∧ served filter_ rd v = true ∧
    discoverMembers filter_ rd v = Ok (members, invalid) ∧ plan = Generate (mkGenInput v members).
Proof.
  intros Ep Hq. unfold vnet_plan in Ep. assert (plan ≠ []) as Hne by (intros ->; by apply not_elem_of_nil in Hq).
  destruct (get_vnet _ _) as [v|e]; [|by destruct (IsNotFound e); simplify_eq].
  destruct (m_deleting (vnet_meta v)) eqn:Edel; [by simplify_eq|].
  destruct (is_dns_label (obj_name v)) eqn:Edns; [|done]. cbn [negb] in Ep.
  destruct (Manages _ _ _) as [hm|] eqn:Em; [|done]. simpl in Ep.
  destruct (negb (operatorManaged v) && negb hm) eqn:Eno; [by simplify_eq|].
  destruct (discoverMembers _ _ _) as [[members invalid]|] eqn:Ed; [|done]. simpl in Ep. injection Ep as <-.
  exists v, members, invalid. split_and!; [done| |done..].
  unfold served. rewrite Edel, Edns, Em. by destruct (operatorManaged v), hm.
Qed.

(** The name of a plan that is only reported is no DNS label. *)
Lemma plan_invalid req : vnet_plan filter_ rd req = Ok None → is_dns_label (key_name req) = false.
Proof.
  unfold vnet_plan. destruct (get_vnet _ _) as [v|e] eqn:Ev; [|by destruct (IsNotFound e)].
  apply gets_vnet in Ev. subst req. destruct (m_deleting _); [done|].
  destruct (is_dns_label (obj_name v)) eqn:E; [|done]. cbn [negb].
  destruct (Manages _ _ _) as [hm|]; [|done]. simpl. destruct (negb _ && negb _); [done|].
  by destruct (discoverMembers _ _ _).
Qed.

(** A policy stored under a vnet's labels is one its members call for. *)
Lemma membership_stored k p ns name : live !! k = Some p → get_netpol rd k = Ok p →
  Contains "." ns = false → is_dns_label name = true → selected_by (membership_options ns name) p = true →
  ∃ v members invalid q, get_vnet rd (ObjectKeyFromObject v) = Ok v ∧ served filter_ rd v = true ∧
    discoverMembers filter_ rd v = Ok (members, invalid) ∧
    q ∈ Generate (mkGenInput v members) ∧ ObjectKeyFromObject q = k.
Proof.
  intros Hk Hg Hd Hn Hs. pose proof (policies_key _ _ _ Hk) as Hkey. rewrite <-Hkey in Hg.
  pose proof (policies_done _ _ _ Hset p ns name Hg Hd Hs) as Hp. unfold done_vnet in Hp.
  destruct (vnet_plan _ _ _) as [[plan|]|e] eqn:Eplan; [|by apply plan_invalid in Eplan; simpl in *; congruence|done].
  assert (∃ q, q ∈ plan ∧ ObjectKeyFromObject q = k) as (q & Hq & Hqk).
  { destruct Hp as [_ Hno]. destruct (decide (k ∈ policy_keys plan)) as [Hin|Hin].
    - apply elem_of_policy_keys, elem_of_keys in Hin as (q & ? & ?). eauto.
    - exfalso. assert (k ∉ map ObjectKeyFromObject (filter (live_namespace rd) plan)) as Hk'.
      { intros (q & [_ Hq]%list_elem_of_filter & <-)%elem_of_keys. apply Hin, elem_of_policy_keys, elem_of_keys. eauto. }
      specialize (Hno k Hk'). rewrite Hk in Hno. unfold vnet_own, swept, no_skip in Hno. simpl in Hno.
      rewrite Hs, Hkey, bool_decide_eq_true_2 in Hno by done. done. }
  destruct (plan_served _ _ _ Eplan Hq) as (v & members & invalid & Hv & Hsv & Hdm & ->).
  pose proof (gets_vnet _ _ _ Hv) as Hvk. rewrite <-Hvk in Hv. by exists v, members, invalid, q.
Qed.

(** *** Pods *)

(** Membership is what resolution grants. *)
Lemma member_granted v p d : get_pod rd (ObjectKeyFromObject p) = Ok p → m_deleting (pod_meta p) = false →
  ParseBareDirection d = Some d → d ≠ DirectionNone →
  is_member filter_ rd v d p ↔ granted filter_ rd v p d.
Proof.
  intros Hp Hd Hpd Hdn. unfold is_member, granted.
  assert (eligible filter_ rd v (obj_ns p) → ∃ found, desired_of rd p = Ok found ∧ resolved p ∧
    obj_labels p !! sysKey v = found.1 !! sysKey v) as He.
  { intros [Hm _]. unfold Manages in Hm. destruct (get_namespace _ _) as [ns|e] eqn:En; [|by destruct (IsNotFound e)].
    injection Hm as Hm. destruct (pod_settled p ns Hp Hd En) as (stamps & Hw & Hs & Hmark). rewrite Hm in *.
    apply result_fmap_Ok in Hw as (found & Hf & ->). exists found. split; [done|]. split; [exact Hmark|].
    rewrite <-Hs. symmetry. apply sysKey_stamp. }
  split.
  - intros (_ & Hl & Hel). split; [done|]. destruct (He Hel) as (found & Hf & _ & E). exists found. by rewrite <-E.
  - intros (Hel & found & Hf & Hl). destruct (He Hel) as (found' & Hf' & Hr & E). rewrite Hf in Hf'. injection Hf' as <-.
    rewrite Hl in E. split_and!; [|done..]. unfold isStampedMember. rewrite bool_decide_eq_false_2 by exact Hr.
    unfold get_or. rewrite E. simpl. rewrite Hpd. by rewrite bool_decide_eq_false_2.
Qed.

Lemma pod_trusted p ns : get_pod rd (ObjectKeyFromObject p) = Ok p → m_deleting (pod_meta p) = false →
  get_namespace rd (obj_ns p) = Ok ns → trusted p.
Proof.
  intros Hp Hd Hn. destruct (pod_settled p ns Hp Hd Hn) as (stamps & Hw & Hs & Hm).
  destruct (IsManaged filter_ ns); [by left|]. right. rewrite Hs. by injection Hw as <-.
Qed.

Lemma member_in_granted values v p : get_pod rd (ObjectKeyFromObject p) = Ok p → m_deleting (pod_meta p) = false →
  (∀ d, d ∈ values → ParseBareDirection d = Some d ∧ d ≠ DirectionNone) →
  member_in filter_ rd values v p ↔ ∃ d, d ∈ values ∧ granted filter_ rd v p d.
Proof.
  intros Hp Hd Hvals. unfold member_in. split; intros (d & Hin & Hm); exists d; (split; [done|]);
    destruct (Hvals d Hin); by apply (member_granted v p d).
Qed.

(** *** The policies in force *)

(** The served vnets, with their members. *)
Definition served_members (vnets : list VirtualNetwork) : list (VirtualNetwork * Members) :=
  omap (λ v, if served filter_ rd v
             then match discoverMembers filter_ rd v with Ok (members, _) => Some (v, members) | Err _ => None end
             else None) vnets.

Lemma elem_of_served_members vnets v members : (∀ v, v ∈ vnets ↔ get_vnet rd (ObjectKeyFromObject v) = Ok v) →
  (v, members) ∈ served_members vnets ↔
  get_vnet rd (ObjectKeyFromObject v) = Ok v ∧ served filter_ rd v = true ∧
    ∃ invalid, discoverMembers filter_ rd v = Ok (members, invalid).
Proof.
  intros Hv. unfold served_members. rewrite list_elem_of_omap. split.
  - intros (v' & Hin%Hv & Hs). destruct (served _ _ v') eqn:Es; [|done].
    destruct (discoverMembers _ _ v') as [[m i]|] eqn:Ed; [|done]. injection Hs as <- <-. eauto.
  - intros (Hin%Hv & Hs & i & Hd). exists v. split; [done|]. by rewrite Hs, Hd.
Qed.

(** The other policies of the namespace. *)
Definition others (ns : string) (want : list NetworkPolicy) : list NetworkPolicy :=
  filter (λ p, obj_ns p = ns ∧ ObjectKeyFromObject p ∉ map ObjectKeyFromObject want) (network_policies live).

Lemma settled_in_force ns vnets : get_namespace rd (obj_name ns) = Ok ns → m_deleting (ns_meta ns) = false →
  IsManaged filter_ ns = true → (∀ v, v ∈ vnets ↔ get_vnet rd (ObjectKeyFromObject v) = Ok v) →
  let want := DesiredBaseline (obj_name ns) :: memberships (served_members vnets) in
  in_force live (obj_name ns) (want ++ others (obj_name ns) want).
Proof.
  intros Hg Hd Hm Hv want. pose proof (namespace_settled ns Hg Hd Hm) as [Hb _].
  assert (∀ p, p ∈ want → obj_ns p = obj_name ns →
    ∃ l, live !! ObjectKeyFromObject p = Some l ∧ applied p l) as Hwant.
  { intros p [->|Hp]%elem_of_cons Hns; [apply Hb; by left|].
    apply elem_of_flat_map in Hp as ([v members] & Hin & Hp). cbn [fst snd] in Hp.
    apply (elem_of_served_members _ _ _ Hv) in Hin as (Hget & Hs & invalid & Hdm).
    destruct (served_plan v Hget Hs) as (members' & invalid' & Hdm' & Hplan).
    rewrite Hdm in Hdm'. injection Hdm' as <- <-.
    pose proof (vnets_done _ _ _ Hset v Hget) as Hset'. unfold done_vnet in Hset'. rewrite Hplan in Hset'. destruct Hset' as [Hset' _].
    apply Hset', list_elem_of_filter. split; [|done]. unfold live_namespace, namespaceTerminating.
    rewrite Hns, Hg, Hd. done. }
  split.
  - intros p Hp Hns. apply elem_of_app in Hp as [Hp|Hp]; [by apply Hwant|].
    apply list_elem_of_filter in Hp as [_ [k Hk]%elem_of_network_policies]. exists p.
    rewrite (policies_key _ _ _ Hk). split; [done|]. by repeat split.
  - intros k l Hk Hns. pose proof (policies_key _ _ _ Hk) as Hkey.
    destruct (decide (k ∈ map ObjectKeyFromObject want)) as [Hin|Hno].
    + apply elem_of_keys in Hin as (p & Hp & Hpk). exists p. split; [by apply elem_of_app; left|].
      destruct (Hwant p Hp) as (l' & Hl & Ha); [|by rewrite Hpk, Hk in Hl; injection Hl as <-].
      assert (ObjectKeyFromObject p = ObjectKeyFromObject l) as [-> _]%key_fields by congruence. done.
    + exists l. split; [|by repeat split]. apply elem_of_app. right. apply list_elem_of_filter.
      rewrite Hkey, elem_of_network_policies. eauto.
Qed.

(** Of them, none is a policy of the operator's isolation. *)
Lemma others_foreign ns vnets p : get_namespace rd (obj_name ns) = Ok ns → m_deleting (ns_meta ns) = false →
  IsManaged filter_ ns = true → (∀ v, v ∈ vnets ↔ get_vnet rd (ObjectKeyFromObject v) = Ok v) →
  (∀ k p, live !! k = Some p → get_netpol rd k = Ok p) →
  p ∈ others (obj_name ns) (DesiredBaseline (obj_name ns) :: memberships (served_members vnets)) →
  ¬ isolation_policy p.
Proof.
  intros Hg Hd Hm Hv Hread ([Hns Hno] & [k Hk]%elem_of_network_policies)%list_elem_of_filter.
  pose proof (policies_key _ _ _ Hk) as Hkey. rewrite Hkey in Hno. cbn [map] in Hno.
  apply not_elem_of_cons in Hno as [Hnb Hnm].
  intros [Hb|(vns & name & Hdot & Hdns & Hs)].
  - destruct (namespace_settled ns Hg Hd Hm) as [_ Hgone]. specialize (Hgone k). rewrite Hk in Hgone.
    unfold baseline_own, swept, no_skip in Hgone. rewrite <-Hns, Hb in Hgone. simpl in Hgone.
    assert (k ∉ [ObjectKeyFromObject (DesiredBaseline (obj_ns p))]) as Hk'
      by (rewrite Hns, list_elem_of_singleton; congruence). by specialize (Hgone Hk').
  - destruct (membership_stored k p vns name Hk (Hread _ _ Hk) Hdot Hdns Hs) as (v & members & invalid & q & Hget & Hsv & Hdm & Hq & Hqk).
    apply Hnm, elem_of_keys. exists q. split; [|done]. apply elem_of_flat_map. exists (v, members).
    split; [|done]. apply elem_of_served_members; eauto.
Qed.
End facts.

(** *** The connections *)

(** Resolution grants the sender and the receiver the right directions in a common vnet
    that the operator serves. *)
Definition meet `{K8sLib} (NSFilter : NamespaceFilter) (rd : Reader) (src dst : Pod) : Prop :=
  ∃ v d d', get_vnet rd (ObjectKeyFromObject v) = Ok v ∧ served NSFilter rd v = true ∧
    d ∈ selfValuesReceiver ∧ granted NSFilter rd v dst d ∧
    d' ∈ peerInitiatorValues ∧ granted NSFilter rd v src d'.

(** A stored policy that is not of the operator's isolation lets the connection through. *)
Definition let_through `{K8sLib} (live : gmap ObjectKey NetworkPolicy) (src : PodSource) (dst : Pod)
    (proto : string) (port : Z) : Prop :=
  ∃ k p, live !! k = Some p ∧ ¬ isolation_policy p ∧ policy_allows p src dst proto port = true.

Lemma done_isolation `{K8sLaws} {W} `{PolicyServer W} `{!CoherentClient W}
    o (w : W) pods ns src_ns src dst proto port
    (Hset : all_done o (cl_reader w) (policies w)) (Hsync : synced w pods)
    (Hdst : dst ∈ pods ∧ m_deleting (pod_meta dst) = false)
    (Hsrc : src_pod src ∈ pods ∧ m_deleting (pod_meta (src_pod src)) = false)
    (Hns : get_namespace (cl_reader w) (obj_ns dst) = Ok ns ∧
      m_deleting (ns_meta ns) = false ∧ IsManaged (opt_nsFilter o) ns = true)
    (Hsns : get_namespace (cl_reader w) (obj_ns (src_pod src)) = Ok src_ns)
    (Hname : src_nsLabels src !! NamespaceMetadataNameLabel = Some (obj_ns (src_pod src))) :
  connection_allowed (network_policies (policies w)) src dst proto port = true ↔
  meet (opt_nsFilter o) (cl_reader w) (src_pod src) dst ∨ let_through (policies w) src dst proto port.
Proof.
  destruct Hsync as (Hread & [Hpods Hget] & vnets & _ & Hv), Hns as (Hns & Hdel & Hman), Hdst as [Hdin Hddel], Hsrc as [Hsin Hsdel].
  pose proof (gets_namespace _ _ _ Hns) as Hn. rewrite <-Hn in Hns.
  pose proof (settled_in_force o w Hset ns vnets Hns Hdel Hman Hv) as Hf. cbv zeta in *. rewrite Hn in Hf.
  assert (∀ vm, vm ∈ served_members o w vnets → ∃ invalid,
    discoverMembers (opt_nsFilter o) (cl_reader w) vm.1 = Ok (vm.2, invalid)) as Hfound
    by (intros [v members] (_ & _ & ?)%elem_of_served_members; done).
  set (want := DesiredBaseline (obj_ns dst) :: memberships (served_members o w vnets)) in *.
  assert (trusted dst ∧ trusted (src_pod src)) as [Htd Hts]
    by (split; eapply pod_trusted; eauto; by rewrite <-Hn).
  pose proof (in_force_connects (opt_nsFilter o) (cl_reader w) pods (served_members o w vnets)
    (others w (obj_ns dst) want) _ src dst proto port Hpods Hfound Hf (conj Hsin Hts) (conj Hdin Htd) Hname) as Hiff.
  setoid_rewrite (member_in_granted o w Hset selfValuesReceiver _ dst (Hget _ Hdin) Hddel receiver_values) in Hiff.
  setoid_rewrite (member_in_granted o w Hset peerInitiatorValues _ (src_pod src) (Hget _ Hsin) Hsdel initiator_values) in Hiff.
  split.
  - intros [(v & members & Hin & (d & ? & ?) & (d' & ? & ?))|Hex]%Hiff; [left|right].
    + apply (elem_of_served_members _ _ _ _ _ Hv) in Hin as (Hgv & Hsv & _). by exists v, d, d'.
    + apply existsb_exists in Hex as (p & Hp%list_elem_of_In & Ha).
      pose proof Hp as [_ [k Hk]%elem_of_network_policies]%list_elem_of_filter.
      exists k, p. split_and!; [done| |done]. subst want. rewrite <-Hn in Hp.
      by apply (others_foreign o w Hset ns vnets).
  - intros [(v & d & d' & Hgv & Hsv & ? & ? & ? & ?)|(k & p & Hk & _ & Ha)].
    + apply Hiff. left. destruct (served_plan o w Hset v Hgv Hsv) as (members & invalid & Hdm & _).
      exists v, members. split; [by apply (elem_of_served_members _ _ vnets _ _ Hv); eauto|]. split; [by exists d|by exists d'].
    + unfold connection_allowed. apply orb_true_iff. right. apply existsb_exists. exists p. split; [|done].
      apply list_elem_of_In, elem_of_network_policies. eauto.
Qed.

(** ** Properties *)

(** [C2] A settled cluster is isolated. When every request the watches of the resolution,
    namespace and vnet controllers make of the objects of the cluster finds nothing to do,
    a pod of a managed namespace accepts a connection exactly when resolution grants it a
    receiving direction and the sender an initiating one in a vnet the operator serves and
    that counts both namespaces now, or when a policy that is not of the operator's
    isolation lets it through. Nothing else matters: no stamp a user forged, no policy left
    behind by a vnet that is gone, renamed or no longer served, no baseline of another
    shape. *)
Theorem settled_isolation `{K8sLaws} `{RuntimeLaws} {W} `{PolicyServer W} `{!CoherentClient W}
    o order (s : OperatorState W) pods ns src_ns src dst proto port
    (Hset : settled o order s) (Hsync : synced (os_world s) pods)
    (Hdst : dst ∈ pods ∧ m_deleting (pod_meta dst) = false)
    (Hsrc : src_pod src ∈ pods ∧ m_deleting (pod_meta (src_pod src)) = false)
    (Hns : get_namespace (cl_reader (os_world s)) (obj_ns dst) = Ok ns ∧
      m_deleting (ns_meta ns) = false ∧ IsManaged (opt_nsFilter o) ns = true)
    (Hsns : get_namespace (cl_reader (os_world s)) (obj_ns (src_pod src)) = Ok src_ns)
    (Hname : src_nsLabels src !! NamespaceMetadataNameLabel = Some (obj_ns (src_pod src))) :
  connection_allowed (network_policies (policies (os_world s))) src dst proto port = true ↔
  meet (opt_nsFilter o) (cl_reader (os_world s)) (src_pod src) dst ∨
  let_through (policies (os_world s)) src dst proto port.
Proof. apply (done_isolation o (os_world s) pods ns src_ns); [|done..]. by eapply settled_done. Qed.

(** ** A cluster the operator settles *)

Import Model.

(** The objects of a cluster that watches list. *)
Definition cluster_objects (c : Cluster) : list WatchObject :=
  map WPod (objects (keyed (cl_pods c))) ++ map WNamespace (objects (named (cl_namespaces c))) ++
  map WVnet (objects (keyed (cl_vnets c))) ++ map WPolicy (objects (well_keyed (cl_netpols c))).

(** The requests of all watches on all objects. *)
Definition cluster_requests (cts : list Controller) (o : Options) (c : Cluster) : list (Controller * ObjectKey) :=
  flat_map (λ ct, flat_map (λ x, map (pair ct) (requests o (cluster_reader c) ct (EvCreate x))) (cluster_objects c)) cts.

(** One pass over them. *)
Definition pass (o : Options) (s : OperatorState Cluster) : OperatorState Cluster :=
  (run_all o in_order (cluster_requests controllers o (os_world s)) s).2.

Definition quiet_check (o : Options) (s : OperatorState Cluster) (c : Controller) (req : ObjectKey) : bool :=
  let run := reconcile o in_order c req (enter c s) in
  match run.1, writes_of (st_log run.2) with Ok _, [] => true | _, _ => false end.

Definition settled_check (o : Options) (s : OperatorState Cluster) : bool :=
  forallb (λ cr, quiet_check o s cr.1 cr.2) (cluster_requests isolation_controllers o (os_world s)).

(** A database and a front end that join a vnet, a pod with a forged stamp, and a policy
    left behind by a vnet that is gone. *)
Definition labelled_pod (ns name : string) (labels : gmap string string) : Pod :=
  mkPod (new_meta ns name labels) (mkPodSpec [] [] false).
Definition unsettled_cluster : Cluster :=
  mkCluster
    (list_to_map (map (λ p, (ObjectKeyFromObject p, p))
      [labelled_pod "shop" "db-0" {["kube-vnet/net.payments" := "ingress"]};
       labelled_pod "web" "front-0" {["kube-vnet/net.shop.payments" := "egress"]};
       member_pod "dev" "mallory" "both" ∅]))
    {["shop" := mkNamespace (new_meta "" "shop" ∅); "web" := mkNamespace (new_meta "" "web" ∅);
      "dev" := mkNamespace (new_meta "" "dev" ∅)]}
    {[mkKey "shop" "payments" := permits_vnet]} ∅ ∅ ∅ ∅
    {[mkKey "shop" (PolicyName "old" "dev") :=
        membership_policy (mkVnet (new_meta "dev" "old" ∅) (mkVnetSpec "" None) empty_vnet_status) [] "shop"]}
    [] [] [] ∅.

Definition settled_state : OperatorState Cluster := Nat.iter 2 (pass shop_options) (started unsettled_cluster).

Lemma get_of_object {K V} `{Countable K} (m : gmap K V) k x : get_of m k = Ok x → x ∈ objects m.
Proof. unfold get_of. destruct (m !! k) eqn:E; [|done]. intros [= <-]. apply elem_of_objects. eauto. Qed.

Lemma settled_check_ok o s : settled_check o s = true → settled o in_order s.
Proof.
  unfold settled_check. rewrite forallb_forall. intros Hc x c req Hx Hin Hr.
  assert (quiet_check o s c req = true) as Hq.
  { apply (Hc (c, req)), list_elem_of_In, elem_of_flat_map. exists c. split; [done|].
    apply elem_of_flat_map. exists x. split; [|by apply list_elem_of_fmap; exists req].
    unfold cluster_objects. rewrite !elem_of_app, !list_elem_of_fmap.
    destruct x as [p|ns| |p|v| | | |]; try done; simpl in Hx; apply get_of_object in Hx;
      [left|right; left|do 3 right|do 2 right; left]; by eexists. }
  unfold quiet_check, quiet in *. cbv zeta in *. destruct (reconcile o in_order c req (enter c s)) as [[out|e] st]; [|done].
  simpl in *. split; [by exists out|]. by destruct (writes_of _).
Qed.

Lemma cluster_synced c : synced c (List.filter (selected_by ListAll) (objects (keyed (cl_pods c)))).
Proof.
  split; [|split; [split; [done|]|]].
  - intros k p Hk. simpl in *. unfold get_of. by rewrite Hk.
  - intros p [[k Hk]%list_elem_of_In%elem_of_objects _]%list_elem_of_In%filter_In. simpl. unfold get_of.
    pose proof Hk as [_ ->]%keyed_lookup. by rewrite Hk.
  - eexists. split; [done|]. intros v. rewrite elem_of_objects. simpl. unfold get_of. split.
    + intros [k Hk]. pose proof Hk as [_ ->]%keyed_lookup. by rewrite Hk.
    + intros Hv. destruct (keyed _ !! _) eqn:E; [|done]. injection Hv as ->. eauto.
Qed.

(** A pod of the settled cluster, as the source of a connection. *)
Definition settled_pod_at (ns name : string) : Pod :=
  default (labelled_pod ns name ∅) (cl_pods (os_world settled_state) !! mkKey ns name).
Definition settled_source (ns name : string) : PodSource :=
  mkPodSource (settled_pod_at ns name) {[NamespaceMetadataNameLabel := ns]}.
Definition settled_allows (ns name : string) : bool :=
  connection_allowed (network_policies (policies (os_world settled_state))) (settled_source ns name)
    (settled_pod_at "shop" "db-0") "TCP" 5432.

(** The front end reaches the database, and so it was granted; the pod with the forged
    stamp does not, and no policy is left over that would let it in. *)
Lemma settled_isolation_witness :
  settled_check shop_options (started unsettled_cluster) = false ∧
  settled_allows "web" "front-0" = true ∧ settled_allows "dev" "mallory" = false ∧
  let rd := cluster_reader (os_world settled_state) in
  ¬ meet (opt_nsFilter shop_options) rd (settled_pod_at "dev" "mallory") (settled_pod_at "shop" "db-0").
Proof.
  assert (settled shop_options in_order settled_state) as Hs by (apply settled_check_ok; vm_compute; reflexivity).
  pose proof (cluster_synced (os_world settled_state)) as Hsync.
  set (pods := List.filter _ _) in Hsync.
  assert (∀ p, p ∈ [settled_pod_at "shop" "db-0"; settled_pod_at "web" "front-0"; settled_pod_at "dev" "mallory"] →
    p ∈ pods ∧ m_deleting (pod_meta p) = false) as Hp.
  { apply Forall_forall. kv_decide. }
  assert (settled_allows "dev" "mallory" = false) as Hno by (vm_compute; reflexivity).
  split; [vm_compute; reflexivity|]. split; [vm_compute; reflexivity|]. split; [exact Hno|].
  intros rd Hg. apply not_true_iff_false in Hno. apply Hno.
  refine (proj2 (settled_isolation shop_options in_order settled_state pods (mkNamespace (new_meta "" "shop" ∅))
    (mkNamespace (new_meta "" "dev" ∅)) (settled_source "dev" "mallory") (settled_pod_at "shop" "db-0") "TCP" 5432
    Hs Hsync (Hp _ ltac:(by left)) (Hp _ ltac:(by do 2 right; left)) _ _ eq_refl) (or_introl Hg)).
  - split; [vm_compute; reflexivity|]. split; vm_compute; reflexivity.
  - vm_compute. reflexivity.
Defined.
