(* ===== verification/Plans.v ===== *)
(** * Plans and authors

    What a vnet's reconcile will want is a function of the stored objects: [vnet_plan_same]
    says which of them matter. And the name of a policy tells which request applied it. *)

From Stdlib Require Import Ascii.
From S2P Require Import Prelude GoStrings Types Effects Direction Names ApiServer Permits Apply Baseline.
From S2P Require Import ServicePolicies HostPort Generator Members VnetController VnetControllerSpec VnetWatches.
From S2P Require Import Isolation Operator Objects Authority.

#[local] Arguments PermitsForVnet : simpl never.
#[local] Arguments Manages : simpl never.

(** ** The plan of a vnet, from what is stored *)

Section plan.
Context `{K8sLib} (NSFilter : NamespaceFilter) (rd rd' : Reader).
Context (Hns : ∀ n, get_namespace rd' n = get_namespace rd n).

Lemma Manages_alike n : Manages NSFilter rd' n = Manages NSFilter rd n.
Proof. unfold Manages. by rewrite Hns. Qed.

Lemma Permits_alike v v' n : obj_ns v' = obj_ns v → vnet_spec v' = vnet_spec v →
  PermitsForVnet rd' (Some v') n = PermitsForVnet rd (Some v) n.
Proof.
  intros Hk Hs. unfold PermitsForVnet, matchesAllowedNamespaces. by rewrite Hk, Hs, Hns.
Qed.

Lemma terminating_alike n : namespaceTerminating n rd' = namespaceTerminating n rd.
Proof. unfold namespaceTerminating. by rewrite Hns. Qed.

Lemma live_alike (plan : list NetworkPolicy) : filter (live_namespace rd') plan = filter (live_namespace rd) plan.
Proof. apply list_filter_iff. intros p. unfold live_namespace. by rewrite terminating_alike. Qed.

Lemma is_member_alike v v' d p : vnet_meta v' = vnet_meta v → vnet_spec v' = vnet_spec v →
  is_member NSFilter rd' v' d p ↔ is_member NSFilter rd v d p.
Proof.
  intros Hm Hs. assert (obj_ns v' = obj_ns v ∧ obj_name v' = obj_name v) as [Hns' Hname]
    by (unfold obj_ns, obj_name; simpl; by rewrite Hm).
  unfold is_member, eligible. rewrite Manages_alike, (Permits_alike v v') by done.
  assert (sysKey v' = sysKey v) as -> by (unfold sysKey; by rewrite Hns', Hname). done.
Qed.
End plan.

(** The policies depend on which namespaces have receivers and which initiators. *)
Section generate.
Context (m m' : Members).

Lemma roles_filter (f : gmap string (list string) → bool) values :
  (∀ m ns, f (members_in m ns) = true ↔ has_role values m ns) →
  (∀ ns, has_role values m' ns ↔ has_role values m ns) →
  filter (λ ns, f (members_in m' ns) = true) (memberNamespaces m') =
  filter (λ ns, f (members_in m ns) = true) (memberNamespaces m).
Proof.
  intros Hf Hr. apply (StronglySorted_unique String.le).
  - apply StronglySorted_filter, stable_sort_sorted; apply _.
  - apply StronglySorted_filter, stable_sort_sorted; apply _.
  - apply NoDup_Permutation; [apply NoDup_filter, NoDup_memberNamespaces..|].
    intros ns. rewrite !list_elem_of_filter, !Hf, Hr. split; (intros [Hv _]; split; [done|]).
    + by eapply has_role_member.
    + apply Hr in Hv. by eapply has_role_member.
Qed.

Lemma Generate_roles v v' : vnet_meta v' = vnet_meta v →
  (∀ ns, has_role selfValuesReceiver m' ns ↔ has_role selfValuesReceiver m ns) →
  (∀ ns, has_role peerInitiatorValues m' ns ↔ has_role peerInitiatorValues m ns) →
  Generate (mkGenInput v' m') = Generate (mkGenInput v m).
Proof.
  intros Hv Hr Hi.
  assert (∀ v m, Generate (mkGenInput v m) =
    map (membership_policy v (map (peer_from (SystemLabelKey (obj_ns v) (obj_name v)))
        (filter (λ ns, hasInitiator (members_in m ns) = true) (memberNamespaces m))))
      (filter (λ ns, hasReceiver (members_in m ns) = true) (memberNamespaces m))) as Hg.
  { intros v0 m0. unfold Generate. cbn [gi_vnet gi_membersByNS]. case_bool_decide as Hl; [|done].
    apply length_zero_iff_nil in Hl. by rewrite Hl. }
  rewrite !Hg, (roles_filter hasReceiver selfValuesReceiver hasReceiver_spec Hr),
    (roles_filter hasInitiator peerInitiatorValues hasInitiator_spec Hi).
  unfold membership_policy, obj_ns, obj_name, obj_uid. simpl. by rewrite Hv.
Qed.
End generate.

(** Reads that cannot fail find the members. *)
Lemma discoverMembers_total `{K8sLib} NSFilter rd v :
  (∃ pods, list_pods rd ListAll = Ok pods) → (∀ n e, get_namespace rd n = Err e → IsNotFound e = true) →
  ∃ members invalid, discoverMembers NSFilter rd v = Ok (members, invalid).
Proof.
  intros [pods Hp] Hn.
  assert (∀ n, ∃ b, PermitsForVnet rd (Some v) n = Ok b) as Hperm.
  { intros n. destruct (PermitsForVnet rd (Some v) n) as [b|e] eqn:E; [by exists b|].
    apply PermitsForVnet_err in E as [E Hnf]. by rewrite (Hn _ _ E) in Hnf. }
  assert (∀ n, ∃ b, Manages NSFilter rd n = Ok b) as Hman.
  { intros n. unfold Manages. destruct (get_namespace rd n) as [ns|e] eqn:E; [eauto|]. rewrite (Hn _ _ E). eauto. }
  assert (∀ n, ∃ r, reason_of NSFilter rd v n = Ok r) as Hreason.
  { intros n. unfold reason_of. destruct (Hman n) as [[] ->], (Hperm n) as [b Hb]; simpl; rewrite ?Hb; simpl; eauto. }
  unfold discoverMembers. rewrite Hp. simpl.
  assert (∀ d, memo_ok NSFilter rd v d → ∃ d', discover_pods NSFilter rd v d pods = Ok d') as Hd.
  { clear Hp. induction pods as [|p pods IH]; intros d Hd; simpl; [eauto|].
    pose proof (discover_pod_spec NSFilter rd v d p Hd) as Hs.
    destruct (discover_pod _ _ _ _ _) as [d1|e]; [destruct Hs as (? & ? & _ & _ & Hd1 & _); simpl; by apply IH|].
    exfalso. unfold diagnosis, counted in Hs. destruct (Hperm (obj_ns p)) as [b Hb], (Hreason (obj_ns p)) as [r Hr].
    rewrite Hb, Hr in Hs. by destruct Hs as [Hs|Hs]; repeat case_match; simpl in *; repeat case_match. }
  destruct (Hd _ (memo_empty NSFilter rd v)) as [d' ->]. simpl. eauto.
Qed.

Lemma elem_of_values {K A} `{Countable K} (m : gmap K A) x : x ∈ values m ↔ ∃ k, m !! k = Some x.
Proof.
  unfold values. rewrite list_elem_of_fmap. split.
  - intros ([k y] & -> & Hy%elem_of_map_to_list). by exists k.
  - intros [k Hk%elem_of_map_to_list]. by exists (k, x).
Qed.

Section stored.
Context `{K8sLib, Missing} (NSFilter : NamespaceFilter).

Definition member_at (rd : Reader) (ob : Objects) (v : VirtualNetwork) (ns dir : string) : Prop :=
  ∃ k p, ob_pods ob !! k = Some p ∧ obj_ns p = ns ∧ is_member NSFilter rd v dir p.

Lemma shown_pods rd ob pods p : shows rd ob → list_pods rd ListAll = Ok pods →
  p ∈ pods ↔ ∃ k, ob_pods ob !! k = Some p.
Proof.
  intros Hs Hp. destruct (shows_pods _ _ Hs ListAll) as (l & Hl & Hperm). rewrite Hp in Hl. injection Hl as <-.
  rewrite Hperm, list_elem_of_In, filter_In, <-list_elem_of_In, elem_of_values. split; [by intros []|].
  intros Hk. split; [done|]. unfold selected_by. simpl. by rewrite (bool_decide_eq_true_2 (∅ ⊆ _)) by apply map_empty_subseteq.
Qed.

Lemma shown_roles rd ob v members invalid values_ ns : shows rd ob →
  discoverMembers NSFilter rd v = Ok (members, invalid) →
  has_role values_ members ns ↔ ∃ d, d ∈ values_ ∧ member_at rd ob v ns d.
Proof.
  intros Hs (pods & Hp & Hm & _)%discoverMembers_spec. rewrite has_role_pods.
  assert (∀ p, p ∈ pods ↔ ∃ k, ob_pods ob !! k = Some p) as Hin by (intros p; by eapply shown_pods).
  split; intros (d & Hd & Hx); exists d; (split; [done|]).
  - destruct (pods_of _ d) as [|name names] eqn:E; [done|].
    destruct (proj1 (Hm ns d name)) as (p & [k Hk]%Hin & ? & _ & ?); [rewrite E; by left|]. by exists k, p.
  - destruct Hx as (k & p & Hk & Hns & Hmem). intros E.
    assert (obj_name p ∈ pods_of (members_in members ns) d) as Hn by (apply Hm; exists p; split; [apply Hin; eauto|done]).
    rewrite E in Hn. by apply not_elem_of_nil in Hn.
Qed.

(** The vnet at a key, its status aside. *)
Definition same_vnet (x x' : option VirtualNetwork) : Prop :=
  match x, x' with
  | None, None => True
  | Some v, Some v' => vnet_meta v' = vnet_meta v ∧ vnet_spec v' = vnet_spec v
  | _, _ => False
  end.

Context (rd rd' : Reader) (ob ob' : Objects) (Hs : shows rd ob) (Hs' : shows rd' ob').
Context (Hnss : ob_namespaces ob' = ob_namespaces ob).

Lemma namespaces_shown n : get_namespace rd' n = get_namespace rd n.
Proof. by rewrite (shows_namespace _ _ Hs), (shows_namespace _ _ Hs'), Hnss. Qed.

Lemma shown_error rd0 ob0 n e : shows rd0 ob0 → get_namespace rd0 n = Err e → IsNotFound e = true.
Proof. intros Hs0. rewrite (shows_namespace _ _ Hs0). destruct (_ !! _); [done|]. intros [= <-]. apply missing_not_found. Qed.

Lemma shown_total rd0 ob0 v : shows rd0 ob0 → ∃ members invalid, discoverMembers NSFilter rd0 v = Ok (members, invalid).
Proof.
  intros Hs0. apply discoverMembers_total; [|intros n e; by apply (shown_error rd0 ob0)].
  destruct (shows_pods _ _ Hs0 ListAll) as (l & Hl & _). by exists l.
Qed.

Lemma vnet_plan_same req :
  same_vnet (ob_vnets ob !! req) (ob_vnets ob' !! req) →
  (∀ v ns d, ob_vnets ob !! req = Some v → member_at rd ob v ns d ↔ member_at rd ob' v ns d) →
  vnet_plan NSFilter rd' req = vnet_plan NSFilter rd req ∧ ∃ plan, vnet_plan NSFilter rd req = Ok plan.
Proof.
  intros Hv Hp. unfold vnet_plan. rewrite (shows_vnet _ _ Hs), (shows_vnet _ _ Hs').
  destruct (ob_vnets ob !! req) as [v|] eqn:Ev, (ob_vnets ob' !! req) as [v'|]; try done; simpl in *.
  2:{ rewrite missing_not_found. eauto. }
  destruct Hv as [Hm Hspec]. rewrite Hm.
  assert (obj_ns v' = obj_ns v ∧ obj_name v' = obj_name v ∧ operatorManaged v' = operatorManaged v) as (Hns & Hname & Hom)
    by (unfold operatorManaged, obj_labels, obj_ns, obj_name; simpl; by rewrite Hm).
  rewrite Hns, Hname, Hom, (Manages_alike NSFilter rd rd' namespaces_shown).
  destruct (m_deleting _); [eauto|]. destruct (is_dns_label _); cbn [negb]; [|eauto].
  assert (∃ b, Manages NSFilter rd (obj_ns v) = Ok b) as [b ->].
  { unfold Manages. destruct (get_namespace rd _) as [ns|e] eqn:E; [eauto|]. rewrite (shown_error _ _ _ _ Hs E). eauto. }
  simpl. destruct (negb _ && negb b); [eauto|].
  destruct (shown_total rd ob v Hs) as (m & i & E), (shown_total rd' ob' v' Hs') as (m' & i' & E').
  rewrite E, E'. simpl. split; [|eauto]. do 2 f_equal.
  assert (∀ values_ ns, has_role values_ m' ns ↔ has_role values_ m ns) as Hr; [|by apply Generate_roles].
  intros values_ ns. pose proof (shown_roles rd ob v m i values_ ns Hs E) as H3.
  pose proof (shown_roles rd' ob' v' m' i' values_ ns Hs' E') as H4. rewrite H3, H4.
  apply exist_proper. intros d. apply and_iff_compat_l. rewrite (Hp v ns d eq_refl).
  unfold member_at. do 2 (apply exist_proper; intros ?). do 2 apply and_iff_compat_l.
  by apply is_member_alike; [apply namespaces_shown|..].
Qed.
End stored.

(** ** Who writes a policy *)

(** A vnet the API admits: names and home namespaces are DNS labels of at most 63 bytes, and
    the name [cluster] is for the operator's namespace. *)
Definition addressable_key (op : string) (k : ObjectKey) : Prop :=
  is_dns_label (key_name k) = true ∧ is_dns_label (key_ns k) = true ∧
  (String.length (key_name k) ≤ 63)%nat ∧ (String.length (key_ns k) ≤ 63)%nat ∧
  (key_name k = SystemVnetCluster → key_ns k = op ∧ op ≠ "").

(** The objects the API admits: such vnets, and namespaces that have none and are DNS labels. *)
Record admitted_objects (op : string) (ob : Objects) : Prop := {
  admitted_vnet : ∀ k v, ob_vnets ob !! k = Some v → addressable_key op k;
  admitted_namespace : ∀ n ns, ob_namespaces ob !! n = Some ns →
    obj_ns ns = "" ∧ is_dns_label n = true ∧ (String.length n ≤ 63)%nat }.

Lemma addressable_vnet op v : addressable_key op (ObjectKeyFromObject v) → addressable op v.
Proof. intros (? & ? & _ & _ & Hc). split_and!; [by apply dns_label_no_dot..|exact Hc]. Qed.

Section owners.
Context `{K8sLaws} (o : Options).

Lemma PolicyName_prefix op k : addressable_key op k →
  ∃ s, PolicyName (key_name k) (key_ns k) = "kube-vnet.mem." +:+ s.
Proof. intros (_ & _ & ? & ? & _). rewrite PolicyName_untruncated by done. by eexists. Qed.

Lemma PolicyName_same op k k' : addressable_key op k → addressable_key op k' →
  PolicyName (key_name k) (key_ns k) = PolicyName (key_name k') (key_ns k') → k = k'.
Proof.
  intros (? & ? & ? & ? & Hc) (? & ? & ? & ? & Hc') E.
  apply PolicyName_identity in E as [[E1 E2]|[E1 E2]]; try done; destruct k, k'; simpl in *; [|by subst].
  destruct (Hc E1) as [-> _], (Hc' E2) as [-> _]. by subst.
Qed.

(** A policy under a membership name is applied by its vnet, one under the baseline's name
    by its namespace. *)
Lemma may_apply_source c req p : may_apply o c req p →
  (c = VirtualNetworks ∧ obj_name p = PolicyName (key_name req) (key_ns req)) ∨
  (c = Namespaces ∧ obj_name p = BaselinePolicyName) ∨
  ∃ s, obj_name p = "kube-vnet.ext." +:+ s.
Proof.
  intros (_ & _ & Hp). destruct c; try done.
  - left. split; [done|]. by destruct Hp.
  - right; left. split; [done|]. by rewrite Hp.
  - destruct Hp as (s & svc & cidr & ports & _ & _ & Hset). rewrite SetControllerReference_new in Hset by done.
    injection Hset as <-. right; right. by eexists.
  - destruct Hp as (s & svc & cidr & ports & _ & _ & Hset). rewrite SetControllerReference_new in Hset by done.
    injection Hset as <-. right; right. by eexists.
  - destruct Hp as [key ->]. right; right. by eexists.
Qed.

Lemma membership_author op c req p k : may_apply o c req p → addressable_key op k →
  (c = VirtualNetworks → addressable_key op req) →
  obj_name p = PolicyName (key_name k) (key_ns k) → c = VirtualNetworks ∧ req = k.
Proof.
  intros [[-> Hn]|[[-> Hn]|[s Hn]]]%may_apply_source Hk Hr; rewrite Hn.
  - intros E. split; [done|]. by eapply PolicyName_same; [apply Hr|..].
  - destruct (PolicyName_prefix op k Hk) as [s ->]. discriminate.
  - destruct (PolicyName_prefix op k Hk) as [s' ->]. discriminate.
Qed.

Lemma baseline_author op c req p : may_apply o c req p → (c = VirtualNetworks → addressable_key op req) →
  obj_name p = BaselinePolicyName → c = Namespaces ∧ p = DesiredBaseline (key_name req).
Proof.
  intros Hp Hr. pose proof Hp as [[-> Hn]|[[-> Hn]|[s Hn]]]%may_apply_source; rewrite Hn.
  - destruct (PolicyName_prefix op req (Hr eq_refl)) as [s ->]. discriminate.
  - intros _. split; [done|]. by destruct Hp as (_ & _ & ?).
  - discriminate.
Qed.
End owners.
