(* ===== verification/Level.v ===== *)
(** * What is done stays done

    The controllers are level-triggered: whether a request is done depends on the stored
    objects alone, and a change that would undo it is an event that enqueues the request.
    Here this is proved for every change of an object, request by request. *)

From Stdlib Require Import Ascii.
From S2P Require Import Prelude GoStrings Types Effects Direction Names ApiServer Permits Apply Baseline Stamps.
From S2P Require Import ServicePolicies HostPort Resolver Generator Members VnetController VnetControllerSpec VnetWatches.
From S2P Require Import ResolutionController ResolutionControllerSpec ResolutionWatches Binding Isolation.
From S2P Require Import Operator Objects Authority Drift EndToEnd Plans.

#[local] Arguments PermitsForVnet : simpl never.
#[local] Arguments Manages : simpl never.

(** ** One change *)

(** The requests that make the isolation, in the form their watches make them. *)
Definition tracked (c : Controller) (req : ObjectKey) : Prop :=
  match c with
  | Resolution => True
  | Namespaces => key_ns req = ""
  | VirtualNetworks => Contains "." (key_ns req) = false
  | _ => False
  end.

Section changes.
Context `{K8sLaws, RuntimeLaws, Missing} (o : Options).
Context (rd rd' : Reader) (ob ob' : Objects) (evs : list WatchEvent).
Context (Hs : shows rd ob) (Hs' : shows rd' ob') (Hk : keyed_objects ob) (Hk' : keyed_objects ob').
Context (Hc : change ob ob' evs).

Abbreviation op := (opt_operatorNS o).

(** The change enqueues the request. *)
Definition wakes (c : Controller) (req : ObjectKey) : Prop := ∃ e, e ∈ evs ∧ req ∈ requests o rd' c e.

Lemma change_namespaces : ob_namespaces ob' = ob_namespaces ob.
Proof. by destruct Hc. Qed.

(** What happens to each kind of object. *)
Lemma policies_change : ob_policies ob' = ob_policies ob ∨ ∃ k new,
  ob_policies ob' = put k new (ob_policies ob) ∧ evs = event_of WPolicy (ob_policies ob !! k) new.
Proof. destruct Hc; try by left. right. by eexists _, _. Qed.
Lemma vnets_change : ob_vnets ob' = ob_vnets ob ∨ ∃ k new,
  ob_vnets ob' = put k new (ob_vnets ob) ∧ evs = event_of WVnet (ob_vnets ob !! k) new ∧
  ∀ v v', ob_vnets ob !! k = Some v → new = Some v' → vnet_update v v'.
Proof. destruct Hc; try by left. right. by eexists _, _. Qed.
Lemma pods_change : ob_pods ob' = ob_pods ob ∨ ∃ k new,
  ob_pods ob' = put k new (ob_pods ob) ∧ evs = event_of WPod (ob_pods ob !! k) new ∧
  ∀ p p', ob_pods ob !! k = Some p → new = Some p' → pod_update p p'.
Proof. destruct Hc; try by left. right. by eexists _, _. Qed.
Lemma vnbs_change : ob_vnbs ob' = ob_vnbs ob ∨ ∃ k new,
  ob_vnbs ob' = put k new (ob_vnbs ob) ∧ evs = event_of WBinding (ob_vnbs ob !! k) new.
Proof. destruct Hc; try by left. right. by eexists _, _. Qed.
Lemma cluster_baselines_change : ob_cluster_baselines ob' = ob_cluster_baselines ob ∨ ∃ k new,
  ob_cluster_baselines ob' = put k new (ob_cluster_baselines ob) ∧
  evs = event_of WClusterBaseline (ob_cluster_baselines ob !! k) new.
Proof. destruct Hc; try by left. right. by eexists _, _. Qed.
Lemma baselines_change : ob_baselines ob' = ob_baselines ob ∨ ∃ k new,
  ob_baselines ob' = put k new (ob_baselines ob) ∧ evs = event_of WBaseline (ob_baselines ob !! k) new.
Proof. destruct Hc; try by left. right. by eexists _, _. Qed.

(** A policy that stays keeps the labels the operator knows it by, unless the operator
    applied it. *)
Definition owners_kept : Prop :=
  ∀ k l l', ob_policies ob !! k = Some l → ob_policies ob' !! k = Some l' →
    same_owner l l' ∨
    ∃ c req p, may_apply o c req p ∧ (c = VirtualNetworks → addressable_key op req) ∧
      ObjectKeyFromObject p = k ∧ applied p l'.
Context (Hown : owners_kept).

(** A reconcile's policies stay as they are, or its request is made: [marks] are the labels
    by which an event on a policy leads to the request, its policies have them, and they
    keep them. *)
Lemma reconciled_kept (own : NetworkPolicy → bool) (want : list NetworkPolicy) (marks : NetworkPolicy → Prop) c req :
  (∀ e p, event_object e = WPolicy p → marks p → req ∈ requests o rd' c e) →
  (∀ p live, p ∈ want → applied p live → marks live) →
  (∀ live, own live = true → marks live) →
  (∀ live live', marks live → ObjectKeyFromObject live' = ObjectKeyFromObject live → same_owner live live' → marks live') →
  (∀ c' req' p q live, may_apply o c' req' p → (c' = VirtualNetworks → addressable_key op req') →
    q ∈ want → ObjectKeyFromObject p = ObjectKeyFromObject q → applied p live → marks live) →
  reconciled own want (ob_policies ob) (ob_policies ob) →
  wakes c req ∨ reconciled own want (ob_policies ob') (ob_policies ob').
Proof.
  intros Hev Hwant Hmine Hsame Hauthor [Hin Hout].
  destruct policies_change as [E|(k & new & E & Eevs)]; [right; rewrite E; by split|].
  assert (∀ e p, e ∈ evs → event_object e = WPolicy p → marks p → wakes c req) as Hwake by (intros e p ? ? ?; exists e; eauto).
  destruct (decide (k ∈ map ObjectKeyFromObject want)) as [Hk1|Hk1].
  - left. apply elem_of_keys in Hk1 as (q & Hq & Hqk). destruct (Hin q Hq) as (live & Hl & Ha).
    rewrite Hqk in Hl. rewrite Hl in Eevs. destruct new as [live'|].
    + apply (Hwake (EvUpdate (WPolicy live) (WPolicy live')) live'); [rewrite Eevs; by left|done|].
      destruct (Hown k live live' Hl) as [Ho|(c' & req' & p & Hp & Hr & Hpk & Ha')]; [by rewrite E, put_eq|..].
      * eapply Hsame; [by eapply Hwant| |done]. rewrite (keyed_policies _ Hk _ _ Hl). apply (keyed_policies _ Hk').
        by rewrite E, put_eq.
      * eapply Hauthor; [done..|congruence|done].
    + apply (Hwake (EvDelete (WPolicy live)) live); [rewrite Eevs; by left|done|by eapply Hwant].
  - assert ((∃ live', new = Some live' ∧ own live' = true) ∨ (∀ live', new = Some live' → own live' = false)) as [(live' & -> & Ho)|Hno].
    { destruct new as [live'|]; [destruct (own live') eqn:Eo|]; naive_solver. }
    + left. destruct (ob_policies ob !! k) as [l|]; simpl in Eevs; (eapply Hwake; [rewrite Eevs; by left|done|by apply Hmine]).
    + right. split.
      * intros q Hq. rewrite E, put_ne; [by apply Hin|]. intros ->. apply Hk1. by apply list_elem_of_fmap_2.
      * intros k' Hk2. destruct (decide (k = k')) as [<-|Hn]; [|rewrite E, !put_ne by done; by apply Hout].
        rewrite E, put_eq. destruct new as [live'|]; [|done]. by rewrite (Hno live').
Qed.

(** *** Namespaces *)

Lemma same_owner_labels l live live' :
  (∀ k, is_Some (l !! k) → k ∈ owner_labels) → {[LabelManagedBy := LabelManagedByValue]} ∪ l ⊆ obj_labels live →
  same_owner live live' → {[LabelManagedBy := LabelManagedByValue]} ∪ l ⊆ obj_labels live'.
Proof.
  intros Hl Hsub Ho. apply map_subseteq_spec. intros k v Hkv. rewrite map_subseteq_spec in Hsub.
  rewrite Ho; [by apply Hsub|]. apply lookup_union_Some_raw in Hkv as [[<- _]%lookup_singleton_Some|[_ Hkv]]; [by left|].
  by apply Hl.
Qed.

Lemma baseline_marked name live : applied (DesiredBaseline name) live →
  obj_ns live = name ∧ has_labels {[LabelRole := LabelRoleBaseline]} live.
Proof.
  intros ([Hns _]%key_fields & _ & Hl & _). split; [done|]. unfold has_labels. etrans; [|exact Hl].
  apply (bool_decide_eq_true_1 _). vm_compute. reflexivity.
Qed.

Lemma namespace_kept name : done_namespace o rd (ob_policies ob) name →
  wakes Namespaces (mkKey "" name) ∨ done_namespace o rd' (ob_policies ob') name.
Proof.
  intros Hd. assert (get_namespace rd' name = get_namespace rd name) as Hn by (by eapply namespaces_shown, change_namespaces).
  unfold done_namespace in *. rewrite Hn. destruct (get_namespace rd name) as [ns|e]; [|right; done].
  destruct (m_deleting (ns_meta ns)) eqn:Edel; [right; intros ? [= <-]; congruence|].
  destruct (IsManaged (opt_nsFilter o) ns) eqn:Em; [|right; intros ? [= <-]; congruence].
  destruct (reconciled_kept (baseline_own name) [DesiredBaseline name]
    (λ p, obj_ns p = name ∧ has_labels {[LabelRole := LabelRoleBaseline]} p) Namespaces (mkKey "" name)) as [?|?].
  - intros e p He [<- Hl]. by apply (baseline_event o rd' p).
  - intros p live ->%list_elem_of_singleton. apply baseline_marked.
  - intros live Hl. unfold baseline_own, swept, no_skip in Hl. rewrite andb_true_r in Hl.
    by apply in_namespace_selected in Hl.
  - intros live live' [Hns Hl] [Hns' _]%key_fields Ho. split; [congruence|].
    refine (same_owner_labels _ live live' _ Hl Ho). intros k [v [<- _]%lookup_singleton_Some]. do 1 right. by left.
  - intros c' req' p q live Hp Hr ->%list_elem_of_singleton [Hns' Hname]%key_fields Ha.
    apply (baseline_author o op) in Hp as [-> Ep]; [|done..]. rewrite Ep in Ha. rewrite Ep in Hns'.
    apply baseline_marked in Ha as [Hl ?]. by split; [rewrite Hl|].
  - by apply (Hd ns).
  - by left.
  - right. by intros ? [= <-].
Qed.

(** *** Vnets *)

Lemma for_wakes k c x : x ∈ evs → For k ∈ setup o rd' c → kind_of (event_object x) = k →
  wakes c (meta_key (watch_meta (event_object x))).
Proof.
  intros Hx Hw Hkind. exists x. split; [done|]. apply elem_of_requests. exists (For k).
  split; [done|]. apply fires_watch; [done|done|apply for_object].
Qed.

(** The event of a change of the object under a key, and the objects of it. *)
Lemma event_of_objects {A} (wrap : A → WatchObject) old new x : (old = Some x ∨ new = Some x) →
  ∃ e, e ∈ event_of wrap old new ∧ wrap x ∈ event_objects e ∧
    event_object e = match new with Some y => wrap y | None => wrap x end.
Proof.
  intros [->| ->]; [destruct new as [y|]|destruct old as [y|]]; simpl; eexists; (split; [by left|]);
    (split; [|done]); simpl; [by left|by left|by right; left|by left].
Qed.

(** A vnet that changes is requested. *)
Lemma vnet_changes req : wakes VirtualNetworks req ∨ ob_vnets ob' !! req = ob_vnets ob !! req.
Proof.
  destruct vnets_change as [E|(k & new & E & Eevs & _)]; [right; by rewrite E|].
  destruct (decide (k = req)) as [->|Hn]; [|right; by rewrite E, put_ne].
  assert (ob_vnets ob' !! req = new) as Enew by (by rewrite E, put_eq).
  assert ((∃ v, ob_vnets ob !! req = Some v ∨ new = Some v) ∨ new = ob_vnets ob !! req) as [[v Hv]|Hsame];
    [|left|right; congruence].
  { destruct new as [v|]; [left; by exists v; right|]. destruct (ob_vnets ob !! req) as [v|]; [left; by exists v; left|by right]. }
  destruct (event_of_objects WVnet _ _ v Hv) as (e & He & _ & Eo). rewrite <-Eevs in He.
  pose proof (for_wakes KVnet VirtualNetworks e He ltac:(by left)) as Hf. rewrite Eo in Hf.
  assert (meta_key (watch_meta (match new with Some y => WVnet y | None => WVnet v end)) = req) as Ekey.
  { destruct new as [v'|]; [by apply (keyed_vnets _ Hk')|]. apply (keyed_vnets _ Hk). by destruct Hv. }
  rewrite Ekey in Hf. apply Hf. by destruct new.
Qed.

(** A pod that concerned the vnet or does now, and whose join labels changed, enqueues it. *)
Lemma pod_wakes e v p : addressable_key op (ObjectKeyFromObject v) → e ∈ evs → WPod p ∈ event_objects e →
  concerns v p → on_pod false JoinLabelChangedPredicate e = true → wakes VirtualNetworks (ObjectKeyFromObject v).
Proof.
  intros Ha He Hp Hv Hj. exists e. split; [done|]. apply elem_of_requests. eexists. split; [by right; left|].
  apply fires_watch; [by destruct e as [[]|[] []|[]]|done|]. apply from_map_func. exists (WPod p). split; [done|].
  by apply (concerns_enqueued op v (addressable_vnet op v Ha) p).
Qed.
Definition pod_member (v : VirtualNetwork) (d : string) (x : option Pod) : Prop :=
  ∃ p, x = Some p ∧ is_member (opt_nsFilter o) rd v d p.

Lemma pod_member_concerns v d x : pod_member v d x → ∃ p, x = Some p ∧ concerns v p.
Proof. intros (p & -> & Hm & _). exists p. split; [done|by right]. Qed.

Lemma pod_member_kept v old new : addressable_key op (ObjectKeyFromObject v) → evs = event_of WPod old new →
  (∀ p p', old = Some p → new = Some p' → ObjectKeyFromObject p = ObjectKeyFromObject p') →
  wakes VirtualNetworks (ObjectKeyFromObject v) ∨ ∀ d, pod_member v d old ↔ pod_member v d new.
Proof.
  intros Ha Ee Hkey.
  destruct (decide (Exists (concerns v) (option_list old ++ option_list new))) as [(p & Hp & Hcon)%Exists_exists|Hno].
  2: { right. intros d. split; intros (p & -> & ?)%pod_member_concerns; destruct Hno; apply Exists_exists; exists p; (split; [|done]).
       - by left.
       - apply elem_of_app. by right; left. }
  assert (old = Some p ∨ new = Some p) as Hx.
  { apply elem_of_app in Hp as [Hp|Hp]; [left|right]; [destruct old|destruct new]; simpl in Hp;
      by (apply list_elem_of_singleton in Hp as -> || apply not_elem_of_nil in Hp). }
  destruct (event_of_objects WPod _ _ p Hx) as (e & He & Hin & _).
  destruct (on_pod false JoinLabelChangedPredicate e) eqn:Ej; [left; eapply pod_wakes; [done| |done..]; by rewrite Ee|right].
  pose proof (proj1 (concerns_enqueued op v (addressable_vnet op v Ha) p Hcon)) as Hjoin.
  destruct old as [q|], new as [q'|]; simpl in He; try done.
  all: try (apply list_elem_of_singleton in He as ->).
  - destruct (stamped_kept q q' v Ej) as [Hs1 Hs2].
    assert (obj_ns q' = obj_ns q) as Hn by (specialize (Hkey q q' eq_refl eq_refl); by injection Hkey).
    intros d. assert (is_member (opt_nsFilter o) rd v d q ↔ is_member (opt_nsFilter o) rd v d q') as Hm
      by (unfold is_member; by rewrite Hs1, Hs2, Hn).
    split; intros (? & [= <-] & ?); eexists; (split; [done|]); by apply Hm.
  - destruct Hx as [[= ->]|]; [|done]. change (HasJoinLabel (Some p) = false) in Ej. congruence.
  - destruct Hx as [|[= ->]]; [done|]. change (HasJoinLabel (Some p) = false) in Ej. congruence.
Qed.
Lemma members_kept v : addressable_key op (ObjectKeyFromObject v) →
  wakes VirtualNetworks (ObjectKeyFromObject v) ∨
  ∀ ns d, member_at (opt_nsFilter o) rd ob v ns d ↔ member_at (opt_nsFilter o) rd ob' v ns d.
Proof.
  intros Ha. destruct pods_change as [E|(k & new & E & Eevs & _)]; [right; intros; unfold member_at; by rewrite E|].
  assert (ob_pods ob' !! k = new) as Enew by (by rewrite E, put_eq).
  destruct (pod_member_kept v _ new Ha Eevs) as [?|Hm]; [|by left|right].
  { intros p p' Hp ->. rewrite (keyed_pods _ Hk _ _ Hp). symmetry. by apply (keyed_pods _ Hk'). }
  intros ns d. unfold member_at. apply exist_proper. intros k'.
  destruct (decide (k = k')) as [<-|Hn]; [|by rewrite E, put_ne]. rewrite Enew.
  specialize (Hm d). unfold pod_member in Hm.
  assert (∀ ob0 x p, keyed_objects ob0 → ob_pods ob0 !! k = x → x = Some p → obj_ns p = key_ns k) as Hns
    by (intros ob0 x p Hk0 <- Hp; by rewrite <-(keyed_pods _ Hk0 _ _ Hp)).
  split; intros (p & Hp & Hpn & Hmem); [destruct (proj1 Hm) as (p' & ? & ?)|destruct (proj2 Hm) as (p' & ? & ?)]; eauto;
    exists p'; split_and!; try done.
  - rewrite (Hns ob' new p') by done. by rewrite <-(Hns ob _ p Hk eq_refl Hp).
  - rewrite (Hns ob _ p' Hk eq_refl) by done. by rewrite <-(Hns ob' new p).
Qed.

(** The plan of a vnet stays as it is, or it is requested. *)
Lemma plan_kept req : admitted_objects op ob →
  wakes VirtualNetworks req ∨
  vnet_plan (opt_nsFilter o) rd' req = vnet_plan (opt_nsFilter o) rd req ∧
  ∃ plan, vnet_plan (opt_nsFilter o) rd req = Ok plan.
Proof.
  intros Ha. destruct (vnet_changes req) as [?|Ev]; [by left|].
  assert (same_vnet (ob_vnets ob !! req) (ob_vnets ob' !! req)) as Hsame by (rewrite Ev; by destruct (ob_vnets ob !! req)).
  destruct (ob_vnets ob !! req) as [v|] eqn:E.
  - pose proof (keyed_vnets _ Hk _ _ E) as Hkey. destruct (members_kept v) as [Hw|Hm].
    + rewrite Hkey. by eapply admitted_vnet.
    + left. by rewrite <-Hkey.
    + right. apply (vnet_plan_same _ rd rd' ob ob' Hs Hs' change_namespaces); [by rewrite E|].
      intros v0 ns d Hv. rewrite E in Hv. injection Hv as <-. apply Hm.
  - right. apply (vnet_plan_same _ rd rd' ob ob' Hs Hs' change_namespaces); [by rewrite E|]. intros v0 ns d. by rewrite E.
Qed.
(** A vnet that has a plan is stored, and its policies are named and labelled after it. *)
Lemma plan_labelled rd0 ob0 req plan p : shows rd0 ob0 → keyed_objects ob0 →
  vnet_plan (opt_nsFilter o) rd0 req = Ok (Some plan) → p ∈ plan →
  is_Some (ob_vnets ob0 !! req) ∧ obj_name p = PolicyName (key_name req) (key_ns req) ∧
  has_labels {[LabelRole := LabelRoleMembership; LabelNetwork := dotted (key_ns req) (key_name req)]} p.
Proof.
  intros Hs0 Hk0 Hp Hin. unfold vnet_plan in Hp. assert (plan ≠ []) as Hne by (intros ->; by apply not_elem_of_nil in Hin).
  rewrite (shows_vnet _ _ Hs0) in Hp. destruct (ob_vnets ob0 !! req) as [v|] eqn:E; simpl in Hp;
    [|by rewrite missing_not_found in Hp; simplify_eq].
  split; [done|]. rewrite <-(keyed_vnets _ Hk0 _ _ E).
  destruct (m_deleting _); [by simplify_eq|]. destruct (negb _); [done|].
  apply result_bind_Ok in Hp as (hm & _ & Hp). destruct (_ && _); [by simplify_eq|].
  apply result_bind_Ok in Hp as (found & _ & [= <-]). by apply (Generate_labelled _ p) in Hin.
Qed.

Lemma network_labels req p live :
  has_labels {[LabelRole := LabelRoleMembership; LabelNetwork := dotted (key_ns req) (key_name req)]} p →
  applied p live → has_labels {[LabelNetwork := dotted (key_ns req) (key_name req)]} live.
Proof.
  intros Hp (_ & _ & Hl & _).
  apply (has_labels_weaken _ {[LabelRole := LabelRoleMembership; LabelNetwork := dotted (key_ns req) (key_name req)]});
    [|unfold has_labels in *; by etrans].
  apply map_subseteq_spec. by intros k v [<- <-]%lookup_singleton_Some.
Qed.

Lemma vnet_kept req : admitted_objects op ob → Contains "." (key_ns req) = false →
  done_vnet o rd (ob_policies ob) req →
  wakes VirtualNetworks req ∨ done_vnet o rd' (ob_policies ob') req.
Proof.
  intros Ha Hdot Hd. destruct (plan_kept req Ha) as [?|[Ep (plan & Eplan)]]; [by left|].
  unfold done_vnet in *. rewrite Ep. rewrite Eplan in Hd |- *. destruct plan as [plan|]; [|by right].
  rewrite (live_alike rd rd') by exact (namespaces_shown rd rd' ob ob' Hs Hs' change_namespaces).
  apply (reconciled_kept _ _ (has_labels {[LabelNetwork := dotted (key_ns req) (key_name req)]})); [..|done].
  - intros e p He Hl. by apply (network_event o rd' req p).
  - intros p live [_ Hp]%list_elem_of_filter Hl.
    destruct (plan_labelled rd ob req plan p Hs Hk Eplan Hp) as (_ & _ & Hpl). by eapply network_labels.
  - intros live [[Hl _]%andb_true_iff _]%andb_true_iff. by apply (membership_selected req live).
  - intros live live' Hl _ Ho. refine (same_owner_labels _ live live' _ Hl Ho).
    intros k [v [<- _]%lookup_singleton_Some]. do 2 right. by left.
  - intros c' req' p q live Hp Hr [_ Hq]%list_elem_of_filter [_ Hname]%key_fields Hl.
    destruct (plan_labelled rd ob req plan q Hs Hk Eplan Hq) as ([v Hv] & Hqn & _). pose proof Hp as Hp'.
    apply (membership_author o op c' req' p req) in Hp as [-> ->]; [|by eapply admitted_vnet|done|congruence].
    destruct Hp' as (_ & _ & _ & Hpl). by eapply network_labels.
Qed.
(** *** Pods *)

(** What the watches of the resolution controller deliver. *)
Definition resolution_event (x : WatchObject) : list ResolutionEvent :=
  match x with
  | WClusterBaseline _ => [OnClusterBaseline]
  | WBaseline b => [OnBaseline b]
  | WBinding b => [OnBinding b]
  | WVnet v => [OnVnet v]
  | _ => []
  end.
Definition resolution_events (e : WatchEvent) : list ResolutionEvent :=
  if (kind_of (event_object e) =?? KVnet) && negb (changed m_generation e) then []
  else flat_map resolution_event (event_objects e).

Lemma event_kinds e x : e ∈ evs → x ∈ event_objects e → kind_of x = kind_of (event_object e).
Proof.
  assert (∀ {A} (wrap : A → WatchObject) old new, (∀ a b, kind_of (wrap a) = kind_of (wrap b)) →
    e ∈ event_of wrap old new → x ∈ event_objects e → kind_of x = kind_of (event_object e)) as Hev.
  { intros A wrap [a|] [b|] Hw; simpl; rewrite ?list_elem_of_singleton; try by intros ?%not_elem_of_nil.
    all: intros ->; simpl; rewrite ?elem_of_cons, ?elem_of_nil; naive_solver. }
  intros He. clear Hown. destruct Hc; try (by eapply Hev; [|exact He]). by apply not_elem_of_nil in He.
Qed.

Lemma resolution_wakes e re req : e ∈ evs → re ∈ resolution_events e →
  req ∈ resolution_requests rd' re → wakes Resolution req.
Proof.
  unfold resolution_events. intros He Hre Hreq.
  destruct ((kind_of (event_object e) =?? KVnet) && negb (changed m_generation e)) eqn:Eg; [by apply not_elem_of_nil in Hre|].
  apply elem_of_flat_map in Hre as (x & Hx & Hre). pose proof (event_kinds e x He Hx) as Hkind.
  assert (∀ k pred f, In (Watches k pred f) (setup o rd' Resolution) → kind_of x = k → pred e = true → req ∈ f x →
    wakes Resolution req) as Hw.
  { intros k pred f Hin%list_elem_of_In Hkx Hp Hf. exists e. split; [done|]. apply elem_of_requests. eexists.
    split; [exact Hin|]. apply fires_watch; [by rewrite <-Hkind|done|]. apply from_map_func. by exists x. }
  destruct x; simpl in Hre; try (by apply not_elem_of_nil in Hre); apply list_elem_of_singleton in Hre as ->; simpl in Hreq.
  - eapply Hw; [by do 5 right; left|done| |done]. rewrite generation_changed.
    rewrite <-Hkind in Eg. simpl in Eg. by apply negb_false_iff in Eg.
  - eapply Hw; [by do 3 right; left|done..].
  - eapply Hw; [by do 1 right; left|done..].
  - eapply Hw; [by do 2 right; left|done..].
Qed.
Abbreviation events := (flat_map resolution_events evs).

Lemma event_delivered {A} (wrap : A → WatchObject) old new x re : evs = event_of wrap old new →
  old = Some x ∨ new = Some x → re ∈ resolution_event (wrap x) →
  (kind_of (wrap x) = KVnet → ∀ e, e ∈ evs → changed m_generation e = true) → re ∈ events.
Proof.
  intros Ee Hx Hre Hg. destruct (event_of_objects wrap old new x Hx) as (e & He & Hin & _). rewrite <-Ee in He.
  apply elem_of_flat_map. exists e. split; [done|]. unfold resolution_events.
  rewrite <-(event_kinds e _ He Hin). destruct (kind_of (wrap x) =?? KVnet) eqn:Ek; simpl; [|apply elem_of_flat_map; eauto].
  kv_bools. rewrite Hg by done. simpl. apply elem_of_flat_map. eauto.
Qed.

Lemma option_choice {A} (x y : option A) : x = y ∨ ∃ a, x = Some a ∨ y = Some a.
Proof. destruct x as [a|]; [right; exists a; by left|]. destruct y as [a|]; [right; exists a; by right|by left]. Qed.

Lemma cluster_baseline_delivered : OnClusterBaseline ∉ events →
  get_cluster_baseline rd' "default" = get_cluster_baseline rd "default".
Proof.
  intros Hno. rewrite (shows_cluster_baseline _ _ Hs), (shows_cluster_baseline _ _ Hs'). f_equal.
  destruct cluster_baselines_change as [->|(k & new & -> & Ee)]; [done|].
  destruct (decide (k = "default")) as [->|Hn]; [|by rewrite put_ne]. rewrite put_eq.
  destruct (option_choice (ob_cluster_baselines ob !! "default") new) as [<-|[x Hx]]; [done|].
  destruct Hno. by eapply event_delivered; [exact Ee|exact Hx|by left|].
Qed.

Lemma baseline_delivered ns : (∀ b, OnBaseline b ∈ events → obj_ns b ≠ ns) →
  get_baseline rd' (mkKey ns "default") = get_baseline rd (mkKey ns "default").
Proof.
  intros Hno. rewrite (shows_baseline _ _ Hs), (shows_baseline _ _ Hs'). f_equal.
  destruct baselines_change as [->|(k & new & E & Ee)]; [done|]. rewrite E.
  destruct (decide (k = mkKey ns "default")) as [->|Hn]; [|by rewrite put_ne]. rewrite put_eq.
  destruct (option_choice (ob_baselines ob !! mkKey ns "default") new) as [<-|[x Hx]]; [done|].
  destruct (Hno x); [by eapply event_delivered; [exact Ee|exact Hx|by left|]|].
  assert (ObjectKeyFromObject x = mkKey ns "default") as Hx'.
  { destruct Hx as [Hx| ->]; [by apply (keyed_baselines _ Hk)|]. apply (keyed_baselines _ Hk'). by rewrite E, put_eq. }
  by injection Hx'.
Qed.

Lemma NoDup_values {A} `{Object A} (m : gmap ObjectKey A) :
  (∀ k x, m !! k = Some x → ObjectKeyFromObject x = k) → NoDup (values m).
Proof.
  intros Hkey. unfold values. apply NoDup_fmap_2_strong; [|apply NoDup_map_to_list].
  intros [k x] [k' y] Hx%elem_of_map_to_list Hy%elem_of_map_to_list. simpl. intros <-.
  by rewrite <-(Hkey _ _ Hx), <-(Hkey _ _ Hy).
Qed.

Lemma bindings_delivered ns : (∀ b, OnBinding b ∈ events → obj_ns b ≠ ns) →
  same_list (list_vnbs rd (InNamespace ns)) (list_vnbs rd' (InNamespace ns)).
Proof.
  intros Hno. destruct (shows_vnbs _ _ Hs (InNamespace ns)) as (l & -> & Hl), (shows_vnbs _ _ Hs' (InNamespace ns)) as (l' & -> & Hl').
  simpl. rewrite Hl, Hl'. apply NoDup_Permutation.
  { apply NoDup_ListNoDup, List.NoDup_filter, NoDup_ListNoDup, NoDup_values, (keyed_vnbs _ Hk). }
  { apply NoDup_ListNoDup, List.NoDup_filter, NoDup_ListNoDup, NoDup_values, (keyed_vnbs _ Hk'). }
  intros b. rewrite !list_elem_of_In, !filter_In, <-!list_elem_of_In, !elem_of_values.
  assert (selected_by (InNamespace ns) b = true → obj_ns b = ns) as Hsel by (unfold selected_by; simpl; intros Hb; by kv_bools).
  destruct vnbs_change as [->|(k & new & E & Ee)]; [done|].
  assert (selected_by (InNamespace ns) b = true → ∀ k', ob_vnbs ob !! k' = Some b ↔ ob_vnbs ob' !! k' = Some b) as Hiff.
  { intros Hsb k'. rewrite E. destruct (decide (k = k')) as [<-|Hn]; [|by rewrite put_ne]. rewrite put_eq.
    assert (¬ (ob_vnbs ob !! k = Some b ∨ new = Some b)) as Hnot; [|tauto].
    intros Hb. apply (Hno b); [|by apply Hsel]. by eapply event_delivered; [exact Ee|exact Hb|by left|]. }
  split; intros [[k' Hb] Hsb]; (split; [|done]); exists k'; by apply Hiff.
Qed.

Lemma vnet_delivered k : vnets_alike (get_vnet rd k) (get_vnet rd' k) ∨
  (reported events (get_vnet rd k) ∧ reported events (get_vnet rd' k)).
Proof.
  rewrite (shows_vnet _ _ Hs), (shows_vnet _ _ Hs').
  destruct vnets_change as [->|(k' & new & E & Ee & Hup)]; [left; apply vnets_alike_refl|].
  destruct (decide (k' = k)) as [->|Hn]; [|left; rewrite E, put_ne by done; apply vnets_alike_refl].
  assert (∀ v, new = Some v → ObjectKeyFromObject v = k) as Hnew
    by (intros v ->; apply (keyed_vnets _ Hk'); by rewrite E, put_eq).
  rewrite E, put_eq. pose proof (event_delivered WVnet (ob_vnets ob !! k) new) as Hd.
  assert (∀ v, ob_vnets ob !! k = Some v ∨ new = Some v → (∀ e, e ∈ evs → changed m_generation e = true) →
    reported events (Ok v)) as Hr.
  { intros v Hv Hg. exists v. split; [|done]. eapply Hd; [exact Ee|exact Hv|by left|done]. }
  assert (reported events (found (missing KVnet k) (None : option VirtualNetwork))) as Hnone
    by apply missing_not_found.
  destruct (ob_vnets ob !! k) as [v|] eqn:Ev, new as [v'|]; simpl in *; [|right..|by left].
  - destruct (decide (m_generation (vnet_meta v') = m_generation (vnet_meta v))) as [Eg|Eg]; [left|right].
    + split; [|by eapply Hup]. pose proof (Hnew v' eq_refl) as E1. rewrite <-(keyed_vnets _ Hk _ _ Ev) in E1. by injection E1.
    + assert (∀ e, e ∈ evs → changed m_generation e = true) as Hg.
      { intros e He. rewrite Ee in He. apply list_elem_of_singleton in He as ->. simpl.
        apply negb_true_iff, bool_decide_eq_false. intros Eg'. by apply Eg. }
      split; (apply Hr; [auto|done]).
  - split; [|done]. apply Hr; [by left|]. intros e He. rewrite Ee in He. by apply list_elem_of_singleton in He as ->.
  - split; [done|]. apply Hr; [by right|]. intros e He. rewrite Ee in He. by apply list_elem_of_singleton in He as ->.
Qed.

Lemma change_delivered : delivered events rd rd'.
Proof.
  split_and!; [apply cluster_baseline_delivered|apply baseline_delivered|apply bindings_delivered| |apply vnet_delivered].
  intros n _. rewrite (namespaces_shown rd rd' ob ob' Hs Hs' change_namespaces). apply namespaces_alike_refl.
Qed.
Lemma shown_listed req p : ob_pods ob' !! req = Some p → listed rd' req p.
Proof.
  intros Hp. split; [by rewrite (shows_pod _ _ Hs'), Hp|]. split; [by apply (keyed_pods _ Hk')|].
  intros o' Ho. destruct (shows_pods _ _ Hs' o') as (l & Hl & Hperm). exists l. split; [done|].
  rewrite Hperm. apply list_elem_of_In, filter_In. split; [apply list_elem_of_In, elem_of_values; by exists req|].
  unfold selected_by. assert (bool_decide (∅ ⊆ obj_labels p) = true) as Hsub
    by apply bool_decide_eq_true_2, map_empty_subseteq.
  destruct Ho as [-> | ->]; simpl; change (m_labels (obj_meta p)) with (obj_labels p);
    rewrite ?Hsub, ?(bool_decide_eq_true_2 (_ = _)) by done; done.
Qed.

Lemma shown_namespaces_read : namespaces_read rd'.
Proof.
  split; [|intros n e; by apply (shown_error rd' ob')].
  destruct (shows_namespaces _ _ Hs') as (l & Hl & Hperm). exists l. split; [done|]. intros n ns.
  rewrite (shows_namespace _ _ Hs'). destruct (ob_namespaces ob' !! n) as [ns'|] eqn:E; [|done]. intros [= <-].
  apply list_elem_of_fmap. exists ns'. split; [symmetry; by apply (keyed_namespaces _ Hk')|].
  rewrite Hperm. apply elem_of_values. eauto.
Qed.

(** What resolution and [settled_pod] see of a pod. *)
Definition same_pod (p p' : Pod) : Prop :=
  ObjectKeyFromObject p' = ObjectKeyFromObject p ∧ pod_spec p' = pod_spec p ∧
  obj_labels p' = obj_labels p ∧ obj_annotations p' = obj_annotations p.

(** A pod that is created or changed is requested. *)
Lemma pod_changes req : wakes Resolution req ∨
  ∀ p', ob_pods ob' !! req = Some p' → m_deleting (pod_meta p') = false →
    ∃ p, ob_pods ob !! req = Some p ∧ m_deleting (pod_meta p) = false ∧ same_pod p p'.
Proof.
  destruct pods_change as [->|(k & new & E & Ee & Hup)]; [right; intros p' Hp Hd; by exists p'|].
  destruct (decide (k = req)) as [->|Hn]; [|right; intros p'; rewrite E, put_ne by done; intros Hp Hd; by exists p'].
  rewrite E, put_eq. destruct new as [p'|]; [|by right].
  assert (ObjectKeyFromObject p' = req) as Hkey by (apply (keyed_pods _ Hk'); by rewrite E, put_eq).
  assert (∀ e, evs = [e] → event_object e = WPod p' → podPredicate e = true → wakes Resolution req) as Hw.
  { intros e He Eo Hp. exists e. split; [rewrite He; by left|]. apply elem_of_requests. eexists. split; [by left|].
    apply fires_watch; [by rewrite Eo|done|]. pose proof (for_object e) as Hf. rewrite Eo in Hf. by rewrite <-Hkey. }
  destruct (ob_pods ob !! req) as [p|] eqn:Ep; simpl in Ee.
  - destruct (podPredicate (EvUpdate (WPod p) (WPod p'))) eqn:Epred; [left; by eapply Hw|right].
    unfold podPredicate in Epred. rewrite label_changed, annotation_changed, generation_changed in Epred.
    simpl in Epred. kv_bools. intros p'' [= <-] Hdel. destruct (Hup p p' eq_refl eq_refl) as [Hsp Hde]. exists p.
    split; [done|]. split; [destruct (m_deleting (pod_meta p)); [by rewrite Hde in Hdel|done]|].
    split_and!; [|done..]. rewrite Hkey. symmetry. by apply (keyed_pods _ Hk).
  - left. eapply Hw; [done..|]. unfold podPredicate. by rewrite label_changed.
Qed.

Lemma settled_same managed stamps p p' : same_pod p p' → settled_pod managed stamps p → settled_pod managed stamps p'.
Proof.
  intros (_ & _ & Hl & Ha). unfold settled_pod, marked, unmarked, ResolutionStamps.
  change (m_labels (pod_meta p')) with (obj_labels p'). change (m_labels (pod_meta p)) with (obj_labels p).
  by rewrite Hl, Ha.
Qed.

Lemma pod_kept req : done_pod o rd req → wakes Resolution req ∨ done_pod o rd' req.
Proof.
  intros Hd. destruct (pod_changes req) as [?|Hpod]; [by left|].
  destruct (decide (Exists (λ re, req ∈ resolution_requests rd' re) events)) as [(re & Hre & Hreq)%Exists_exists|Hno].
  { left. apply elem_of_flat_map in Hre as (e & He & Hre). by eapply resolution_wakes. }
  right. intros p' ns Hp' Hdel Hns. rewrite (shows_pod _ _ Hs') in Hp'.
  destruct (ob_pods ob' !! req) as [q|] eqn:Ep'; [|done]. simpl in Hp'. injection Hp' as ->.
  destruct (Hpod p' eq_refl Hdel) as (p & Ep & Hdelp & Hsame). pose proof Hsame as (Hkey & Hspec & Hlab & _).
  assert (obj_ns p' = obj_ns p) as Hn by (by injection Hkey).
  pose proof Hns as Hns0. rewrite (namespaces_shown rd rd' ob ob' Hs Hs' change_namespaces), Hn in Hns0.
  destruct (Hd p ns) as (stamps & Hw & Hset); [by rewrite (shows_pod _ _ Hs), Ep|done..|].
  exists stamps. split; [|by eapply settled_same].
  unfold wanted_stamps in *. destruct (IsManaged (opt_nsFilter o) ns); [|done].
  apply result_fmap_Ok in Hw as (found & Hf & ->).
  assert (rule_inputs rd rd' (obj_ns p')) as Hin.
  { eapply (inputs_unchanged events rd rd' req p' ns); [by apply shown_listed|apply shown_namespaces_read|done|apply change_delivered|].
    intros re Hre Hreq. apply Hno, Exists_exists. eauto. }
  destruct (desired_again rd rd' p p') with (found := found) as (found' & -> & E); [done| | | | |done|simpl; by rewrite E].
  - unfold desiredHostPortStamps, desiredHostPortKeys. simpl. by rewrite Hspec.
  - intros k _. by rewrite Hlab.
  - by rewrite <-Hn.
  - intros bs b _ _. unfold binding_rule. by rewrite Hlab, Hn.
Qed.
(** *** All together *)

Lemma done_kept c req : admitted_objects op ob → tracked c req → done o rd (ob_policies ob) c req →
  wakes c req ∨ done o rd' (ob_policies ob') c req.
Proof.
  intros Ha Ht Hd. destruct c; try done; simpl in *.
  - by apply vnet_kept.
  - destruct req as [ns name]. simpl in *. subst ns. by apply namespace_kept.
  - by apply pod_kept.
Qed.
End changes.
