(* ===== verification/Queue.v ===== *)
(** * The work queues

    The operator with its queues: an event puts requests into the queues of the controllers
    whose watches it passes, a reconcile takes one out, and puts it back when it fails. At
    the start every stored object gives an event. [accounted] is the invariant: a request
    that makes the isolation is in its queue or done. *)

From Stdlib Require Import Ascii.
From S2P Require Import Prelude GoStrings Types Effects Direction Names ApiServer Permits Apply Baseline Stamps.
From S2P Require Import ServicePolicies HostPort Semantics Members VnetController VnetControllerSpec.
From S2P Require Import ResolutionController ResolutionControllerSpec Binding SystemVnet Isolation.
From S2P Require Import Operator Objects Authority Drift EndToEnd Plans Level.

(** ** The system *)

Record System (W : Type) := mkSystem {
  sys_op : OperatorState W;
  sys_queue : list (Controller * ObjectKey) }.
Arguments mkSystem {_} _ _.
Arguments sys_op {_} _.
Arguments sys_queue {_} _.

Definition sys_world {W} (s : System W) : W := os_world (sys_op s).

Section system.
Context `{K8sLib, RuntimeLib, Missing} {W : Type} `{PolicyServer W} `{!ObjectStore W}.
Context (o : Options) (order : gset hostPortKey → list hostPortKey).

(** The event of a write: on the object it names, as it was and as it is; none when the
    write changes nothing. *)
Definition news {A} `{EqDecision A} (wrap : A → WatchObject) (old new : option A) : list WatchEvent :=
  if old =?? new then [] else event_of wrap old new.
Definition write_events (q : Write) (ob ob' : Objects) : list WatchEvent :=
  match q with
  | WApplyPolicy p | WDeletePolicy p =>
      let k := ObjectKeyFromObject p in news WPolicy (ob_policies ob !! k) (ob_policies ob' !! k)
  | WPatchPod _ to => let k := ObjectKeyFromObject to in news WPod (ob_pods ob !! k) (ob_pods ob' !! k)
  | WApplyVnet v | WDeleteVnet v | WUpdateVnetStatus v =>
      let k := ObjectKeyFromObject v in news WVnet (ob_vnets ob !! k) (ob_vnets ob' !! k)
  | WUpdateBindingStatus b =>
      let k := ObjectKeyFromObject b in news WBinding (ob_vnbs ob !! k) (ob_vnbs ob' !! k)
  end.

(** The requests of events, of every controller; the map functions read the cache [rd]. *)
Definition enqueue (rd : Reader) (evs : list WatchEvent) : list (Controller * ObjectKey) :=
  flat_map (λ e, flat_map (λ c, map (pair c) (requests o rd c e)) controllers) evs.

(** The requests of the events of a sequence of writes. *)
Fixpoint woken (ws : list Write) (w : W) : list (Controller * ObjectKey) :=
  match ws with
  | [] => []
  | q :: ws =>
      let w' := (cl_write q w).2 in
      enqueue (cl_reader w') (write_events q (objects_of w) (objects_of w')) ++ woken ws w'
  end.

(** controller-runtime queues a request again when its reconcile fails. *)
Definition retried (r : result Outcome) : bool :=
  match r with Ok _ => false | Err _ => true end.

(** A worker takes a request and reconciles it; what it writes are events like any others. *)
Definition work (c : Controller) (req : ObjectKey) (s : System W) : System W :=
  let '(r, st) := reconcile o order c req (enter c (sys_op s)) in
  mkSystem (leave c req (sys_op s) st)
    (filter (λ cr, cr ≠ (c, req)) (sys_queue s) ++ woken (writes_of (st_log st)) (sys_world s) ++
     (if retried r then [(c, req)] else [])).

(** The operator starts with the events of all objects and an empty memory. *)
Definition stored_objects (ob : Objects) : list WatchObject :=
  map WPod (values (ob_pods ob)) ++ map WNamespace (values (ob_namespaces ob)) ++
  map WVnet (values (ob_vnets ob)) ++ map WBinding (values (ob_vnbs ob)) ++
  map WClusterBaseline (values (ob_cluster_baselines ob)) ++ map WBaseline (values (ob_baselines ob)) ++
  map WPolicy (values (ob_policies ob)).
Definition sys_start (w : W) : System W :=
  mkSystem (started w) (enqueue (cl_reader w) (map EvCreate (stored_objects (objects_of w)))).

(** A policy that others update keeps the labels the operator knows it by: the admission
    policy [system-labels-vap.yaml] protects them. *)
Definition owners_protected (ob ob' : Objects) : Prop :=
  ∀ k l l', ob_policies ob !! k = Some l → ob_policies ob' !! k = Some l' → same_owner l l'.

(** A step: some worker reconciles a request of its queue; a timer ([RequeueAfter], a
    resync) puts a request into one; anyone else changes an object in a way the API admits;
    the operator stops, the cluster changes at will, and it starts again. *)
Inductive sys_step : System W → System W → Prop :=
  | sys_work c req s : (c, req) ∈ sys_queue s → sys_step s (work c req s)
  | sys_timer c req s : sys_step s (mkSystem (sys_op s) (sys_queue s ++ [(c, req)]))
  | sys_others w' evs s :
      change (objects_of (sys_world s)) (objects_of w') evs →
      owners_protected (objects_of (sys_world s)) (objects_of w') →
      admitted_objects (opt_operatorNS o) (objects_of w') →
      sys_step s (mkSystem (mkOperator w' (os_log (sys_op s)) (os_memory (sys_op s)))
                    (sys_queue s ++ enqueue (cl_reader w') evs))
  | sys_restart w' s : admitted_objects (opt_operatorNS o) (objects_of w') → sys_step s (sys_start w').

Inductive sys_run : System W → Prop :=
  | sys_starts w : admitted_objects (opt_operatorNS o) (objects_of w) → sys_run (sys_start w)
  | sys_more s s' : sys_run s → sys_step s s' → sys_run s'.

(** The invariant. *)
Definition accounted (s : System W) : Prop :=
  admitted_objects (opt_operatorNS o) (objects_of (sys_world s)) ∧
  ∀ c req, tracked c req →
    (c, req) ∈ sys_queue s ∨ done o (cl_reader (sys_world s)) (policies (sys_world s)) c req.

(** No request that makes the isolation is waiting. *)
Definition drained (s : System W) : Prop :=
  ∀ c req, (c, req) ∈ sys_queue s → c ∉ isolation_controllers.
End system.

(** ** Facts *)

(** *** Writes are changes *)

Lemma put_same {K A} `{Countable K} (k : K) (m : gmap K A) : put k (m !! k) m = m.
Proof.
  apply map_eq. intros k'. destruct (decide (k = k')) as [<-|Hn]; [apply put_eq|by apply put_ne].
Qed.

Lemma wrote_change q r ob ob' : keyed_objects ob → keyed_objects ob' → wrote q r ob ob' →
  change ob ob' (write_events q ob ob').
Proof.
  intros Hk Hk' Hw.
  assert (∀ k, ob' = with_policies (put k (ob_policies ob' !! k) (ob_policies ob)) ob →
    change ob ob' (news WPolicy (ob_policies ob !! k) (ob_policies ob' !! k))) as Hpol.
  { intros k E. unfold news. case_bool_decide as En; [rewrite <-En, put_same in E|]; [by destruct ob; subst; constructor|].
    rewrite E at 1. apply change_policy. intros p. apply (keyed_policies _ Hk'). }
  assert (∀ k, ob' = with_vnets (put k (ob_vnets ob' !! k) (ob_vnets ob)) ob →
    (∀ v v', ob_vnets ob !! k = Some v → ob_vnets ob' !! k = Some v' → vnet_update v v') →
    change ob ob' (news WVnet (ob_vnets ob !! k) (ob_vnets ob' !! k))) as Hvn.
  { intros k E Hu. unfold news. case_bool_decide as En; [rewrite <-En, put_same in E|]; [by destruct ob; subst; constructor|].
    rewrite E at 1. apply change_vnet; [intros v; apply (keyed_vnets _ Hk')|done]. }
  destruct q as [p|p|from to|v|v|v|b]; simpl in *.
  - apply Hpol. destruct Hw as [->|(live & _ & ->)]; [by rewrite put_same; destruct ob|]. simpl. by rewrite lookup_insert_eq.
  - apply Hpol. destruct Hw as [->| ->]; [by rewrite put_same; destruct ob|]. simpl. by rewrite lookup_delete_eq.
  - destruct Hw as [Hw _].
    assert (ob' = with_pods (put (ObjectKeyFromObject to) (ob_pods ob' !! ObjectKeyFromObject to) (ob_pods ob)) ob ∧
      ∀ p p', ob_pods ob !! ObjectKeyFromObject to = Some p → ob_pods ob' !! ObjectKeyFromObject to = Some p' → pod_update p p')
      as [E Hu].
    { destruct Hw as [->|(live & live' & Hl & Hr & ->)].
      - split; [by rewrite put_same; destruct ob|]. intros p p' -> [= ->]. by split.
      - simpl. rewrite lookup_insert_eq. split; [done|]. rewrite Hl. intros p p' [= <-] [= <-].
        unfold relabelled in Hr. by rewrite <-Hr. }
    unfold news. case_bool_decide as En; [rewrite <-En, put_same in E|]; [by destruct ob; subst; constructor|].
    rewrite E at 1. apply change_pod; [intros p; apply (keyed_pods _ Hk')|done].
  - destruct Hw as [->|(live & _ & Hu & ->)].
    + apply Hvn; [by rewrite put_same; destruct ob|]. by intros ? ? -> [= ->].
    + apply Hvn; simpl; rewrite lookup_insert_eq; [done|]. intros old new Ho [= <-]. by apply Hu.
  - destruct Hw as [->| ->]; apply Hvn; simpl; rewrite ?lookup_delete_eq, ?put_same; try done; [by destruct ob|].
    by intros ? ? -> [= ->].
  - destruct Hw as [->|(live & live' & Hl & Hm & Hsp & ->)].
    + apply Hvn; [by rewrite put_same; destruct ob|]. by intros ? ? -> [= ->].
    + apply Hvn; simpl; rewrite lookup_insert_eq; [done|]. rewrite Hl. intros ? ? [= <-] [= <-] _. done.
  - assert (ob' = with_vnbs (put (ObjectKeyFromObject b) (ob_vnbs ob' !! ObjectKeyFromObject b) (ob_vnbs ob)) ob) as E.
    { destruct Hw as [->|(live & _ & ->)]; simpl; [by rewrite put_same; destruct ob|by rewrite lookup_insert_eq]. }
    unfold news. case_bool_decide as En; [rewrite <-En, put_same in E|]; [by destruct ob; subst; constructor|].
    rewrite E at 1. apply change_binding. intros b'. apply (keyed_vnbs _ Hk').
Qed.

Lemma wrote_namespaces q r ob ob' : wrote q r ob ob' → ob_namespaces ob' = ob_namespaces ob.
Proof. destruct q; simpl; intros; kv_destruct; by repeat match goal with H : _ ∨ _ |- _ => destruct H; kv_destruct end. Qed.

(** *** The writes of the operator *)

Section facts.
Context `{K8sLaws} `{RuntimeLaws} `{Missing} {W : Type} `{PolicyServer W} `{!ObjectStore W, !CoherentClient W}.
Context (o : Options) (order : gset hostPortKey → list hostPortKey).

Abbreviation op := (opt_operatorNS o).
Abbreviation ok w := (admitted_objects op (objects_of w)).
Abbreviation done_at w := (done o (cl_reader w) (policies w)).

Lemma elem_of_enqueue rd evs c req : (c, req) ∈ enqueue o rd evs ↔ ∃ e, e ∈ evs ∧ req ∈ requests o rd c e.
Proof.
  unfold enqueue. rewrite elem_of_flat_map. split.
  - intros (e & He & (c' & _ & Hc)%elem_of_flat_map). apply list_elem_of_fmap in Hc as (req' & [= <- <-] & Hr). eauto.
  - intros (e & He & Hr). exists e. split; [done|]. apply elem_of_flat_map. exists c.
    split; [by destruct c; apply (bool_decide_eq_true_1 _)|]. by apply list_elem_of_fmap_2.
Qed.

(** What a write of a request needs of the objects the request was made of. *)
Definition warranted (c : Controller) (req : ObjectKey) (q : Write) : Prop :=
  may_write o c req q ∧
  (∀ p, c = VirtualNetworks → q = WApplyPolicy p → addressable_key op req) ∧
  (∀ v, q = WApplyVnet v → is_dns_label (key_name req) = true ∧ (String.length (key_name req) ≤ 63)%nat).

Lemma entitled_warranted (w : W) c req q : ok w → entitled o w c req q → warranted c req q.
Proof.
  intros Ha (Hm & Hp & Hv). split_and!; [done|..].
  - intros p Hc Hq. destruct (Hp p Hc Hq) as [v Hg]. rewrite (shows_vnet _ _ (objects_shown w)) in Hg.
    destruct (ob_vnets _ !! req) as [v'|] eqn:E; [|done]. by eapply admitted_vnet.
  - intros v Hq. destruct (Hv v Hq) as [ns Hg]. rewrite (shows_namespace _ _ (objects_shown w)) in Hg.
    destruct (ob_namespaces _ !! _) as [ns'|] eqn:E; [|done]. by eapply admitted_namespace.
Qed.

(** The API admits what the operator writes. *)
Lemma write_admitted c req q (w : W) r w' : warranted c req q → cl_write q w = (r, w') → ok w → ok w'.
Proof.
  intros (Hm & _ & Hv) Hq [Hvn Hns]. pose proof (objects_wrote _ _ _ _ Hq) as Hw.
  split; [|by rewrite (wrote_namespaces _ _ _ _ Hw)].
  assert (∀ k (m : gmap ObjectKey VirtualNetwork), (∀ v, m !! k = Some v → addressable_key op k) →
    (∀ k', k' ≠ k → m !! k' = ob_vnets (objects_of w) !! k') →
    ∀ k' v, m !! k' = Some v → addressable_key op k') as Hput.
  { intros k m Hk Hne k' v. destruct (decide (k' = k)) as [->|Hn]; [apply Hk|rewrite Hne by done; apply Hvn]. }
  destruct q as [p|p|from to|v|v|v|b]; simpl in Hw.
  - by destruct Hw as [->|(? & ? & ->)].
  - by destruct Hw as [->| ->].
  - destruct Hw as [[->|(? & ? & ? & ? & ->)] _]; done.
  - destruct Hw as [->|(live & _ & _ & ->)]; [done|]. apply (Hput (ObjectKeyFromObject v)); [|intros; by apply lookup_insert_ne].
    intros _ _. destruct (Hv v eq_refl) as [Hd Hl]. destruct Hm as [_ [[-> _]|[-> Hop]]]; [|rewrite <-Hop].
    + split_and!; try done. simpl. lia.
    + split_and!; try done; simpl; [lia|]. intros _. split; [done|]. by apply dns_label_nonempty.
  - destruct Hw as [->| ->]; [done|]. intros k v'. simpl. rewrite lookup_delete_Some. intros [_ ?]. by eapply Hvn.
  - destruct Hw as [->|(live & live' & Hl & _ & _ & ->)]; [done|].
    apply (Hput (ObjectKeyFromObject v)); [|intros; by apply lookup_insert_ne]. intros _ _. by eapply Hvn.
  - by destruct Hw as [->|(? & ? & ->)].
Qed.

Lemma write_owners c req q (w : W) r w' : warranted c req q → cl_write q w = (r, w') →
  owners_kept o (objects_of w) (objects_of w').
Proof.
  intros (Hm & Hp & _) Hq k l l' Hl Hl'. pose proof (objects_wrote _ _ _ _ Hq) as Hw.
  assert (ob_policies (objects_of w') !! k = ob_policies (objects_of w) !! k → same_owner l l') as Hsame.
  { intros Hk. assert (l' = l) as -> by congruence. by intros ? _. }
  destruct q as [p|p|from to|v|v|v|b]; simpl in Hw.
  - destruct Hw as [E|(live & Ha & E)]; [left; apply Hsame; by rewrite E|].
    destruct (decide (ObjectKeyFromObject p = k)) as [Hk|Hn].
    + right. exists c, req, p. split_and!; [done|by intros Hc; eapply Hp|done|].
      rewrite E in Hl'. simpl in Hl'. rewrite Hk, lookup_insert_eq in Hl'. by injection Hl' as <-.
    + left. apply Hsame. rewrite E. by apply lookup_insert_ne.
  - left. apply Hsame. destruct Hw as [E|E]; [by rewrite E|]. rewrite E in Hl'. simpl in Hl'.
    apply lookup_delete_Some in Hl' as [Hn _]. rewrite E. by apply lookup_delete_ne.
  - left. apply Hsame. by destruct Hw as [[E|(? & ? & ? & ? & E)] _]; rewrite E.
  - left. apply Hsame. by destruct Hw as [E|(? & ? & ? & E)]; rewrite E.
  - left. apply Hsame. by destruct Hw as [E|E]; rewrite E.
  - left. apply Hsame. by destruct Hw as [E|(? & ? & ? & ? & ? & E)]; rewrite E.
  - left. apply Hsame. by destruct Hw as [E|(? & ? & E)]; rewrite E.
Qed.

(** A change of the cluster leaves a request done or makes it. *)
Lemma change_kept (w w' : W) evs c req : ok w → change (objects_of w) (objects_of w') evs →
  owners_kept o (objects_of w) (objects_of w') → tracked c req → done_at w c req →
  (c, req) ∈ enqueue o (cl_reader w') evs ∨ done_at w' c req.
Proof.
  intros Ha Hc Ho Ht. rewrite <-!objects_policies, elem_of_enqueue. intros Hd.
  exact (done_kept o (cl_reader w) (cl_reader w') (objects_of w) (objects_of w') evs (objects_shown w) (objects_shown w')
    (objects_keyed w) (objects_keyed w') Hc Ho c req Ha Ht Hd).
Qed.

(** So do the writes of a reconcile. *)
Lemma woken_kept c0 req0 ws (w w' : W) : writes_to ws w w' → Forall (λ qr, warranted c0 req0 qr.1) ws → ok w →
  ok w' ∧ ∀ c req, tracked c req → done_at w c req → (c, req) ∈ woken o (map fst ws) w ∨ done_at w' c req.
Proof.
  induction 1 as [w|q r ws w w1 w2 Hq Hto IH]; intros Hf Ha; [split; [done|]; by right|].
  apply Forall_cons in Hf as [Hf0 Hf]. cbn [fst] in Hf0. pose proof (write_admitted _ _ _ _ _ _ Hf0 Hq Ha) as Ha1.
  destruct (IH Hf Ha1) as [Ha2 IHd]. split; [done|]. intros c req Ht Hd. simpl. rewrite Hq. cbn [snd].
  rewrite elem_of_app.
  assert (change (objects_of w) (objects_of w1) (write_events q (objects_of w) (objects_of w1))) as Hc
    by (eapply wrote_change; [apply objects_keyed..|by eapply objects_wrote]).
  pose proof (write_owners _ _ _ _ _ _ Hf0 Hq) as Ho.
  destruct (change_kept w w1 _ c req Ha Hc Ho Ht Hd) as [?|Hd1]; [by left; left|].
  destruct (IHd c req Ht Hd1) as [?|?]; [left; by right|by right].
Qed.

(** *** A reconcile that succeeds *)

Lemma same_vnet_refl x : same_vnet x x.
Proof. unfold same_vnet. by destruct x. Qed.
Lemma same_vnet_trans x y z : same_vnet x y → same_vnet y z → same_vnet x z.
Proof. unfold same_vnet. destruct x, y, z; try done. by intros [-> ->] [-> ->]. Qed.

Lemma writes_namespaces ws (w w' : W) : writes_to ws w w' →
  ob_namespaces (objects_of w') = ob_namespaces (objects_of w).
Proof.
  induction 1 as [|q r ws w w1 w2 Hq _ IH]; [done|]. rewrite IH. by eapply wrote_namespaces, objects_wrote.
Qed.

(** The vnet controller writes no pod and of a vnet the status alone. *)
Lemma vnet_writes req ws (w w' : W) : writes_to ws w w' → Forall (λ qr, may_write o VirtualNetworks req qr.1) ws →
  ob_pods (objects_of w') = ob_pods (objects_of w) ∧
  ∀ k, same_vnet (ob_vnets (objects_of w) !! k) (ob_vnets (objects_of w') !! k).
Proof.
  induction 1 as [|q r ws w w1 w2 Hq _ IH]; intros Hf; [split; [done|intros; apply same_vnet_refl]|].
  apply Forall_cons in Hf as [Hf0 Hf]. destruct (IH Hf) as [E Hv]. rewrite E.
  assert (ob_pods (objects_of w1) = ob_pods (objects_of w) ∧
    ∀ k, same_vnet (ob_vnets (objects_of w) !! k) (ob_vnets (objects_of w1) !! k)) as [E1 Hv1];
    [|split; [done|intros k; by eapply same_vnet_trans]].
  pose proof (objects_wrote _ _ _ _ Hq) as Hw. cbn [fst] in Hf0.
  destruct q as [p|p|from to|v|v|v|b]; simpl in Hw; try by destruct Hf0 as [? _].
  - destruct Hw as [->|(? & ? & ->)]; (split; [done|]); intros; apply same_vnet_refl.
  - destruct Hw as [->| ->]; (split; [done|]); intros; apply same_vnet_refl.
  - destruct Hw as [->|(live & live' & Hl & Hm & Hsp & ->)]; (split; [done|]); intros k; [apply same_vnet_refl|].
    simpl. destruct (decide (ObjectKeyFromObject v = k)) as [<-|Hn]; [|rewrite lookup_insert_ne by done; apply same_vnet_refl].
    by rewrite Hl, lookup_insert_eq.
Qed.

(** What a reconcile made so, it finds so. *)
Lemma reconciled_again own want before after : reconciled own want before after → reconciled own want after after.
Proof.
  intros [Hin Hout]. split; [done|]. intros k Hk. rewrite (Hout k Hk). destruct (before !! k) as [q|]; [|done].
  by destruct (own q) eqn:E; rewrite ?E.
Qed.

Section completed.
Context (s : OperatorState W) (c : Controller) (req : ObjectKey) (out : Outcome) (st : St W).
Context (Hrun : reconcile o order c req (enter c s) = (Ok out, st)).

Abbreviation w0 := (os_world s).

Lemma run_writes : Forall (λ qr, entitled o w0 c req qr.1) (write_results st) ∧
  writes_to (write_results st) w0 (st_world st).
Proof. pose proof (reconcile_writes o order c req s) as Hw. by rewrite Hrun in Hw. Qed.

Lemma run_namespaces n : get_namespace (cl_reader (st_world st)) n = get_namespace (cl_reader w0) n.
Proof.
  eapply namespaces_shown; [apply objects_shown..|]. eapply writes_namespaces, run_writes.
Qed.

Lemma namespace_completed : c = Namespaces → done_at (st_world st) c req.
Proof.
  pose proof run_namespaces as Hns. intros ->. intros ns. rewrite Hns. intros Hg Hd Hm. eapply reconciled_again.
  by apply (namespace_ran o order s req out st Hrun ns).
Qed.

Lemma vnet_completed : c = VirtualNetworks → done_at (st_world st) c req.
Proof.
  pose proof run_namespaces as Hns. destruct run_writes as [Hf Hto]. intros ->.
  pose proof (vnet_ran o order s req out st Hrun) as Hv.
  destruct (vnet_writes req _ _ _ Hto) as [Epods Hvnets]; [by eapply Forall_impl; [exact Hf|intros [q r] [Hm _]]|].
  destruct (vnet_plan_same (opt_nsFilter o) (cl_reader w0) (cl_reader (st_world st)) (objects_of w0)
    (objects_of (st_world st)) (objects_shown _) (objects_shown _) (writes_namespaces _ _ _ Hto) req) as [Ep _].
  - apply Hvnets.
  - intros v ns d _. unfold member_at. by rewrite Epods.
  - unfold done, done_vnet. rewrite Ep. destruct (vnet_plan _ _ _) as [[plan|]|e]; [|done..].
    rewrite (live_alike (cl_reader w0)) by apply Hns. by eapply reconciled_again.
Qed.

Lemma silent_world : write_results st = [] → st_world st = w0.
Proof. intros E. destruct run_writes as [_ Hto]. rewrite E in Hto. by inversion Hto. Qed.
End completed.

(** A stamped pod gives an event that its own watch passes. *)
Lemma patch_wakes (w w' : W) req from to : cl_write (WPatchPod from to) w = (Ok tt, w') →
  get_pod (cl_reader w) req = Ok from → relabelled from to → from ≠ to →
  (Resolution, req) ∈ woken o [WPatchPod from to] w.
Proof.
  intros Hq Hg Hr Hne. rewrite (shows_pod _ _ (objects_shown w)) in Hg.
  destruct (ob_pods (objects_of w) !! req) as [p|] eqn:Ep; [|done]. simpl in Hg. injection Hg as ->.
  pose proof (keyed_pods _ (objects_keyed w) _ _ Ep) as Hk.
  assert (ObjectKeyFromObject to = req) as Hk' by (unfold relabelled in Hr; by rewrite <-Hk, <-Hr).
  destruct (objects_wrote _ _ _ _ Hq) as [_ Hstored]. specialize (Hstored eq_refl Hr). rewrite Hk' in Hstored.
  specialize (Hstored Ep). simpl. rewrite Hq. cbn [snd]. rewrite app_nil_r. cbn [write_events]. rewrite Hk', Ep, Hstored.
  unfold news. rewrite bool_decide_eq_false_2 by congruence.
  apply elem_of_enqueue. eexists. split; [by left|]. apply elem_of_requests. eexists. split; [by left|].
  apply fires_watch; [done| |].
  - cbn [w_predicate]. unfold podPredicate. rewrite label_changed, annotation_changed. simpl.
    apply orb_true_iff. left. destruct (decide (obj_labels from = obj_labels to)) as [El|];
      [|by apply orb_true_iff; left; apply negb_true_iff, bool_decide_eq_false].
    apply orb_true_iff. right. apply negb_true_iff, bool_decide_eq_false. intros Ea. apply Hne.
    unfold relabelled in Hr. rewrite El in Hr. unfold obj_annotations in Hr at 1.
    change (obj_annotations from = obj_annotations to) in Ea. rewrite <-Hr. change (m_annotations (obj_meta from)) with (obj_annotations from).
    rewrite Ea. by destruct to as [[] ?].
  - rewrite <-Hk'. apply (for_object (EvUpdate (WPod from) (WPod to))).
Qed.

Lemma pod_completed (s : OperatorState W) req out st : reconcile o order Resolution req (enter Resolution s) = (Ok out, st) →
  (Resolution, req) ∈ woken o (map fst (write_results st)) (os_world s) ∨ done_at (st_world st) Resolution req.
Proof.
  intros Hrun. pose proof (run_writes s _ _ _ _ Hrun) as [_ Hto]. pose proof (silent_world s _ _ _ _ Hrun) as Hsame.
  pose proof (ResolutionReconcile_at true (opt_nsFilter o) (opt_networkWaitEnabled o) req (enter Resolution s)) as Hr.
  cbv zeta in Hr. change (ResolutionReconcile _ _ _ _ _) with (reconcile o order Resolution req (enter Resolution s)) in Hr.
  rewrite Hrun in Hr. cbn [fst snd enter st_world] in Hr. change (write_results (enter Resolution s)) with (@nil (Write * result unit)) in Hr.
  assert ((∀ p ns, get_pod (cl_reader (os_world s)) req = Ok p → m_deleting (pod_meta p) = false →
    get_namespace (cl_reader (os_world s)) (obj_ns p) = Ok ns → False) → write_results st = [] →
    done_at (st_world st) Resolution req) as Hvoid.
  { intros Hno Hw p ns. rewrite (Hsame Hw). intros Hg Hd Hn. destruct (Hno p ns Hg Hd Hn). }
  destruct (get_pod (cl_reader (os_world s)) req) as [p|e] eqn:Hg; [|right; apply Hvoid; naive_solver].
  destruct (m_deleting (pod_meta p)) eqn:Hd; [right; apply Hvoid; naive_solver congruence|].
  destruct (get_namespace (cl_reader (os_world s)) (obj_ns p)) as [ns|e] eqn:Hn; [|right; apply Hvoid; naive_solver congruence].
  destruct (wanted_stamps _ _ _) as [stamps|e] eqn:Ew; [|by destruct Hr].
  destruct Hr as [(Hset & _ & E)|(Hns & p' & res & Hrs & Hset & Hres & E)]; [right|left].
  - intros q ns'. rewrite (Hsame E), Hg. intros [= <-] _. rewrite Hn. intros [= <-]. by exists stamps.
  - destruct res as [[]|e]; [|done]. simpl in E. rewrite E in Hto |- *. simpl in Hto |- *.
    inversion Hto as [|q r ws w w1 w2 Hq Hrest]; subst.
    apply (patch_wakes _ w1); [done|done|by destruct Hrs as (_ & ? & _)|by intros ->].
Qed.

(** *** The invariant *)

Lemma elem_of_stored x ob : x ∈ stored_objects ob ↔
  (∃ k p, ob_pods ob !! k = Some p ∧ x = WPod p) ∨ (∃ n ns, ob_namespaces ob !! n = Some ns ∧ x = WNamespace ns) ∨
  (∃ k v, ob_vnets ob !! k = Some v ∧ x = WVnet v) ∨ (∃ k b, ob_vnbs ob !! k = Some b ∧ x = WBinding b) ∨
  (∃ k b, ob_cluster_baselines ob !! k = Some b ∧ x = WClusterBaseline b) ∨
  (∃ k b, ob_baselines ob !! k = Some b ∧ x = WBaseline b) ∨ (∃ k p, ob_policies ob !! k = Some p ∧ x = WPolicy p).
Proof.
  unfold stored_objects. rewrite !elem_of_app, !list_elem_of_fmap. setoid_rewrite elem_of_values. naive_solver.
Qed.

(** The start makes the requests of every stored object. *)
Lemma start_requests (w : W) x c req : x ∈ stored_objects (objects_of w) →
  req ∈ requests o (cl_reader w) c (EvCreate x) → (c, req) ∈ sys_queue (sys_start o w).
Proof.
  intros Hx Hr. apply elem_of_enqueue. exists (EvCreate x). split; [|done]. by apply list_elem_of_fmap_2.
Qed.

Lemma start_for (w : W) x c : x ∈ stored_objects (objects_of w) → For (kind_of x) ∈ setup o (cl_reader w) c →
  (c, meta_key (watch_meta x)) ∈ sys_queue (sys_start o w).
Proof.
  intros Hx Hw. eapply start_requests; [done|]. apply elem_of_requests. eexists. split; [exact Hw|].
  apply fires_watch; [done|done|apply (for_object (EvCreate x))].
Qed.

Lemma start_accounted (w : W) : ok w → accounted o (sys_start o w).
Proof.
  intros Ha. split; [done|]. intros c req Ht. change (sys_world (sys_start o w)) with w.
  pose proof (objects_shown w) as Hs. pose proof (objects_keyed w) as Hk.
  destruct c; try done; simpl in Ht.
  - destruct (ob_vnets (objects_of w) !! req) as [v|] eqn:E.
    { left. rewrite <-(keyed_vnets _ Hk _ _ E). apply (start_for w (WVnet v)); [|by left].
      apply elem_of_stored. naive_solver. }
    unfold done, done_vnet, vnet_plan. rewrite (shows_vnet _ _ Hs), E. simpl. rewrite missing_not_found.
    destruct (decide (map_Forall (λ _ l, vnet_own req [] l = false) (policies w))) as [Hno|Hown].
    + right. split; [intros p Hp; by apply not_elem_of_nil in Hp|]. intros k _. destruct (policies w !! k) as [l|] eqn:El; [|done].
      by rewrite (Hno k l El).
    + left. apply map_not_Forall in Hown as (k & l & El & Hl); [|apply _]. apply not_false_iff_true in Hl.
      apply andb_true_iff in Hl as [[Hsel _]%andb_true_iff _]. rewrite <-objects_policies in El.
      apply (start_requests w (WPolicy l)); [apply elem_of_stored; naive_solver|].
      apply network_event with (live := l); [done..|]. by apply (membership_selected req l).
  - destruct (ob_namespaces (objects_of w) !! key_name req) as [ns|] eqn:E.
    + left. destruct req as [ns0 name]. simpl in *. subst ns0.
      assert (meta_key (watch_meta (WNamespace ns)) = mkKey "" name) as <-.
      { destruct (admitted_namespace _ _ Ha _ _ E) as [Hn _]. change (mkKey (obj_ns ns) (obj_name ns) = mkKey "" name).
        by rewrite Hn, (keyed_namespaces _ Hk _ _ E). }
      apply (start_for w (WNamespace ns)); [|by left]. apply elem_of_stored. naive_solver.
    + right. intros ns. by rewrite (shows_namespace _ _ Hs), E.
  - destruct (ob_pods (objects_of w) !! req) as [p|] eqn:E.
    + left. rewrite <-(keyed_pods _ Hk _ _ E). apply (start_requests w (WPod p)); [apply elem_of_stored; naive_solver|].
      apply elem_of_requests. eexists. split; [by left|].
      apply fires_watch; [done| |apply (for_object (EvCreate (WPod p)))].
      cbn [w_predicate]. unfold podPredicate. by rewrite label_changed.
    + right. intros p ns. by rewrite (shows_pod _ _ Hs), E.
Qed.

Lemma work_accounted c req (s : System W) : accounted o s → accounted o (work o order c req s).
Proof.
  intros [Ha Hs]. unfold work. pose proof (reconcile_writes o order c req (sys_op s)) as Hw. cbv zeta in Hw.
  destruct (reconcile o order c req (enter c (sys_op s))) as [r st] eqn:Hrun. cbn [snd] in Hw. destruct Hw as [Hf Hto].
  rewrite writes_of_results. apply (Forall_impl _ (λ qr, warranted c req qr.1)) in Hf;
    [|intros [q r'] He; by eapply entitled_warranted].
  destruct (woken_kept c req _ _ _ Hto Hf Ha) as [Ha' Hkept]. split; [exact Ha'|]. intros c' req' Ht.
  change (sys_world (mkSystem (leave c req (sys_op s) st) _)) with (st_world st). cbn [sys_queue]. rewrite !elem_of_app, list_elem_of_filter.
  destruct (decide ((c', req') = (c, req))) as [[= -> ->]|Hne].
  - destruct (retried r) eqn:Er; [left; right; right; by left|]. destruct r as [out|e]; [|done].
    destruct c; try done.
    + right. by eapply vnet_completed.
    + right. by eapply namespace_completed.
    + destruct (pod_completed _ _ _ _ Hrun) as [?|?]; [left; right; by left|by right].
  - destruct (Hs c' req' Ht) as [Hq|Hd]; [left; by left|].
    destruct (Hkept c' req' Ht Hd) as [?|?]; [left; right; by left|by right].
Qed.

Lemma run_accounted (s : System W) : sys_run o order s → accounted o s.
Proof.
  induction 1 as [w Ha|s s' _ IH Hstep]; [by apply start_accounted|].
  destruct Hstep as [c req s _|c req s|w' evs s Hc Ho Ha'|w' s Ha']; [by apply work_accounted| | |by apply start_accounted].
  { destruct IH as [Ha Hs]. split; [done|]. intros c' req' Ht. cbn [sys_queue]. rewrite elem_of_app.
    destruct (Hs c' req' Ht); [left; by left|by right]. }
  destruct IH as [Ha Hs]. split; [done|]. intros c req Ht. cbn [sys_queue sys_world sys_op os_world]. rewrite elem_of_app.
  destruct (Hs c req Ht) as [Hq|Hd]; [left; by left|].
  destruct (change_kept _ w' evs c req Ha Hc) as [?|?]; [|done|done|left; by right|by right].
  intros k l l' Hl Hl'. left. by eapply Ho.
Qed.

Lemma drained_done (s : System W) : accounted o s → drained s → all_done o (cl_reader (sys_world s)) (policies (sys_world s)).
Proof.
  intros [Ha Hs] Hdr. set (w := sys_world s) in *.
  assert (∀ c req, c ∈ isolation_controllers → tracked c req → done_at w c req) as Hd.
  { intros c req Hc Ht. destruct (Hs c req Ht) as [Hq|?]; [by destruct (Hdr c req Hq)|done]. }
  split.
  - intros p _. by apply (Hd Resolution); [left|].
  - intros ns _. by apply (Hd Namespaces (mkKey "" (obj_name ns))); [right; left|].
  - intros v Hv. apply (Hd VirtualNetworks); [by do 2 right; left|]. rewrite (shows_vnet _ _ (objects_shown w)) in Hv.
    destruct (ob_vnets _ !! _) as [v'|] eqn:E; [|done]. destruct (admitted_vnet _ _ Ha _ _ E) as (_ & Hl & _).
    by apply dns_label_no_dot.
  - intros p ns name _ Hdot _. by apply (Hd VirtualNetworks (mkKey ns name)); [do 2 right; left|].
Qed.

(** The caches of the store are complete. *)
Lemma store_synced (w : W) : ∃ pods, synced w pods ∧ ∀ k p, ob_pods (objects_of w) !! k = Some p → p ∈ pods.
Proof.
  pose proof (objects_shown w) as Hs. pose proof (objects_keyed w) as Hk.
  destruct (shows_pods _ _ Hs ListAll) as (pods & Hp & Hperm), (shows_vnets _ _ Hs) as (vnets & Hv & Hvperm).
  assert (∀ p, p ∈ pods ↔ ∃ k, ob_pods (objects_of w) !! k = Some p) as Hin
    by (intros p; by eapply shown_pods).
  exists pods. split; [split_and!|intros k p Hkp; apply Hin; eauto].
  - intros k p Hl. rewrite (shows_policy _ _ Hs), objects_policies, Hl. done.
  - done.
  - intros p [k Hkp]%Hin. rewrite (keyed_pods _ Hk _ _ Hkp), (shows_pod _ _ Hs), Hkp. done.
  - exists vnets. split; [done|]. intros v. rewrite Hvperm, elem_of_values, (shows_vnet _ _ Hs). split.
    + intros [k Hkv]. rewrite (keyed_vnets _ Hk _ _ Hkv), Hkv. done.
    + destruct (ob_vnets _ !! _) as [v'|] eqn:E; [|done]. simpl. intros [= ->]. by exists (ObjectKeyFromObject v).
Qed.
End facts.

(** ** Properties *)


(** ** A cluster that drains *)

Import Model.

#[export] Instance addressable_key_dec op k : Decision (addressable_key op k).
Proof. unfold addressable_key. apply _. Defined.

Lemma admitted_check op ob :
  map_Forall (λ k _, addressable_key op k) (ob_vnets ob) →
  map_Forall (λ n ns, obj_ns ns = "" ∧ is_dns_label n = true ∧ (String.length n ≤ 63)%nat) (ob_namespaces ob) →
  admitted_objects op ob.
Proof. by split. Qed.

(** Workers take requests as long as there are any. *)
Fixpoint drain (fuel : nat) (o : Options) (s : System Cluster) : System Cluster :=
  match fuel, sys_queue s with
  | S fuel, (c, req) :: _ => drain fuel o (work o in_order c req s)
  | _, _ => s
  end.

Lemma drain_run o fuel s : sys_run o in_order s → sys_run o in_order (drain fuel o s).
Proof.
  revert s. induction fuel as [|fuel IH]; intros s Hs; [done|]. simpl.
  destruct (sys_queue s) as [|[c req] q] eqn:E; [done|]. apply IH. eapply sys_more; [done|].
  apply sys_work. rewrite E. by left.
Qed.

(** The front end, once it is a member, gives its join label up. *)
Definition front : ObjectKey := mkKey "web" "front-0".
Definition pod_in (s : System Cluster) (k : ObjectKey) : Pod :=
  default (labelled_pod (key_ns k) (key_name k) ∅) (keyed (cl_pods (sys_world s)) !! k).
Definition left_pod (p : Pod) : Pod := set_pod_labels (delete "kube-vnet/net.shop.payments" (obj_labels p)) p.
Definition front_leaves (o : Options) (s : System Cluster) : System Cluster :=
  let q := WPatchPod (pod_in s front) (left_pod (pod_in s front)) in
  let w' := (cl_write q (sys_world s)).2 in
  mkSystem (mkOperator w' (os_log (sys_op s)) (os_memory (sys_op s)))
    (sys_queue s ++ enqueue o (cl_reader w') (write_events q (objects_of (sys_world s)) (objects_of w'))).

Lemma front_leaves_step o s : admitted_objects (opt_operatorNS o) (objects_of (sys_world s)) →
  sys_step o in_order s (front_leaves o s).
Proof.
  intros Ha. unfold front_leaves. destruct (cl_write _ _) as [r w'] eqn:Hq. cbn [snd].
  pose proof (objects_wrote _ _ _ _ Hq) as Hw. apply sys_others.
  - eapply wrote_change; [apply objects_keyed..|done].
  - destruct Hw as [[->|(? & ? & ? & ? & ->)] _]; intros k l l' Hl Hl';
      assert (l' = l) as -> by (apply (inj Some); rewrite <-Hl; exact (eq_sym Hl')); by intros ? _.
  - destruct Ha as [Hv Hn]. by destruct Hw as [[->|(? & ? & ? & ? & ->)] _].
Qed.

Definition joined_system : System Cluster := drain 100 shop_options (sys_start shop_options unsettled_cluster).
Definition left_system : System Cluster := drain 100 shop_options (front_leaves shop_options joined_system).
Definition system_allows (s : System Cluster) (ns name : string) : bool :=
  connection_allowed (network_policies (policies (sys_world s)))
    (mkPodSource (pod_in s (mkKey ns name)) {[NamespaceMetadataNameLabel := ns]})
    (pod_in s (mkKey "shop" "db-0")) "TCP" 5432.

Lemma left_run : sys_run shop_options in_order left_system.
Proof.
  apply drain_run. eapply sys_more; [apply drain_run, sys_starts|apply front_leaves_step].
  - apply admitted_check; kv_decide.
  - apply (run_accounted shop_options in_order). apply drain_run, sys_starts. apply admitted_check; kv_decide.
Qed.

