(* ===== verification/DeepCopy.v ===== *)
(** * Deep copies (api/v1alpha1/zz_generated.deepcopy.go)

    Elsewhere an API object is an immutable value. In Go it is memory: slices and pointers
    are addresses, and the reconcilers change a status in place after taking a snapshot of
    it with [DeepCopy]. Here memory is explicit. A copy has the contents of the original
    and lives in memory that did not exist before, so nothing done to the one is seen
    through the other. *)

From S2P Require Import Prelude Types.

(** ** Data *)

(** A slice of an array of [A], and a pointer to an [A]; nil is [None] of these. *)
Record slice (A : Type) := mkSlice { s_array : nat; s_off : nat; s_len : nat }.
Arguments mkSlice {A} _ _ _.
Arguments s_array {A} _.
Arguments s_off {A} _.
Arguments s_len {A} _.
Record ptr (A : Type) := mkPtr { p_loc : nat }.
Arguments mkPtr {A} _.
Arguments p_loc {A} _.

(** Structs without addresses in them, beside those of [Types]. *)
Record TypeMeta := mkTypeMeta { tm_kind : string; tm_apiVersion : string }.

(** The structs as they lie in memory. *)
Record MembersMem := mkMembersMem { mm_namespace : string; mm_pods : option (slice string) }.
Record SelectorMem (LabelSelector : Type) := mkSelectorMem {
  sm_all : bool; sm_names : option (slice string); sm_selector : option (ptr LabelSelector) }.
Arguments mkSelectorMem {_} _ _ _.
Arguments sm_all {_} _.
Arguments sm_names {_} _.
Arguments sm_selector {_} _.
Record SpecMem (LabelSelector : Type) := mkSpecMem {
  spm_description : string; spm_allowedNamespaces : option (ptr (SelectorMem LabelSelector)) }.
Arguments mkSpecMem {_} _ _.
Arguments spm_description {_} _.
Arguments spm_allowedNamespaces {_} _.
Record StatusMem := mkStatusMem {
  stm_conditions : option (slice Condition);
  stm_members : option (slice MembersMem);
  stm_generatedPolicies : option (slice PolicyRef);
  stm_observedGeneration : Z }.
Record BaselineSpecMem := mkBaselineSpecMem { bsm_memberships : option (slice BaselineMembership) }.
Record BaselineStatusMem := mkBaselineStatusMem {
  btm_conditions : option (slice Condition); btm_observedGeneration : Z }.
Record BindingSpecMem (LabelSelector : Type) := mkBindingSpecMem {
  bdm_virtualNetworkRef : VirtualNetworkRef; bdm_direction : string; bdm_podSelector : LabelSelector }.
Arguments mkBindingSpecMem {_} _ _ _.
Arguments bdm_virtualNetworkRef {_} _.
Arguments bdm_direction {_} _.
Arguments bdm_podSelector {_} _.
Record BindingStatusMem := mkBindingStatusMem {
  bim_conditions : option (slice Condition);
  bim_attachedPods : option (slice string);
  bim_observedGeneration : Z }.

(** An object, and a list of objects. *)
Record ObjectMem (Meta Spec Status : Type) := mkObjectMem {
  om_typeMeta : TypeMeta; om_meta : Meta; om_spec : Spec; om_status : Status }.
Arguments mkObjectMem {_ _ _} _ _ _ _.
Arguments om_typeMeta {_ _ _} _.
Arguments om_meta {_ _ _} _.
Arguments om_spec {_ _ _} _.
Arguments om_status {_ _ _} _.
Record ListMem (Meta Item : Type) := mkListMem {
  lm_typeMeta : TypeMeta; lm_meta : Meta; lm_items : option (slice Item) }.
Arguments mkListMem {_ _} _ _ _.
Arguments lm_typeMeta {_ _} _.
Arguments lm_meta {_ _} _.
Arguments lm_items {_ _} _.

(** The structs of k8s.io/apimachinery that bring copies of their own; [f_data] is what
    the memory they point to holds. *)
Class ForeignTypes := {
  f_objectMeta : Type; f_listMeta : Type; f_labelSelector : Type; f_data : Type;
  f_zeroMeta : f_objectMeta; f_zeroSelector : f_labelSelector }.

Section data.
Context `{ForeignTypes}.

Definition VnetMem : Type := ObjectMem f_objectMeta (SpecMem f_labelSelector) StatusMem.
Definition BaselineMem : Type := ObjectMem f_objectMeta BaselineSpecMem BaselineStatusMem.
Definition BindingMem : Type := ObjectMem f_objectMeta (BindingSpecMem f_labelSelector) BindingStatusMem.

(** What an address holds: an array of one element type; a variable is an array of one. *)
Inductive cell :=
  | CStrings (l : list string)
  | CConditions (l : list Condition)
  | CMembers (l : list MembersMem)
  | CPolicyRefs (l : list PolicyRef)
  | CMemberships (l : list BaselineMembership)
  | CSelectors (l : list (SelectorMem f_labelSelector))
  | CLabelSelectors (l : list f_labelSelector)
  | CVnets (l : list VnetMem)
  | CBaselines (l : list BaselineMem)
  | CBindings (l : list BindingMem)
  | CForeign (x : f_data).

(** Memory. *)
#[local] Abbreviation heap := (gmap nat cell) (only parsing).

(** A computation on memory; it panics ([None]) on a bad address and out of range. *)
Definition Mem (A : Type) : Type := heap → option (A * heap).

#[export] Instance Mem_ret : MRet Mem := λ A a h, Some (a, h).
#[export] Instance Mem_bind : MBind Mem := λ A B k m h,
  match m h with Some (a, h') => k a h' | None => None end.

(** The types arrays hold. *)
Class Stored (A : Type) := {
  to_cell : list A → cell;
  of_cell : cell → option (list A);
  of_to_cell : ∀ l, of_cell (to_cell l) = Some l;
  zero : A }.

(** The contents of a value: what is seen by following its addresses. *)
Class Denote (A : Type) := {
  view : Type;
  denote : heap → A → option view;
  denote_mono : ∀ h h' a v, h ⊆ h' → denote h a = Some v → denote h' a = Some v }.
End data.
Abbreviation heap := (gmap nat cell).
#[global] Arguments view {_} _ {_}.

#[global] Hint Mode Stored - ! : typeclass_instances.
#[global] Hint Mode Denote - ! : typeclass_instances.

Section operations.
Context `{ForeignTypes} {A : Type} `{!Stored A}.

Definition alloc (xs : list A) : Mem nat :=
  λ h, let l := fresh (dom h) in Some (l, <[l := to_cell xs]> h).
Definition load (l : nat) : Mem (list A) := λ h,
  match h !! l with
  | Some c => match of_cell c with Some xs => Some (xs, h) | None => None end
  | None => None
  end.
Definition store (l : nat) (xs : list A) : Mem unit := λ h, Some (tt, <[l := to_cell xs]> h).
Definition panic {B} : Mem B := λ _, None.

(** [make([]A, n)], [s[i]] and [s[i] = x]. *)
Definition make (n : nat) : Mem (slice A) :=
  l ← alloc (replicate n zero); mret (mkSlice l 0 n).
Definition index (s : slice A) (i : nat) : Mem A :=
  xs ← load (s_array s);
  match xs !! (s_off s + i) with
  | Some x => if (i <? s_len s)%nat then mret x else panic
  | None => panic
  end.
Definition set_index (s : slice A) (i : nat) (x : A) : Mem unit :=
  xs ← load (s_array s);
  if (i <? s_len s)%nat && (s_off s + i <? length xs)%nat
  then store (s_array s) (<[s_off s + i := x]> xs) else panic.

(** [for i := range n]. *)
Fixpoint range_from (i n : nat) (body : nat → Mem unit) : Mem unit :=
  match n with
  | 0 => mret tt
  | S n => body i ≫= λ _, range_from (S i) n body
  end.

(** The block for a slice field: make the array, copy the elements one by one. The builtin
    [copy] of elements without addresses is this with [f] the assignment. *)
Definition copy_slice (f : A → Mem A) (in_ : option (slice A)) : Mem (option (slice A)) :=
  match in_ with
  | None => mret None
  | Some s =>
      out ← make (s_len s);
      range_from 0 (s_len s) (λ i, x ← index s i; y ← f x; set_index out i y) ≫= λ _,
      mret (Some out)
  end.

(** The one for a pointer field. *)
Definition copy_pointer (f : A → Mem A) (in_ : option (ptr A)) : Mem (option (ptr A)) :=
  match in_ with
  | None => mret None
  | Some p =>
      xs ← load (p_loc p);
      match xs with
      | [x] =>
          out ← alloc [zero]; y ← f x;
          store out [y] ≫= λ _, mret (Some (mkPtr out))
      | _ => panic
      end
  end.
End operations.

(** ** The types arrays hold, with their zero values *)
Section stored.
Context `{ForeignTypes}.

Definition zero_object {Spec Status} (spec : Spec) (status : Status) : ObjectMem f_objectMeta Spec Status :=
  mkObjectMem (mkTypeMeta "" "") f_zeroMeta spec status.

Ltac stored f g z := refine {| to_cell := f; of_cell := g; of_to_cell := λ l, eq_refl; zero := z |}.
#[export] Instance stored_string : Stored string.
Proof. stored CStrings (λ c, match c with CStrings l => Some l | _ => None end) "". Defined.
#[export] Instance stored_condition : Stored Condition.
Proof. stored CConditions (λ c, match c with CConditions l => Some l | _ => None end) (mkCond "" "" "" ""). Defined.
#[export] Instance stored_members : Stored MembersMem.
Proof. stored CMembers (λ c, match c with CMembers l => Some l | _ => None end) (mkMembersMem "" None). Defined.
#[export] Instance stored_policyRef : Stored PolicyRef.
Proof. stored CPolicyRefs (λ c, match c with CPolicyRefs l => Some l | _ => None end) (mkPolicyRef "" ""). Defined.
#[export] Instance stored_membership : Stored BaselineMembership.
Proof.
  stored CMemberships (λ c, match c with CMemberships l => Some l | _ => None end)
    (mkMembership (mkVnetRef "" "") "").
Defined.
#[export] Instance stored_selector : Stored (SelectorMem f_labelSelector).
Proof.
  stored CSelectors (λ c, match c with CSelectors l => Some l | _ => None end)
    (mkSelectorMem false None (None : option (ptr f_labelSelector))).
Defined.
#[export] Instance stored_labelSelector : Stored f_labelSelector.
Proof. stored CLabelSelectors (λ c, match c with CLabelSelectors l => Some l | _ => None end) f_zeroSelector. Defined.
#[export] Instance stored_vnet : Stored VnetMem.
Proof.
  stored CVnets (λ c, match c with CVnets l => Some l | _ => None end)
    (zero_object (mkSpecMem "" None) (mkStatusMem None None None 0) : VnetMem).
Defined.
#[export] Instance stored_baseline : Stored BaselineMem.
Proof.
  stored CBaselines (λ c, match c with CBaselines l => Some l | _ => None end)
    (zero_object (mkBaselineSpecMem None) (mkBaselineStatusMem None 0) : BaselineMem).
Defined.
#[export] Instance stored_binding : Stored BindingMem.
Proof.
  stored CBindings (λ c, match c with CBindings l => Some l | _ => None end)
    (zero_object (mkBindingSpecMem (mkVnetRef "" "") "" f_zeroSelector) (mkBindingStatusMem None None 0)
      : BindingMem).
Defined.
End stored.

(** ** The generated functions *)

(** The copies of the structs of k8s.io/apimachinery. *)
Class ForeignOps `{ForeignTypes} := {
  ObjectMeta_DeepCopyInto : f_objectMeta → Mem f_objectMeta;
  ListMeta_DeepCopyInto : f_listMeta → Mem f_listMeta;
  LabelSelector_DeepCopyInto : f_labelSelector → Mem f_labelSelector;
  Condition_DeepCopyInto : Condition → Mem Condition }.

(** A [runtime.Object]: a pointer with its dynamic type. An interface is nil ([None]) only
    without a dynamic type; one that holds a nil pointer is not. *)
Inductive RuntimeObject `{ForeignTypes} :=
  | OVirtualNetwork (p : option VnetMem)
  | OVirtualNetworkList (p : option (ListMem f_listMeta VnetMem))
  | OVirtualNetworkBinding (p : option BindingMem)
  | OVirtualNetworkBindingList (p : option (ListMem f_listMeta BindingMem))
  | OVirtualNetworkBaseline (p : option BaselineMem)
  | OVirtualNetworkBaselineList (p : option (ListMem f_listMeta BaselineMem))
  | OClusterVirtualNetworkBaseline (p : option BaselineMem)
  | OClusterVirtualNetworkBaselineList (p : option (ListMem f_listMeta BaselineMem)).

(** In a [DeepCopyInto] the argument is [*in] and the result what is written to [*out]; a
    field it does not mention is the one [*out = *in] copied. *)
Section generated.
Context `{ForeignOps}.

Definition assign {A} (in_ : A) : Mem A := mret in_.

Definition BaselineMembership_DeepCopyInto (in_ : BaselineMembership) : Mem BaselineMembership :=
  mret (mkMembership (bm_virtualNetworkRef in_) (bm_direction in_)).
Definition VirtualNetworkRef_DeepCopyInto (in_ : VirtualNetworkRef) : Mem VirtualNetworkRef :=
  mret in_.
Definition PolicyRef_DeepCopyInto (in_ : PolicyRef) : Mem PolicyRef :=
  mret in_.
Definition ClusterVirtualNetworkBaselineSpec_DeepCopyInto (in_ : BaselineSpecMem) : Mem BaselineSpecMem :=
  memberships ← copy_slice assign (bsm_memberships in_);
  mret (mkBaselineSpecMem memberships).
Definition ClusterVirtualNetworkBaselineStatus_DeepCopyInto (in_ : BaselineStatusMem) : Mem BaselineStatusMem :=
  conditions ← copy_slice Condition_DeepCopyInto (btm_conditions in_);
  mret (mkBaselineStatusMem conditions (btm_observedGeneration in_)).
Definition ClusterVirtualNetworkBaseline_DeepCopyInto (in_ : BaselineMem) : Mem BaselineMem :=
  meta ← ObjectMeta_DeepCopyInto (om_meta in_);
  spec ← ClusterVirtualNetworkBaselineSpec_DeepCopyInto (om_spec in_);
  status ← ClusterVirtualNetworkBaselineStatus_DeepCopyInto (om_status in_);
  mret (mkObjectMem (om_typeMeta in_) meta spec status).
Definition ClusterVirtualNetworkBaselineList_DeepCopyInto (in_ : ListMem f_listMeta BaselineMem) : Mem (ListMem f_listMeta BaselineMem) :=
  meta ← ListMeta_DeepCopyInto (lm_meta in_);
  items ← copy_slice ClusterVirtualNetworkBaseline_DeepCopyInto (lm_items in_);
  mret (mkListMem (lm_typeMeta in_) meta items).
Definition NamespaceMembers_DeepCopyInto (in_ : MembersMem) : Mem MembersMem :=
  pods ← copy_slice assign (mm_pods in_);
  mret (mkMembersMem (mm_namespace in_) pods).
Definition NamespaceSelector_DeepCopyInto (in_ : SelectorMem f_labelSelector) : Mem (SelectorMem f_labelSelector) :=
  names ← copy_slice assign (sm_names in_);
  selector ← copy_pointer LabelSelector_DeepCopyInto (sm_selector in_);
  mret (mkSelectorMem (sm_all in_) names selector).
Definition VirtualNetworkSpec_DeepCopyInto (in_ : SpecMem f_labelSelector) : Mem (SpecMem f_labelSelector) :=
  allowed ← copy_pointer NamespaceSelector_DeepCopyInto (spm_allowedNamespaces in_);
  mret (mkSpecMem (spm_description in_) allowed).
Definition VirtualNetworkStatus_DeepCopyInto (in_ : StatusMem) : Mem StatusMem :=
  conditions ← copy_slice Condition_DeepCopyInto (stm_conditions in_);
  members ← copy_slice NamespaceMembers_DeepCopyInto (stm_members in_);
  policies ← copy_slice assign (stm_generatedPolicies in_);
  mret (mkStatusMem conditions members policies (stm_observedGeneration in_)).
Definition VirtualNetwork_DeepCopyInto (in_ : VnetMem) : Mem VnetMem :=
  meta ← ObjectMeta_DeepCopyInto (om_meta in_);
  spec ← VirtualNetworkSpec_DeepCopyInto (om_spec in_);
  status ← VirtualNetworkStatus_DeepCopyInto (om_status in_);
  mret (mkObjectMem (om_typeMeta in_) meta spec status).
Definition VirtualNetworkList_DeepCopyInto (in_ : ListMem f_listMeta VnetMem) : Mem (ListMem f_listMeta VnetMem) :=
  meta ← ListMeta_DeepCopyInto (lm_meta in_);
  items ← copy_slice VirtualNetwork_DeepCopyInto (lm_items in_);
  mret (mkListMem (lm_typeMeta in_) meta items).
Definition VirtualNetworkBaselineSpec_DeepCopyInto (in_ : BaselineSpecMem) : Mem BaselineSpecMem :=
  memberships ← copy_slice assign (bsm_memberships in_);
  mret (mkBaselineSpecMem memberships).
Definition VirtualNetworkBaselineStatus_DeepCopyInto (in_ : BaselineStatusMem) : Mem BaselineStatusMem :=
  conditions ← copy_slice Condition_DeepCopyInto (btm_conditions in_);
  mret (mkBaselineStatusMem conditions (btm_observedGeneration in_)).
Definition VirtualNetworkBaseline_DeepCopyInto (in_ : BaselineMem) : Mem BaselineMem :=
  meta ← ObjectMeta_DeepCopyInto (om_meta in_);
  spec ← VirtualNetworkBaselineSpec_DeepCopyInto (om_spec in_);
  status ← VirtualNetworkBaselineStatus_DeepCopyInto (om_status in_);
  mret (mkObjectMem (om_typeMeta in_) meta spec status).
Definition VirtualNetworkBaselineList_DeepCopyInto (in_ : ListMem f_listMeta BaselineMem) : Mem (ListMem f_listMeta BaselineMem) :=
  meta ← ListMeta_DeepCopyInto (lm_meta in_);
  items ← copy_slice VirtualNetworkBaseline_DeepCopyInto (lm_items in_);
  mret (mkListMem (lm_typeMeta in_) meta items).
Definition VirtualNetworkBindingSpec_DeepCopyInto (in_ : BindingSpecMem f_labelSelector) : Mem (BindingSpecMem f_labelSelector) :=
  selector ← LabelSelector_DeepCopyInto (bdm_podSelector in_);
  mret (mkBindingSpecMem (bdm_virtualNetworkRef in_) (bdm_direction in_) selector).
Definition VirtualNetworkBindingStatus_DeepCopyInto (in_ : BindingStatusMem) : Mem BindingStatusMem :=
  conditions ← copy_slice Condition_DeepCopyInto (bim_conditions in_);
  pods ← copy_slice assign (bim_attachedPods in_);
  mret (mkBindingStatusMem conditions pods (bim_observedGeneration in_)).
Definition VirtualNetworkBinding_DeepCopyInto (in_ : BindingMem) : Mem BindingMem :=
  meta ← ObjectMeta_DeepCopyInto (om_meta in_);
  spec ← VirtualNetworkBindingSpec_DeepCopyInto (om_spec in_);
  status ← VirtualNetworkBindingStatus_DeepCopyInto (om_status in_);
  mret (mkObjectMem (om_typeMeta in_) meta spec status).
Definition VirtualNetworkBindingList_DeepCopyInto (in_ : ListMem f_listMeta BindingMem) : Mem (ListMem f_listMeta BindingMem) :=
  meta ← ListMeta_DeepCopyInto (lm_meta in_);
  items ← copy_slice VirtualNetworkBinding_DeepCopyInto (lm_items in_);
  mret (mkListMem (lm_typeMeta in_) meta items).

(** The body of every [DeepCopy]: the argument is the struct [in] points to, the result
    the new one. *)
Definition DeepCopy {A} (into : A → Mem A) (in_ : option A) : Mem (option A) :=
  match in_ with
  | None => mret None
  | Some x => out ← into x; mret (Some out)
  end.
Definition BaselineMembership_DeepCopy (in_ : option BaselineMembership) : Mem (option BaselineMembership) :=
  DeepCopy BaselineMembership_DeepCopyInto in_.
Definition VirtualNetworkRef_DeepCopy (in_ : option VirtualNetworkRef) : Mem (option VirtualNetworkRef) :=
  DeepCopy VirtualNetworkRef_DeepCopyInto in_.
Definition PolicyRef_DeepCopy (in_ : option PolicyRef) : Mem (option PolicyRef) :=
  DeepCopy PolicyRef_DeepCopyInto in_.
Definition ClusterVirtualNetworkBaselineSpec_DeepCopy (in_ : option BaselineSpecMem) : Mem (option BaselineSpecMem) :=
  DeepCopy ClusterVirtualNetworkBaselineSpec_DeepCopyInto in_.
Definition ClusterVirtualNetworkBaselineStatus_DeepCopy (in_ : option BaselineStatusMem) : Mem (option BaselineStatusMem) :=
  DeepCopy ClusterVirtualNetworkBaselineStatus_DeepCopyInto in_.
Definition ClusterVirtualNetworkBaseline_DeepCopy (in_ : option BaselineMem) : Mem (option BaselineMem) :=
  DeepCopy ClusterVirtualNetworkBaseline_DeepCopyInto in_.
Definition ClusterVirtualNetworkBaselineList_DeepCopy (in_ : option (ListMem f_listMeta BaselineMem)) : Mem (option (ListMem f_listMeta BaselineMem)) :=
  DeepCopy ClusterVirtualNetworkBaselineList_DeepCopyInto in_.
Definition NamespaceMembers_DeepCopy (in_ : option MembersMem) : Mem (option MembersMem) :=
  DeepCopy NamespaceMembers_DeepCopyInto in_.
Definition NamespaceSelector_DeepCopy (in_ : option (SelectorMem f_labelSelector)) : Mem (option (SelectorMem f_labelSelector)) :=
  DeepCopy NamespaceSelector_DeepCopyInto in_.
Definition VirtualNetworkSpec_DeepCopy (in_ : option (SpecMem f_labelSelector)) : Mem (option (SpecMem f_labelSelector)) :=
  DeepCopy VirtualNetworkSpec_DeepCopyInto in_.
Definition VirtualNetworkStatus_DeepCopy (in_ : option StatusMem) : Mem (option StatusMem) :=
  DeepCopy VirtualNetworkStatus_DeepCopyInto in_.
Definition VirtualNetwork_DeepCopy (in_ : option VnetMem) : Mem (option VnetMem) :=
  DeepCopy VirtualNetwork_DeepCopyInto in_.
Definition VirtualNetworkList_DeepCopy (in_ : option (ListMem f_listMeta VnetMem)) : Mem (option (ListMem f_listMeta VnetMem)) :=
  DeepCopy VirtualNetworkList_DeepCopyInto in_.
Definition VirtualNetworkBaselineSpec_DeepCopy (in_ : option BaselineSpecMem) : Mem (option BaselineSpecMem) :=
  DeepCopy VirtualNetworkBaselineSpec_DeepCopyInto in_.
Definition VirtualNetworkBaselineStatus_DeepCopy (in_ : option BaselineStatusMem) : Mem (option BaselineStatusMem) :=
  DeepCopy VirtualNetworkBaselineStatus_DeepCopyInto in_.
Definition VirtualNetworkBaseline_DeepCopy (in_ : option BaselineMem) : Mem (option BaselineMem) :=
  DeepCopy VirtualNetworkBaseline_DeepCopyInto in_.
Definition VirtualNetworkBaselineList_DeepCopy (in_ : option (ListMem f_listMeta BaselineMem)) : Mem (option (ListMem f_listMeta BaselineMem)) :=
  DeepCopy VirtualNetworkBaselineList_DeepCopyInto in_.
Definition VirtualNetworkBindingSpec_DeepCopy (in_ : option (BindingSpecMem f_labelSelector)) : Mem (option (BindingSpecMem f_labelSelector)) :=
  DeepCopy VirtualNetworkBindingSpec_DeepCopyInto in_.
Definition VirtualNetworkBindingStatus_DeepCopy (in_ : option BindingStatusMem) : Mem (option BindingStatusMem) :=
  DeepCopy VirtualNetworkBindingStatus_DeepCopyInto in_.
Definition VirtualNetworkBinding_DeepCopy (in_ : option BindingMem) : Mem (option BindingMem) :=
  DeepCopy VirtualNetworkBinding_DeepCopyInto in_.
Definition VirtualNetworkBindingList_DeepCopy (in_ : option (ListMem f_listMeta BindingMem)) : Mem (option (ListMem f_listMeta BindingMem)) :=
  DeepCopy VirtualNetworkBindingList_DeepCopyInto in_.

(** The body of every [DeepCopyObject]: a nil pointer gives a nil interface. *)
Definition DeepCopyObject {A} (wrap : option A → RuntimeObject) (copy : option A → Mem (option A))
    (in_ : option A) : Mem (option RuntimeObject) :=
  c ← copy in_;
  match c with
  | Some _ => mret (Some (wrap c))
  | None => mret None
  end.
Definition ClusterVirtualNetworkBaseline_DeepCopyObject (in_ : option BaselineMem) : Mem (option RuntimeObject) :=
  DeepCopyObject OClusterVirtualNetworkBaseline ClusterVirtualNetworkBaseline_DeepCopy in_.
Definition ClusterVirtualNetworkBaselineList_DeepCopyObject (in_ : option (ListMem f_listMeta BaselineMem)) : Mem (option RuntimeObject) :=
  DeepCopyObject OClusterVirtualNetworkBaselineList ClusterVirtualNetworkBaselineList_DeepCopy in_.
Definition VirtualNetwork_DeepCopyObject (in_ : option VnetMem) : Mem (option RuntimeObject) :=
  DeepCopyObject OVirtualNetwork VirtualNetwork_DeepCopy in_.
Definition VirtualNetworkList_DeepCopyObject (in_ : option (ListMem f_listMeta VnetMem)) : Mem (option RuntimeObject) :=
  DeepCopyObject OVirtualNetworkList VirtualNetworkList_DeepCopy in_.
Definition VirtualNetworkBaseline_DeepCopyObject (in_ : option BaselineMem) : Mem (option RuntimeObject) :=
  DeepCopyObject OVirtualNetworkBaseline VirtualNetworkBaseline_DeepCopy in_.
Definition VirtualNetworkBaselineList_DeepCopyObject (in_ : option (ListMem f_listMeta BaselineMem)) : Mem (option RuntimeObject) :=
  DeepCopyObject OVirtualNetworkBaselineList VirtualNetworkBaselineList_DeepCopy in_.
Definition VirtualNetworkBinding_DeepCopyObject (in_ : option BindingMem) : Mem (option RuntimeObject) :=
  DeepCopyObject OVirtualNetworkBinding VirtualNetworkBinding_DeepCopy in_.
Definition VirtualNetworkBindingList_DeepCopyObject (in_ : option (ListMem f_listMeta BindingMem)) : Mem (option RuntimeObject) :=
  DeepCopyObject OVirtualNetworkBindingList VirtualNetworkBindingList_DeepCopy in_.
End generated.
