(* ===== verification/DeepCopySpec.v ===== *)
(** * What the generated deep copies promise

    The contents of a value are what following its addresses shows ([view], [denote]).
    [copies f]: started on a value with contents [v], [f] returns, leaves the memory there
    was as it is, and the result has the contents [v] in the new memory alone. *)

From S2P Require Import Prelude Types DeepCopy.

Create HintDb memory.

(** ** Contents *)
Section contents.
Context `{ForeignTypes}.

Section arrays.
Context {A : Type} `{!Stored A, !Denote A}.

(** The elements at an address. *)
Definition array_at (h : heap) (l : nat) : option (list A) := c ← h !! l; of_cell c.

Definition slice_contents (h : heap) (s : option (slice A)) : option (option (list (view A))) :=
  match s with
  | None => Some None
  | Some s =>
      xs ← array_at h (s_array s);
      let ys := take (s_len s) (drop (s_off s) xs) in
      if decide (length ys = s_len s) then Some <$> mapM (denote h) ys else None
  end.
Definition ptr_contents (h : heap) (p : option (ptr A)) : option (option (view A)) :=
  match p with
  | None => Some None
  | Some p =>
      xs ← array_at h (p_loc p);
      match xs with [x] => Some <$> denote h x | _ => None end
  end.

Lemma array_at_mono h h' l xs : h ⊆ h' → array_at h l = Some xs → array_at h' l = Some xs.
Proof.
  intros Hh (c & Hc & Hx)%bind_Some. unfold array_at. by rewrite (lookup_weaken _ _ _ _ Hc Hh).
Qed.

(** What the elements of an array hold, one by one. *)
Definition denotes (h : heap) : list A → list (view A) → Prop := Forall2 (λ x v, denote h x = Some v).

Lemma denotes_mono h h' xs vs : h ⊆ h' → denotes h xs vs → denotes h' xs vs.
Proof. intros Hh Hvs. eapply Forall2_impl; [exact Hvs|]. intros x y. by apply denote_mono. Qed.

Lemma mapM_denote_mono h h' (xs : list A) vs :
  h ⊆ h' → mapM (denote h) xs = Some vs → mapM (denote h') xs = Some vs.
Proof. intros Hh Hvs%mapM_Some. apply mapM_Some. by eapply denotes_mono. Qed.

Lemma slice_contents_mono h h' s v :
  h ⊆ h' → slice_contents h s = Some v → slice_contents h' s = Some v.
Proof.
  intros Hh. destruct s as [s|]; [|done]. simpl. intros (xs & Hxs & Hv)%bind_Some.
  rewrite (array_at_mono _ _ _ _ Hh Hxs). simpl. case_decide; [|done].
  apply fmap_Some in Hv as (vs & Hvs & ->). by rewrite (mapM_denote_mono _ _ _ _ Hh Hvs).
Qed.

Lemma ptr_contents_mono h h' p v :
  h ⊆ h' → ptr_contents h p = Some v → ptr_contents h' p = Some v.
Proof.
  intros Hh. destruct p as [p|]; [|done]. simpl. intros (xs & Hxs & Hv)%bind_Some.
  rewrite (array_at_mono _ _ _ _ Hh Hxs). simpl. destruct xs as [|x []]; [done| |done].
  apply fmap_Some in Hv as (w & Hw & ->). by rewrite (denote_mono _ _ _ _ Hh Hw).
Qed.

#[export] Instance denote_slice : Denote (option (slice A)) :=
  {| denote := slice_contents; denote_mono := slice_contents_mono |}.
#[export] Instance denote_ptr : Denote (option (ptr A)) :=
  {| denote := ptr_contents; denote_mono := ptr_contents_mono |}.
End arrays.

(** A value without addresses is its own contents. *)
Definition plain {A} : Denote A.
Proof. refine {| view := A; denote := λ _ a, Some a |}. done. Defined.
#[export] Instance denote_string : Denote string := plain.
#[export] Instance denote_condition : Denote Condition := plain.
#[export] Instance denote_policyRef : Denote PolicyRef := plain.
#[export] Instance denote_ref : Denote VirtualNetworkRef := plain.
#[export] Instance denote_membership : Denote BaselineMembership := plain.

(** The contents of a struct are those of its fields. *)
Ltac weaken :=
  match goal with
  | Hs : ?h ⊆ ?h', H : denote ?h ?a = Some _ |- context [denote ?h' ?a] =>
      rewrite (denote_mono _ _ _ _ Hs H)
  end.
Ltac struct d :=
  refine {| denote := d |}; intros h h' a v Hh; cbv beta; intros Hv;
  repeat match goal with
  | H : (_ ≫= _) = Some _ |- _ => apply bind_Some in H as (? & ? & ?)
  end; repeat (weaken; cbn [option_bind mbind]); done.

#[export] Instance denote_members : Denote MembersMem.
Proof.
  struct (λ h (a : MembersMem), pods ← denote h (mm_pods a); Some (mm_namespace a, pods)).
Defined.
#[export] Instance denote_status : Denote StatusMem.
Proof.
  struct (λ h (a : StatusMem),
    conditions ← denote h (stm_conditions a);
    members ← denote h (stm_members a);
    policies ← denote h (stm_generatedPolicies a);
    Some (conditions, members, policies, stm_observedGeneration a)).
Defined.
#[export] Instance denote_baselineSpec : Denote BaselineSpecMem.
Proof. struct (λ h (a : BaselineSpecMem), denote h (bsm_memberships a)). Defined.
#[export] Instance denote_baselineStatus : Denote BaselineStatusMem.
Proof.
  struct (λ h (a : BaselineStatusMem),
    conditions ← denote h (btm_conditions a); Some (conditions, btm_observedGeneration a)).
Defined.
#[export] Instance denote_bindingStatus : Denote BindingStatusMem.
Proof.
  struct (λ h (a : BindingStatusMem),
    conditions ← denote h (bim_conditions a);
    pods ← denote h (bim_attachedPods a);
    Some (conditions, pods, bim_observedGeneration a)).
Defined.

Section labelSelector.
Context `{!Denote f_labelSelector}.

#[export] Instance denote_selector : Denote (SelectorMem f_labelSelector).
Proof.
  struct (λ h (a : SelectorMem f_labelSelector),
    names ← denote h (sm_names a);
    selector ← denote h (sm_selector a);
    Some (sm_all a, names, selector)).
Defined.
#[export] Instance denote_spec : Denote (SpecMem f_labelSelector).
Proof.
  struct (λ h (a : SpecMem f_labelSelector),
    allowed ← denote h (spm_allowedNamespaces a); Some (spm_description a, allowed)).
Defined.
#[export] Instance denote_bindingSpec : Denote (BindingSpecMem f_labelSelector).
Proof.
  struct (λ h (a : BindingSpecMem f_labelSelector),
    selector ← denote h (bdm_podSelector a);
    Some (bdm_virtualNetworkRef a, bdm_direction a, selector)).
Defined.
End labelSelector.

#[export] Instance denote_object {Spec Status}
    `{!Denote f_objectMeta, !Denote Spec, !Denote Status} : Denote (ObjectMem f_objectMeta Spec Status).
Proof.
  struct (λ h (a : ObjectMem f_objectMeta Spec Status),
    meta ← denote h (om_meta a);
    spec ← denote h (om_spec a);
    status ← denote h (om_status a);
    Some (om_typeMeta a, meta, spec, status)).
Defined.
#[export] Instance denote_list {Item}
    `{!Denote f_listMeta, !Stored Item, !Denote Item} : Denote (ListMem f_listMeta Item).
Proof.
  struct (λ h (a : ListMem f_listMeta Item),
    meta ← denote h (lm_meta a);
    items ← denote h (lm_items a);
    Some (lm_typeMeta a, meta, items)).
Defined.
End contents.

(** ** Copying *)
Section copying.
Context `{ForeignTypes}.

Definition copies {A} `{!Denote A} (f : A → Mem A) : Prop :=
  ∀ h a v, denote h a = Some v →
    ∃ b h', f a h = Some (b, h') ∧ h ⊆ h' ∧ denote (h' ∖ h) b = Some v.

(** The new memory grows with the end of the computation and shrinks with its start. *)
Lemma new_memory (h h0 h1 h2 : heap) : h0 ⊆ h → h1 ⊆ h2 → h1 ∖ h ⊆ h2 ∖ h0.
Proof.
  intros H0 H1. apply map_subseteq_spec. intros l c (Hc & Hn)%lookup_difference_Some.
  apply lookup_difference_Some. split; [by eapply lookup_weaken|].
  destruct (h0 !! l) eqn:E; [|done]. by rewrite (lookup_weaken _ _ _ _ E H0) in Hn.
Qed.

(** A copy made in the middle of a computation from [h0]. *)
Lemma copies_at {A} `{!Denote A} (f : A → Mem A) h0 h a v :
  copies f → h0 ⊆ h → denote h0 a = Some v →
  ∃ b h', f a h = Some (b, h') ∧ h ⊆ h' ∧ ∀ h2, h' ⊆ h2 → denote (h2 ∖ h0) b = Some v.
Proof.
  intros Hf Hh Ha. destruct (Hf h a v) as (b & h' & E & Hh' & Hb); [by eapply denote_mono|].
  exists b, h'. split_and!; [done..|]. intros h2 H2.
  eapply denote_mono; [|exact Hb]. by apply new_memory.
Qed.

Lemma copies_plain {A} : copies (Denote0 := plain (A := A)) assign.
Proof. intros h a v Hv. exists a, h. by split_and!. Qed.

Lemma bind_run {A B} (m : Mem A) (k : A → Mem B) h a h' :
  m h = Some (a, h') → (m ≫= k) h = k a h'.
Proof. unfold mbind, Mem_bind. by intros ->. Qed.

Lemma alloc_spec {A} `{!Stored A} (xs : list A) (h : heap) :
  ∃ l, h !! l = None ∧ alloc xs h = Some (l, <[l := to_cell xs]> h).
Proof.
  exists (fresh (dom h)). split; [|done]. apply not_elem_of_dom, is_fresh.
Qed.

Section slices.
Context {A : Type} `{!Stored A, !Denote A} (f : A → Mem A).

Lemma slice_at (h : heap) (s : slice A) vs :
  denote h (Some s) = Some (Some vs) →
  length vs = s_len s ∧
  ∀ i v, vs !! i = Some v → ∃ x, denote h x = Some v ∧ ∀ h', h ⊆ h' → index s i h' = Some (x, h').
Proof.
  simpl. intros (xs & Hxs & Hv)%bind_Some. case_decide as Hlen; [|done]. simplify_option_eq.
  rename select (mapM _ _ = _) into Hvs. apply mapM_Some in Hvs.
  pose proof (Forall2_length _ _ _ Hvs) as Hn. split; [lia|].
  intros i v Hi. destruct (Forall2_lookup_r _ _ _ _ _ Hvs Hi) as (x & Hx & Hd).
  exists x. split; [done|]. intros h' Hh. pose proof (lookup_lt_Some _ _ _ Hx).
  apply lookup_take_Some in Hx as [Hx Hlt]. rewrite lookup_drop in Hx.
  apply (array_at_mono _ _ _ _ Hh) in Hxs as (c & Hc & Ho)%bind_Some.
  unfold index, load, mbind, Mem_bind. rewrite Hc, Ho, Hx.
  by rewrite (proj2 (Nat.ltb_lt _ _) Hlt).
Qed.

Lemma set_index_spec (h : heap) l n ys i y :
  h !! l = Some (to_cell (A := A) ys) → length ys = n → (i < n)%nat →
  set_index (mkSlice l 0 n) i y h = Some (tt, <[l := to_cell (<[i := y]> ys)]> h).
Proof.
  intros Hl Hn Hi. unfold set_index, load, mbind, Mem_bind. simpl. rewrite Hl, of_to_cell, Hn.
  by rewrite (proj2 (Nat.ltb_lt _ _) Hi).
Qed.

(** The loop of [copy_slice]: the first [i] elements of the new array at [l] are copies. *)
Record filled (h0 : heap) (l n : nat) (vs : list (view A)) (i : nat) (h : heap) : Prop := {
  filled_old : h0 ⊆ h;
  filled_new : h0 !! l = None;
  filled_array : ∃ ys, h !! l = Some (to_cell (ys ++ replicate (n - i) zero)) ∧
    denotes (delete l (h ∖ h0)) ys (take i vs) }.

Lemma filled_step h0 (s : slice A) l vs i h :
  copies f → denote h0 (Some s) = Some (Some vs) → (i < s_len s)%nat →
  filled h0 l (s_len s) vs i h →
  ∃ h', (x ← index s i; y ← f x; set_index (mkSlice l 0 (s_len s)) i y) h = Some (tt, h') ∧
    filled h0 l (s_len s) vs (S i) h'.
Proof.
  intros Hf Hs Hi [Hold Hnew (ys & Hl & Hys)].
  destruct (slice_at _ _ _ Hs) as [Hn Hat].
  destruct (lookup_lt_is_Some_2 vs i ltac:(lia)) as [v Hv].
  destruct (Hat i v Hv) as (x & Hx & Hidx).
  destruct (Hf h x v) as (y & h1 & E & H1 & Hy); [by eapply denote_mono|].
  pose proof (Forall2_length _ _ _ Hys) as Hlen. rewrite length_take in Hlen.
  assert (length ys = i) as Hi' by lia.
  eexists. split.
  { unfold mbind, Mem_bind. rewrite (Hidx _ Hold), E.
    apply set_index_spec; [by eapply lookup_weaken| |done]. 
    rewrite length_app, length_replicate. lia. }
  assert (delete l (<[l := to_cell (<[i := y]> (ys ++ replicate (s_len s - i) zero))]> h1 ∖ h0)
    = delete l (h1 ∖ h0)) as Hdel.
  { apply map_eq. intros k. destruct (decide (k = l)) as [->|].
    - by rewrite !lookup_delete_eq.
    - rewrite !lookup_delete_ne, !lookup_difference, lookup_insert_ne by done. done. }
  split; [|done|].
  - apply insert_subseteq_r; [done|]. by etrans.
  - exists (ys ++ [y]). split.
    + rewrite lookup_insert_eq. f_equal. f_equal.
      rewrite <- Hi' at 1. rewrite insert_app_r_alt by lia. rewrite Nat.sub_diag.
      replace (s_len s - i)%nat with (S (s_len s - S i)) by lia. simpl.
      by rewrite <- app_assoc.
    + rewrite Hdel, (take_S_r _ _ _ Hv). apply Forall2_app; [|repeat constructor].
      * eapply denotes_mono; [|exact Hys]. by apply delete_mono, new_memory.
      * eapply denote_mono; [|exact Hy]. rewrite <- (delete_id (h1 ∖ h) l).
        -- by apply delete_mono, new_memory.
        -- apply lookup_difference_None. right. eauto.
Qed.

Lemma filled_range h0 (s : slice A) l vs k i h :
  copies f → denote h0 (Some s) = Some (Some vs) → (i + k = s_len s)%nat →
  filled h0 l (s_len s) vs i h →
  ∃ h', range_from i k (λ i, x ← index s i; y ← f x; set_index (mkSlice l 0 (s_len s)) i y) h
          = Some (tt, h') ∧ filled h0 l (s_len s) vs (s_len s) h'.
Proof.
  intros Hf Hs. revert i h. induction k as [|k IH]; intros i h Hik Hi.
  { exists h. split; [done|]. by replace (s_len s) with i at 2 by lia. }
  destruct (filled_step _ _ _ _ i h Hf Hs ltac:(lia) Hi) as (h1 & E & H1).
  destruct (IH (S i) h1 ltac:(lia) H1) as (h2 & E2 & H2).
  exists h2. split; [|done]. simpl. by rewrite (bind_run _ _ _ _ _ E).
Qed.

Lemma copies_slice : copies f → copies (copy_slice f).
Proof.
  intros Hf h [s|] v Hs; [|exists None, h; by simplify_eq/=].
  destruct v as [vs|]; [|by simpl in Hs; repeat case_match; simplify_option_eq].
  destruct (alloc_spec (replicate (s_len s) (zero : A)) h) as (l & Hl & Ea).
  destruct (filled_range h s l vs (s_len s) 0 (<[l := to_cell (replicate (s_len s) (zero : A))]> h)
    Hf Hs eq_refl) as (h' & E & [Hold _ (ys & Hc & Hys)]).
  { split; [by apply insert_subseteq|done|]. exists []. rewrite lookup_insert_eq, Nat.sub_0_r.
    by split; [|constructor]. }
  exists (Some (mkSlice l 0 (s_len s))), h'. split_and!; [|done|].
  { unfold copy_slice. erewrite bind_run; [by rewrite (bind_run _ _ _ _ _ E)|].
    unfold make. by rewrite (bind_run _ _ _ _ _ Ea). }
  destruct (slice_at _ _ _ Hs) as [Hn _].
  rewrite take_ge in Hys by lia. pose proof (Forall2_length _ _ _ Hys).
  rewrite Nat.sub_diag, app_nil_r in Hc.
  simpl. unfold array_at. erewrite (proj2 (lookup_difference_Some _ _ _ _)) by done.
  simpl. rewrite of_to_cell. simpl. rewrite drop_0, take_ge, decide_True by lia.
  erewrite (proj2 (mapM_Some _ _ _)); [done|].
  eapply denotes_mono; [|exact Hys]. apply delete_subseteq.
Qed.

Lemma copies_pointer : copies f → copies (copy_pointer f).
Proof.
  intros Hf h [p|] v Hp; [|exists None, h; by simplify_eq/=].
  simpl in Hp. apply bind_Some in Hp as (xs & (c & Hc & Ho)%bind_Some & Hv).
  destruct xs as [|x []]; [done| |done]. apply fmap_Some in Hv as (w & Hw & ->).
  destruct (alloc_spec [zero : A] h) as (l & Hl & Ea).
  assert (h ⊆ <[l := to_cell [zero : A]]> h) as H1 by by apply insert_subseteq.
  destruct (Hf (<[l := to_cell [zero : A]]> h) x w) as (y & h' & E & Hh' & Hy);
    [by eapply denote_mono|].
  exists (Some (mkPtr l)), (<[l := to_cell [y]]> h'). split_and!.
  - unfold copy_pointer, load, mbind, Mem_bind. rewrite Hc, Ho, Ea, E. done.
  - apply insert_subseteq_r; [done|]. by etrans.
  - simpl. unfold array_at. rewrite lookup_difference, Hl, lookup_insert_eq. simpl.
    rewrite of_to_cell. simpl. erewrite denote_mono; [done| |exact Hy].
    apply map_subseteq_spec. intros k d (Hd & [Hn Hk]%lookup_insert_None)%lookup_difference_Some.
    apply lookup_difference_Some. by rewrite lookup_insert_ne.
Qed.
End slices.

(** A computation returns, with [Q] of its result and of the memory it leaves. *)
Definition wp {A} (m : Mem A) (h : heap) (Q : A → heap → Prop) : Prop :=
  ∃ a h', m h = Some (a, h') ∧ Q a h'.

Lemma wp_ret {A} (a : A) h (Q : A → heap → Prop) : Q a h → wp (mret a) h Q.
Proof. by exists a, h. Qed.

Lemma wp_copy {A B} `{!Denote A} (f : A → Mem A) (k : A → Mem B) h0 h a v Q :
  copies f → denote h0 a = Some v → h0 ⊆ h →
  (∀ b h', h ⊆ h' → (∀ h2, h' ⊆ h2 → denote (h2 ∖ h0) b = Some v) → wp (k b) h' Q) →
  wp (f a ≫= k) h Q.
Proof.
  intros Hf Ha Hh HQ. destruct (copies_at f h0 h a v Hf Hh Ha) as (b & h' & E & Hh' & Hb).
  destruct (HQ b h' Hh' Hb) as (c & h'' & E' & Hc).
  exists c, h''. by rewrite (bind_run _ _ _ _ _ E).
Qed.

Lemma wp_copies {A} `{!Denote A} (f : A → Mem A) :
  (∀ h a v, denote h a = Some v → wp (f a) h (λ b h', h ⊆ h' ∧ denote (h' ∖ h) b = Some v)) →
  copies f.
Proof. done. Qed.

(** [copy] of nil is nil. [copy] of a value with contents [v] returns a value with the
    same contents; it writes to no memory there was, and whatever becomes of that memory
    afterwards, the copy's contents stay. *)
Definition snapshot {A} `{!Denote A} (copy : option A → Mem (option A)) : Prop :=
  (∀ h, copy None h = Some (None, h)) ∧
  ∀ h a v, denote h a = Some v →
    ∃ b h', copy (Some a) h = Some (Some b, h') ∧ h ⊆ h' ∧
      ∀ h2, h' ∖ h ⊆ h2 → denote h2 b = Some v.

(** The same for [DeepCopyObject], whose result carries the type [wrap]; the interface it
    returns for nil is nil. *)
Definition snapshot_object {A} `{!Denote A} (wrap : option A → RuntimeObject)
    (copy : option A → Mem (option RuntimeObject)) : Prop :=
  (∀ h, copy None h = Some (None, h)) ∧
  ∀ h a v, denote h a = Some v →
    ∃ b h', copy (Some a) h = Some (Some (wrap (Some b)), h') ∧ h ⊆ h' ∧
      ∀ h2, h' ∖ h ⊆ h2 → denote h2 b = Some v.

Lemma DeepCopy_snapshot {A} `{!Denote A} (f : A → Mem A) : copies f → snapshot (DeepCopy f).
Proof.
  intros Hf. split; [done|]. intros h a v Ha. destruct (Hf h a v Ha) as (b & h' & E & Hh & Hb).
  exists b, h'. split_and!; [|done|].
  - unfold DeepCopy. by rewrite (bind_run _ _ _ _ _ E).
  - intros h2 H2. by eapply denote_mono.
Qed.

Lemma DeepCopyObject_snapshot {A} `{!Denote A} wrap (copy : option A → Mem (option A)) :
  snapshot copy → snapshot_object wrap (DeepCopyObject wrap copy).
Proof.
  intros [Hn Hc]. split.
  - intros h. unfold DeepCopyObject. by rewrite (bind_run _ _ _ _ _ (Hn h)).
  - intros h a v Ha. destruct (Hc h a v Ha) as (b & h' & E & Hh & Hb).
    exists b, h'. split_and!; [|done..]. unfold DeepCopyObject. by rewrite (bind_run _ _ _ _ _ E).
Qed.
End copying.

(** ** The generated functions *)
Section generated.
Context `{ForeignOps}.
Context `{!Denote f_objectMeta, !Denote f_listMeta, !Denote f_labelSelector}.

(** The copies of k8s.io/apimachinery are deep. *)
Context (ObjectMeta_deep : copies ObjectMeta_DeepCopyInto)
        (ListMeta_deep : copies ListMeta_DeepCopyInto)
        (LabelSelector_deep : copies LabelSelector_DeepCopyInto)
        (Condition_deep : copies Condition_DeepCopyInto).

#[local] Hint Extern 0 (_ ⊆ _) => reflexivity : memory.
#[local] Hint Extern 1 (_ ⊆ _) => etrans; [eassumption|] : memory.
#[local] Hint Resolve copies_slice copies_pointer copies_plain : memory.
#[local] Hint Resolve ObjectMeta_deep ListMeta_deep LabelSelector_deep Condition_deep : memory.

(** The copy of a struct goes field by field. *)
Tactic Notation "copy_fields" reference(f) reference(d) :=
  apply wp_copies; intros h a v Hv; unfold f;
  cbn [denote d] in *; cbn -[denote] in *;
  repeat match goal with
  | H : (_ ≫= _) = Some _ |- _ => apply bind_Some in H as (? & ? & ?)
  end; simplify_eq;
  repeat (eapply wp_copy; [by eauto with memory|eassumption|by eauto with memory|intros ?b ?h' ? ?]);
  apply wp_ret; split; [by eauto with memory|];
  cbn [denote d]; cbn -[denote];
  repeat match goal with
  | H : ∀ h2, ?h' ⊆ h2 → denote (h2 ∖ _) ?b = Some _ |- context [denote (?h3 ∖ _) ?b] =>
      rewrite (H h3) by eauto with memory; cbn -[denote]
  end; done.

Lemma copies_BaselineMembership : copies BaselineMembership_DeepCopyInto.
Proof. intros h a v [= <-]. exists a, h. by destruct a. Qed.
#[local] Hint Resolve copies_BaselineMembership : memory.
Lemma copies_VirtualNetworkRef : copies VirtualNetworkRef_DeepCopyInto.
Proof. copy_fields VirtualNetworkRef_DeepCopyInto denote_ref. Qed.
#[local] Hint Resolve copies_VirtualNetworkRef : memory.
Lemma copies_PolicyRef : copies PolicyRef_DeepCopyInto.
Proof. copy_fields PolicyRef_DeepCopyInto denote_policyRef. Qed.
#[local] Hint Resolve copies_PolicyRef : memory.
Lemma copies_ClusterVirtualNetworkBaselineSpec : copies ClusterVirtualNetworkBaselineSpec_DeepCopyInto.
Proof. copy_fields ClusterVirtualNetworkBaselineSpec_DeepCopyInto denote_baselineSpec. Qed.
#[local] Hint Resolve copies_ClusterVirtualNetworkBaselineSpec : memory.
Lemma copies_ClusterVirtualNetworkBaselineStatus : copies ClusterVirtualNetworkBaselineStatus_DeepCopyInto.
Proof. copy_fields ClusterVirtualNetworkBaselineStatus_DeepCopyInto denote_baselineStatus. Qed.
#[local] Hint Resolve copies_ClusterVirtualNetworkBaselineStatus : memory.
Lemma copies_ClusterVirtualNetworkBaseline : copies ClusterVirtualNetworkBaseline_DeepCopyInto.
Proof. copy_fields ClusterVirtualNetworkBaseline_DeepCopyInto denote_object. Qed.
#[local] Hint Resolve copies_ClusterVirtualNetworkBaseline : memory.
Lemma copies_ClusterVirtualNetworkBaselineList : copies ClusterVirtualNetworkBaselineList_DeepCopyInto.
Proof. copy_fields ClusterVirtualNetworkBaselineList_DeepCopyInto denote_list. Qed.
#[local] Hint Resolve copies_ClusterVirtualNetworkBaselineList : memory.
Lemma copies_NamespaceMembers : copies NamespaceMembers_DeepCopyInto.
Proof. copy_fields NamespaceMembers_DeepCopyInto denote_members. Qed.
#[local] Hint Resolve copies_NamespaceMembers : memory.
Lemma copies_NamespaceSelector : copies NamespaceSelector_DeepCopyInto.
Proof. copy_fields NamespaceSelector_DeepCopyInto denote_selector. Qed.
#[local] Hint Resolve copies_NamespaceSelector : memory.
Lemma copies_VirtualNetworkSpec : copies VirtualNetworkSpec_DeepCopyInto.
Proof. copy_fields VirtualNetworkSpec_DeepCopyInto denote_spec. Qed.
#[local] Hint Resolve copies_VirtualNetworkSpec : memory.
Lemma copies_VirtualNetworkStatus : copies VirtualNetworkStatus_DeepCopyInto.
Proof. copy_fields VirtualNetworkStatus_DeepCopyInto denote_status. Qed.
#[local] Hint Resolve copies_VirtualNetworkStatus : memory.
Lemma copies_VirtualNetwork : copies VirtualNetwork_DeepCopyInto.
Proof. copy_fields VirtualNetwork_DeepCopyInto denote_object. Qed.
#[local] Hint Resolve copies_VirtualNetwork : memory.
Lemma copies_VirtualNetworkList : copies VirtualNetworkList_DeepCopyInto.
Proof. copy_fields VirtualNetworkList_DeepCopyInto denote_list. Qed.
#[local] Hint Resolve copies_VirtualNetworkList : memory.
Lemma copies_VirtualNetworkBaselineSpec : copies VirtualNetworkBaselineSpec_DeepCopyInto.
Proof. copy_fields VirtualNetworkBaselineSpec_DeepCopyInto denote_baselineSpec. Qed.
#[local] Hint Resolve copies_VirtualNetworkBaselineSpec : memory.
Lemma copies_VirtualNetworkBaselineStatus : copies VirtualNetworkBaselineStatus_DeepCopyInto.
Proof. copy_fields VirtualNetworkBaselineStatus_DeepCopyInto denote_baselineStatus. Qed.
#[local] Hint Resolve copies_VirtualNetworkBaselineStatus : memory.
Lemma copies_VirtualNetworkBaseline : copies VirtualNetworkBaseline_DeepCopyInto.
Proof. copy_fields VirtualNetworkBaseline_DeepCopyInto denote_object. Qed.
#[local] Hint Resolve copies_VirtualNetworkBaseline : memory.
Lemma copies_VirtualNetworkBaselineList : copies VirtualNetworkBaselineList_DeepCopyInto.
Proof. copy_fields VirtualNetworkBaselineList_DeepCopyInto denote_list. Qed.
#[local] Hint Resolve copies_VirtualNetworkBaselineList : memory.
Lemma copies_VirtualNetworkBindingSpec : copies VirtualNetworkBindingSpec_DeepCopyInto.
Proof. copy_fields VirtualNetworkBindingSpec_DeepCopyInto denote_bindingSpec. Qed.
#[local] Hint Resolve copies_VirtualNetworkBindingSpec : memory.
Lemma copies_VirtualNetworkBindingStatus : copies VirtualNetworkBindingStatus_DeepCopyInto.
Proof. copy_fields VirtualNetworkBindingStatus_DeepCopyInto denote_bindingStatus. Qed.
#[local] Hint Resolve copies_VirtualNetworkBindingStatus : memory.
Lemma copies_VirtualNetworkBinding : copies VirtualNetworkBinding_DeepCopyInto.
Proof. copy_fields VirtualNetworkBinding_DeepCopyInto denote_object. Qed.
#[local] Hint Resolve copies_VirtualNetworkBinding : memory.
Lemma copies_VirtualNetworkBindingList : copies VirtualNetworkBindingList_DeepCopyInto.
Proof. copy_fields VirtualNetworkBindingList_DeepCopyInto denote_list. Qed.
#[local] Hint Resolve copies_VirtualNetworkBindingList : memory.

(** [C17] Every generated [DeepCopy] and [DeepCopyObject] is a deep copy: it never panics, a
    nil pointer gives nil (and a nil interface, not an interface that holds a nil pointer),
    and otherwise the result has the contents of the receiver, at every depth, in memory
    the call allocated; the receiver's memory is not written, and no later change to it is
    seen through the copy. So a status a reconciler has taken a copy of can be rebuilt in
    place and still be compared with what was stored. *)
Theorem deepcopy_snapshots :
  snapshot BaselineMembership_DeepCopy ∧
  snapshot VirtualNetworkRef_DeepCopy ∧
  snapshot PolicyRef_DeepCopy ∧
  snapshot NamespaceMembers_DeepCopy ∧
  snapshot NamespaceSelector_DeepCopy ∧
  snapshot VirtualNetworkSpec_DeepCopy ∧
  snapshot VirtualNetworkStatus_DeepCopy ∧
  snapshot VirtualNetworkBindingSpec_DeepCopy ∧
  snapshot VirtualNetworkBindingStatus_DeepCopy ∧
  snapshot VirtualNetworkBaselineSpec_DeepCopy ∧
  snapshot VirtualNetworkBaselineStatus_DeepCopy ∧
  snapshot ClusterVirtualNetworkBaselineSpec_DeepCopy ∧
  snapshot ClusterVirtualNetworkBaselineStatus_DeepCopy ∧
  snapshot VirtualNetwork_DeepCopy ∧
  snapshot_object OVirtualNetwork VirtualNetwork_DeepCopyObject ∧
  snapshot VirtualNetworkList_DeepCopy ∧
  snapshot_object OVirtualNetworkList VirtualNetworkList_DeepCopyObject ∧
  snapshot VirtualNetworkBinding_DeepCopy ∧
  snapshot_object OVirtualNetworkBinding VirtualNetworkBinding_DeepCopyObject ∧
  snapshot VirtualNetworkBindingList_DeepCopy ∧
  snapshot_object OVirtualNetworkBindingList VirtualNetworkBindingList_DeepCopyObject ∧
  snapshot VirtualNetworkBaseline_DeepCopy ∧
  snapshot_object OVirtualNetworkBaseline VirtualNetworkBaseline_DeepCopyObject ∧
  snapshot VirtualNetworkBaselineList_DeepCopy ∧
  snapshot_object OVirtualNetworkBaselineList VirtualNetworkBaselineList_DeepCopyObject ∧
  snapshot ClusterVirtualNetworkBaseline_DeepCopy ∧
  snapshot_object OClusterVirtualNetworkBaseline ClusterVirtualNetworkBaseline_DeepCopyObject ∧
  snapshot ClusterVirtualNetworkBaselineList_DeepCopy ∧
  snapshot_object OClusterVirtualNetworkBaselineList ClusterVirtualNetworkBaselineList_DeepCopyObject.
Proof.
  split_and!; try apply DeepCopyObject_snapshot; apply DeepCopy_snapshot; auto with memory.
Qed.
End generated.

(** ** An example *)
Module Example.

(** Metadata and selectors that are a list of strings in memory. *)
#[local] Instance strings_types : ForeignTypes :=
  {| f_objectMeta := option (slice string); f_listMeta := string;
     f_labelSelector := option (slice string); f_data := unit;
     f_zeroMeta := None; f_zeroSelector := None |}.
#[local] Instance denote_strings : Denote (option (slice string)) := denote_slice.
#[local] Instance strings_ops : ForeignOps :=
  {| ObjectMeta_DeepCopyInto := copy_slice assign; ListMeta_DeepCopyInto := assign;
     LabelSelector_DeepCopyInto := copy_slice assign; Condition_DeepCopyInto := assign |}.

Lemma strings_deep : copies (copy_slice (assign (A := string))).
Proof. apply copies_slice, copies_plain. Qed.

(** A status with one namespace whose members are the last two elements of an array. *)
Definition status : StatusMem :=
  mkStatusMem None (Some (mkSlice 1 0 1)) None 3.
Definition memory : heap :=
  <[0 := CStrings ["a"; "b"; "c"]]> {[1 := CMembers [mkMembersMem "team" (Some (mkSlice 0 1 2))]]}.
Definition contents : view StatusMem := (None, Some [("team", Some ["b"; "c"])], None, 3%Z).

Lemma memory_contents : denote memory status = Some contents.
Proof. reflexivity. Qed.

(** Overwriting the array of pod names changes the status and not its copy. *)
Lemma deepcopy_snapshots_witness :
  ∃ copy h, VirtualNetworkStatus_DeepCopy (Some status) memory = Some (Some copy, h) ∧
    denote (<[0 := CStrings ["a"; "x"; "y"]]> h) copy = Some contents ∧
    denote (<[0 := CStrings ["a"; "x"; "y"]]> h) status ≠ Some contents.
Proof.
  destruct (@deepcopy_snapshots strings_types strings_ops denote_strings denote_string
    denote_strings strings_deep (copies_plain (A := string)) strings_deep
    (copies_plain (A := Condition))) as (_ & _ & _ & _ & _ & _ & [_ Hs] & _).
  destruct (Hs memory status contents memory_contents) as (copy & h & E & Hh & Hc).
  exists copy, h. split_and!; [done| |].
  - apply Hc. apply map_subseteq_spec. intros l c [Hl Hn]%lookup_difference_Some.
    rewrite lookup_insert_ne; [done|]. by intros <-.
  - intros Hd. assert (h !! 1%nat = Some (CMembers [mkMembersMem "team" (Some (mkSlice 0 1 2))])) as H1.
    { apply (lookup_weaken memory); [reflexivity|exact Hh]. }
    simpl in Hd. unfold array_at in Hd. rewrite lookup_insert_ne, H1 in Hd by done. simpl in Hd.
    unfold array_at in Hd. rewrite lookup_insert_eq in Hd. discriminate Hd.
Defined.
End Example.
